(* ===== verification/_CoqProject ===== *)
-Q . S2P
Prelude.v
Tlm.v
Kernel.v
DeltaCycle.v
Scheduler.v
Report.v
LtMemory.v
SimpleBusLT.v
SimpleBusAT.v
DmiMemory.v
AtTarget.v
TrafficGenerator.v
LtTargets.v
LtPlatform.v
LtSystem.v
LtInvariant.v
LtThreads.v
LtRun.v
RegisterFile.v
RiscvSignals.v
RiscvWriter.v
HmpSignals.v
SignalTops.v
Dmac.v
CortexMSignals.v
Peripheral.v
Streaming.v
SharedMemory.v
Interrupts.v
DirectConnection.v
DirectSystem.v
SimpleTargets.v
Benchmark.v
Firmware.v
DmaSystem.v
InterruptSystem.v
Variants.v
VirtualPlatform.v
OriginalSystem.v
OriginalInvariant.v
OriginalThreads.v
OriginalRun.v
RingSystem.v
RingInvariant.v
RingThreads.v
RingRun.v
DmiTest.v
DmiNative.v
