(* ===== verification/Prelude.v ===== *)
(** * Verification of the Renode - SystemC integration examples

    The repository contains SystemC models that Renode drives over TLM-2.0, and
    the same examples built natively.  This library models their C++ code: the
    modules' state as records, their transport methods and processes as
    functions, and proves what each promises.  File names below are under
    src/; [lt] stands for
    examples/lt/systemc/third-party/systemc-lt-example.

    ** How the programs work and how they are modelled

    A SystemC module has targets, functions called with a payload (a command,
    an address, a buffer) and an annotated delay, and processes, coroutines that
    run until they wait.  Accordingly:
    - a function that cannot suspend is a function to [res] (this file): it
      returns or ends in a [fault], a failed assertion, an abort, a fatal
      report, undefined behaviour such as an access outside of an array, or a
      call that never comes back;
    - a function or thread that can suspend is a [proc] (Kernel): a tree whose
      nodes are suspensions.  [wp R G p Q] says that whatever the rest of the
      simulation does within [R] while [p] is suspended, [p] reaches no fault,
      satisfies [G] whenever it suspends, terminates and ends in [Q]; [run]
      executes it in one given environment.  Scheduling is thus a parameter of
      the theorems, not a definition; five programs, the original system, the
      ring that Renode makes of it, the loosely-timed example, the interrupt
      example and the DMA example, are composed of all their processes, as a pool
      of them (Scheduler) with a step relation whose every interleaving the
      theorems cover, and two threads, the bus writer of riscv-signals and the
      reset thread of cortex-m-signals, are run by the delta cycle of
      DeltaCycle next to everything else;
    - an unsigned integer of [w] bits is a [Z] with [wrap w] where the code
      wraps, a byte array a [list Z], simulated time a 64-bit count of
      picoseconds;
    - what lies outside of the repository is an argument: the sockets' other
      ends, FIFOs, payload event queues, Renode itself.  What the code relies
      on is stated as a class (such as [Tlm.DoubleTimes],
      [TrafficGenerator.Platform], [Dmac.MemoryBus], [DmaSystem.RamBus],
      [Peripheral.FifoOut], [DirectSystem.CarriesReads],
      [DirectSystem.CompletesAtOnce], [RiscvWriter.OutgoingBus], [AtTarget.Peq], [SimpleBusAT.Modules],
      [DirectConnection.Native.Peq], [VirtualPlatform.RegisterBus],
      [OriginalThreads.Surroundings], [RingThreads.Surroundings], [DmiTest.CoherentMemory],
      [DmiNative.RenodeMemory]) with an instance.  The double arithmetic of
      [sc_time] is such a class: a quotient of times below 2^50 is exact; of
      larger ones, and of times that no [sc_time] can hold, only the order and
      the range are known.

    ** The files

    - Prelude, Tlm, Kernel, DeltaCycle, Scheduler: outcomes, integers, byte
      blocks, tactics; payloads, statuses, time, DMI descriptors; processes and
      their logic; one process under the delta cycle, and what it comes to do; pools of processes over a shared state, with a logic of labels.  Both
      logics are instances of [Kernel.Logic], so that a process can be verified
      once for either.
    - Report: lt/report.cpp, the printing of transactions.
    - LtMemory: lt/memory.cpp and lt_target.cpp.  The byte loops are block
      copies; [operation] refines [spec_operation] on every access; write/read
      round trip; the last byte cannot be reached.
    - SimpleBusLT: lt/SimpleBusLT.h.  Routing, and what a DMI range contains: the
      granted addresses of 32 bits, and never a wider one.
    - SimpleBusAT: lt/SimpleBusAT.h.  Each pending request is forwarded once and
      each response served completely, under interference; an event shared by
      all requests can end the wrong one.
    - DmiMemory: lt/dmi_memory.cpp.  Operations stay in the granted block, except
      for accesses whose end wraps around; invalidation has no effect.
    - AtTarget: lt/at_target_1_phase.cpp.  Every twentieth request is deferred;
      a deferred request has the effect of an immediate one, and ends when that
      does if the memory accepts it; none is lost, as an invariant of a step
      relation.
    - TrafficGenerator: lt/traffic_generator.cpp, lt_initiator.cpp and
      initiator_top.cpp.  Transactions are shared through a store of payloads
      with reference counts; over any [Platform], in any [Logic], the generator
      terminates, sends the expected requests, and has its pool back.
    - LtTargets: the bus and both targets of lt/systemc/src/top.cpp, and what a
      word-sized access through them does; LtPlatform: with one initiator
      thread they are such a platform, whatever else writes conformingly.
    - LtSystem, LtInvariant, LtThreads, LtRun: that example whole, two
      generators and two initiators with their FIFOs ([initiator_top] and [top]
      of lt/initiator_top.cpp and top.cpp), as definitions and step relation,
      invariant, proof of each process (the FIFOs are again a [Platform]), and
      results: no interleaving of them and of Renode's accesses makes a generator
      report an error, every run ends with both generators done and the memories
      filled.
    - RegisterFile, RiscvSignals, HmpSignals: examples/riscv-signals and
      examples/hmp-signals.  Outputs mirror the control registers in every
      reachable state; every branch of the accesses.
    - RiscvWriter: the bus writer of riscv-signals next to any accesses of Renode.
      It answers every trigger; that of hmp-signals can lose one (HmpSignals).
    - SignalTops: the tops of both.  Behind the bridges' buses, a byte that Renode
      writes drives the pin documented for its register and no other.
    - Dmac: examples/dma.  One activation copies the block if nothing else
      touches memory or registers meanwhile and the destination does not overlap
      the rest of the source; lengths above the signed range are undefined.
    - DmaSystem: that example whole, the controller, its pins as signals, and
      Renode's accesses and memory.  Every list of transfers is carried out, the
      controller touches memory only while it holds the bus.  The test makes one
      transfer; between two, Renode takes the bus back.
    - CortexMSignals: examples/cortex-m-signals.  Pins written and sampled, other
      offsets refused; the pulses that a sequence of reset-request levels makes,
      delta cycle by delta cycle.
    - Peripheral: examples/multiple-peripherals.  Timer, registers, bus
      accesses, the byte stream through FIFO and DMA; the width of the timer
      register is an argument, 4 bytes there and 8 in original-system.
    - Streaming: what holds of two of these peripherals and the transfers between
      them, as one invariant with what each step does to it, used by the two
      systems below.
    - VirtualPlatform: examples/multiple-peripherals/systemc/original-system
      (virtual_platform.cpp, testcase.cpp): the CPU model's address decoding,
      field accessors, threads and test software.
    - OriginalSystem, OriginalInvariant, OriginalThreads, OriginalRun: that
      system whole, three peripherals in a ring under the test software, as
      definitions and step relation, invariant, proof of each process, and
      results: every run ends, and when the timer event comes decides how.  The
      rollover of the 64-bit timer is beyond what [sc_time] can hold, so what the
      library makes of it is open ([Tlm.DoubleTimes], with instances on both
      sides): if the event comes after the last time at which the test
      expects the timer not to be done the test passes, if before, that
      assertion of the test fails ([Scheduler.Tolerated]); nothing else does.
    - RingSystem, RingInvariant, RingThreads, RingRun: the same ring as Renode
      closes it, three [top]s (examples/multiple-peripherals/systemc/src) with
      peripheral and FIFO adapter, clocks of their own, and calls that pass
      through Renode in any time, with the start write and the interrupt handler
      of the firmware.  No interleaving faults, every run ends with the interrupt
      handled.  The 32-bit timer rolls over at an exact time.
    - SharedMemory: examples/multi-core.  Both cores see one map.
    - Interrupts: examples/interrupts and examples-native/interrupts-native, both
      modules and the routing of Renode's writes.
    - DirectConnection: examples/direct-connection, examples/tlm-non-blocking
      and examples-native/tlm-non-blocking-native.
    - DirectSystem: two peripherals of either example joined by Renode, against a
      specification of two registers and a memory.  A comment says that the
      blocking call never returns; so a read does one or the other.
    - SimpleTargets: gpio-connection, timesync, transaction-delay and their
      native variants, tests/test-synchronization, the target of
      benchmarks/systemc-integration, and the FIFO adapter.
    - Benchmark: the program of benchmarks/systemc-integration.
    - Firmware: the Zephyr programs against the modules: the interrupt handlers,
      the clock, and the program of multiple-peripherals, which prints the timer
      of peripheral A once a second.
    - InterruptSystem: both variants of the interrupt example whole, threads,
      routing, pins and handlers.  Every handler runs once per period, none is
      lost or doubled, as long as the CPU takes an interrupt before the next.
    - Variants: what Renode can ask of an example or, through [IRenodeBridge], of a
      native variant; how far the GPIO and time examples and their variants answer
      alike, and where the GPIO ones stop to.
    - DmiTest: examples/dmi.  The test passes over any coherent memory.
    - DmiNative: examples-native/dmi-native.  The forwarder is such a memory, the
      CPU target keeps its bounds, and the completion pin rises exactly when both
      halves are done.

    In each file the definitions come first, then lemmas, then the properties;
    a property with hypotheses is followed by a witness, an instance at concrete
    inputs.

    ** Fuel

    Loops whose end depends on the state take fuel and end in [Out_of_fuel]
    without it: the copy loop of Dmac (more than [data_len] is enough,
    [DmaSystem.transfer_ok]), the drain loop of TrafficGenerator (more than the size of the pool),
    [begin_response_method] of AtTarget (one per transaction taken),
    [DirectConnection.Native.drain] (one more than the requests), the polling
    loops of the test software (335 polls each in the original system, the bound
    of [OriginalThreads.Surroundings]), the loop of the FIFO adapter (more than
    the hundred bytes, [RingThreads.Surroundings]).  The theorems give these
    bounds and show that the result is reached.  Under the delta cycle
    a [while (true)] thread goes on for ever; elsewhere it is repeated a given
    number of times, and the theorems hold for every number (in LtRun for every
    number above the 64 requests of a generator, in DmaSystem for one more than
    the transfers, in RingRun for every number above the hundred bytes, so that
    no thread runs out of iterations).

    ** What is not modelled

    The text of log messages, except for [report::print], which can fault;
    extensions of payloads, compiled out in the examples; SystemC and TLM, the
    Renode bridge; argument parsing and the tops that only bind a module to a
    bridge; scripts and tests, except for the accesses of the DMA test; of the
    firmware, the Zephyr API.  In the ring that Renode
    closes, the loop in which the firmware polls the timer, which is with Firmware
    (a read that comes later than the rollover is undefined, so that the program
    relies on the time the transfers take, of which RingSystem assumes nothing). *)

From stdpp Require Import base numbers list gmap strings.
From Stdlib Require Import ZArith Lia Bool.

#[global] Open Scope Z_scope.

(** ** Definitions *)

(** *** Outcomes

    A C++ function either returns, hits a failing [assert]/[sc_assert], calls
    [std::abort] / [exit(1)], reports a fatal error, or executes something the language leaves
    undefined (an access outside an object, a read through a null pointer, a
    float-to-integer conversion out of range, signed overflow). *)
Inductive fault : Type :=
| Assert_failure
| Abort
| Fatal_report
| Undefined_behaviour
| No_return                             (* a call that leaves the program and never comes back *)
| Out_of_fuel.

#[export] Instance fault_eq_dec : EqDecision fault.
Proof. solve_decision. Defined.

Inductive res (A : Type) : Type :=
| Ok (a : A)
| Err (f : fault).

Arguments Ok {A} a.
Arguments Err {A} f.

#[export] Instance res_ret : MRet res := fun A a => Ok a.
#[export] Instance res_bind : MBind res := fun A B k m =>
  match m with Ok a => k a | Err f => Err f end.
#[export] Instance res_fmap : FMap res := fun A B f m =>
  match m with Ok a => Ok (f a) | Err f => Err f end.

(** [assert(b)]. *)
Definition cassert (b : bool) : res unit :=
  if b then Ok tt else Err Assert_failure.

Definition is_Ok {A} (r : res A) : Prop := exists a, r = Ok a.

(** *** Machine integers: unsigned integers of width [w] wrap around. *)
Definition wrap (w x : Z) : Z := x mod 2 ^ w.
Notation u8 := (wrap 8).
Notation u32 := (wrap 32).
Notation u64 := (wrap 64).

(** Bitwise complement at width [w]. *)
Definition wnot (w x : Z) : Z := Z.lxor x (Z.ones w).

(** *** Bytes

    A byte is a [Z] in [0, 256); byte arrays are lists. *)
Definition is_byte (b : Z) : Prop := 0 <= b < 256.
Notation is_bytes := (Forall is_byte).

(** Little-endian conversion between integers and their object
    representation (the hosts the program is built for). *)
Fixpoint le_encode (n : nat) (x : Z) : list Z :=
  match n with
  | O => []
  | S n' => x mod 256 :: le_encode n' (x / 256)
  end.

Fixpoint le_decode (bs : list Z) : Z :=
  match bs with
  | [] => 0
  | b :: bs' => b + 256 * le_decode bs'
  end.

(** *** Memory blocks

    [memcpy] out of, and into, a block: anything outside of the block is
    undefined behaviour. *)
Definition in_block (m : list Z) (off len : Z) : bool :=
  (0 <=? off) && (0 <=? len) && (off + len <=? Z.of_nat (length m)).

Definition slice (m : list Z) (off len : Z) : list Z :=
  take (Z.to_nat len) (drop (Z.to_nat off) m).

Definition splice (m : list Z) (off : Z) (bs : list Z) : list Z :=
  take (Z.to_nat off) m ++ bs ++ drop (Z.to_nat off + length bs) m.

Definition load (m : list Z) (off len : Z) : res (list Z) :=
  if in_block m off len then Ok (slice m off len) else Err Undefined_behaviour.

Definition store (m : list Z) (off : Z) (bs : list Z) : res (list Z) :=
  if in_block m off (Z.of_nat (length bs))
  then Ok (splice m off bs) else Err Undefined_behaviour.

(** [m[i]] and [m[i] = b] on one byte. *)
Definition get_byte (m : list Z) (i : Z) : res Z :=
  if 0 <=? i then
    match m !! Z.to_nat i with Some b => Ok b | None => Err Undefined_behaviour end
  else Err Undefined_behaviour.

Definition set_byte (m : list Z) (i b : Z) : res (list Z) :=
  if (0 <=? i) && (i <? Z.of_nat (length m))
  then Ok (<[Z.to_nat i := b]> m) else Err Undefined_behaviour.

(** ** Automation *)

(** Case analysis on boolean comparisons, in hypotheses and goal. *)
Ltac breflect :=
  repeat match goal with
  | H : (_ && _)%bool = true |- _ => apply andb_true_iff in H; destruct H
  | H : (_ && _)%bool = false |- _ => apply andb_false_iff in H
  | H : (_ || _)%bool = false |- _ => apply orb_false_iff in H; destruct H
  | H : (_ || _)%bool = true |- _ => apply orb_true_iff in H
  | H : negb _ = true |- _ => apply negb_true_iff in H
  | H : negb _ = false |- _ => apply negb_false_iff in H
  | H : (_ <? _) = true |- _ => apply Z.ltb_lt in H
  | H : (_ <? _) = false |- _ => apply Z.ltb_ge in H
  | H : (_ <=? _) = true |- _ => apply Z.leb_le in H
  | H : (_ <=? _) = false |- _ => apply Z.leb_gt in H
  | H : (_ =? _) = true |- _ => apply Z.eqb_eq in H
  | H : (_ =? _) = false |- _ => apply Z.eqb_neq in H
  end.

(** Splits every [if] and [match] of the goal, then simplifies. *)
Ltac split_matches :=
  repeat (case_match; simplify_eq/=; try done).

(** Inverts the monadic binds of a hypothesis [m ≫= k = Ok _]. *)
Ltac inv_bind H :=
  unfold mbind, res_bind, mret, res_ret in H; cbn in H;
  repeat (case_match; simplify_eq/=).

(** [is_bytes] of a literal list. *)
Ltac solve_bytes :=
  repeat (apply List.Forall_cons; [unfold is_byte; lia|]); apply List.Forall_nil.

(** ** Lemmas *)

Lemma bind_Ok {A B} (a : A) (k : A -> res B) : Ok a ≫= k = k a.
Proof. reflexivity. Qed.

Lemma bind_Err {A B} f (k : A -> res B) : (Err f : res A) ≫= k = Err f.
Proof. reflexivity. Qed.

Lemma cassert_true b : b = true -> cassert b = Ok tt.
Proof. by intros ->. Qed.

Lemma bind_Ok_inv {A B} (m : res A) (k : A -> res B) b :
  m ≫= k = Ok b -> exists a, m = Ok a /\ k a = Ok b.
Proof. destruct m; cbn; [eauto | discriminate]. Qed.

(** *** Machine integers *)

Lemma wrap_range w x : 0 <= w -> 0 <= wrap w x < 2 ^ w.
Proof. intros. apply Z.mod_pos_bound. lia. Qed.

Lemma wrap_small w x : 0 <= x < 2 ^ w -> wrap w x = x.
Proof. apply Z.mod_small. Qed.

Lemma wrap_idemp w x : 0 <= w -> wrap w (wrap w x) = wrap w x.
Proof. intros. apply wrap_small, wrap_range; done. Qed.

Lemma wrap_add_l w x y : 0 <= w -> wrap w (wrap w x + y) = wrap w (x + y).
Proof. intros. unfold wrap. apply Zplus_mod_idemp_l. Qed.

Lemma wrap_add_r w x y : 0 <= w -> wrap w (x + wrap w y) = wrap w (x + y).
Proof. intros. unfold wrap. apply Zplus_mod_idemp_r. Qed.

Lemma wrap_sub_l w x y : 0 <= w -> wrap w (wrap w x - y) = wrap w (x - y).
Proof. intros. unfold wrap. apply Zminus_mod_idemp_l. Qed.

(** *** Little-endian conversion *)

Lemma le_encode_length n x : length (le_encode n x) = n.
Proof. revert x; induction n; intros; cbn; auto. Qed.

Lemma le_encode_bytes n x : is_bytes (le_encode n x).
Proof.
  revert x; induction n; intros; cbn; constructor; auto.
  apply Z.mod_pos_bound. lia.
Qed.

Lemma le_decode_range bs :
  is_bytes bs -> 0 <= le_decode bs < 256 ^ Z.of_nat (length bs).
Proof.
  induction 1 as [|b bs Hb _ IH]; cbn [le_decode length]; [lia|].
  rewrite Nat2Z.inj_succ, Z.pow_succ_r by lia. unfold is_byte in Hb. lia.
Qed.

Lemma le_decode_encode n x : le_decode (le_encode n x) = x mod 256 ^ Z.of_nat n.
Proof.
  revert x; induction n as [|n IH]; intros x; cbn [le_encode le_decode].
  - symmetry. apply Z.mod_1_r.
  - rewrite IH, Nat2Z.inj_succ, Z.pow_succ_r by lia.
    rewrite Z.rem_mul_r by lia. lia.
Qed.

Lemma le_encode_decode bs :
  is_bytes bs -> le_encode (length bs) (le_decode bs) = bs.
Proof.
  induction 1 as [|b bs Hb _ IH]; cbn [le_encode le_decode length]; [done|].
  unfold is_byte in Hb. f_equal.
  - replace (b + 256 * le_decode bs) with (b + le_decode bs * 256) by lia.
    rewrite Z_mod_plus_full. apply Z.mod_small; lia.
  - replace (b + 256 * le_decode bs) with (b + le_decode bs * 256) by lia.
    rewrite Z.div_add, Z.div_small by lia. done.
Qed.

Lemma le_decode_zero_inv bs :
  is_bytes bs -> le_decode bs = 0 -> Forall (fun b => b = 0) bs.
Proof.
  induction 1 as [|b bs Hb Hbs IH]; cbn; [constructor|].
  pose proof (le_decode_range bs Hbs). unfold is_byte in Hb.
  intros. constructor; [lia | apply IH; lia].
Qed.

(** *** Memory blocks *)

Lemma in_block_iff m off len :
  in_block m off len = true <->
  0 <= off /\ 0 <= len /\ off + len <= Z.of_nat (length m).
Proof. unfold in_block. rewrite !andb_true_iff, !Z.leb_le. tauto. Qed.

Lemma load_Ok m off len :
  0 <= off -> 0 <= len -> off + len <= Z.of_nat (length m) ->
  load m off len = Ok (slice m off len).
Proof. intros. unfold load. rewrite (proj2 (in_block_iff _ _ _)); done. Qed.

Lemma store_Ok m off bs :
  0 <= off -> off + Z.of_nat (length bs) <= Z.of_nat (length m) ->
  store m off bs = Ok (splice m off bs).
Proof. intros. unfold store. rewrite (proj2 (in_block_iff _ _ _)); [done|lia]. Qed.

Lemma load_inv m off len bs :
  load m off len = Ok bs ->
  bs = slice m off len /\ 0 <= off /\ 0 <= len /\ off + len <= Z.of_nat (length m).
Proof.
  unfold load. destruct (in_block m off len) eqn:E; [|discriminate].
  intros [= <-]. apply in_block_iff in E. tauto.
Qed.

Lemma store_inv m off bs m' :
  store m off bs = Ok m' ->
  m' = splice m off bs /\ 0 <= off /\
  off + Z.of_nat (length bs) <= Z.of_nat (length m).
Proof.
  unfold store. destruct (in_block _ _ _) eqn:E; [|discriminate].
  intros [= <-]. apply in_block_iff in E. tauto.
Qed.

Lemma slice_length m off len :
  0 <= off -> 0 <= len -> off + len <= Z.of_nat (length m) ->
  length (slice m off len) = Z.to_nat len.
Proof. intros. unfold slice. rewrite length_take, length_drop. lia. Qed.

Lemma splice_length m off bs :
  0 <= off -> off + Z.of_nat (length bs) <= Z.of_nat (length m) ->
  length (splice m off bs) = length m.
Proof.
  intros. unfold splice. rewrite !length_app, length_take, length_drop. lia.
Qed.

Lemma slice_splice_same m off bs :
  0 <= off -> off + Z.of_nat (length bs) <= Z.of_nat (length m) ->
  slice (splice m off bs) off (Z.of_nat (length bs)) = bs.
Proof.
  intros. unfold slice, splice.
  rewrite drop_app_length' by (rewrite length_take; lia).
  rewrite take_app_length'; [done|lia].
Qed.

Lemma lookup_splice m off bs i :
  0 <= off -> off + Z.of_nat (length bs) <= Z.of_nat (length m) ->
  splice m off bs !! i =
  if decide (Z.of_nat i < off) then m !! i
  else if decide (Z.of_nat i < off + Z.of_nat (length bs))
       then bs !! (i - Z.to_nat off)%nat else m !! i.
Proof.
  intros Hoff Hlen. unfold splice. repeat case_decide.
  - rewrite lookup_app_l by (rewrite length_take; lia).
    rewrite lookup_take by lia. case_decide; [done|lia].
  - rewrite lookup_app_r, length_take by (rewrite length_take; lia).
    rewrite lookup_app_l by lia. f_equal; lia.
  - rewrite lookup_app_r, length_take by (rewrite length_take; lia).
    rewrite lookup_app_r by lia. rewrite lookup_drop. f_equal; lia.
Qed.

Lemma lookup_slice m off len i :
  0 <= off -> Z.of_nat i < len ->
  slice m off len !! i = m !! (Z.to_nat off + i)%nat.
Proof.
  intros. unfold slice. rewrite lookup_take by lia.
  case_decide; [|lia]. rewrite lookup_drop. f_equal.
Qed.

(** Reading a range disjoint from the one written sees the old contents. *)
Lemma slice_splice_disjoint m off bs off' len' :
  0 <= off -> off + Z.of_nat (length bs) <= Z.of_nat (length m) ->
  0 <= off' -> 0 <= len' -> off' + len' <= Z.of_nat (length m) ->
  off' + len' <= off \/ off + Z.of_nat (length bs) <= off' ->
  slice (splice m off bs) off' len' = slice m off' len'.
Proof.
  intros Hoff Hlen Hoff' Hlen' Hend Hdis. apply list_eq. intros i.
  destruct (decide (Z.of_nat i < len')).
  - rewrite !lookup_slice, lookup_splice by lia.
    repeat case_decide; done || lia.
  - rewrite !lookup_ge_None_2; try done;
      rewrite slice_length; rewrite ?splice_length; lia.
Qed.

Lemma lookup_total_splice_out m off bs i :
  0 <= off -> off + Z.of_nat (length bs) <= Z.of_nat (length m) -> 0 <= i ->
  i < off \/ off + Z.of_nat (length bs) <= i ->
  splice m off bs !!! Z.to_nat i = m !!! Z.to_nat i.
Proof.
  intros. rewrite !list_lookup_total_alt, lookup_splice by lia.
  repeat case_decide; done || lia.
Qed.

Lemma slice_bytes m off len : is_bytes m -> is_bytes (slice m off len).
Proof. intros. unfold slice. by apply Forall_take, Forall_drop. Qed.

Lemma splice_bytes m off bs : is_bytes m -> is_bytes bs -> is_bytes (splice m off bs).
Proof.
  intros. unfold splice. rewrite !Forall_app.
  split_and!; auto using Forall_take, Forall_drop.
Qed.

Lemma get_byte_Ok m i b :
  0 <= i -> m !! Z.to_nat i = Some b -> get_byte m i = Ok b.
Proof. intros Hi Hb. unfold get_byte. rewrite Hb. destruct (Z.leb_spec 0 i); done || lia. Qed.

Lemma get_byte_total m i :
  0 <= i < Z.of_nat (length m) -> exists b, get_byte m i = Ok b /\ m !! Z.to_nat i = Some b.
Proof.
  intros Hi. destruct (lookup_lt_is_Some_2 m (Z.to_nat i)) as [b Hb]; [lia|].
  exists b. split; [apply get_byte_Ok; lia || done | done].
Qed.

Lemma set_byte_Ok m i b :
  0 <= i < Z.of_nat (length m) -> set_byte m i b = Ok (<[Z.to_nat i := b]> m).
Proof.
  intros. unfold set_byte.
  destruct (Z.leb_spec 0 i), (Z.ltb_spec i (Z.of_nat (length m))); cbn; done || lia.
Qed.

Lemma splice_nil m off : splice m off [] = m.
Proof. unfold splice. cbn [length app]. rewrite Nat.add_0_r. apply take_drop. Qed.

Lemma slice_0 m off : slice m off 0 = [].
Proof. reflexivity. Qed.

Lemma slice_splice_full m off bs len :
  0 <= off -> len = Z.of_nat (length bs) -> off + len <= Z.of_nat (length m) ->
  slice (splice m off bs) off len = bs.
Proof. intros ? -> ?. by apply slice_splice_same. Qed.

Lemma list_minimum (l : list Z) x : x ∈ l -> exists m, m ∈ l /\ forall y, y ∈ l -> m <= y.
Proof.
  revert x. induction l as [|a l IH]; intros x Hx; [by apply elem_of_nil in Hx|].
  destruct l as [|b l].
  - exists a. split; [by left|]. intros y Hy%list_elem_of_singleton. lia.
  - destruct (IH b) as (m & Hm & Hmin); [by left|]. destruct (Z.le_gt_cases a m).
    + exists a. split; [by left|]. intros y [-> | Hy]%elem_of_cons; [lia|]. specialize (Hmin y Hy). lia.
    + exists m. split; [by right|]. intros y [-> | Hy]%elem_of_cons; [lia|]. by apply Hmin.
Qed.

Create HintDb mem discriminated.
#[export] Hint Resolve slice_bytes splice_bytes le_encode_bytes : mem.
#[export] Hint Rewrite @bind_Ok @bind_Err : resdb.
#[export] Hint Rewrite le_encode_length : lens.
