(* ===== verification/Tlm.v ===== *)
(** * The TLM-2.0 vocabulary of the program

    The data the modules exchange: the generic payload, its commands, response
    statuses and phases, simulated time, and the type of a socket.  The TLM and
    SystemC libraries themselves are outside of the repository: only the
    payload attributes that the sources get and set appear here, as fields of
    a record, and every call that leaves a module is a parameter of the
    definitions that make it. *)

From S2P Require Import Prelude.
From stdpp Require Import base numbers list.
#[local] Open Scope Z_scope.

(** ** Definitions *)

Inductive tlm_command : Type :=
| TLM_READ_COMMAND
| TLM_WRITE_COMMAND
| TLM_IGNORE_COMMAND.

Inductive tlm_response_status : Type :=
| TLM_OK_RESPONSE
| TLM_INCOMPLETE_RESPONSE
| TLM_GENERIC_ERROR_RESPONSE
| TLM_ADDRESS_ERROR_RESPONSE
| TLM_COMMAND_ERROR_RESPONSE
| TLM_BURST_ERROR_RESPONSE
| TLM_BYTE_ENABLE_ERROR_RESPONSE.

Inductive tlm_phase : Type :=
| UNINITIALIZED_PHASE
| BEGIN_REQ
| END_REQ
| BEGIN_RESP
| END_RESP.

Inductive tlm_sync_enum : Type :=
| TLM_ACCEPTED
| TLM_UPDATED
| TLM_COMPLETED.

#[export] Instance tlm_command_eq_dec : EqDecision tlm_command.
Proof. solve_decision. Defined.
#[export] Instance tlm_response_status_eq_dec : EqDecision tlm_response_status.
Proof. solve_decision. Defined.
#[export] Instance tlm_phase_eq_dec : EqDecision tlm_phase.
Proof. solve_decision. Defined.
#[export] Instance tlm_sync_enum_eq_dec : EqDecision tlm_sync_enum.
Proof. solve_decision. Defined.

(** Simulated time counts resolution units (1 ps) in an unsigned 64-bit
    integer, so sums and differences wrap around. *)
Definition sc_time : Type := Z.
Definition SC_ZERO_TIME : sc_time := 0.
Definition t_add (a b : sc_time) : sc_time := u64 (a + b).
Definition t_sub (a b : sc_time) : sc_time := u64 (a - b).
Definition sc_ns (n : Z) : sc_time := u64 (n * 1000).
Definition sc_us (n : Z) : sc_time := u64 (n * 1000000).
Definition sc_sec (n : Z) : sc_time := u64 (n * 1000000000000).

(** The quotient of two times, rounded up. *)
Definition ceil_div (a b : Z) : Z := (a + b - 1) / b.

(** What is computed of times in [double]: [d * t] for a whole number [d],
    [std::ceil(a / b)], and [(std::ceil(a / b) - a / b) * b].  A product is
    exact where a [double] represents it; what an overflow gives is the
    library's.  With 53 bits of precision a quotient of a time below 2^50 is
    rounded by less than an eighth of a unit of [a], so that its ceiling, and
    the last product, which is rounded to the nearest time, are exact; beyond
    that the ceiling still grows with the time, as every operation on [double]
    is monotone, and nothing is said of the product. *)
Class DoubleTimes : Type := {
  sc_scale : Z -> sc_time -> sc_time;
  sc_scale_exact : forall d t, 0 <= d * t < 2 ^ 52 -> sc_scale d t = d * t;
  sc_ceil : sc_time -> sc_time -> Z;
  sc_ceil_exact : forall a b, 0 <= a < 2 ^ 50 -> 0 < b -> sc_ceil a b = ceil_div a b;
  sc_ceil_monotone : forall a a' b, 0 <= a <= a' -> a' < 2 ^ 64 -> 0 < b -> sc_ceil a b <= sc_ceil a' b;
  sc_ceil_range : forall a b, 0 <= a < 2 ^ 64 -> 1 < b -> 0 <= sc_ceil a b < 2 ^ 64;
  sc_ceil_gap : sc_time -> sc_time -> sc_time;
  sc_ceil_gap_exact : forall a b, 0 <= a < 2 ^ 50 -> 0 < b -> sc_ceil_gap a b = ceil_div a b * b - a;
}.

(** The generic payload.  [data] is the buffer behind the data pointer, [None]
    for a null pointer; the address is 64-bit, the lengths are 32-bit. *)
Record payload : Type := mk_payload {
  command : tlm_command;
  address : Z;
  data : option (list Z);
  data_length : Z;
  streaming_width : Z;
  byte_enable : option (list Z);
  byte_enable_length : Z;
  dmi_allowed : bool;
  response_status : tlm_response_status;
}.

Definition set_command c (p : payload) : payload :=
  mk_payload c p.(address) p.(data) p.(data_length) p.(streaming_width)
    p.(byte_enable) p.(byte_enable_length) p.(dmi_allowed) p.(response_status).
Definition set_address a (p : payload) : payload :=
  mk_payload p.(command) a p.(data) p.(data_length) p.(streaming_width)
    p.(byte_enable) p.(byte_enable_length) p.(dmi_allowed) p.(response_status).
Definition set_data d (p : payload) : payload :=
  mk_payload p.(command) p.(address) d p.(data_length) p.(streaming_width)
    p.(byte_enable) p.(byte_enable_length) p.(dmi_allowed) p.(response_status).
Definition set_data_length l (p : payload) : payload :=
  mk_payload p.(command) p.(address) p.(data) l p.(streaming_width)
    p.(byte_enable) p.(byte_enable_length) p.(dmi_allowed) p.(response_status).
Definition set_streaming_width w (p : payload) : payload :=
  mk_payload p.(command) p.(address) p.(data) p.(data_length) w
    p.(byte_enable) p.(byte_enable_length) p.(dmi_allowed) p.(response_status).
Definition set_byte_enable e (p : payload) : payload :=
  mk_payload p.(command) p.(address) p.(data) p.(data_length) p.(streaming_width)
    e p.(byte_enable_length) p.(dmi_allowed) p.(response_status).
Definition set_byte_enable_length l (p : payload) : payload :=
  mk_payload p.(command) p.(address) p.(data) p.(data_length) p.(streaming_width)
    p.(byte_enable) l p.(dmi_allowed) p.(response_status).
Definition set_dmi_allowed b (p : payload) : payload :=
  mk_payload p.(command) p.(address) p.(data) p.(data_length) p.(streaming_width)
    p.(byte_enable) p.(byte_enable_length) b p.(response_status).
Definition set_response_status r (p : payload) : payload :=
  mk_payload p.(command) p.(address) p.(data) p.(data_length) p.(streaming_width)
    p.(byte_enable) p.(byte_enable_length) p.(dmi_allowed) r.

Definition is_read (p : payload) : bool := bool_decide (p.(command) = TLM_READ_COMMAND).
Definition is_write (p : payload) : bool := bool_decide (p.(command) = TLM_WRITE_COMMAND).
Definition is_response_ok (p : payload) : bool :=
  bool_decide (p.(response_status) = TLM_OK_RESPONSE).

(** A newly constructed payload, before any setter runs. *)
Definition new_payload : payload :=
  mk_payload TLM_IGNORE_COMMAND 0 None 0 0 None 0 false TLM_INCOMPLETE_RESPONSE.

(** [memcpy(dst, payload.get_data_ptr(), len)] and the converse. *)
Definition data_read (p : payload) (len : Z) : res (list Z) :=
  match p.(data) with
  | Some d => load d 0 len
  | None => if len =? 0 then Ok [] else Err Undefined_behaviour
  end.

Definition data_write (p : payload) (bs : list Z) : res payload :=
  match p.(data) with
  | Some d => d' ← store d 0 bs; Ok (set_data (Some d') p)
  | None => if bool_decide (bs = []) then Ok p else Err Undefined_behaviour
  end.

(** [*((uintN_t * )payload.get_data_ptr())] as an rvalue and as an lvalue, for
    an N of [8 * n] bits. *)
Definition data_word (n : nat) (p : payload) : res Z :=
  bs ← data_read p (Z.of_nat n); Ok (le_decode bs).

Definition set_data_word (n : nat) (x : Z) (p : payload) : res payload :=
  data_write p (le_encode n x).

(** The values the attributes can hold. *)
Record payload_wf (p : payload) : Prop := {
  wf_address : 0 <= p.(address) < 2 ^ 64;
  wf_length : 0 <= p.(data_length) < 2 ^ 32;
  wf_data : forall d, p.(data) = Some d -> is_bytes d;
}.

(** The payload carries a buffer for the whole transfer. *)
Definition has_buffer (p : payload) (d : list Z) : Prop :=
  p.(data) = Some d /\ p.(data_length) <= Z.of_nat (length d).

(** The direct-memory-interface descriptor; [dmi_ptr] identifies the granted
    host memory. *)
Inductive dmi_access_e : Type :=
| DMI_ACCESS_NONE
| DMI_ACCESS_READ
| DMI_ACCESS_WRITE
| DMI_ACCESS_READ_WRITE.

#[export] Instance dmi_access_e_eq_dec : EqDecision dmi_access_e.
Proof. solve_decision. Defined.

Record tlm_dmi : Type := mk_dmi {
  dmi_ptr : Z;
  start_address : Z;
  end_address : Z;
  read_latency : sc_time;
  write_latency : sc_time;
  granted_access : dmi_access_e;
}.

Definition set_start_address a (d : tlm_dmi) : tlm_dmi :=
  mk_dmi d.(dmi_ptr) a d.(end_address) d.(read_latency) d.(write_latency) d.(granted_access).
Definition set_end_address a (d : tlm_dmi) : tlm_dmi :=
  mk_dmi d.(dmi_ptr) d.(start_address) a d.(read_latency) d.(write_latency) d.(granted_access).

(** A blocking-transport call into the target bound to a socket: the target's
    state, the payload passed by reference and the annotated delay. *)
Definition b_transport_t (W : Type) : Type :=
  W -> payload -> sc_time -> res (W * payload * sc_time).

(** ** Lemmas *)

Lemma is_read_true p : is_read p = true <-> p.(command) = TLM_READ_COMMAND.
Proof. apply bool_decide_eq_true. Qed.

Lemma is_write_true p : is_write p = true <-> p.(command) = TLM_WRITE_COMMAND.
Proof. apply bool_decide_eq_true. Qed.

Lemma data_read_Ok p d len :
  p.(data) = Some d -> 0 <= len <= Z.of_nat (length d) ->
  data_read p len = Ok (take (Z.to_nat len) d).
Proof.
  intros Hd Hlen. unfold data_read. rewrite Hd, load_Ok by lia.
  unfold slice. by rewrite drop_0.
Qed.

Lemma data_write_Ok p d bs :
  p.(data) = Some d -> (length bs <= length d)%nat ->
  data_write p bs = Ok (set_data (Some (bs ++ drop (length bs) d)) p).
Proof.
  intros Hd Hlen. unfold data_write. rewrite Hd, store_Ok by lia. done.
Qed.

(** What is read back from a buffer just written. *)
Lemma data_word_set n x p p' :
  set_data_word n x p = Ok p' -> data_word n p' = Ok (x mod 256 ^ Z.of_nat n).
Proof.
  unfold set_data_word, data_write, data_word, data_read.
  destruct (data p) as [d|] eqn:Hd.
  - destruct (store d 0 (le_encode n x)) as [d'|] eqn:Hs; [|discriminate].
    apply store_inv in Hs as (-> & _ & Hl).
    rewrite bind_Ok. intros [= <-]. cbn. rewrite le_encode_length in Hl.
    rewrite load_Ok, bind_Ok by (rewrite ?splice_length; rewrite ?le_encode_length; lia).
    rewrite slice_splice_full by (rewrite ?le_encode_length; lia).
    by rewrite le_decode_encode.
  - case_bool_decide as Hnil; [|discriminate]. intros [= <-]. rewrite Hd.
    destruct n; [|discriminate]. cbn. by rewrite Z.mod_1_r.
Qed.

Lemma data_write_inv p bs p' :
  data_write p bs = Ok p' -> p' = set_data (data p') p.
Proof.
  unfold data_write. destruct (data p) as [d|] eqn:E.
  - destruct (store d 0 bs); cbn; [|discriminate]. intros [= <-]. done.
  - case_bool_decide; [|discriminate]. intros [= <-]. destruct p; cbn in *; by subst.
Qed.

Lemma t_add_assoc a b c : t_add (t_add a b) c = t_add a (t_add b c).
Proof.
  unfold t_add. rewrite wrap_add_l, wrap_add_r by lia. f_equal. lia.
Qed.

Lemma t_add_0_l a : 0 <= a < 2 ^ 64 -> t_add SC_ZERO_TIME a = a.
Proof. intros. unfold t_add, SC_ZERO_TIME. by apply wrap_small. Qed.

Lemma t_add_range a b : 0 <= t_add a b < 2 ^ 64.
Proof. by apply wrap_range. Qed.

(** Rounding up to the next multiple. *)
Lemma ceil_div_spec a b : 0 < b -> ceil_div a b * b - b < a <= ceil_div a b * b.
Proof.
  intros Hb. unfold ceil_div. pose proof (Z.div_mod (a + b - 1) b).
  pose proof (Z.mod_pos_bound (a + b - 1) b). lia.
Qed.

Lemma ceil_div_mono a a' b : 0 < b -> a <= a' -> ceil_div a b <= ceil_div a' b.
Proof. intros Hb Ha. unfold ceil_div. apply Z.div_le_mono; lia. Qed.

Lemma ceil_div_range a b : 0 <= a < 2 ^ 64 -> 1 < b -> 0 <= ceil_div a b < 2 ^ 64.
Proof. intros Ha Hb. unfold ceil_div. split; [apply Z.div_pos|apply Z.div_lt_upper_bound]; nia. Qed.

Lemma is_read_cmd p : is_read p = match p.(command) with TLM_READ_COMMAND => true | _ => false end.
Proof. unfold is_read. by destruct (command p). Qed.

Lemma is_write_cmd p : is_write p = match p.(command) with TLM_WRITE_COMMAND => true | _ => false end.
Proof. unfold is_write. by destruct (command p). Qed.

(** Transfers through the buffer as block operations. *)
Lemma data_write_splice p d bs :
  p.(data) = Some d -> (length bs <= length d)%nat ->
  data_write p bs = Ok (set_data (Some (splice d 0 bs)) p).
Proof. apply data_write_Ok. Qed.

Lemma data_read_slice p d len :
  p.(data) = Some d -> 0 <= len <= Z.of_nat (length d) ->
  data_read p len = Ok (slice d 0 len).
Proof. intros Hd Hl. rewrite (data_read_Ok p d) by done. unfold slice. by rewrite drop_0. Qed.
