(* ===== verification/Kernel.v ===== *)
(** * Processes that suspend

    SystemC processes are coroutines: between two [wait] calls a process runs
    without interference, and while it is suspended the other processes of the
    simulation may change the state.  [prog] is the tree of such runs, [proc]
    the monad in which the bodies of the [SC_THREAD]s and of the blocking
    transport methods are written.  The scheduler is not modelled: a suspended
    process resumes in any state that the environment may have produced, which
    [wp] quantifies over (rely/guarantee) and [run] executes for one given
    environment. *)

From S2P Require Import Prelude Tlm.
From stdpp Require Import base list.

(** ** Definitions *)

(** What a process suspends on: an amount of time, an event of the module, or
    its static sensitivity list. *)
Inductive wait_on (E : Type) : Type :=
| Wait_time (t : sc_time)
| Wait_event (e : E)
| Wait_static.

Arguments Wait_time {E} t.
Arguments Wait_event {E} e.
Arguments Wait_static {E}.

Inductive prog (E S A : Type) : Type :=
| Ret (s : S) (a : A)
| Fail (f : fault)
| Wait (w : wait_on E) (s : S) (k : S -> prog E S A).

Arguments Ret {E S A} s a.
Arguments Fail {E S A} f.
Arguments Wait {E S A} w s k.

Definition proc (E S A : Type) : Type := S -> prog E S A.

Fixpoint prog_bind {E S A B} (p : prog E S A) (k : A -> proc E S B) : prog E S B :=
  match p with
  | Ret s a => k a s
  | Fail f => Fail f
  | Wait w s c => Wait w s (fun s' => prog_bind (c s') k)
  end.

#[export] Instance proc_ret E S : MRet (proc E S) := fun A a s => Ret s a.
#[export] Instance proc_bind E S : MBind (proc E S) :=
  fun A B k m s => prog_bind (m s) k.

Definition p_get {E S} : proc E S S := fun s => Ret s s.
Definition p_modify {E S} (f : S -> S) : proc E S unit := fun s => Ret (f s) tt.
Definition p_lift {E S A} (r : res A) : proc E S A :=
  fun s => match r with Ok a => Ret s a | Err f => Fail f end.
Definition p_wait {E S} (w : wait_on E) : proc E S unit :=
  fun s => Wait w s (fun s' => Ret s' tt).
(** A step that is a function of the state and may fault. *)
Definition p_step {E S A} (f : S -> res (S * A)) : proc E S A :=
  fun s => match f s with Ok (s', a) => Ret s' a | Err e => Fail e end.

(** [for]/[while] loops of at most [fuel] iterations whose body says whether
    to go on. *)
Fixpoint p_loop {E S} (fuel : nat) (body : proc E S bool) : proc E S unit :=
  match fuel with
  | O => fun _ => Fail Out_of_fuel
  | S n => b ← body; if (b : bool) then p_loop n body else mret tt
  end.

(** [n] iterations of the body of a [while (true)] loop. *)
Fixpoint p_repeat {E S} (n : nat) (body : proc E S unit) : proc E S unit :=
  match n with
  | O => mret tt
  | S n' => body ;; p_repeat n' body
  end.

(** Runs a process in the environment that changes the state by [env i] during
    the [i]-th suspension; also returns what the process suspended on and the
    state it left at each suspension. *)
Fixpoint run {E S A} (env : nat -> S -> S) (i : nat) (p : prog E S A) :
  list (wait_on E * S) * res (S * A) :=
  match p with
  | Ret s a => ([], Ok (s, a))
  | Fail f => ([], Err f)
  | Wait w s k =>
      let '(tr, r) := run env (Datatypes.S i) (k (env i s)) in ((w, s) :: tr, r)
  end.

(** Weakest precondition under a rely [R] on the environment: no fault, [G]
    holds at every suspension, and [Q] of the result. *)
Fixpoint wp {E S A} (R : S -> S -> Prop) (G : wait_on E -> S -> Prop)
  (p : prog E S A) (Q : A -> S -> Prop) : Prop :=
  match p with
  | Ret s a => Q a s
  | Fail _ => False
  | Wait w s k => G w s /\ forall s', R s s' -> wp R G (k s') Q
  end.

(** What a program logic for processes with ghost state [γ] offers to proofs
    that do not depend on what it says of suspensions. *)
Class Logic {E S Γ : Type} (WP : forall A : Type, Γ -> prog E S A -> (Γ -> A -> S -> Prop) -> Prop) :
  Prop := {
  logic_ret : forall A γ s (a : A) (Q : Γ -> A -> S -> Prop), Q γ a s -> WP A γ (Ret s a) Q;
  logic_bind : forall A B γ (p : prog E S A) (k : A -> proc E S B) (Q : Γ -> B -> S -> Prop),
    WP A γ p (fun γ a s => WP B γ (k a s) Q) -> WP B γ (prog_bind p k) Q;
}.

(** [wp] needs no ghost state. *)
Definition plain {E S} (R : S -> S -> Prop) (G : wait_on E -> S -> Prop) (A : Type) (_ : unit)
  (p : prog E S A) (Q : unit -> A -> S -> Prop) : Prop := wp R G p (Q tt).

(** ** Lemmas *)

Section Wp.
Context {E S : Type} (R : S -> S -> Prop) (G : wait_on E -> S -> Prop).

Lemma wp_mono {A} (p : prog E S A) (Q Q' : A -> S -> Prop) :
  (forall a s, Q a s -> Q' a s) -> wp R G p Q -> wp R G p Q'.
Proof.
  intros HQ. induction p as [s a|f|w s k IH]; cbn; auto.
  intros [HG Hk]. split; [done|]. intros s' HR. by apply IH, Hk.
Qed.

Lemma wp_prog_bind {A B} (p : prog E S A) (k : A -> proc E S B) Q :
  wp R G p (fun a s => wp R G (k a s) Q) -> wp R G (prog_bind p k) Q.
Proof.
  induction p as [s a|f|w s c IH]; cbn; auto.
  intros [HG Hk]. split; [done|]. intros s' HR. by apply IH, Hk.
Qed.

Lemma wp_bind {A B} (m : proc E S A) (k : A -> proc E S B) s Q :
  wp R G (m s) (fun a s => wp R G (k a s) Q) -> wp R G ((m ≫= k) s) Q.
Proof. apply wp_prog_bind. Qed.

Lemma wp_wait w s (Q : unit -> S -> Prop) :
  G w s -> (forall s', R s s' -> Q tt s') -> wp R G (p_wait w s) Q.
Proof. intros HG HQ. cbn. auto. Qed.

Lemma wp_lift {A} (r : res A) a s (Q : A -> S -> Prop) :
  r = Ok a -> Q a s -> wp R G (p_lift r s) Q.
Proof. by intros ->. Qed.

Lemma wp_step {A} (f : S -> res (S * A)) s s' a (Q : A -> S -> Prop) :
  f s = Ok (s', a) -> Q a s' -> wp R G (p_step f s) Q.
Proof. intros Hf HQ. unfold p_step. by rewrite Hf. Qed.

(** Loop rule: an invariant and a measure that every further iteration
    decreases. *)
Lemma wp_loop (body : proc E S bool) (I : nat -> S -> Prop) (Q : S -> Prop) :
  (forall n s, I n s -> wp R G (body s) (fun b s' =>
     if b then exists m, (m < n)%nat /\ I m s' else Q s')) ->
  forall fuel n s, (n < fuel)%nat -> I n s ->
  wp R G (p_loop fuel body s) (fun _ s' => Q s').
Proof.
  intros Hbody fuel. induction fuel as [|fuel IH]; intros n s Hn HI; [lia|].
  cbn [p_loop]. apply wp_bind. eapply wp_mono; [|apply Hbody, HI].
  intros [] s'; [|done]. intros (m & Hm & HI'). apply (IH m); [lia|done].
Qed.

(** Invariant rule for [while (true)]. *)
Lemma wp_repeat (body : proc E S unit) (I : S -> Prop) n s :
  (forall s, I s -> wp R G (body s) (fun _ s' => I s')) -> I s ->
  wp R G (p_repeat n body s) (fun _ s' => I s').
Proof.
  intros Hbody. revert s. induction n as [|n IH]; intros s HI; [done|].
  apply wp_bind. eapply wp_mono; [|by apply Hbody]. intros u s' HI'. by apply IH.
Qed.

(** An execution in an environment that respects the rely satisfies what [wp]
    promises, its result as well as its suspensions. *)
Lemma wp_run {A} (p : prog E S A) Q env i :
  (forall j s, R s (env j s)) -> wp R G p Q ->
  exists tr s a, run env i p = (tr, Ok (s, a)) /\ Q a s /\
    Forall (fun ws => G ws.1 ws.2) tr.
Proof.
  intros Henv. revert i. induction p as [s a|f|w s k IH]; cbn; intros i Hwp.
  - eauto 10.
  - done.
  - destruct Hwp as [HG Hk].
    destruct (IH (env i s) (Datatypes.S i) (Hk _ (Henv i s))) as (tr & s' & a & -> & HQ & Htr).
    eexists _, _, _. split_and!; [done|done|]. constructor; done.
Qed.
End Wp.

#[export] Instance plain_logic {E S} (R : S -> S -> Prop) (G : wait_on E -> S -> Prop) :
  Logic (plain R G).
Proof.
  split.
  - intros A [] s a Q HQ. exact HQ.
  - intros A B [] p k Q Hp. by apply wp_prog_bind.
Qed.

Section Logic.
Context {E S Γ : Type} {WP : forall A : Type, Γ -> prog E S A -> (Γ -> A -> S -> Prop) -> Prop}.
Context `{HL : !Logic WP}.

Lemma logic_mbind {A B} γ (m : proc E S A) (k : A -> proc E S B) s Q :
  WP A γ (m s) (fun γ a s => WP B γ (k a s) Q) -> WP B γ ((m ≫= k) s) Q.
Proof. apply logic_bind. Qed.

Lemma logic_get {A} γ (k : S -> proc E S A) s Q : WP A γ (k s s) Q -> WP A γ ((p_get ≫= k) s) Q.
Proof. intros H. by apply logic_mbind, logic_ret. Qed.

Lemma logic_modify {A} γ f (k : unit -> proc E S A) s Q :
  WP A γ (k tt (f s)) Q -> WP A γ ((p_modify f ≫= k) s) Q.
Proof. intros H. by apply logic_mbind, logic_ret. Qed.

Lemma logic_step {A} γ (f : S -> res (S * A)) s s' a (Q : Γ -> A -> S -> Prop) :
  f s = Ok (s', a) -> Q γ a s' -> WP A γ (p_step f s) Q.
Proof. intros Hf HQ. unfold p_step. rewrite Hf. by apply logic_ret. Qed.
End Logic.
