(* ===== verification/DeltaCycle.v ===== *)
(** * One process under the delta cycle

    What the SystemC kernel does with an [SC_THREAD] whose body is a
    [while (true)] loop: in the notification phase of a delta cycle a process
    whose wait is over becomes ready, in the evaluation phase a ready process
    runs until it waits again, and what it set off is delivered in the next
    notification phase.  The other processes are the client's: they may act
    between any two of these steps.

    [answers] is how the client states that the process serves what is asked of
    it: by induction, so that a process that can be kept waiting for ever does
    not have it. *)

From S2P Require Import Prelude Tlm Kernel.
From stdpp Require Import base relations list.

(** ** Definitions *)

Section Cycle.
Context {E S : Type}.
(** One iteration of the loop; whether a wait is over in the state that a
    notification phase finds, given whether an amount of time that is not zero
    has elapsed; and what the phase delivers. *)
Context (body : proc E S unit) (wakes : bool -> wait_on E -> S -> bool) (deliver : S -> S).

Inductive thread : Type :=
| Waiting (w : wait_on E) (k : S -> prog E S unit)
| Ready (k : S -> prog E S unit)
| Faulted (f : fault).

Definition config : Type := thread * S.

(** A run until the next wait: at the end of the body the loop goes on with
    its next iteration.  A body that does not wait at all never gives the
    simulation back. *)
Definition suspend (p : prog E S unit) (s : S) : config :=
  match p with
  | Wait w s' k => (Waiting w k, s')
  | Fail f => (Faulted f, s)
  | Ret s' _ => (Faulted No_return, s')
  end.

Definition run_on (p : prog E S unit) (s : S) : config :=
  match p with
  | Ret s' _ => suspend (body s') s'
  | p => suspend p s
  end.

(** The evaluation phase, for this process. *)
Definition evaluate (c : config) : config :=
  match c.1 with Ready k => run_on (k c.2) c.2 | _ => c end.

(** The notification phase. *)
Definition notify_phase (elapsed : bool) (c : config) : config :=
  match c.1 with
  | Waiting w k => (if wakes elapsed w c.2 then Ready k else Waiting w k, deliver c.2)
  | _ => c
  end.

(** A process is first run at the start of the simulation, or, with
    [dont_initialize], when its static sensitivity first fires. *)
Definition initialized (s : S) : config := (Ready body, s).
Definition not_initialized (s : S) : config := (Waiting Wait_static body, s).

(** The next thing that happens to the process if the simulation goes on. *)
Definition advance (c : config) : config :=
  match c.1 with Waiting _ _ => notify_phase true c | _ => evaluate c end.

(** Whatever the others do in between, finitely often each time, the process
    comes to raise [count] after finitely many advances. *)
Inductive answers (others : config -> config -> Prop) (count : S -> nat) (c : config) : Prop :=
| answers_next : (forall c1, rtc others c c1 ->
    (count c.2 < count (advance c1).2)%nat \/ answers others count (advance c1)) ->
    answers others count c.
End Cycle.

Arguments Waiting {E S} w k.
Arguments Ready {E S} k.
Arguments Faulted {E S} f.
Arguments config : clear implicits.

(** ** Lemmas *)

Section Answers.
Context {E S : Type}.
Context (body : proc E S unit) (wakes : bool -> wait_on E -> S -> bool) (deliver : S -> S).
Context (others : config E S -> config E S -> Prop) (count : S -> nat).

Lemma rtc_keeps (P : config E S -> Prop) c c' :
  (forall c1 c2, P c1 -> others c1 c2 -> P c2) -> P c -> rtc others c c' -> P c'.
Proof. intros Hstep Hc Hr. induction Hr; eauto. Qed.

Lemma rtc_count c c' :
  (forall c1 c2, others c1 c2 -> count c2.2 = count c1.2) -> rtc others c c' ->
  count c'.2 = count c.2.
Proof. intros Hstep Hr. induction Hr as [|c0 c1 c2 Ho _ IH]; [done|]. by rewrite IH, (Hstep c0 c1). Qed.

Context (others_count : forall c c', others c c' -> count c'.2 = count c.2).
Notation answers := (answers body wakes deliver others count).

(** A process that is ready, in states that the others do not lead out of. *)
Lemma answers_ready (K : S -> Prop) k :
  (forall s c', K s -> others (Ready k, s) c' -> c'.1 = Ready k /\ K c'.2) ->
  (forall s, K s -> (count s < count (run_on body (k s) s).2)%nat \/ answers (run_on body (k s) s)) ->
  forall s, K s -> answers (Ready k, s).
Proof using others_count.
  intros Hkeep Hrun s Hs. constructor. intros c1 Hr.
  pose proof (rtc_count _ _ others_count Hr) as Hcount.
  apply (rtc_keeps (fun c => c.1 = Ready k /\ K c.2)) in Hr as [Hth Hk]; [|..].
  - unfold advance, evaluate. rewrite Hth. cbn in Hcount |- *. rewrite <- Hcount. by apply Hrun.
  - intros [th1 s1] c2 [Hth Hk]. cbn in Hth, Hk. subst th1. by apply Hkeep.
  - done.
Qed.

(** A process that waits for something that comes, with the states [K] before
    the wait is over and [K'] after it. *)
Lemma answers_waiting (K K' : S -> Prop) w k :
  (forall s c', K s -> others (Waiting w k, s) c' ->
     (c'.1 = Waiting w k /\ K c'.2) \/ (c'.1 = Ready k /\ K' c'.2)) ->
  (forall s c', K' s -> others (Ready k, s) c' -> c'.1 = Ready k /\ K' c'.2) ->
  (forall s, K s -> wakes true w s = true /\ K' (deliver s)) ->
  (forall s, K' s -> answers (Ready k, s)) ->
  forall s, K s -> answers (Waiting w k, s).
Proof using others_count.
  intros Hkeep Hkeep' Hwake Hready s Hs. constructor. intros c1 Hr.
  pose proof (rtc_count _ _ others_count Hr) as Hcount.
  apply (rtc_keeps (fun c => (c.1 = Waiting w k /\ K c.2) \/ (c.1 = Ready k /\ K' c.2))) in Hr
    as [[Hth Hk]|[Hth Hk]]; [..|by left].
  - right. destruct c1 as [th1 s1]. cbn in Hth, Hk. subst th1.
    destruct (Hwake s1 Hk) as [Hw Hk']. unfold advance, notify_phase. cbn. rewrite Hw. by apply Hready.
  - destruct c1 as [th1 s1]. cbn in Hth, Hk. subst th1. destruct (Hready s1 Hk) as [Hnext].
    cbn [snd] in Hcount |- *. rewrite <- Hcount. apply (Hnext (Ready k, s1)), rtc_refl.
  - intros [th1 s1] c2 [[Hth Hk]|[Hth Hk]] Ho; cbn in Hth, Hk; subst th1; [by eapply Hkeep|].
    right. by eapply Hkeep'.
Qed.
End Answers.
