(* ===== verification/Scheduler.v ===== *)
(** * Pools of processes

    The processes of a simulation share its state and run one at a time, each
    from one suspension to the next; which of the processes that may run is
    resumed is open.  [resume] is that step.  [twp] is a program logic for one
    process of a pool: every process carries a label, the other processes are
    only known to keep that label and an invariant over all labels and the
    state, and whenever the process suspends it chooses its next label and
    re-establishes the invariant.  [pool_inv_resume] composes the processes:
    a pool whose processes are all verified keeps the invariant and never
    faults, whatever the scheduler does.  A development in which some fault is
    an outcome to be described says so by an instance of [Tolerated], and
    [pool_resume] is the composition for it; without one no fault is. *)

From S2P Require Import Prelude Tlm Kernel.
From stdpp Require Import base list relations.
#[local] Open Scope Z_scope.

(** ** Definitions *)

(** The state a run leaves: at its suspension or at its end. *)
Definition state_of {E S A} (p : prog E S A) : res S :=
  match p with
  | Ret s _ => Ok s
  | Fail f => Err f
  | Wait _ s _ => Ok s
  end.

Record pool (E S : Type) : Type := mk_pool {
  shared : S;
  threads : list (prog E S unit);
}.
Arguments mk_pool {E S} shared threads.
Arguments shared {E S} _.
Arguments threads {E S} _.

(** A process made runnable, before its first instruction. *)
Definition boot {E S} (m : proc E S unit) (s : S) : prog E S unit := Wait (Wait_time 0) s m.

(** [proc] on a part of the state, as a [proc] on the whole. *)
Fixpoint focus_prog {E E' S S' A} (tag : wait_on E -> wait_on E') (get : S' -> S) (put : S -> S')
  (p : prog E S A) : prog E' S' A :=
  match p with
  | Ret s a => Ret (put s) a
  | Fail f => Fail f
  | Wait w s k => Wait (tag w) (put s) (fun s' => focus_prog tag get put (k (get s')))
  end.

Definition focus {E E' S S' A} (tag : wait_on E -> wait_on E') (get : S' -> S) (put : S -> S')
  (m : proc E S A) : proc E' S' A := fun s => focus_prog tag get put (m (get s)).

(** The faults with which a run may end. *)
Class Tolerated : Type := tolerated : fault -> Prop.

(** Unless something else is said, none. *)
#[export] Instance no_fault : Tolerated | 100 := fun _ => False.

Section Scheduler.
Context {E S : Type}.

(** [ready n w s0 s]: process [n], suspended on [w] in state [s0], may be
    resumed in state [s]. *)
Context (ready : nat -> wait_on E -> S -> S -> Prop).

Definition after (n : nat) (p : prog E S unit) (c : pool E S) : res (pool E S) :=
  s ← state_of p; Ok (mk_pool s (<[n := p]> c.(threads))).

Inductive resume (c : pool E S) (n : nat) : res (pool E S) -> Prop :=
| resume_intro w s0 k :
    c.(threads) !! n = Some (Wait w s0 k) -> ready n w s0 c.(shared) ->
    resume c n (after n (k c.(shared)) c).

(** *** The logic *)
Context {L : Type}.
Context (Inv : list L -> S -> Prop).            (* over all labels and the state *)
Context (guar : S -> S -> Prop).                (* what one run may do *)
Context (waits : L -> wait_on E -> S -> Prop).  (* what a process with this label waits for *)
Context (final : L -> Prop).                    (* labels of finished processes *)
Context {may_fail : Tolerated}.

Definition publish (n : nat) (ls : list L) (s0 : S) (l : L) (s : S) : Prop :=
  guar s0 s /\ Inv (<[n := l]> ls) s.

(** [twp n ls s0 p Q]: process [n], resumed with the labels [ls] in state [s0],
    is at [p]. *)
Fixpoint twp {A} (n : nat) (ls : list L) (s0 : S) (p : prog E S A)
  (Q : list L -> S -> A -> S -> Prop) : Prop :=
  match p with
  | Ret s a => Q ls s0 a s
  | Fail f => tolerated f
  | Wait w s k =>
      exists l, publish n ls s0 l s /\ waits l w s /\
        forall ls' s', ls' !! n = Some l -> Inv ls' s' -> ready n w s s' ->
          twp n ls' s' (k s') Q
  end.

Definition finished (n : nat) (ls : list L) (s0 : S) (_ : unit) (s : S) : Prop :=
  exists l, publish n ls s0 l s /\ final l.

Definition thread_ok (n : nat) (l : L) (p : prog E S unit) : Prop :=
  match p with
  | Ret _ _ => final l
  | Fail _ => False
  | Wait w s k =>
      waits l w s /\
      forall ls' s', ls' !! n = Some l -> Inv ls' s' -> ready n w s s' ->
        twp n ls' s' (k s') (finished n)
  end.

Record pool_inv (ls : list L) (c : pool E S) : Prop := mk_pool_inv {
  pool_state : Inv ls c.(shared);
  pool_length : length ls = length c.(threads);
  pool_threads : forall n l p, ls !! n = Some l -> c.(threads) !! n = Some p -> thread_ok n l p;
}.

(** ** Lemmas *)

Lemma twp_mono {A} n (p : prog E S A) (Q Q' : list L -> S -> A -> S -> Prop) :
  (forall ls s0 a s, Q ls s0 a s -> Q' ls s0 a s) ->
  forall ls s0, twp n ls s0 p Q -> twp n ls s0 p Q'.
Proof.
  intros HQ. induction p as [s a|f|w s k IH]; cbn; intros ls s0; auto.
  intros (l & Hp & Hw & Hk). exists l. split_and!; [done|done|]. intros ls' s' Hl HI Hr.
  by apply IH, Hk.
Qed.

Lemma twp_prog_bind {A B} n (p : prog E S A) (k : A -> proc E S B) Q :
  forall ls s0, twp n ls s0 p (fun ls s0 a s => twp n ls s0 (k a s) Q) ->
  twp n ls s0 (prog_bind p k) Q.
Proof.
  induction p as [s a|f|w s c IH]; cbn; intros ls s0; auto.
  intros (l & Hp & Hw & Hk). exists l. split_and!; [done|done|]. intros ls' s' Hl HI Hr.
  by apply IH, Hk.
Qed.

Lemma twp_bind {A B} n (m : proc E S A) (k : A -> proc E S B) ls s0 s Q :
  twp n ls s0 (m s) (fun ls s0 a s => twp n ls s0 (k a s) Q) ->
  twp n ls s0 ((m ≫= k) s) Q.
Proof. apply twp_prog_bind. Qed.

(** Suspending with the label [l]. *)
Lemma twp_wait n l w ls s0 s (Q : list L -> S -> unit -> S -> Prop) :
  publish n ls s0 l s -> waits l w s ->
  (forall ls' s', ls' !! n = Some l -> Inv ls' s' -> ready n w s s' -> Q ls' s' tt s') ->
  twp n ls s0 (p_wait w s) Q.
Proof. intros Hp Hw HQ. exists l. split_and!; [done|done|]. intros ls' s' Hl HI Hr. by apply HQ. Qed.

Lemma twp_lift {A} n (r : res A) a ls s0 s (Q : list L -> S -> A -> S -> Prop) :
  r = Ok a -> Q ls s0 a s -> twp n ls s0 (p_lift r s) Q.
Proof. by intros ->. Qed.

Lemma twp_step {A} n (f : S -> res (S * A)) s' a ls s0 s (Q : list L -> S -> A -> S -> Prop) :
  f s = Ok (s', a) -> Q ls s0 a s' -> twp n ls s0 (p_step f s) Q.
Proof. intros Hf HQ. unfold p_step. by rewrite Hf. Qed.

(** Keeping the label. *)
Lemma publish_same n ls s0 l s :
  ls !! n = Some l -> guar s0 s -> Inv ls s -> publish n ls s0 l s.
Proof. intros Hl Hg HI. split; [done|]. by rewrite list_insert_id. Qed.

(** Where a run of a verified process stops, the process is verified again. *)
Lemma twp_stops n ls s0 (p : prog E S unit) :
  twp n ls s0 p (finished n) ->
  (exists f, p = Fail f /\ tolerated f) \/
  exists l s, state_of p = Ok s /\ publish n ls s0 l s /\ thread_ok n l p.
Proof.
  destruct p as [s []|f|w s k]; cbn.
  - intros (l & Hp & Hf). right. by exists l, s.
  - intros Hf. left. by exists f.
  - intros (l & Hp & Hw & Hk). right. by exists l, s.
Qed.

Theorem pool_resume ls c n r :
  pool_inv ls c -> resume c n r ->
  (exists f, r = Err f /\ tolerated f) \/
  exists l c', r = Ok c' /\ pool_inv (<[n := l]> ls) c' /\ guar c.(shared) c'.(shared) /\
    length c'.(threads) = length c.(threads).
Proof.
  intros [HI Hlen Hts] [w s0 k Hn Hr].
  destruct (lookup_lt_is_Some_2 ls n) as [l Hl].
  { rewrite Hlen. by eapply lookup_lt_Some. }
  destruct (Hts n l _ Hl Hn) as [_ Hk].
  destruct (twp_stops n ls _ _ (Hk ls _ Hl HI Hr)) as [(f & Hs & Hf)|(l' & s & Hs & [Hg HI'] & Hok)].
  { left. exists f. split; [|done]. unfold after. by rewrite Hs. }
  right. exists l', (mk_pool s (<[n := k c.(shared)]> c.(threads))). unfold after. rewrite Hs.
  split_and!; [done| |done|cbn; by rewrite length_insert]. split; cbn.
  - done.
  - rewrite !length_insert. exact Hlen.
  - intros m lm p. destruct (decide (m = n)) as [->|Hne].
    + rewrite !list_lookup_insert_eq; [|by eapply lookup_lt_Some|by eapply lookup_lt_Some].
      by intros [= <-] [= <-].
    + rewrite !list_lookup_insert_ne by done. apply Hts.
Qed.

(** A step of the kernel that leaves the processes alone. *)
Lemma pool_inv_kernel ls c s :
  pool_inv ls c -> Inv ls s -> pool_inv ls (mk_pool s c.(threads)).
Proof. intros [HI Hlen Hts] HI'. by split. Qed.

Lemma pool_inv_spawn ls c s l p :
  pool_inv ls c -> Inv (ls ++ [l]) s -> thread_ok (length ls) l p ->
  pool_inv (ls ++ [l]) (mk_pool s (c.(threads) ++ [p])).
Proof.
  intros [HI Hlen Hts] HI' Hp. split; cbn; [done|by rewrite !length_app, Hlen|].
  intros n l' p' Hl' Hp'. cbn [threads] in Hp'. destruct (decide (n < length ls)%nat) as [Hn|Hn].
  - rewrite lookup_app_l in Hl' by lia. rewrite lookup_app_l in Hp' by lia. by apply Hts.
  - pose proof (lookup_lt_Some _ _ _ Hl') as Hlt. rewrite length_app in Hlt. cbn in Hlt.
    assert (n = length ls) as -> by lia.
    rewrite lookup_app_r, Nat.sub_diag in Hl' by lia. rewrite lookup_app_r, Hlen, Nat.sub_diag in Hp' by lia.
    cbn in *. by simplify_eq.
Qed.
End Scheduler.

(** Where no fault is tolerated. *)
Theorem pool_inv_resume {E S L : Type} (ready : nat -> wait_on E -> S -> S -> Prop)
    (Inv : list L -> S -> Prop) guar waits final ls c n r :
  pool_inv ready Inv guar waits final (may_fail := no_fault) ls c -> resume ready c n r ->
  exists l c', r = Ok c' /\ pool_inv ready Inv guar waits final (may_fail := no_fault) (<[n := l]> ls) c' /\
    guar c.(shared) c'.(shared) /\ length c'.(threads) = length c.(threads).
Proof. intros Hp Hr. destruct (pool_resume _ _ _ _ _ _ _ _ _ Hp Hr) as [(f & _ & Hf)|H]; [destruct Hf|done]. Qed.

(** ** Runs inside a part of the state

    [focus] again: [ftwp] is [twp] of a focused process, stated of the states
    of the part. *)

Section Focus.
Context {E E' S S' L : Type} (tag : wait_on E -> wait_on E') (get : S' -> S) (put : S -> S').
Context (ready : nat -> wait_on E' -> S' -> S' -> Prop).
Context (Inv : list L -> S' -> Prop) (guar : S' -> S' -> Prop).
Context (waits : L -> wait_on E' -> S' -> Prop) {may_fail : Tolerated}.

Fixpoint ftwp {A} (n : nat) (ls : list L) (s0 : S') (p : prog E S A)
  (Q : list L -> S' -> A -> S -> Prop) : Prop :=
  match p with
  | Ret s a => Q ls s0 a s
  | Fail _ => False
  | Wait w s k =>
      exists l, publish Inv guar n ls s0 l (put s) /\ waits l (tag w) (put s) /\
        forall ls' s', ls' !! n = Some l -> Inv ls' s' -> ready n (tag w) (put s) s' ->
          ftwp n ls' s' (k (get s')) Q
  end.

Lemma ftwp_focus {A} n (p : prog E S A) (Q : list L -> S' -> A -> S' -> Prop) : forall ls s0,
  ftwp n ls s0 p (fun ls s0 a s => Q ls s0 a (put s)) ->
  twp ready Inv guar waits n ls s0 (focus_prog tag get put p) Q.
Proof.
  induction p as [s a|f|w s k IH]; cbn; intros ls s0; [done|done|].
  intros (l & Hp & Hw & Hk). exists l. split_and!; [done|done|]. intros ls' s' Hl HI Hr.
  by apply IH, Hk.
Qed.

Lemma ftwp_mono {A} n (p : prog E S A) (Q Q' : list L -> S' -> A -> S -> Prop) :
  (forall ls s0 a s, Q ls s0 a s -> Q' ls s0 a s) ->
  forall ls s0, ftwp n ls s0 p Q -> ftwp n ls s0 p Q'.
Proof.
  intros HQ. induction p as [s a|f|w s k IH]; cbn; intros ls s0; auto.
  intros (l & Hp & Hw & Hk). exists l. split_and!; [done|done|]. intros ls' s' Hl HI Hr.
  by apply IH, Hk.
Qed.

Lemma ftwp_prog_bind {A B} n (p : prog E S A) (k : A -> proc E S B) Q : forall ls s0,
  ftwp n ls s0 p (fun ls s0 a s => ftwp n ls s0 (k a s) Q) -> ftwp n ls s0 (prog_bind p k) Q.
Proof.
  induction p as [s a|f|w s c IH]; cbn; intros ls s0; auto.
  intros (l & Hp & Hw & Hk). exists l. split_and!; [done|done|]. intros ls' s' Hl HI Hr.
  by apply IH, Hk.
Qed.

Lemma ftwp_bind {A B} n (m : proc E S A) (k : A -> proc E S B) ls s0 s Q :
  ftwp n ls s0 (m s) (fun ls s0 a s => ftwp n ls s0 (k a s) Q) -> ftwp n ls s0 ((m ≫= k) s) Q.
Proof. apply ftwp_prog_bind. Qed.

Lemma ftwp_step {A} n (f : S -> res (S * A)) s' a ls s0 s (Q : list L -> S' -> A -> S -> Prop) :
  f s = Ok (s', a) -> Q ls s0 a s' -> ftwp n ls s0 (p_step f s) Q.
Proof. intros Hf HQ. unfold p_step. by rewrite Hf. Qed.

Lemma ftwp_wait n l w ls s0 s (Q : list L -> S' -> unit -> S -> Prop) :
  publish Inv guar n ls s0 l (put s) -> waits l (tag w) (put s) ->
  (forall ls' s', ls' !! n = Some l -> Inv ls' s' -> ready n (tag w) (put s) s' ->
     Q ls' s' tt (get s')) ->
  ftwp n ls s0 (p_wait w s) Q.
Proof. intros Hp Hw HQ. by exists l. Qed.

(** The labels, the state at the last suspension and a ghost of its own are the
    ghost state of a process that runs inside a part. *)
Context {Ghost : Type}.

Definition ghost_wp (n : nat) (A : Type) (γ : list L * S' * Ghost) (p : prog E S A)
  (Q : list L * S' * Ghost -> A -> S -> Prop) : Prop :=
  ftwp n γ.1.1 γ.1.2 p (fun ls s0 a s => exists g, Q (ls, s0, g) a s).

#[export] Instance ghost_logic n : Logic (ghost_wp n).
Proof.
  split.
  - intros A [[ls s0] g] s a Q HQ. by exists g.
  - intros A B [[ls s0] g] p k Q Hp. apply ftwp_prog_bind. eapply ftwp_mono; [|exact Hp].
    intros ls' s0' a s (g' & Hg'). exact Hg'.
Qed.
End Focus.

(** ** Runs on a part of the state that knows nothing of the rest *)

Fixpoint within_prog {E S S' A} (get : S' -> S) (put : S -> S' -> S') (s0 : S') (p : prog E S A) :
  prog E S' A :=
  match p with
  | Ret s a => Ret (put s s0) a
  | Fail f => Fail f
  | Wait w s k => Wait w (put s s0) (fun s' => within_prog get put s' (k (get s')))
  end.

Definition within {E S S' A} (get : S' -> S) (put : S -> S' -> S') (m : proc E S A) : proc E S' A :=
  fun s => within_prog get put s (m (get s)).

Section Within.
Context {E S S' L : Type} (get : S' -> S) (put : S -> S' -> S').
Context (ready : nat -> wait_on E -> S' -> S' -> Prop).
Context (Inv : list L -> S' -> Prop) (guar : S' -> S' -> Prop).
Context (waits : L -> wait_on E -> S' -> Prop) {may_fail : Tolerated}.

(** [twp] of such a run, stated of the states of the part. *)
Fixpoint wtwp {A} (n : nat) (ls : list L) (s0 : S') (p : prog E S A)
  (Q : list L -> S' -> A -> S -> Prop) : Prop :=
  match p with
  | Ret s a => Q ls s0 a s
  | Fail _ => False
  | Wait w s k =>
      exists l, publish Inv guar n ls s0 l (put s s0) /\ waits l w (put s s0) /\
        forall ls' s', ls' !! n = Some l -> Inv ls' s' -> ready n w (put s s0) s' ->
          wtwp n ls' s' (k (get s')) Q
  end.

Lemma wtwp_within {A} n (p : prog E S A) (Q : list L -> S' -> A -> S' -> Prop) : forall ls s0,
  wtwp n ls s0 p (fun ls s0 a s => Q ls s0 a (put s s0)) ->
  twp ready Inv guar waits n ls s0 (within_prog get put s0 p) Q.
Proof.
  induction p as [s a|f|w s k IH]; cbn; intros ls s0; [done|done|].
  intros (l & Hp & Hw & Hk). exists l. split_and!; [done|done|]. intros ls' s' Hl HI Hr.
  by apply IH, Hk.
Qed.

Lemma wtwp_bind {A B} n (m : proc E S A) (k : A -> proc E S B) s Q : forall ls s0,
  wtwp n ls s0 (m s) (fun ls s0 a s => wtwp n ls s0 (k a s) Q) -> wtwp n ls s0 ((m ≫= k) s) Q.
Proof.
  unfold mbind, proc_bind. induction (m s) as [s1 a|f|w s1 c IH]; cbn; intros ls s0; auto.
  intros (l & Hp & Hw & Hk). exists l. split_and!; [done|done|]. intros ls' s' Hl HI Hr.
  by apply IH, Hk.
Qed.
End Within.

(** ** Who may run, and when *)

Section Ready.
Context {E S : Type} (ready : nat -> wait_on E -> S -> S -> Prop) (clock : S -> sc_time).

Definition is_ready (c : pool E S) (n : nat) : Prop :=
  exists w s0 k, c.(threads) !! n = Some (Wait w s0 k) /\ ready n w s0 c.(shared).

(** The times for which a process waits. *)
Definition due (c : pool E S) (t : Z) : Prop :=
  exists n d s0 k, c.(threads) !! n = Some (Wait (Wait_time d) s0 k) /\ t = clock s0 + d.

Lemma some_ready `{Hdec : forall n w s0 s, Decision (ready n w s0 s)} c :
  (exists n, is_ready c n) \/ (forall n, ~ is_ready c n).
Proof.
  assert (Hd : forall n, Decision (is_ready c n)).
  { intros n. destruct (threads c !! n) as [[s a|f|w s0 k]|] eqn:Hn.
    1, 2, 4: right; intros (w' & s' & k' & H & _); congruence.
    destruct (Hdec n w s0 (shared c)) as [Hr|Hr].
    - left. by exists w, s0, k.
    - right. intros (w' & s' & k' & H & Hr'). rewrite Hn in H. injection H as <- <- _. done. }
  destruct (decide (Exists (is_ready c) (seq 0 (length (threads c))))) as [H|H].
  - left. apply Exists_exists in H as (n & _ & H). by exists n.
  - right. intros n Hn. apply H, Exists_exists. exists n. split; [|done].
    apply elem_of_seq. destruct Hn as (w & s0 & k & Hn & _). apply lookup_lt_Some in Hn. lia.
Qed.

Definition thread_due (p : prog E S unit) : list Z :=
  match p with Wait (Wait_time d) s0 _ => [clock s0 + d] | _ => [] end.

Lemma due_list c t : due c t <-> t ∈ mjoin (thread_due <$> c.(threads)).
Proof.
  rewrite list_elem_of_join. split.
  - intros (n & d & s0 & k & Hn & ->). exists [clock s0 + d]. split; [by apply list_elem_of_singleton|].
    apply list_elem_of_fmap. eexists. split; [|by eapply list_elem_of_lookup_2]. done.
  - intros (l & Ht & Hl). apply list_elem_of_fmap in Hl as (x & -> & Hx).
    destruct x as [| |[d| |] s0 k]; cbn in Ht; try by apply elem_of_nil in Ht.
    apply list_elem_of_singleton in Ht as ->. apply list_elem_of_lookup in Hx as [n Hn].
    by exists n, d, s0, k.
Qed.

Lemma due_minimum c t : due c t -> exists m, due c m /\ forall t', due c t' -> m <= t'.
Proof.
  intros Ht%due_list. destruct (list_minimum _ _ Ht) as (m & Hm%due_list & Hmin).
  exists m. split; [done|]. intros t' Ht'%due_list. by apply Hmin.
Qed.

(** The last time for which a process waits. *)
Definition horizon (c : pool E S) : Z := foldr Z.max 0 (mjoin (thread_due <$> c.(threads))).

Lemma horizon_due c t : due c t -> t <= horizon c.
Proof.
  intros Ht%due_list. unfold horizon. induction Ht as [t l|t u l _ IH]; cbn; lia.
Qed.

(** Time does not overtake what a resumed process waits for. *)
Lemma resume_timely_or {L} (Inv : list L -> S -> Prop) guar waits final {may_fail : Tolerated} ls c n r :
  (forall l d s, waits l (Wait_time d) s -> 0 <= d) ->
  (forall s s', guar s s' -> clock s' = clock s) ->
  pool_inv ready Inv guar waits final ls c -> (forall t, due c t -> clock c.(shared) <= t) ->
  resume ready c n r ->
  (exists f, r = Err f /\ tolerated f) \/
  exists l c', r = Ok c' /\ pool_inv ready Inv guar waits final (<[n := l]> ls) c' /\
    guar c.(shared) c'.(shared) /\ (forall t, due c' t -> clock c'.(shared) <= t).
Proof.
  intros Hnonneg Hclock Hpool Htimely Hres.
  destruct (pool_resume _ _ _ _ _ _ _ _ _ Hpool Hres) as [Hf|(l & c' & -> & Hpool' & Hguar & Hlen)]; [by left|].
  right. exists l, c'. split_and!; [done..|]. pose proof (Hclock _ _ Hguar) as Htime.
  inversion Hres as [w s1 k Hn Hr Heq]. unfold after in Heq.
  destruct (state_of (k (shared c))) as [s'|] eqn:Hs; [|done]. injection Heq as Heq. subst c'.
  cbn [shared threads] in *. intros t (j & d & s0 & f & Hj & ->). cbn [threads] in Hj.
  destruct (decide (j = n)) as [->|Hne].
  - pose proof (lookup_lt_Some _ _ _ Hn) as Hlt.
    assert (Hl : <[n := l]> ls !! n = Some l).
    { apply list_lookup_insert_eq. rewrite (pool_length _ _ _ _ _ _ _ Hpool). done. }
    pose proof (pool_threads _ _ _ _ _ _ _ Hpool' n l _ Hl Hj) as [Hw _].
    rewrite list_lookup_insert_eq in Hj by done. injection Hj as Hj. rewrite Hj in Hs. injection Hs as <-.
    apply Hnonneg in Hw. lia.
  - rewrite Htime. apply Htimely. rewrite list_lookup_insert_ne in Hj by done. by exists j, d, s0, f.
Qed.

Lemma resume_timely {L} (Inv : list L -> S -> Prop) guar waits final ls c n r :
  (forall l d s, waits l (Wait_time d) s -> 0 <= d) ->
  (forall s s', guar s s' -> clock s' = clock s) ->
  pool_inv ready Inv guar waits final (may_fail := no_fault) ls c ->
  (forall t, due c t -> clock c.(shared) <= t) -> resume ready c n r ->
  exists l c', r = Ok c' /\ pool_inv ready Inv guar waits final (may_fail := no_fault) (<[n := l]> ls) c' /\
    guar c.(shared) c'.(shared) /\ (forall t, due c' t -> clock c'.(shared) <= t).
Proof.
  intros Hnonneg Hclock Hp Ht Hr.
  destruct (resume_timely_or _ _ _ _ _ _ _ _ Hnonneg Hclock Hp Ht Hr) as [(f & _ & Hf)|H]; [destruct Hf|done].
Qed.

Lemma pool_thread {L} (Inv : list L -> S -> Prop) guar waits final {may_fail : Tolerated} ls c n l :
  pool_inv ready Inv guar waits final ls c -> ls !! n = Some l ->
  exists p, c.(threads) !! n = Some p /\ thread_ok ready Inv guar waits final n l p.
Proof.
  intros [HI Hlen Hts] Hl. destruct (lookup_lt_is_Some_2 c.(threads) n) as [p Hp].
  { rewrite <- Hlen. by eapply lookup_lt_Some. }
  exists p. split; [done|]. by eapply Hts.
Qed.
End Ready.

(** ** Termination: a resumed process is a proper part of what it was *)

Definition continues {E S A} (p' p : prog E S A) : Prop :=
  exists w s0 k s, p = Wait w s0 k /\ p' = k s.

Lemma continues_wf {E S A} : well_founded (@continues E S A).
Proof.
  intros p. induction p as [s a|f|w s k IH]; constructor; intros p' (w' & s0 & k' & s' & H & ->);
    [done|done|]. injection H as -> -> <-. apply IH.
Qed.

(** One of the processes of a pool is resumed. *)
Definition one_continues {E S A} (ts' ts : list (prog E S A)) : Prop :=
  exists n p p', ts !! n = Some p /\ continues p' p /\ ts' = <[n := p']> ts.

Lemma one_continues_wf {E S A} : well_founded (@one_continues E S A).
Proof.
  intros ts. induction ts as [|p ts IH].
  - constructor. intros ts' (n & p & p' & Hn & _). by rewrite lookup_nil in Hn.
  - revert ts IH. induction (continues_wf p) as [p _ IHp]. intros ts Hts.
    induction Hts as [ts Hts IHts]. constructor. intros ts' (n & q & q' & Hn & Hq & ->).
    destruct n as [|n]; cbn in *.
    + injection Hn as ->. apply IHp; [done|]. by constructor.
    + apply IHts. by exists n, q, q'.
Qed.

Lemma resume_continues {E S} (ready : nat -> wait_on E -> S -> S -> Prop) c n c' :
  resume ready c n (Ok c') -> one_continues c'.(threads) c.(threads).
Proof.
  inversion 1 as [w s0 k Hn Hr Heq]. unfold after in Heq. destruct (state_of _) as [s|]; [|done].
  injection Heq as <-. exists n, (Wait w s0 k), (k c.(shared)). split_and!; [done| |done].
  by exists w, s0, k, c.(shared).
Qed.

(** What has to be done between resumptions takes finitely many steps. *)
Definition closer {E S} (pending : pool E S -> nat) (c' c : pool E S) : Prop :=
  one_continues c'.(threads) c.(threads) \/
  (c'.(threads) = c.(threads) /\ (pending c' < pending c)%nat).

Lemma closer_wf {E S} (pending : pool E S -> nat) : well_founded (@closer E S pending).
Proof.
  intros c. remember (threads c) as ts eqn:Hts. revert c Hts.
  induction (one_continues_wf ts) as [ts _ IHts]. intros c ->.
  remember (pending c) as n eqn:Hn. revert c Hn IHts.
  induction n as [n IHn] using lt_wf_ind. intros c -> IHts. constructor.
  intros c' [Hone|(Hsame & Hlt)].
  - by eapply IHts.
  - eapply IHn; [exact Hlt|done|]. by rewrite Hsame.
Qed.

(** A measure above a well-founded relation. *)
Lemma measured_wf {A} (f : A -> nat) (R : A -> A -> Prop) :
  well_founded R -> well_founded (fun x' x => (f x' < f x)%nat \/ (f x' = f x /\ R x' x)).
Proof.
  intros HR x. remember (f x) as n eqn:Hn. revert x Hn. induction n as [n IHn] using lt_wf_ind.
  intros x Hn. revert Hn. induction (HR x) as [x _ IHx]. intros ->. constructor.
  intros x' [Hlt|[He HR']]; [by eapply IHn|]. by apply IHx.
Qed.

(** ** Runs of a system *)

Section Reachable.
Context {C : Type} (step : C -> res C -> Prop).

Definition steps_to (r r' : res C) : Prop := exists c, r = Ok c /\ step c r'.

(** What every step keeps holds in every reachable state, which is no fault. *)
Lemma steps_keep (P : C -> Prop) r0 r :
  (forall c r', P c -> step c r' -> exists c', r' = Ok c' /\ P c') ->
  (exists c, r0 = Ok c /\ P c) -> rtc steps_to r0 r -> exists c, r = Ok c /\ P c.
Proof.
  intros HP Hstart Hr. induction Hr as [|r0 r1 r2 (c0 & -> & Hs) _ IH]; [done|]. apply IH.
  destruct Hstart as (c & [= <-] & Hc). by eapply HP.
Qed.

(** Where no step is possible. *)
Lemma steps_stuck c : nf steps_to (Ok c) -> forall r, ~ step c r.
Proof. intros Hnf r Hs. apply Hnf. exists r. by exists c. Qed.
End Reachable.
