(* ===== verification/Report.v ===== *)
(** * Report messages (lt/systemc/third-party/systemc-lt-example/report.cpp)

    The strings the loosely-timed example logs.  They matter to the model in
    one way: [print] dereferences the data pointer as a 32-bit word, so
    reporting a transaction reads four bytes whatever its length is. *)

From S2P Require Import Prelude Tlm.
From Stdlib Require Import Ascii String.
From stdpp Require Import base numbers list strings pretty.
#[local] Open Scope string_scope.
#[local] Open Scope Z_scope.

(** ** Definitions *)

Definition hex_digit (d : Z) : Ascii.ascii :=
  default "?"%char (String.get (Z.to_nat d) "0123456789ABCDEF"%string).

(** Upper-case hexadecimal digits, most significant first, [n] of them. *)
Fixpoint hex_digits (n : nat) (x : Z) (acc : string) : string :=
  match n with
  | O => acc
  | S n' => hex_digits n' (x / 16) (String (hex_digit (x mod 16)) acc)
  end.

(** [setw(w) << setfill('0') << hex << x]: at least [w] digits. *)
Definition hex_width (w : nat) (x : Z) : nat :=
  Nat.max w (Z.to_nat (Z.log2 x / 4 + 1)).
Definition hex_pad (w : nat) (x : Z) : string := hex_digits (hex_width w x) x "".

(** [setw(w) << setfill('0') << dec << x]. *)
Definition dec_pad (w : nat) (x : Z) : string :=
  let s := pretty x in
  String.concat "" (replicate (w - String.length s) "0"%string) +:+ s.

Definition newline : string := String (Ascii.ascii_of_nat 10) "".

Section Unknown.
(** How the library prints a phase that is none of the four. *)
Context (phase_name : tlm_phase -> string).

Definition print_phase (phase : tlm_phase) : string :=
  match phase with
  | BEGIN_REQ => "BEGIN_REQ"
  | END_REQ => "END_REQ"
  | BEGIN_RESP => "BEGIN_RESP"
  | END_RESP => "END_RESP"
  | _ => "UNKNOWN_" +:+ phase_name phase
  end.
End Unknown.

Definition print_sync (status : tlm_sync_enum) : string :=
  match status with
  | TLM_COMPLETED => "COMPLETED"
  | TLM_UPDATED => "UPDATED"
  | TLM_ACCEPTED => "ACCEPTED"
  end.

Definition print_status (status : tlm_response_status) : string :=
  match status with
  | TLM_OK_RESPONSE => "OK_RESPONSE"
  | TLM_INCOMPLETE_RESPONSE => "INCOMPLETE_RESPONSE"
  | TLM_GENERIC_ERROR_RESPONSE => "GENERIC_ERROR_RESPONSE"
  | TLM_ADDRESS_ERROR_RESPONSE => "ADDRESS_ERROR_RESPONSE"
  | TLM_COMMAND_ERROR_RESPONSE => "COMMAND_ERROR_RESPONSE"
  | TLM_BURST_ERROR_RESPONSE => "BURST_ERROR_RESPONSE"
  | TLM_BYTE_ENABLE_ERROR_RESPONSE => "BYTE_ENABLE_ERROR_RESPONSE"
  end.

Definition print_command (c : tlm_command) : string :=
  match c with TLM_WRITE_COMMAND => "WRITE" | _ => "READ" end.

(** The part [print] and [print_full] share. *)
Definition print_header (ID : Z) (gp : payload) : string :=
  "ID: " +:+ pretty ID +:+ " COMMAND: " +:+ print_command gp.(command) +:+
  " Length: " +:+ dec_pad 2 gp.(data_length) +:+ newline +:+
  "      Addr: 0x" +:+ hex_pad 16 gp.(address) +:+ " Data: 0x".

Definition print (ID : Z) (gp : payload) : res string :=
  w ← data_word 4 gp;
  Ok (print_header ID gp +:+ hex_pad 8 w).

(** [print_full] reads [print_data[3]] down to [print_data[0]] instead. *)
Definition print_full (response_string : tlm_response_status -> string)
  (ID : Z) (gp : payload) : res string :=
  match gp.(data) with
  | None => Err Undefined_behaviour
  | Some d =>
      b3 ← get_byte d 3; b2 ← get_byte d 2; b1 ← get_byte d 1; b0 ← get_byte d 0;
      Ok (print_header ID gp
          +:+ hex_pad 2 b3 +:+ hex_pad 2 b2 +:+ hex_pad 2 b1 +:+ hex_pad 2 b0
          +:+ newline +:+ "      " +:+ "RSP STATUS = "
          +:+ response_string gp.(response_status)
          +:+ " STREAMING WIDTH = " +:+ pretty gp.(streaming_width)
          +:+ newline +:+ "      " +:+ "DMI ALLOWED = "
          +:+ (if gp.(dmi_allowed) then "1" else "0")
          +:+ newline +:+ "      " +:+ "BYTE ENABLE LENGTH = "
          +:+ pretty gp.(byte_enable_length))
  end.

Example hex_pad_addr : hex_pad 16 0x110000004 = "0000000110000004"%string.
Proof. reflexivity. Qed.

Example print_write :
  print 201 (set_command TLM_WRITE_COMMAND (set_address 4 (set_data_length 4
    (set_data (Some [0xEF; 0xBE; 0xAD; 0xDE]) new_payload)))) =
  Ok ("ID: 201 COMMAND: WRITE Length: 04" +:+ newline +:+
      "      Addr: 0x0000000000000004 Data: 0xDEADBEEF")%string.
Proof. reflexivity. Qed.

(** ** Lemmas *)

(** Reporting succeeds exactly when the buffer holds a 32-bit word. *)
Lemma print_Ok ID gp d :
  gp.(data) = Some d -> (4 <= length d)%nat -> exists s, print ID gp = Ok s.
Proof.
  intros Hd Hl. unfold print, data_word.
  rewrite (data_read_Ok gp d) by (done || lia). rewrite !bind_Ok. eauto.
Qed.

Lemma print_UB ID gp d :
  gp.(data) = Some d -> (length d < 4)%nat -> print ID gp = Err Undefined_behaviour.
Proof.
  intros Hd Hl. unfold print, data_word, data_read, load. rewrite Hd.
  change (Z.of_nat 4) with 4.
  destruct (in_block d 0 4) eqn:E; [|done]. apply in_block_iff in E. lia.
Qed.

(** Value of a string of upper-case hexadecimal digits. *)
Definition hex_value (c : Ascii.ascii) : Z :=
  let n := Z.of_nat (Ascii.nat_of_ascii c) in if n <? 65 then n - 48 else n - 55.

Fixpoint hex_parse (acc : Z) (s : string) : Z :=
  match s with
  | EmptyString => acc
  | String c s' => hex_parse (16 * acc + hex_value c) s'
  end.

Lemma hex_value_digit d : 0 <= d < 16 -> hex_value (hex_digit d) = d.
Proof.
  intros Hd.
  assert (Forall (fun d => hex_value (hex_digit d) = d) (seqZ 0 16)) as Hall.
  { repeat constructor. }
  rewrite Forall_forall in Hall. apply Hall, elem_of_seqZ. lia.
Qed.

Lemma hex_parse_digits n x acc s :
  0 <= x < 16 ^ Z.of_nat n ->
  hex_parse acc (hex_digits n x s) = hex_parse (acc * 16 ^ Z.of_nat n + x) s.
Proof.
  revert x acc s. induction n as [|n IH]; intros x acc s Hx; cbn [hex_digits].
  - f_equal. change (16 ^ Z.of_nat 0) with 1 in *. lia.
  - rewrite Nat2Z.inj_succ, Z.pow_succ_r in * by lia.
    pose proof (Z.div_mod x 16). pose proof (Z.mod_pos_bound x 16).
    rewrite IH by (split; [apply Z.div_pos | apply Z.div_lt_upper_bound]; lia).
    cbn [hex_parse]. rewrite hex_value_digit by lia. f_equal. lia.
Qed.

Lemma hex_width_bound w x : 0 <= x -> x < 16 ^ Z.of_nat (hex_width w x).
Proof.
  intros Hx. unfold hex_width. destruct (Z.eq_dec x 0) as [->|].
  - apply Z.pow_pos_nonneg; lia.
  - pose proof (Z.log2_nonneg x). pose proof (Z.div_pos (Z.log2 x) 4).
    apply Z.lt_le_trans with (2 ^ (Z.log2 x + 1)).
    + apply Z.log2_spec; lia.
    + change 16 with (2 ^ 4). rewrite <- Z.pow_mul_r by lia.
      apply Z.pow_le_mono_r; [lia|].
      pose proof (Z.div_mod (Z.log2 x) 4). pose proof (Z.mod_pos_bound (Z.log2 x) 4). lia.
Qed.

Lemma hex_pad_value w x : 0 <= x -> hex_parse 0 (hex_pad w x) = x.
Proof.
  intros Hx. unfold hex_pad.
  rewrite hex_parse_digits by (split; [done | by apply hex_width_bound]).
  cbn. lia.
Qed.
