(* ===== verification/LtMemory.v ===== *)
(** * The memory of the loosely-timed example
    (lt/systemc/third-party/systemc-lt-example/memory.cpp, lt_target.cpp)

    [memory] separates storage from the TLM shell; [lt_target] is the
    loosely-timed shell around it.  [operation] is the code of every target
    access: the byte loops are kept as loops and related to block copies by
    [write_loop_splice] and [read_loop_splice]. *)

From S2P Require Import Prelude Tlm Report.
From stdpp Require Import base numbers list.
#[local] Open Scope Z_scope.

(** ** Definitions *)

(** *** The storage *)
Record memory : Type := mk_memory {
  m_ID : Z;
  m_read_delay : sc_time;
  m_write_delay : sc_time;
  m_memory_size : Z;
  m_memory_width : Z;
  m_memory : list Z;
  m_previous_warning : bool;
}.

Definition with_memory (mem : list Z) (m : memory) : memory :=
  mk_memory m.(m_ID) m.(m_read_delay) m.(m_write_delay) m.(m_memory_size)
    m.(m_memory_width) mem m.(m_previous_warning).
Definition with_warning (b : bool) (m : memory) : memory :=
  mk_memory m.(m_ID) m.(m_read_delay) m.(m_write_delay) m.(m_memory_size)
    m.(m_memory_width) m.(m_memory) b.

(** The constructor allocates and clears the array. *)
Definition new_memory (ID : Z) (read_delay write_delay : sc_time)
  (memory_size memory_width : Z) : res memory :=
  cassert (0 <? memory_width);;
  cassert (memory_size mod memory_width =? 0);;
  if memory_size <? memory_width then Err Fatal_report
  else Ok (mk_memory ID read_delay write_delay memory_size memory_width
             (replicate (Z.to_nat memory_size) 0) false).

Definition check_address (m : memory) (gp : payload) : tlm_response_status :=
  if m.(m_memory_size) <=? gp.(address) then TLM_ADDRESS_ERROR_RESPONSE
  else if m.(m_memory_size) <=? u64 (gp.(address) + gp.(data_length))
  then TLM_ADDRESS_ERROR_RESPONSE
  else TLM_OK_RESPONSE.

(** [for (i = 0; i < length; i++) m_memory[address++] = data[i];] with [n]
    iterations to go. *)
Fixpoint write_loop (n : nat) (i address : Z) (data mem : list Z) : res (list Z) :=
  match n with
  | O => Ok mem
  | S n' =>
      b ← get_byte data i;
      mem' ← set_byte mem address b;
      write_loop n' (i + 1) (u64 (address + 1)) data mem'
  end.

(** [for (i = 0; i < length; i++) data[i] = m_memory[address++];] *)
Fixpoint read_loop (n : nat) (i address : Z) (mem data : list Z) : res (list Z) :=
  match n with
  | O => Ok data
  | S n' =>
      b ← get_byte mem address;
      data' ← set_byte data i b;
      read_loop n' (i + 1) (u64 (address + 1)) mem data'
  end.

(** The data pointer as an array: nothing is behind a null pointer. *)
Definition data_array (gp : payload) : list Z := default [] gp.(data).

(** The two feature checks at the start of [operation] set a status. *)
Definition check_features (gp : payload) : payload :=
  if bool_decide (is_Some gp.(byte_enable))
  then set_response_status TLM_BYTE_ENABLE_ERROR_RESPONSE gp
  else if negb (gp.(streaming_width) =? gp.(data_length))
  then set_response_status TLM_BURST_ERROR_RESPONSE gp
  else gp.

Definition operation : b_transport_t memory := fun m gp delay_time =>
  let status := check_address m gp in
  let gp := check_features gp in
  '(m, gp, delay_time) ←
    match gp.(command) with
    | TLM_WRITE_COMMAND =>
        if decide (status = TLM_OK_RESPONSE) then
          mem ← write_loop (Z.to_nat gp.(data_length)) 0 gp.(address)
                  (data_array gp) m.(m_memory);
          _ ← print m.(m_ID) gp;
          Ok (with_memory mem m, gp, t_add delay_time m.(m_write_delay))
        else Ok (m, gp, delay_time)
    | TLM_READ_COMMAND =>
        if decide (status = TLM_OK_RESPONSE) then
          d ← read_loop (Z.to_nat gp.(data_length)) 0 gp.(address)
                m.(m_memory) (data_array gp);
          let gp := set_data (if bool_decide (gp.(data) = None) then None else Some d) gp in
          _ ← print m.(m_ID) gp;
          Ok (m, gp, t_add delay_time m.(m_read_delay))
        else Ok (m, gp, delay_time)
    | TLM_IGNORE_COMMAND =>
        if negb m.(m_previous_warning)
        then Ok (with_warning true m,
                 set_response_status TLM_COMMAND_ERROR_RESPONSE gp, SC_ZERO_TIME)
        else Ok (m, gp, delay_time)
    end;
  Ok (m, set_response_status status gp, delay_time).

(** The delay of a transaction, without performing it. *)
Definition get_delay (m : memory) (gp : payload) (delay_time : sc_time) :
  memory * sc_time :=
  match gp.(command) with
  | TLM_WRITE_COMMAND => (m, t_add delay_time m.(m_write_delay))
  | TLM_READ_COMMAND => (m, t_add delay_time m.(m_read_delay))
  | TLM_IGNORE_COMMAND => (with_warning true m, delay_time)
  end.

(** *** The loosely-timed target: its ID, sizes and delays but the accept delay
    are those of its memory. *)
Record lt_target : Type := mk_lt_target {
  lt_accept_delay : sc_time;
  lt_target_memory : memory;
}.

Definition new_lt_target (ID memory_size memory_width : Z)
  (accept_delay read_response_delay write_response_delay : sc_time) : res lt_target :=
  m ← new_memory ID read_response_delay write_response_delay memory_size memory_width;
  Ok (mk_lt_target accept_delay m).

Definition custom_b_transport : b_transport_t lt_target := fun t payload delay_time =>
  '(m, payload, mem_op_time) ← operation t.(lt_target_memory) payload SC_ZERO_TIME;
  Ok (mk_lt_target t.(lt_accept_delay) m, payload,
      t_add (t_add delay_time t.(lt_accept_delay)) mem_op_time).

(** The array has the size the module was built with, and the size fits the
    address type. *)
Definition memory_ok (m : memory) : Prop :=
  Z.of_nat (length m.(m_memory)) = m.(m_memory_size) /\
  0 < m.(m_memory_width) /\ m.(m_memory_size) < 2 ^ 63 /\
  is_bytes m.(m_memory).

(** What an access that passes [check_address] promises: the abstract
    operation on the block. *)
Definition spec_write (m : memory) (gp : payload) : list Z :=
  splice m.(m_memory) gp.(address) (slice (data_array gp) 0 gp.(data_length)).
Definition spec_read (m : memory) (gp : payload) : list Z :=
  splice (data_array gp) 0 (slice m.(m_memory) gp.(address) gp.(data_length)).

(** The transaction ends strictly before the last byte of the memory. *)
Definition accepts (m : memory) (gp : payload) : bool :=
  gp.(address) + gp.(data_length) <? m.(m_memory_size).

(** The contract of [operation]: a block transfer of an accepted transaction,
    no effect but the status otherwise. *)
Definition spec_operation (m : memory) (gp : payload) (t : sc_time) :
  memory * payload * sc_time :=
  match gp.(command), accepts m gp with
  | TLM_WRITE_COMMAND, true =>
      (with_memory (spec_write m gp) m, set_response_status TLM_OK_RESPONSE gp,
       t_add t m.(m_write_delay))
  | TLM_READ_COMMAND, true =>
      (m, set_response_status TLM_OK_RESPONSE (set_data (Some (spec_read m gp)) gp),
       t_add t m.(m_read_delay))
  | TLM_IGNORE_COMMAND, ok =>
      (with_warning true m,
       set_response_status (if ok then TLM_OK_RESPONSE else TLM_ADDRESS_ERROR_RESPONSE) gp,
       if m.(m_previous_warning) then t else SC_ZERO_TIME)
  | _, false => (m, set_response_status TLM_ADDRESS_ERROR_RESPONSE gp, t)
  end.

(** ** Lemmas *)

Lemma write_loop_step_splice mem a b rest :
  0 <= a -> a + 1 + Z.of_nat (length rest) <= Z.of_nat (length mem) ->
  splice (<[Z.to_nat a := b]> mem) (a + 1) rest = splice mem a (b :: rest).
Proof.
  intros Ha Hl. apply list_eq. intros i.
  rewrite !lookup_splice by (cbn [length]; rewrite ?length_insert; lia).
  cbn [length]. repeat case_decide; try lia.
  - rewrite list_lookup_insert_ne by lia. done.
  - assert (i = Z.to_nat a) as -> by lia.
    rewrite list_lookup_insert_eq by lia. by rewrite Nat.sub_diag.
  - replace (i - Z.to_nat a)%nat with (S (i - Z.to_nat (a + 1)))%nat by lia. done.
  - rewrite list_lookup_insert_ne by lia. done.
Qed.

Lemma slice_cons l i b n :
  0 <= i -> l !! Z.to_nat i = Some b ->
  slice l i (Z.of_nat (S n)) = b :: slice l (i + 1) (Z.of_nat n).
Proof.
  intros Hi Hb. unfold slice.
  rewrite (drop_S l b (Z.to_nat i)) by done.
  rewrite !Nat2Z.id. cbn [take]. do 3 f_equal. lia.
Qed.

(** The write loop is a block copy. *)
Lemma write_loop_splice n i a d mem :
  0 <= i -> i + Z.of_nat n <= Z.of_nat (length d) ->
  0 <= a -> a + Z.of_nat n <= Z.of_nat (length mem) ->
  Z.of_nat (length mem) < 2 ^ 63 ->
  write_loop n i a d mem = Ok (splice mem a (slice d i (Z.of_nat n))).
Proof.
  revert i a mem. induction n as [|n IH]; intros i a mem Hi Hd Ha Hm Hs; cbn [write_loop].
  - change (Z.of_nat 0) with 0. by rewrite slice_0, splice_nil.
  - destruct (get_byte_total d i) as (b & -> & Hb); [lia|].
    rewrite bind_Ok, set_byte_Ok, bind_Ok by lia.
    rewrite wrap_small by lia.
    rewrite IH by (rewrite ?length_insert; lia).
    f_equal. rewrite (slice_cons d i b n Hi Hb).
    apply write_loop_step_splice; [done|]. rewrite slice_length by lia. lia.
Qed.

(** The read loop is a block copy. *)
Lemma read_loop_splice n i a d mem :
  0 <= i -> i + Z.of_nat n <= Z.of_nat (length d) ->
  0 <= a -> a + Z.of_nat n <= Z.of_nat (length mem) ->
  Z.of_nat (length mem) < 2 ^ 63 ->
  read_loop n i a mem d = Ok (splice d i (slice mem a (Z.of_nat n))).
Proof.
  revert i a d. induction n as [|n IH]; intros i a d Hi Hd Ha Hm Hs; cbn [read_loop].
  - change (Z.of_nat 0) with 0. by rewrite slice_0, splice_nil.
  - destruct (get_byte_total mem a) as (b & -> & Hb); [lia|].
    rewrite bind_Ok, set_byte_Ok, bind_Ok by lia.
    rewrite wrap_small by lia.
    rewrite IH by (rewrite ?length_insert; lia).
    f_equal. rewrite (slice_cons mem a b n Ha Hb).
    apply write_loop_step_splice; [done|]. rewrite slice_length by lia. lia.
Qed.

Lemma check_address_spec m gp :
  payload_wf gp -> m.(m_memory_size) < 2 ^ 63 ->
  check_address m gp =
  if accepts m gp then TLM_OK_RESPONSE else TLM_ADDRESS_ERROR_RESPONSE.
Proof.
  intros [Ha Hl _] Hs. unfold check_address, accepts.
  destruct (Z.leb_spec (m_memory_size m) (address gp)).
  - destruct (Z.ltb_spec (address gp + data_length gp) (m_memory_size m)); [lia|done].
  - rewrite wrap_small by lia.
    destruct (Z.leb_spec (m_memory_size m) (address gp + data_length gp)),
      (Z.ltb_spec (address gp + data_length gp) (m_memory_size m)); done || lia.
Qed.

(** The feature checks touch nothing but the status. *)
Lemma check_features_status gp r :
  set_response_status r (check_features gp) = set_response_status r gp.
Proof. unfold check_features. by repeat case_match. Qed.

Lemma check_features_eq gp :
  check_features gp = set_response_status (response_status (check_features gp)) gp.
Proof. unfold check_features. destruct gp; by repeat case_match. Qed.

Lemma with_memory_id m : with_memory (m_memory m) m = m.
Proof. by destruct m. Qed.

Lemma accepts_bounds m gp d :
  memory_ok m -> payload_wf gp -> has_buffer gp d -> accepts m gp = true ->
  0 <= address gp /\ 0 <= data_length gp <= Z.of_nat (length d) /\
  address gp + data_length gp <= Z.of_nat (length (m_memory m)) /\
  Z.of_nat (length (m_memory m)) < 2 ^ 63.
Proof.
  intros (Hlen & _ & Hsz & _) [Ha Hl _] [_ Hb] Hacc. unfold accepts in Hacc. breflect. lia.
Qed.

(** [operation] implements its contract on every branch. *)
Lemma operation_spec m gp d t :
  memory_ok m -> payload_wf gp -> has_buffer gp d -> (4 <= length d)%nat ->
  operation m gp t = Ok (spec_operation m gp t).
Proof.
  intros Hm Hgp Hbuf H4. pose proof Hbuf as [Hd _].
  assert (Hacc := accepts_bounds m gp d Hm Hgp Hbuf).
  unfold operation, spec_operation. rewrite check_features_eq.
  rewrite check_address_spec by (done || apply Hm).
  generalize (response_status (check_features gp)). intros r. cbn [command data data_length
    address set_response_status]. unfold spec_write, spec_read, data_array.
  destruct (command gp) eqn:Hc, (accepts m gp) eqn:Ha; cbn; try done;
    try (destruct m as [? ? ? ? ? ? []]; done).
  - destruct Hacc as (? & ? & ? & ?); [done|]. rewrite Hd. change (default [] (Some d)) with d.
    rewrite read_loop_splice, Z2Nat.id, decide_True, bind_Ok by (done || lia).
    rewrite bool_decide_eq_false_2 by done.
    destruct (print_Ok (m_ID m) (set_data (Some (splice d 0
      (slice (m_memory m) (address gp) (data_length gp)))) (set_response_status r gp))
      (splice d 0 (slice (m_memory m) (address gp) (data_length gp)))) as [s ->];
      [done| rewrite splice_length; rewrite ?slice_length; lia | done].
  - destruct Hacc as (? & ? & ? & ?); [done|]. rewrite Hd. change (default [] (Some d)) with d.
    rewrite write_loop_splice, Z2Nat.id, decide_True, bind_Ok by (done || lia).
    destruct (print_Ok (m_ID m) (set_response_status r gp) d) as [s ->]; done.
Qed.

Lemma operation_preserves m gp d t :
  memory_ok m -> payload_wf gp -> has_buffer gp d -> (4 <= length d)%nat ->
  forall m' gp' t', operation m gp t = Ok (m', gp', t') -> memory_ok m'.
Proof.
  intros Hm Hgp Hbuf H4 m' gp' t'. rewrite (operation_spec m gp d t Hm Hgp Hbuf H4).
  intros Heq. assert (m' = (spec_operation m gp t).1.1) as -> by (by injection Heq as ->).
  clear Heq. pose proof (accepts_bounds m gp d Hm Hgp Hbuf) as Hacc.
  destruct Hbuf as [Hd _]. unfold spec_operation, spec_write, data_array. rewrite Hd.
  change (default [] (Some d)) with d.
  destruct (command gp), (accepts m gp); try exact Hm.
  destruct Hacc as (? & ? & ? & ?); [done|]. destruct Hm as (Hlen & Hw & Hsz & Hby).
  repeat split; cbn; [|done|done|].
  - rewrite splice_length; [done|lia|]. rewrite slice_length; lia.
  - apply splice_bytes, slice_bytes; [done|]. by eapply wf_data.
Qed.

Lemma new_memory_ok ID rd wd size width m :
  0 <= size < 2 ^ 63 -> new_memory ID rd wd size width = Ok m -> memory_ok m.
Proof.
  intros Hs. unfold new_memory, cassert.
  destruct (Z.ltb_spec 0 width); [|done]. rewrite bind_Ok.
  destruct (size mod width =? 0); [|done]. rewrite bind_Ok.
  destruct (Z.ltb_spec size width); [done|]. intros [= <-].
  repeat split; cbn; [rewrite length_replicate; lia|done|lia|].
  by apply Forall_replicate.
Qed.

(** ** Properties *)

(** C14: every access to the memory (a write, a read, an unsupported command;
    in or out of range) has exactly the effect of the abstract block operation
    on the storage, the buffer, the status and the delay. *)
Theorem operation_refines_spec m gp d t :
  memory_ok m -> payload_wf gp -> has_buffer gp d -> (4 <= length d)%nat ->
  operation m gp t = Ok (spec_operation m gp t).
Proof. apply operation_spec. Qed.

(** A 16-byte memory and a 4-byte transaction for the witnesses. *)
Definition example_memory : memory :=
  mk_memory 201 100000 60000 16 4 (replicate 16 0) false.
Definition example_gp (c : tlm_command) (a : Z) (d : list Z) : payload :=
  mk_payload c a (Some d) 4 4 None 0 false TLM_INCOMPLETE_RESPONSE.

Lemma example_memory_ok : memory_ok example_memory.
Proof. split_and!; [done|done|done|by apply Forall_replicate]. Qed.

Lemma example_gp_wf c a d :
  0 <= a < 2 ^ 64 -> is_bytes d -> payload_wf (example_gp c a d).
Proof. intros. split; cbn; [done|lia|]. by intros ? [= <-]. Qed.

Lemma operation_refines_spec_witness :
  operation example_memory (example_gp TLM_WRITE_COMMAND 4 [1; 2; 3; 4]) 0 =
  Ok (spec_operation example_memory (example_gp TLM_WRITE_COMMAND 4 [1; 2; 3; 4]) 0).
Proof.
  apply (operation_refines_spec example_memory _ [1; 2; 3; 4]).
  - exact example_memory_ok.
  - apply example_gp_wf; [lia|solve_bytes].
  - split; [reflexivity | cbn; lia].
  - cbn; lia.
Defined.

(** C27: a word written to an accepted address is what the next read of that
    address returns, and a read of a disjoint range returns what it returned
    before the write. *)
Theorem operation_write_then_read m w r d e t :
  memory_ok m -> payload_wf w -> payload_wf r -> has_buffer w d -> has_buffer r e ->
  (4 <= length d)%nat -> (4 <= length e)%nat ->
  w.(command) = TLM_WRITE_COMMAND -> r.(command) = TLM_READ_COMMAND ->
  accepts m w = true -> accepts m r = true ->
  exists m' w' t', operation m w t = Ok (m', w', t') /\
    w'.(response_status) = TLM_OK_RESPONSE /\
    forall t1, exists r' t2, operation m' r t1 = Ok (m', r', t2) /\
      (r.(address) = w.(address) -> r.(data_length) = w.(data_length) ->
       slice (data_array r') 0 r.(data_length) = slice d 0 w.(data_length)) /\
      (r.(address) + r.(data_length) <= w.(address) \/
       w.(address) + w.(data_length) <= r.(address) ->
       forall r0 t0, operation m r t1 = Ok (m, r0, t0) -> data_array r' = data_array r0).
Proof.
  intros Hm Hw Hr Hbw Hbr H4d H4e Hcw Hcr Haw Har.
  rewrite (operation_spec m w d t) by done.
  destruct (accepts_bounds m w d Hm Hw Hbw Haw) as (? & ? & ? & ?).
  destruct (accepts_bounds m r e Hm Hr Hbr Har) as (? & ? & ? & ?).
  unfold spec_operation at 1. rewrite Hcw, Haw. do 3 eexists. split; [done|]. split; [done|].
  intros t1. set (m' := with_memory _ m).
  assert (Hm' : memory_ok m').
  { eapply (operation_preserves m w d t); try done. rewrite (operation_spec m w d t) by done.
    unfold spec_operation. rewrite Hcw, Haw. done. }
  rewrite (operation_spec m' r e t1), (operation_spec m r e t1) by done.
  assert (accepts m' r = true) as Har' by exact Har.
  unfold spec_operation. rewrite Hcr, Har, Har'.
  do 2 eexists. split; [done|]. destruct Hbw as [Hdw _], Hbr as [Hdr _].
  assert (Hlw : length (slice d 0 (data_length w)) = Z.to_nat (data_length w))
    by (rewrite slice_length; lia).
  unfold m', spec_read, spec_write, data_array. cbn [data set_response_status set_data
    m_memory with_memory]. rewrite Hdw, Hdr.
  change (default [] (Some d)) with d. change (default [] (Some e)) with e. split.
  - intros Ea El. rewrite Ea, El. cbn [default from_option id]. rewrite slice_splice_full.
    + apply slice_splice_full; [done|lia|lia].
    + done.
    + rewrite slice_length; rewrite ?splice_length; lia.
    + lia.
  - intros Hdis r0 t0 [= <- _]. cbn. f_equal. apply slice_splice_disjoint; lia.
Qed.

Lemma operation_write_then_read_witness :
  let w := example_gp TLM_WRITE_COMMAND 4 [1; 2; 3; 4] in
  let r := example_gp TLM_READ_COMMAND 4 [0; 0; 0; 0] in
  exists m' w' t', operation example_memory w 0 = Ok (m', w', t') /\
    w'.(response_status) = TLM_OK_RESPONSE /\
    forall t1, exists r' t2, operation m' r t1 = Ok (m', r', t2) /\
      (r.(address) = w.(address) -> r.(data_length) = w.(data_length) ->
       slice (data_array r') 0 r.(data_length) = slice [1; 2; 3; 4] 0 w.(data_length)) /\
      (r.(address) + r.(data_length) <= w.(address) \/
       w.(address) + w.(data_length) <= r.(address) ->
       forall r0 t0, operation example_memory r t1 = Ok (example_memory, r0, t0) ->
       data_array r' = data_array r0).
Proof.
  cbv zeta. apply (operation_write_then_read example_memory _ _ [1; 2; 3; 4] [0; 0; 0; 0] 0);
    try reflexivity; try (cbn; lia); try (split; [reflexivity | cbn; lia]).
  - exact example_memory_ok.
  - apply example_gp_wf; [lia|solve_bytes].
  - apply example_gp_wf; [lia|solve_bytes].
Defined.

(** The status of an access is decided by its address range alone: byte
    enables, a streaming width other than the length and an unsupported
    command are reported as [TLM_OK_RESPONSE] when the range is accepted,
    because the status set for them is overwritten at the end of [operation]. *)
Theorem operation_status_by_address m gp d t :
  memory_ok m -> payload_wf gp -> has_buffer gp d -> (4 <= length d)%nat ->
  exists m' gp' t', operation m gp t = Ok (m', gp', t') /\
    gp'.(response_status) =
      if accepts m gp then TLM_OK_RESPONSE else TLM_ADDRESS_ERROR_RESPONSE.
Proof.
  intros. do 3 eexists. split.
  - rewrite (operation_spec m gp d t) by done. apply f_equal, eq_trans
      with ((spec_operation m gp t).1.1, (spec_operation m gp t).1.2, (spec_operation m gp t).2);
      [by destruct (spec_operation m gp t) as [[??]?] | done].
  - unfold spec_operation. by destruct (command gp), (accepts m gp).
Qed.

Lemma operation_status_by_address_witness :
  let gp := set_byte_enable (Some [0]) (example_gp TLM_IGNORE_COMMAND 4 [1; 2; 3; 4]) in
  exists m' gp' t', operation example_memory gp 0 = Ok (m', gp', t') /\
    gp'.(response_status) =
      if accepts example_memory gp then TLM_OK_RESPONSE else TLM_ADDRESS_ERROR_RESPONSE.
Proof.
  cbv zeta. apply (operation_status_by_address example_memory _ [1; 2; 3; 4]).
  - exact example_memory_ok.
  - split; cbn; [lia|lia|]. intros ? [= <-]. solve_bytes.
  - split; [reflexivity | cbn; lia].
  - cbn; lia.
Defined.

(** An access that ends with the last byte of the memory lies within the
    array, and is nevertheless refused with no effect on the storage. *)
Theorem last_byte_unreachable m gp d t :
  memory_ok m -> payload_wf gp -> has_buffer gp d -> (4 <= length d)%nat ->
  gp.(command) <> TLM_IGNORE_COMMAND ->
  gp.(address) + gp.(data_length) = m.(m_memory_size) ->
  in_block m.(m_memory) gp.(address) gp.(data_length) = true /\
  operation m gp t = Ok (m, set_response_status TLM_ADDRESS_ERROR_RESPONSE gp, t).
Proof.
  intros Hm Hgp Hbuf H4 Hc Hend. split.
  - destruct Hm as (Hlen & _), Hgp. apply in_block_iff. lia.
  - rewrite (operation_spec m gp d t) by done. unfold spec_operation.
    assert (accepts m gp = false) as -> by (apply Z.ltb_ge; lia).
    by destruct (command gp).
Qed.

Lemma last_byte_unreachable_witness :
  let gp := example_gp TLM_READ_COMMAND 12 [0; 0; 0; 0] in
  in_block example_memory.(m_memory) gp.(address) gp.(data_length) = true /\
  operation example_memory gp 0 =
    Ok (example_memory, set_response_status TLM_ADDRESS_ERROR_RESPONSE gp, 0).
Proof.
  cbv zeta. apply (last_byte_unreachable example_memory _ [0; 0; 0; 0]).
  - exact example_memory_ok.
  - apply example_gp_wf; [lia|solve_bytes].
  - split; [reflexivity | cbn; lia].
  - cbn; lia.
  - discriminate.
  - reflexivity.
Defined.

(** A target built by the constructor answers a blocking call with the
    contract of its memory, and annotates its accept delay and the memory's
    access delay on top of the delay the call came with; the invariant of the
    storage is preserved. *)
Theorem lt_target_b_transport ID size width acc rd wr t p d delay :
  0 <= size < 2 ^ 63 -> new_lt_target ID size width acc rd wr = Ok t ->
  payload_wf p -> has_buffer p d -> (4 <= length d)%nat ->
  let '(m', p', op_time) := spec_operation t.(lt_target_memory) p SC_ZERO_TIME in
  custom_b_transport t p delay =
    Ok (mk_lt_target acc m', p', t_add delay (t_add acc op_time)) /\ memory_ok m'.
Proof.
  intros Hs Hnew Hp Hbuf H4. unfold new_lt_target in Hnew.
  apply bind_Ok_inv in Hnew as (m & Hm & [= <-]). apply new_memory_ok in Hm; [|done].
  cbn [lt_target_memory lt_accept_delay].
  pose proof (operation_spec m p d SC_ZERO_TIME Hm Hp Hbuf H4) as Hop.
  destruct (spec_operation m p SC_ZERO_TIME) as [[m' p'] op] eqn:E. split.
  - unfold custom_b_transport. cbn [lt_target_memory lt_accept_delay].
    rewrite Hop, bind_Ok, t_add_assoc. done.
  - by eapply operation_preserves.
Qed.

Lemma lt_target_b_transport_witness :
  let t := mk_lt_target 10000 (mk_memory 202 50000 30000 16 4 (replicate 16 0) false) in
  let p := example_gp TLM_WRITE_COMMAND 8 [9; 0; 0; 0] in
  let '(m', p', op_time) := spec_operation t.(lt_target_memory) p SC_ZERO_TIME in
  custom_b_transport t p 5 =
    Ok (mk_lt_target 10000 m', p', t_add 5 (t_add 10000 op_time)) /\ memory_ok m'.
Proof.
  cbv zeta. apply (lt_target_b_transport 202 16 4 10000 50000 30000 _ _ [9; 0; 0; 0]).
  - lia.
  - reflexivity.
  - apply example_gp_wf; [lia|solve_bytes].
  - split; [reflexivity | cbn; lia].
  - cbn; lia.
Defined.
