(* ===== verification/SimpleBusLT.v ===== *)
(** * The loosely-timed bus
    (lt/systemc/third-party/systemc-lt-example/SimpleBusLT.h)

    Address decoding, forwarding of the three kinds of calls to the decoded
    target, and the translation of DMI ranges between the target's and the
    bus's address space. *)

From S2P Require Import Prelude Tlm.
From stdpp Require Import base numbers list.
#[local] Open Scope Z_scope.

(** ** Definitions *)

(** *** The decoder: bits 31-28 select the port, bits 27-0 are the offset. *)
Definition getPortId (address : Z) : Z := Z.shiftr (u32 address) 28.
Definition getAddressOffset (portId : Z) : Z := u32 (Z.shiftl portId 28).
Definition getAddressMask (portId : Z) : Z := 0xfffffff.
Definition decode (address : Z) : Z := getPortId address.

(** Restricts a range of target addresses to the port's window and moves it to
    bus addresses; [false] when the range is outside of the window. *)
Definition limitRange (portId low high : Z) : bool * Z * Z :=
  let addressOffset := getAddressOffset portId in
  let addressMask := getAddressMask portId in
  if addressMask <? low then (false, low, high)
  else
    let low := u64 (low + addressOffset) in
    let high := if addressMask <? high then u64 (addressOffset + addressMask)
                else u64 (high + addressOffset) in
    (true, low, high).

Section SimpleBusLT.
Context {W : Type} (NR_OF_INITIATORS NR_OF_TARGETS : Z).
(** What is bound to the bus: the forward interface of every target and the
    backward invalidation of every initiator. *)
Context (target_b_transport : Z -> b_transport_t W).
Context (target_transport_dbg : Z -> W -> payload -> res (W * payload * Z)).
Context (target_get_direct_mem_ptr : Z -> W -> payload -> tlm_dmi -> res (W * payload * tlm_dmi * bool)).
Context (initiator_invalidate : Z -> Z -> Z -> W -> res W).

Definition initiatorBTransport (SocketId : Z) : b_transport_t W := fun w trans t =>
  let portId := decode trans.(address) in
  cassert (portId <? NR_OF_TARGETS);;
  let trans := set_address (Z.land trans.(address) (getAddressMask portId)) trans in
  target_b_transport portId w trans t.

Definition transportDebug (SocketId : Z) (w : W) (trans : payload) : res (W * payload * Z) :=
  let portId := decode trans.(address) in
  cassert (portId <? NR_OF_TARGETS);;
  let trans := set_address (Z.land trans.(address) (getAddressMask portId)) trans in
  target_transport_dbg portId w trans.

Definition getDMIPointer (SocketId : Z) (w : W) (trans : payload) (dmi_data : tlm_dmi) :
  res (W * payload * tlm_dmi * bool) :=
  let address := trans.(address) in
  let portId := decode address in
  cassert (portId <? NR_OF_TARGETS);;
  let maskedAddress := Z.land address (getAddressMask portId) in
  let trans := set_address maskedAddress trans in
  '(w, trans, dmi_data, result) ← target_get_direct_mem_ptr portId w trans dmi_data;
  (if (result : bool) then
     cassert (dmi_data.(start_address) <=? maskedAddress);;
     cassert (maskedAddress <=? dmi_data.(end_address))
   else Ok tt);;
  let '(_, start, end_) :=
    limitRange portId dmi_data.(start_address) dmi_data.(end_address) in
  Ok (w, trans, set_end_address end_ (set_start_address start dmi_data), result).

(** [for (i = 0; i < NR_OF_INITIATORS; ++i) target_socket[i]->invalidate(...)] *)
Fixpoint invalidate_all (n : nat) (i start_range end_range : Z) (w : W) : res W :=
  match n with
  | O => Ok w
  | S n' =>
      w ← initiator_invalidate i start_range end_range w;
      invalidate_all n' (i + 1) start_range end_range w
  end.

Definition invalidateDMIPointers (port_id start_range end_range : Z) (w : W) : res W :=
  let '(ok, start_range, end_range) := limitRange port_id start_range end_range in
  if negb ok then Ok w
  else invalidate_all (Z.to_nat NR_OF_INITIATORS) 0 start_range end_range w.
End SimpleBusLT.

(** ** Lemmas *)

Lemma getPortId_div a : getPortId a = a mod 2 ^ 32 / 2 ^ 28.
Proof. unfold getPortId. by rewrite Z.shiftr_div_pow2 by lia. Qed.

Lemma mask_mod a p : Z.land a (getAddressMask p) = a mod 2 ^ 28.
Proof. unfold getAddressMask. change 0xfffffff with (Z.ones 28). by rewrite Z.land_ones by lia. Qed.

Lemma getAddressOffset_small p : 0 <= p < 16 -> getAddressOffset p = p * 2 ^ 28.
Proof.
  intros. unfold getAddressOffset. rewrite Z.shiftl_mul_pow2 by lia. apply wrap_small. lia.
Qed.

Lemma getPortId_range a : 0 <= getPortId a < 16.
Proof.
  rewrite getPortId_div. pose proof (Z.mod_pos_bound a (2 ^ 32)).
  split; [apply Z.div_pos | apply Z.div_lt_upper_bound]; lia.
Qed.

(** The low word of an address is its port's offset plus its masked part. *)
Lemma decode_split a :
  a mod 2 ^ 32 = getAddressOffset (decode a) + Z.land a (getAddressMask (decode a)).
Proof.
  pose proof (getPortId_range a). rewrite mask_mod. unfold decode.
  rewrite getAddressOffset_small, getPortId_div by done.
  rewrite <- (Z.mod_mod_divide a (2 ^ 32) (2 ^ 28)) by (by exists 16).
  pose proof (Z.div_mod (a mod 2 ^ 32) (2 ^ 28)). lia.
Qed.

Lemma decode_join p off :
  0 <= p < 16 -> 0 <= off < 2 ^ 28 ->
  decode (getAddressOffset p + off) = p /\
  Z.land (getAddressOffset p + off) (getAddressMask p) = off.
Proof.
  intros Hp Hoff. rewrite mask_mod, getAddressOffset_small by done. unfold decode.
  rewrite getPortId_div, (Z.mod_small _ (2 ^ 32)) by lia. split.
  - rewrite Z.div_add_l, Z.div_small by lia. lia.
  - rewrite Z.add_comm, Z_mod_plus_full. by apply Z.mod_small.
Qed.

(** The bus range [limitRange] computes is the target's range within the
    window, as seen through the decoder. *)
Lemma limitRange_decode p low high low' high' :
  0 <= p < 16 -> 0 <= low < 2 ^ 64 -> low <= high < 2 ^ 64 ->
  limitRange p low high = (true, low', high') ->
  forall a, low' <= a <= high' <->
    (0 <= a < 2 ^ 32 /\ decode a = p /\
     low <= Z.land a (getAddressMask p) <= high).
Proof.
  intros Hp Hlow Hhigh. unfold limitRange. cbv zeta. rewrite getAddressOffset_small by done.
  unfold getAddressMask at 1 2 3. destruct (Z.ltb_spec 0xfffffff low) as [|Hl]; [done|].
  intros [= <- <-] a. rewrite wrap_small by lia.
  assert (Hdec : forall a, 0 <= a < 2 ^ 32 -> decode a = p ->
    a = p * 2 ^ 28 + Z.land a (getAddressMask p)).
  { intros b Hb Hd. pose proof (decode_split b) as Hs. rewrite Hd in Hs.
    rewrite getAddressOffset_small, Z.mod_small in Hs; done. }
  assert (Hmask : 0 <= Z.land a (getAddressMask p) < 2 ^ 28)
    by (rewrite mask_mod; apply Z.mod_pos_bound; lia).
  assert (Hjoin : forall off, 0 <= off < 2 ^ 28 -> a = p * 2 ^ 28 + off ->
    decode a = p /\ Z.land a (getAddressMask p) = off).
  { intros off Ho ->. rewrite <- getAddressOffset_small by done. by apply decode_join. }
  destruct (Z.ltb_spec 0xfffffff high); rewrite wrap_small by lia; split.
  - intros Ha. destruct (Hjoin (a - p * 2 ^ 28)) as [-> ->]; lia.
  - intros (Ha & Hd & Hr). pose proof (Hdec a Ha Hd). lia.
  - intros Ha. destruct (Hjoin (a - p * 2 ^ 28)) as [-> ->]; lia.
  - intros (Ha & Hd & Hr). pose proof (Hdec a Ha Hd). lia.
Qed.

Lemma limitRange_true p low high :
  low <= 0xfffffff -> exists low' high', limitRange p low high = (true, low', high').
Proof.
  intros. unfold limitRange, getAddressMask.
  destruct (Z.ltb_spec 0xfffffff low); [lia|]. eauto.
Qed.

(** ** Properties *)

(** A transaction whose low 32 address bits are port [p] at offset [off]
    reaches target [p], with the offset as its address and nothing else
    changed, when the port exists, and fails the bus's assertion otherwise;
    the upper address bits are ignored. *)
Theorem initiatorBTransport_routes {W} NT (target : Z -> b_transport_t W) id w trans t p off :
  0 <= p < 16 -> 0 <= off < 2 ^ 28 ->
  trans.(address) mod 2 ^ 32 = p * 2 ^ 28 + off ->
  initiatorBTransport NT target id w trans t =
  if p <? NT then target p w (set_address off trans) t else Err Assert_failure.
Proof.
  intros Hp Hoff Ha. pose proof (decode_split (address trans)) as Hs.
  pose proof (getPortId_range (address trans)) as Hr. change (getPortId ?a) with (decode a) in Hr.
  rewrite mask_mod in Hs. rewrite getAddressOffset_small in Hs by done.
  pose proof (Z.mod_pos_bound (address trans) (2 ^ 28)).
  unfold initiatorBTransport. rewrite mask_mod.
  assert (decode (address trans) = p) as -> by lia.
  assert (address trans mod 2 ^ 28 = off) as -> by lia.
  unfold cassert. by destruct (p <? NT).
Qed.

Lemma initiatorBTransport_routes_witness :
  let target := fun (p : Z) (w : list (Z * Z)) tr t => Ok (w ++ [(p, tr.(address))], tr, t) in
  let tr := set_address 0x110000004 new_payload in
  initiatorBTransport 2 target 0 [] tr 0 =
  if 1 <? 2 then target 1 [] (set_address 4 tr) 0 else Err Assert_failure.
Proof.
  cbv zeta. apply (initiatorBTransport_routes 2); [lia|lia|reflexivity].
Defined.

(** C21: the DMI range the bus hands to an initiator is exactly the set of the
    32-bit bus addresses that decode to the same target at an offset the target
    granted.  So it contains the address the pointer was asked for if that has
    32 bits; of a wider address the bus drops the upper bits, and the range that
    it grants does not contain it. *)
Theorem getDMIPointer_sound {W} NT get_ptr id (w w' : W) trans trans' dmi d :
  let a := trans.(address) in
  decode a < NT ->
  get_ptr (decode a) w (set_address (Z.land a (getAddressMask (decode a))) trans) dmi =
    Ok (w', trans', d, true) ->
  0 <= d.(start_address) <= Z.land a (getAddressMask (decode a)) ->
  Z.land a (getAddressMask (decode a)) <= d.(end_address) < 2 ^ 64 ->
  exists d', getDMIPointer NT get_ptr id w trans dmi = Ok (w', trans', d', true) /\
    (forall b, d'.(start_address) <= b <= d'.(end_address) <->
      (0 <= b < 2 ^ 32 /\ decode b = decode a /\
       d.(start_address) <= Z.land b (getAddressMask (decode a)) <= d.(end_address))) /\
    (0 <= a < 2 ^ 32 -> d'.(start_address) <= a <= d'.(end_address)) /\
    (2 ^ 32 <= a -> ~ (d'.(start_address) <= a <= d'.(end_address))).
Proof.
  intros a Hp Hget Hs He. unfold getDMIPointer. fold a.
  pose proof (getPortId_range a) as Hr. change (getPortId a) with (decode a) in Hr.
  assert (Z.land a (getAddressMask (decode a)) < 2 ^ 28)
    by (rewrite mask_mod; apply Z.mod_pos_bound; lia).
  rewrite cassert_true, bind_Ok, Hget, bind_Ok by lia.
  rewrite !cassert_true, !bind_Ok by lia.
  destruct (limitRange_true (decode a) (start_address d) (end_address d)) as (lo & hi & HL); [lia|].
  rewrite HL. eexists. split; [done|]. cbn [start_address end_address set_start_address
    set_end_address].
  assert (Hiff := limitRange_decode (decode a) (start_address d) (end_address d) lo hi Hr).
  specialize (Hiff ltac:(lia) ltac:(lia) HL). split; [exact Hiff|]. split.
  - intros Ha. apply Hiff. split_and!; done || lia.
  - intros Ha Hin. apply Hiff in Hin. lia.
Qed.

Lemma getDMIPointer_sound_witness :
  let get_ptr := fun (p : Z) (w : unit) tr (d : tlm_dmi) =>
    Ok (w, tr, mk_dmi 7 0 0xfff 0 0 DMI_ACCESS_READ_WRITE, true) in
  let trans := set_address 0x10000010 new_payload in
  let dmi := mk_dmi 0 0 0 0 0 DMI_ACCESS_NONE in
  exists d', getDMIPointer 2 get_ptr 0 tt trans dmi =
      Ok (tt, set_address 0x10 trans, d', true) /\
    (forall b, d'.(start_address) <= b <= d'.(end_address) <->
      (0 <= b < 2 ^ 32 /\ decode b = decode 0x10000010 /\
       0 <= Z.land b (getAddressMask (decode 0x10000010)) <= 0xfff)) /\
    (0 <= 0x10000010 < 2 ^ 32 -> d'.(start_address) <= 0x10000010 <= d'.(end_address)) /\
    (2 ^ 32 <= 0x10000010 -> ~ (d'.(start_address) <= 0x10000010 <= d'.(end_address))).
Proof.
  cbv zeta.
  apply (getDMIPointer_sound 2 _ 0 tt tt (set_address 0x10000010 new_payload) _ _
    (mk_dmi 7 0 0xfff 0 0 DMI_ACCESS_READ_WRITE)); try reflexivity; try (vm_compute; split; congruence).
Defined.
