(* ===== verification/SimpleBusAT.v ===== *)
(** * The approximately-timed bus
    (lt/systemc/third-party/systemc-lt-example/SimpleBusAT.h)

    Requests and responses pass through two payload event queues, each served by
    a thread; a table of pending transactions remembers where a transaction
    came from and where it went.  The decoder and the DMI calls are those of
    SimpleBusLT. *)

From S2P Require Import Prelude Tlm Kernel.
From S2P Require SimpleBusLT.
From stdpp Require Import base numbers list gmap.
#[local] Open Scope Z_scope.

(** ** Definitions *)

(** The decoder and the DMI calls are the same text as in SimpleBusLT.h, but for
    the invalidation by a negative port, which limits nothing. *)
Definition decode : Z -> Z := SimpleBusLT.decode.
Definition getAddressMask : Z -> Z := SimpleBusLT.getAddressMask.
Definition limitRange : Z -> Z -> Z -> bool * Z * Z := SimpleBusLT.limitRange.
Definition transportDebug {W} NR_OF_TARGETS dbg id (w : W) trans : res (W * payload * Z) :=
  SimpleBusLT.transportDebug NR_OF_TARGETS dbg id w trans.
Definition getDMIPointer {W} NR_OF_TARGETS get_ptr id (w : W) trans dmi_data :
  res (W * payload * tlm_dmi * bool) :=
  SimpleBusLT.getDMIPointer NR_OF_TARGETS get_ptr id w trans dmi_data.
Definition invalidateDMIPointers {W} NR_OF_INITIATORS initiator_invalidate (portId start_range end_range : Z)
  (w : W) : res W :=
  if 0 <=? portId then
    SimpleBusLT.invalidateDMIPointers NR_OF_INITIATORS initiator_invalidate portId start_range end_range w
  else
    SimpleBusLT.invalidate_all initiator_invalidate (Z.to_nat NR_OF_INITIATORS) 0 start_range end_range w.

(** Null pointers are [None]; sockets are numbered. *)
Record ConnectionInfo : Type := mk_info { from : option Z; to : option Z }.

Inductive event : Type :=
| request_PEQ_event
| response_PEQ_event
| mEndRequestEvent
| mEndResponseEvent.

(** A transaction is known by its pointer.  The entries of the table are
    numbered, so that an iterator to an erased entry is recognised even when a
    new entry has the same key; [notified] are the notifications made. *)
Record bus (P : Type) : Type := mk_bus {
  mPendingTransactions : gmap Z (Z * ConnectionInfo);
  next_entry : Z;
  mRequestPEQ : P;
  mResponsePEQ : P;
  notified : list (event * sc_time);
}.
Arguments mk_bus {P}. Arguments mPendingTransactions {P}. Arguments next_entry {P}.
Arguments mRequestPEQ {P}. Arguments mResponsePEQ {P}. Arguments notified {P}.

(** The bus, the payloads with their reference counts, and the modules bound to
    the bus. *)
Record sys (P W : Type) : Type := mk_sys { the_bus : bus P; txns : gmap Z (payload * Z); world : W }.
Arguments mk_sys {P W}. Arguments the_bus {P W}. Arguments txns {P W}. Arguments world {P W}.

Section SimpleBusAT.
Context {P W : Type} (NR_OF_TARGETS : Z).
Context (peq_notify : P -> Z -> sc_time -> P) (peq_get_next_transaction : P -> option (Z * P)).

Notation S := (sys P W).

(** [nb_transport_fw] of the target and [nb_transport_bw] of the initiator bound
    to a socket: they may call back into the bus. *)
Context (target_nb_transport_fw initiator_nb_transport_bw :
  Z -> Z -> tlm_phase -> sc_time -> S -> res (S * (tlm_phase * sc_time * tlm_sync_enum))).

Definition set_pending t (b : bus P) : bus P :=
  mk_bus t b.(next_entry) b.(mRequestPEQ) b.(mResponsePEQ) b.(notified).
Definition set_request_peq q (b : bus P) : bus P :=
  mk_bus b.(mPendingTransactions) b.(next_entry) q b.(mResponsePEQ) b.(notified).
Definition set_response_peq q (b : bus P) : bus P :=
  mk_bus b.(mPendingTransactions) b.(next_entry) b.(mRequestPEQ) q b.(notified).
Definition notify_event e t (b : bus P) : bus P :=
  mk_bus b.(mPendingTransactions) b.(next_entry) b.(mRequestPEQ) b.(mResponsePEQ)
    (b.(notified) ++ [(e, t)]).

Definition upd_bus (f : bus P -> bus P) (s : S) : S := mk_sys (f s.(the_bus)) s.(txns) s.(world).
Definition upd_txns (f : gmap Z (payload * Z) -> gmap Z (payload * Z)) (s : S) : S :=
  mk_sys s.(the_bus) (f s.(txns)) s.(world).

Definition get_txn (trans : Z) (s : S) : res (payload * Z) :=
  match s.(txns) !! trans with Some t => Ok t | None => Err Undefined_behaviour end.

(** [mPendingTransactions.find(trans)], which must succeed. *)
Definition find_pending (trans : Z) (s : S) : res (Z * ConnectionInfo) :=
  match s.(the_bus).(mPendingTransactions) !! trans with
  | Some it => Ok it
  | None => Err Assert_failure
  end.

(** [it->second] through an iterator to entry [n]. *)
Definition deref (trans n : Z) (s : S) : res ConnectionInfo :=
  match s.(the_bus).(mPendingTransactions) !! trans with
  | Some (m, info) => if m =? n then Ok info else Err Undefined_behaviour
  | None => Err Undefined_behaviour
  end.

Definition set_info (trans n : Z) (f : ConnectionInfo -> ConnectionInfo) (s : S) : res S :=
  info ← deref trans n s;
  Ok (upd_bus (fun b => set_pending (<[trans := (n, f info)]> b.(mPendingTransactions)) b) s).

Definition addPendingTransaction (trans : Z) (to : option Z) (initiatorId : Z) (s : S) : res S :=
  cassert (bool_decide (s.(the_bus).(mPendingTransactions) !! trans = None));;
  let b := s.(the_bus) in
  Ok (mk_sys (mk_bus (<[trans := (b.(next_entry), mk_info (Some initiatorId) to)]>
                        b.(mPendingTransactions))
                (b.(next_entry) + 1) b.(mRequestPEQ) b.(mResponsePEQ) b.(notified))
        s.(txns) s.(world)).

(** Reference counting; the memory manager is outside of the bus. *)
Definition acquire (trans : Z) (s : S) : res S :=
  '(p, n) ← get_txn trans s; Ok (upd_txns <[trans := (p, n + 1)]> s).
Definition release (trans : Z) (s : S) : res S :=
  '(p, n) ← get_txn trans s; cassert (0 <? n);; Ok (upd_txns <[trans := (p, n - 1)]> s).

(** *** RequestThread *)

(** [END_REQ] to the initiator, if the entry still has it. *)
Definition send_end_req (trans n : Z) (s : S) : res (S * unit) :=
  info ← deref trans n s;
  match info.(from) with
  | Some i =>
      '(s, _) ← initiator_nb_transport_bw i trans END_REQ SC_ZERO_TIME s; Ok (s, tt)
  | None => Ok (s, tt)
  end.

Definition notify_response (trans : Z) (t : sc_time) (s : S) : S :=
  upd_bus (fun b => set_response_peq (peq_notify b.(mResponsePEQ) trans t) b) s.

(** Decoding, up to the call of the target: the iterator and what it returned. *)
Definition begin_request (trans : Z) (s : S) :
  res (S * (Z * tlm_phase * sc_time * tlm_sync_enum)) :=
  '(p, k) ← get_txn trans s;
  let portId := decode p.(address) in
  cassert (portId <? NR_OF_TARGETS);;
  let s := upd_txns
    <[trans := (set_address (Z.land p.(address) (getAddressMask portId)) p, k)]> s in
  '(n, _) ← find_pending trans s;
  s ← set_info trans n (fun info => mk_info info.(from) (Some portId)) s;
  '(s, (phase, t, status)) ← target_nb_transport_fw portId trans BEGIN_REQ SC_ZERO_TIME s;
  Ok (s, (n, phase, t, status)).

(** The body of the inner loop for one transaction. *)
Definition forward_request (trans : Z) : proc event S unit :=
  '(n, phase, t, status) ← p_step (begin_request trans);
  match status with
  | TLM_ACCEPTED | TLM_UPDATED =>
      match phase with
      | BEGIN_REQ => p_wait (Wait_event mEndRequestEvent);; p_step (send_end_req trans n)
      | END_REQ => p_wait (Wait_time t);; p_step (send_end_req trans n)
      | BEGIN_RESP => p_modify (notify_response trans t)
      | _ => p_lift (Err Assert_failure)
      end
  | TLM_COMPLETED =>
      p_step (fun s =>
        s ← set_info trans n (fun info => mk_info info.(from) None) (notify_response trans t s);
        Ok (s, tt));;
      p_wait (Wait_time t)
  end.

(** The inner loop, of at most [fuel] transactions, and the thread. *)
Definition request_loop (fuel : nat) : proc event S unit :=
  p_loop fuel (
    next ← p_step (fun s => Ok
      match peq_get_next_transaction s.(the_bus).(mRequestPEQ) with
      | Some (trans, q) => (upd_bus (set_request_peq q) s, Some trans)
      | None => (s, None)
      end);
    match next with
    | Some trans => forward_request trans;; mret true
    | None => mret false
    end).

Definition RequestThread (fuel n : nat) : proc event S unit :=
  p_repeat n (p_wait (Wait_event request_PEQ_event);; request_loop fuel).

(** *** ResponseThread *)

(** Up to the call of the initiator: the iterator and what it returned. *)
Definition begin_response (trans : Z) (s : S) : res (S * (Z * sc_time * tlm_sync_enum)) :=
  '(n, info) ← find_pending trans s;
  s ← set_info trans n (fun info => mk_info None info.(to)) s;
  match info.(from) with
  | Some i =>
      '(s, (_, t, status)) ← initiator_nb_transport_bw i trans BEGIN_RESP SC_ZERO_TIME s;
      Ok (s, (n, t, status))
  | None => Err Undefined_behaviour
  end.

(** After the response: [END_RESP] to the target, the entry and the reference
    are given up. *)
Definition end_response (trans n : Z) (s : S) : res (S * unit) :=
  info ← deref trans n s;
  s ← match info.(to) with
      | Some p =>
          '(s, (_, _, r)) ← target_nb_transport_fw p trans END_RESP SC_ZERO_TIME s;
          cassert (bool_decide (r = TLM_COMPLETED));;
          Ok s
      | None => Ok s
      end;
  _ ← deref trans n s;
  s ← release trans (upd_bus (fun b => set_pending (delete trans b.(mPendingTransactions)) b) s);
  Ok (s, tt).

Definition forward_response (trans : Z) : proc event S unit :=
  '(n, t, status) ← p_step (begin_response trans);
  (match status with
   | TLM_COMPLETED => p_wait (Wait_time t)
   | TLM_ACCEPTED | TLM_UPDATED => p_wait (Wait_event mEndResponseEvent)
   end);;
  p_step (end_response trans n).

Definition response_loop (fuel : nat) : proc event S unit :=
  p_loop fuel (
    next ← p_step (fun s => Ok
      match peq_get_next_transaction s.(the_bus).(mResponsePEQ) with
      | Some (trans, q) => (upd_bus (set_response_peq q) s, Some trans)
      | None => (s, None)
      end);
    match next with
    | Some trans => forward_response trans;; mret true
    | None => mret false
    end).

Definition ResponseThread (fuel n : nat) : proc event S unit :=
  p_repeat n (p_wait (Wait_event response_PEQ_event);; response_loop fuel).

(** *** Interface methods *)
Definition initiatorNBTransport (initiator_id trans : Z) (phase : tlm_phase) (t : sc_time) (s : S) :
  res (S * tlm_sync_enum) :=
  match phase with
  | BEGIN_REQ =>
      s ← acquire trans s;
      s ← addPendingTransaction trans None initiator_id s;
      Ok (upd_bus (fun b => set_request_peq (peq_notify b.(mRequestPEQ) trans t) b) s, TLM_ACCEPTED)
  | END_RESP => Ok (upd_bus (notify_event mEndResponseEvent t) s, TLM_COMPLETED)
  | _ => Err Assert_failure
  end.

Definition targetNBTransport (portId trans : Z) (phase : tlm_phase) (t : sc_time) (s : S) :
  res (S * tlm_sync_enum) :=
  match phase with
  | END_REQ => Ok (upd_bus (notify_event mEndRequestEvent t) s, TLM_ACCEPTED)
  | BEGIN_RESP =>
      Ok (notify_response trans t (upd_bus (notify_event mEndRequestEvent t) s), TLM_ACCEPTED)
  | _ => Err Assert_failure
  end.
End SimpleBusAT.

(** *** What the threads rely on and promise *)

(** The calls that reach the modules bound to the bus. *)
Inductive call : Type :=
| To_target (port trans : Z) (phase : tlm_phase)
| To_initiator (id trans : Z) (phase : tlm_phase).

Definition call_trans (c : call) : Z :=
  match c with To_target _ trans _ | To_initiator _ trans _ => trans end.

Section Contract.
Context {P W : Type}.
Context (target_nb_transport_fw initiator_nb_transport_bw :
  Z -> Z -> tlm_phase -> sc_time -> sys P W -> res (sys P W * (tlm_phase * sc_time * tlm_sync_enum))).
Context (calls : W -> list call).

Definition calls_of (trans : Z) (s : sys P W) : list call :=
  filter (fun c => call_trans c = trans) (calls s.(world)).

Definition entry (trans : Z) (s : sys P W) : option (Z * ConnectionInfo) :=
  s.(the_bus).(mPendingTransactions) !! trans.

Definition refs (trans : Z) (s : sys P W) : option Z := snd <$> s.(txns) !! trans.

(** Entries and references stay; new ones may come. *)
Definition keeps (s s' : sys P W) : Prop :=
  forall trans e, entry trans s = Some e -> entry trans s' = Some e /\ refs trans s' = refs trans s.

(** The modules return from their calls; a target ends the transaction when the
    response has ended, and answers a request in a phase it may be in. *)
Class Modules : Prop := {
  bw_returns : forall i trans ph t s, exists s' ph' t' status,
    initiator_nb_transport_bw i trans ph t s = Ok (s', (ph', t', status)) /\
    calls_of trans s' = calls_of trans s ++ [To_initiator i trans ph] /\ keeps s s';
  fw_returns : forall p trans ph t s, exists s' ph' t' status,
    target_nb_transport_fw p trans ph t s = Ok (s', (ph', t', status)) /\
    calls_of trans s' = calls_of trans s ++ [To_target p trans ph] /\ keeps s s' /\
    (ph = END_RESP -> status = TLM_COMPLETED) /\
    (ph = BEGIN_REQ -> status <> TLM_COMPLETED ->
     ph' = BEGIN_REQ \/ ph' = END_REQ \/ ph' = BEGIN_RESP);
}.

(** What the rest of the simulation may do to a transaction while the thread
    that serves it is suspended: nothing, for the response thread; clear the
    initiator, for the request thread, when the response has begun. *)
Definition untouched (trans : Z) (s s' : sys P W) : Prop :=
  entry trans s' = entry trans s /\ refs trans s' = refs trans s /\
  calls_of trans s' = calls_of trans s.

Definition response_may_begin (trans : Z) (s s' : sys P W) : Prop :=
  match entry trans s with
  | Some (n, info) =>
      exists f, entry trans s' = Some (n, mk_info f info.(to)) /\
        ((f = info.(from) /\ calls_of trans s' = calls_of trans s) \/
         (f = None /\ exists i, info.(from) = Some i /\
            calls_of trans s' = calls_of trans s ++ [To_initiator i trans BEGIN_RESP]))
  | None => entry trans s' = None
  end.

(** Where the request thread suspends, by the answer of the target: [s1] is the
    state after the call, [t] the time it has annotated. *)
Definition request_waits (notify : P -> Z -> sc_time -> P) (trans n : Z) (ph : tlm_phase) (t : sc_time)
  (status : tlm_sync_enum) (s1 : sys P W) (w : wait_on event) (s' : sys P W) : Prop :=
  match status, ph with
  | TLM_COMPLETED, _ =>
      w = Wait_time t /\ s'.(the_bus).(mResponsePEQ) = notify s1.(the_bus).(mResponsePEQ) trans t /\
      (exists f, entry trans s' = Some (n, mk_info f None)) /\ s'.(world) = s1.(world)
  | _, BEGIN_REQ => w = Wait_event mEndRequestEvent /\ s' = s1
  | _, END_REQ => w = Wait_time t /\ s' = s1
  | _, _ => False
  end.

(** What has become of the request of initiator [i] when the thread is done with
    it: the entry and the calls made since [s1]. *)
Definition request_ends (notify : P -> Z -> sc_time -> P) (trans n i port : Z) (ph : tlm_phase)
  (t : sc_time) (status : tlm_sync_enum) (s1 s' : sys P W) : Prop :=
  match status, ph with
  | TLM_COMPLETED, _ => exists info rest, entry trans s' = Some (n, info) /\ info.(to) = None /\
      calls_of trans s' = calls_of trans s1 ++ rest /\
      (info.(from) = Some i /\ rest = [] \/ info.(from) = None /\ rest = [To_initiator i trans BEGIN_RESP])
  | _, BEGIN_RESP => s' = notify_response notify trans t s1
  | _, _ => exists f rest, entry trans s' = Some (n, mk_info f (Some port)) /\
      calls_of trans s' = calls_of trans s1 ++ rest /\
      (f = Some i /\ rest = [To_initiator i trans END_REQ] \/
       f = None /\ rest = [To_initiator i trans BEGIN_RESP])
  end.
End Contract.

(** ** Lemmas *)

Section Facts.
Context {P W : Type}.
Context {peq_notify : P -> Z -> sc_time -> P}.
Context {target_nb_transport_fw initiator_nb_transport_bw :
  Z -> Z -> tlm_phase -> sc_time -> sys P W -> res (sys P W * (tlm_phase * sc_time * tlm_sync_enum))}.
Context {calls : W -> list call}.
Context `{HM : !Modules target_nb_transport_fw initiator_nb_transport_bw calls}.

Lemma deref_entry trans n info (s : sys P W) : entry trans s = Some (n, info) -> deref trans n s = Ok info.
Proof. unfold entry, deref. intros ->. by rewrite Z.eqb_refl. Qed.

Lemma set_info_entry trans n info f (s : sys P W) :
  entry trans s = Some (n, info) ->
  exists s', set_info trans n f s = Ok s' /\ entry trans s' = Some (n, f info) /\
    s'.(txns) = s.(txns) /\ s'.(world) = s.(world) /\
    s'.(the_bus).(mResponsePEQ) = s.(the_bus).(mResponsePEQ).
Proof.
  intros He. unfold set_info. rewrite (deref_entry _ _ _ _ He), bind_Ok. eexists. split; [done|].
  unfold entry. cbn. by rewrite lookup_insert_eq.
Qed.

(** A response begins with one call to the initiator of the transaction. *)
Lemma begin_response_ok trans n i dst (s : sys P W) :
  entry trans s = Some (n, mk_info (Some i) dst) ->
  exists s' t status,
    begin_response initiator_nb_transport_bw trans s = Ok (s', (n, t, status)) /\
    entry trans s' = Some (n, mk_info None dst) /\ refs trans s' = refs trans s /\
    calls_of calls trans s' = calls_of calls trans s ++ [To_initiator i trans BEGIN_RESP].
Proof.
  intros He. pose proof HM as [Hbw _]. unfold begin_response, find_pending.
  change (mPendingTransactions (the_bus s) !! trans) with (entry trans s). rewrite He, bind_Ok.
  destruct (set_info_entry trans n _ (fun info => mk_info None info.(to)) s He)
    as (s1 & -> & He1 & Ht1 & Hw1 & _).
  rewrite bind_Ok. cbn [from to] in *.
  destruct (Hbw i trans BEGIN_RESP SC_ZERO_TIME s1) as (s2 & ph & t & st & -> & Hc & Hk).
  destruct (Hk _ _ He1) as [He2 Hr2]. exists s2, t, st. split; [done|]. split; [done|].
  unfold refs, calls_of in *. by rewrite Hr2, Hc, Ht1, Hw1.
Qed.

(** It ends with one call to the target, unless the target is done, and the
    entry and a reference are gone. *)
Lemma end_response_ok trans n dst k (s : sys P W) :
  entry trans s = Some (n, mk_info None dst) -> refs trans s = Some k -> 0 < k ->
  exists s', end_response target_nb_transport_fw trans n s = Ok (s', tt) /\
    entry trans s' = None /\ refs trans s' = Some (k - 1) /\
    calls_of calls trans s' = calls_of calls trans s ++
      match dst with Some p => [To_target p trans END_RESP] | None => [] end.
Proof.
  intros He Hr Hk. pose proof HM as [_ Hfw]. unfold end_response.
  rewrite (deref_entry _ _ _ _ He), bind_Ok. cbn [to].
  assert (H : exists s1, match dst with
      | Some p => '(s, (_, _, r)) ← target_nb_transport_fw p trans END_RESP SC_ZERO_TIME s;
          cassert (bool_decide (r = TLM_COMPLETED));; Ok s
      | None => Ok s end = Ok s1 /\ entry trans s1 = Some (n, mk_info None dst) /\
      refs trans s1 = Some k /\ calls_of calls trans s1 = calls_of calls trans s ++
      match dst with Some p => [To_target p trans END_RESP] | None => [] end).
  { destruct dst as [p|]; [|exists s; by rewrite app_nil_r].
    destruct (Hfw p trans END_RESP SC_ZERO_TIME s) as (s1 & ph & t & st & -> & Hc & Hkeep & Hst & _).
    rewrite bind_Ok. cbn beta iota. rewrite bool_decide_eq_true_2 by auto. cbn [cassert].
    rewrite bind_Ok. destruct (Hkeep _ _ He) as [? Hr1]. exists s1. by rewrite Hr1. }
  destruct H as (s1 & -> & He1 & Hr1 & Hc1). rewrite bind_Ok, (deref_entry _ _ _ _ He1), bind_Ok.
  unfold refs in Hr1. destruct (txns s1 !! trans) as [[p k']|] eqn:Ht; [|done].
  injection Hr1 as ->. unfold release, get_txn. cbn [txns upd_bus]. rewrite Ht, bind_Ok.
  destruct (Z.ltb_spec 0 k); [|lia]. cbn [cassert]. rewrite !bind_Ok.
  eexists. split; [done|]. unfold entry, refs, calls_of. cbn.
  by rewrite lookup_delete_eq, lookup_insert_eq.
Qed.

(** A request reaches the decoded target with its address masked. *)
Lemma begin_request_ok NR trans n i (s : sys P W) p k :
  entry trans s = Some (n, mk_info (Some i) None) -> s.(txns) !! trans = Some (p, k) ->
  decode p.(address) < NR ->
  exists s' ph t status,
    begin_request NR target_nb_transport_fw trans s = Ok (s', (n, ph, t, status)) /\
    entry trans s' = Some (n, mk_info (Some i) (Some (decode p.(address)))) /\
    calls_of calls trans s' = calls_of calls trans s ++ [To_target (decode p.(address)) trans BEGIN_REQ] /\
    (status <> TLM_COMPLETED -> ph = BEGIN_REQ \/ ph = END_REQ \/ ph = BEGIN_RESP).
Proof.
  intros He Ht Hp. pose proof HM as [_ Hfw]. unfold begin_request, get_txn.
  rewrite Ht, bind_Ok. destruct (Z.ltb_spec (decode p.(address)) NR); [|lia].
  cbn [cassert]. rewrite bind_Ok. set (s0 := upd_txns _ s).
  assert (He0 : entry trans s0 = Some (n, mk_info (Some i) None)) by exact He.
  unfold find_pending. change (mPendingTransactions (the_bus s0) !! trans) with (entry trans s0).
  rewrite He0, bind_Ok.
  destruct (set_info_entry trans n _ (fun info => mk_info info.(from) (Some (decode p.(address)))) s0 He0)
    as (s1 & -> & He1 & _ & Hw1 & _).
  rewrite bind_Ok. cbn [from to] in He1.
  destruct (Hfw (decode p.(address)) trans BEGIN_REQ SC_ZERO_TIME s1)
    as (s2 & ph & t & st & -> & Hc & Hk & _ & Hph).
  exists s2, ph, t, st. split; [done|]. split; [apply (Hk _ _ He1)|].
  split; [|by auto]. unfold calls_of in *. by rewrite Hc, Hw1.
Qed.

(** The end of the request phase, when the response may have begun. *)
Lemma send_end_req_ok trans n i dst (s1 s2 : sys P W) :
  entry trans s1 = Some (n, mk_info (Some i) dst) -> response_may_begin calls trans s1 s2 ->
  exists s3 f rest, send_end_req initiator_nb_transport_bw trans n s2 = Ok (s3, tt) /\
    entry trans s3 = Some (n, mk_info f dst) /\
    calls_of calls trans s3 = calls_of calls trans s1 ++ rest /\
    (f = Some i /\ rest = [To_initiator i trans END_REQ] \/
     f = None /\ rest = [To_initiator i trans BEGIN_RESP]).
Proof.
  intros He Hm. pose proof HM as [Hbw _]. unfold response_may_begin in Hm. rewrite He in Hm.
  cbn [from to] in Hm. destruct Hm as (f & He2 & Hf). unfold send_end_req.
  rewrite (deref_entry _ _ _ _ He2), bind_Ok. cbn [from].
  destruct Hf as [[-> Hc]|(-> & j & [= <-] & Hc)].
  - destruct (Hbw i trans END_REQ SC_ZERO_TIME s2) as (s3 & ph & t & st & -> & Hc3 & Hk).
    exists s3, (Some i), [To_initiator i trans END_REQ]. split; [done|].
    split; [apply (Hk _ _ He2)|]. rewrite Hc3, Hc. auto.
  - exists s2, None, [To_initiator i trans BEGIN_RESP]. auto 10.
Qed.
End Facts.

(** ** Properties *)

(** C24: a pending transaction whose response is due is answered completely:
    over modules that return from their calls, and while the rest of the
    simulation leaves the transaction alone, the response thread calls its
    initiator once, waits as the initiator asks, ends the response at the
    target exactly when the target has not completed the transaction itself,
    and gives up the entry and one reference, without a failed assertion. *)
Theorem response_served {P W} fw bw (calls : W -> list call) trans n i dst k (s : sys P W) :
  Modules fw bw calls ->
  entry trans s = Some (n, mk_info (Some i) dst) -> refs trans s = Some k -> 0 < k ->
  wp (untouched calls trans) (fun _ s' => entry trans s' = Some (n, mk_info None dst))
    (forward_response fw bw trans s)
    (fun _ s' => entry trans s' = None /\ refs trans s' = Some (k - 1) /\
       calls_of calls trans s' = calls_of calls trans s ++ [To_initiator i trans BEGIN_RESP] ++
         match dst with Some p => [To_target p trans END_RESP] | None => [] end).
Proof.
  intros HM He Hr Hk. unfold forward_response. apply wp_bind.
  destruct (begin_response_ok (calls := calls) trans n i dst s He) as (s1 & t & st & Hb & He1 & Hr1 & Hc1).
  eapply wp_step; [exact Hb|]. cbn beta iota. apply wp_bind.
  assert (Hend : forall s2, untouched calls trans s1 s2 ->
    wp (untouched calls trans) (fun _ s' => entry trans s' = Some (n, mk_info None dst))
      (p_step (E := event) (end_response fw trans n) s2)
      (fun _ s' => entry trans s' = None /\ refs trans s' = Some (k - 1) /\
       calls_of calls trans s' = calls_of calls trans s ++ [To_initiator i trans BEGIN_RESP] ++
         match dst with Some p => [To_target p trans END_RESP] | None => [] end)).
  { intros s2 (He2 & Hr2 & Hc2). rewrite He1 in He2. rewrite Hr1, Hr in Hr2.
    destruct (end_response_ok (calls := calls) trans n dst k s2 He2 Hr2 Hk) as (s3 & Hs3 & He3 & Hr3 & Hc3).
    eapply wp_step; [exact Hs3|]. split; [done|]. split; [done|].
    by rewrite Hc3, Hc2, Hc1, <- app_assoc. }
  destruct st; (apply wp_wait; [exact He1|exact Hend]).
Qed.

(** C25: a pending request is forwarded once, to the target its address selects,
    and what the thread does next is decided by the answer of the target, with no
    failed assertion.  If the target leaves the request phase open the thread
    waits for its end, and if it has ended it for the annotated time; then the
    initiator gets [END_REQ], exactly when the response has not begun meanwhile.
    If the target has begun the response, it is queued at once and no [END_REQ]
    is sent.  If it has completed, the response is queued before the thread waits
    for the annotated time, the target is struck from the entry, so that it gets
    no [END_RESP], and again no [END_REQ] is sent. *)
Theorem request_forwarded {P W} NR notify fw bw (calls : W -> list call) trans n i p k (s : sys P W) :
  Modules fw bw calls ->
  entry trans s = Some (n, mk_info (Some i) None) -> s.(txns) !! trans = Some (p, k) ->
  decode p.(address) < NR ->
  exists s1 ph t status,
    begin_request NR fw trans s = Ok (s1, (n, ph, t, status)) /\
    entry trans s1 = Some (n, mk_info (Some i) (Some (decode p.(address)))) /\
    calls_of calls trans s1 = calls_of calls trans s ++ [To_target (decode p.(address)) trans BEGIN_REQ] /\
    wp (response_may_begin calls trans) (request_waits notify trans n ph t status s1)
      (forward_request NR notify fw bw trans s)
      (fun _ s' => request_ends calls notify trans n i (decode p.(address)) ph t status s1 s').
Proof.
  intros HM He Ht Hp.
  destruct (begin_request_ok (calls := calls) NR trans n i s p k He Ht Hp)
    as (s1 & ph & t & st & Hb & He1 & Hc1 & Hph).
  exists s1, ph, t, st. split_and!; [done..|]. unfold forward_request. apply wp_bind.
  eapply wp_step; [exact Hb|]. cbn beta iota.
  destruct st; cbn [request_waits request_ends].
  1, 2: destruct Hph as [-> |[-> | ->]]; [done| | |done];
    (apply wp_bind, wp_wait; [done|]; intros s2 Hm; cbn beta iota;
     destruct (send_end_req_ok (calls := calls) trans n i _ s1 s2 He1 Hm) as (s3 & f & rest & Hs3 & He3 & Hc3 & Hf);
     eapply wp_step; [exact Hs3|]; by exists f, rest).
  apply wp_bind.
  destruct (set_info_entry trans n _ (fun info => mk_info info.(from) None) (notify_response notify trans t s1) He1)
    as (s3 & Hs3 & He3 & Ht3 & Hw3 & Hq3).
  eapply wp_step; [by rewrite Hs3, bind_Ok|]. cbn [from to] in He3.
  apply wp_wait.
  { split; [done|]. split; [exact Hq3|]. split; [by eexists|exact Hw3]. }
  intros s4 Hm. unfold response_may_begin in Hm. rewrite He3 in Hm. cbn [from to] in Hm.
  assert (Hc3 : calls_of calls trans s3 = calls_of calls trans s1) by (unfold calls_of in *; by rewrite Hw3).
  destruct Hm as (f & He4 & [[-> Hc4]|(-> & j & [= <-] & Hc4)]).
  - exists (mk_info (Some i) None), []. rewrite Hc4, Hc3, app_nil_r. auto 10.
  - exists (mk_info None None), [To_initiator i trans BEGIN_RESP]. rewrite Hc4, Hc3. auto 10.
Qed.

(** Modules that record the calls: a target accepts a request and leaves the
    request phase open. *)
Definition log_call {P} (c : call) (s : sys P (list call)) : sys P (list call) :=
  mk_sys s.(the_bus) s.(txns) (s.(world) ++ [c]).
Definition log_fw {P} (p trans : Z) (ph : tlm_phase) (t : sc_time) (s : sys P (list call)) :
  res (sys P (list call) * (tlm_phase * sc_time * tlm_sync_enum)) :=
  Ok (log_call (To_target p trans ph) s,
      (ph, t, if decide (ph = BEGIN_REQ) then TLM_ACCEPTED else TLM_COMPLETED)).
Definition log_bw {P} (i trans : Z) (ph : tlm_phase) (t : sc_time) (s : sys P (list call)) :
  res (sys P (list call) * (tlm_phase * sc_time * tlm_sync_enum)) :=
  Ok (log_call (To_initiator i trans ph) s, (ph, t, TLM_ACCEPTED)).

Lemma log_modules P : Modules (P := P) log_fw log_bw (fun w => w).
Proof.
  split.
  - intros i trans ph t s. do 4 eexists. split; [done|]. split; [|done].
    unfold calls_of. cbn [world log_call]. rewrite filter_app, filter_cons_True by done. done.
  - intros p trans ph t s. do 4 eexists. split; [done|]. split; [|split; [done|split]].
    + unfold calls_of. cbn [world log_call]. rewrite filter_app, filter_cons_True by done. done.
    + by intros ->.
    + intros -> _. by left.
Qed.

(** Transaction 1 of initiator 3 awaits its response from target 0, and
    transaction 2 of initiator 4, for target 1, has been received. *)
Definition example_txn (a : Z) : payload :=
  mk_payload TLM_READ_COMMAND a (Some [0; 0; 0; 0]) 4 4 None 0 false TLM_INCOMPLETE_RESPONSE.
Definition example_sys : sys (list (Z * sc_time)) (list call) :=
  mk_sys (mk_bus {[ 1 := (0, mk_info (Some 3) (Some 0)); 2 := (1, mk_info (Some 4) None) ]} 2 [] [] [])
    {[ 1 := (example_txn 0x20, 2); 2 := (example_txn 0x10000040, 2) ]} [].
Definition queue_notify (q : list (Z * sc_time)) (trans : Z) (t : sc_time) : list (Z * sc_time) :=
  q ++ [(trans, t)].

Lemma response_served_witness :
  wp (untouched (fun w => w) 1) (fun _ s' => entry 1 s' = Some (0, mk_info None (Some 0)))
    (forward_response log_fw log_bw 1 example_sys)
    (fun _ s' => entry 1 s' = None /\ refs 1 s' = Some (2 - 1) /\
       calls_of (fun w => w) 1 s' = [] ++ [To_initiator 3 1 BEGIN_RESP] ++ [To_target 0 1 END_RESP]).
Proof.
  apply (response_served log_fw log_bw (fun w => w) 1 0 3 (Some 0) 2 example_sys (log_modules _)).
  - reflexivity.
  - reflexivity.
  - lia.
Defined.

Lemma request_forwarded_witness :
  exists s1 ph t status,
    begin_request 2 log_fw 2 example_sys = Ok (s1, (1, ph, t, status)) /\
    entry 2 s1 = Some (1, mk_info (Some 4) (Some 1)) /\
    calls_of (fun w => w) 2 s1 = [To_target 1 2 BEGIN_REQ] /\
    (ph, t, status) = (BEGIN_REQ, 0, TLM_ACCEPTED) /\
    wp (response_may_begin (fun w => w) 2) (fun w s' => w = Wait_event mEndRequestEvent /\ s' = s1)
      (forward_request 2 queue_notify log_fw log_bw 2 example_sys)
      (fun _ s' => exists f rest, entry 2 s' = Some (1, mk_info f (Some 1)) /\
         calls_of (fun w => w) 2 s' = calls_of (fun w => w) 2 s1 ++ rest /\
         (f = Some 4 /\ rest = [To_initiator 4 2 END_REQ] \/
          f = None /\ rest = [To_initiator 4 2 BEGIN_RESP])).
Proof.
  destruct (request_forwarded 2 queue_notify log_fw log_bw (fun w => w) 2 1 4 (example_txn 0x10000040) 2
    example_sys (log_modules _)) as (s1 & ph & t & status & Hb & He & Hc & Hwp); [reflexivity..|].
  assert (Hans : (ph, t, status) = (BEGIN_REQ, 0, TLM_ACCEPTED)).
  { vm_compute in Hb. by injection Hb as _ <- <- <-. }
  exists s1, ph, t, status. split; [exact Hb|]. split; [exact He|]. split; [exact Hc|]. split; [exact Hans|].
  injection Hans as -> -> ->. exact Hwp.
Defined.

(** One event stands for the end of every request: while the thread waits for
    target 1 to end the request of transaction 2, the response of target 0 to
    transaction 1 notifies that event, and the bus tells the initiator of
    transaction 2 that its request has ended although target 1 has made no call. *)
Theorem end_request_confused :
  let env := fun (_ : nat) s =>
    match targetNBTransport queue_notify 0 1 BEGIN_RESP SC_ZERO_TIME s with
    | Ok (s', _) => s' | Err _ => s end in
  match run env 0 (forward_request 2 queue_notify log_fw log_bw 2 example_sys) with
  | ([(w, s1)], Ok (s2, _)) =>
      w = Wait_event mEndRequestEvent /\ s1.(the_bus).(notified) = [] /\
      s2.(the_bus).(notified) = [(mEndRequestEvent, SC_ZERO_TIME)] /\
      s2.(world) = [To_target 1 2 BEGIN_REQ; To_initiator 4 2 END_REQ]
  | _ => False
  end.
Proof. vm_compute. by repeat split. Qed.
