(* ===== verification/DmiMemory.v ===== *)
(** * Access through a direct memory interface
    (lt/systemc/third-party/systemc-lt-example/dmi_memory.cpp)

    An initiator-side cache of one granted DMI region: loading a descriptor,
    testing a transaction against it, performing the transaction on the host
    memory behind the pointer, and invalidation. *)

From S2P Require Import Prelude Tlm Report LtMemory.
From stdpp Require Import base numbers list gmap.
#[local] Open Scope Z_scope.

(** ** Definitions *)

(** The pointer and the granted access are not initialised by the constructor.
    [m_data], [m_length], [m_offset], [m_address], [m_command] and
    [m_is_dmi_flag] are left out: every operation assigns them before it reads
    them. *)
Record dmi_memory : Type := mk_dmi_memory {
  dm_ID : Z;
  m_dmi_size : Z;
  m_dmi_read_latency : sc_time;
  m_dmi_write_latency : sc_time;
  m_dmi_base_address : Z;
  m_dmi_ptr : option Z;
  m_start_address : Z;
  m_end_address : Z;
  m_granted_access : option dmi_access_e;
}.

Definition with_range (s e : Z) (m : dmi_memory) : dmi_memory :=
  mk_dmi_memory m.(dm_ID) m.(m_dmi_size) m.(m_dmi_read_latency) m.(m_dmi_write_latency)
    m.(m_dmi_base_address) m.(m_dmi_ptr) s e m.(m_granted_access).

Definition new_dmi_memory (ID : Z) : dmi_memory :=
  mk_dmi_memory ID 0 SC_ZERO_TIME SC_ZERO_TIME 0 None 0 0 None.

Definition load_dmi_ptr (m : dmi_memory) (p : tlm_dmi) : dmi_memory :=
  mk_dmi_memory m.(dm_ID) (u64 (p.(end_address) - p.(start_address)))
    p.(read_latency) p.(write_latency) p.(start_address) (Some p.(dmi_ptr))
    m.(m_start_address) m.(m_end_address) (Some p.(granted_access)).

(** The test also leaves the transaction's range in the object. *)
Definition is_address_dmi (m : dmi_memory) (gp : payload) : res (dmi_memory * bool) :=
  let start := gp.(address) in
  let end_ := u64 (start + gp.(data_length)) in
  let m := with_range start end_ m in
  if (start <? m.(m_dmi_base_address)) ||
     (u64 (m.(m_dmi_base_address) + m.(m_dmi_size)) <? end_)
  then Ok (m, false)
  else
    match gp.(command) with
    | TLM_WRITE_COMMAND =>
        match m.(m_granted_access) with
        | Some a => Ok (m, negb (bool_decide (a = DMI_ACCESS_READ)) &&
                           negb (bool_decide (a = DMI_ACCESS_NONE)))
        | None => Err Undefined_behaviour
        end
    | TLM_READ_COMMAND =>
        match m.(m_granted_access) with
        | Some a => Ok (m, negb (bool_decide (a = DMI_ACCESS_WRITE)) &&
                           negb (bool_decide (a = DMI_ACCESS_NONE)))
        | None => Err Undefined_behaviour
        end
    | TLM_IGNORE_COMMAND => Ok (m, false)
    end.

(** The block behind the cached pointer, in the host's memory. *)
Definition dmi_block (m : dmi_memory) (host : gmap Z (list Z)) : res (Z * list Z) :=
  match m.(m_dmi_ptr) with
  | Some p => match host !! p with
              | Some b => Ok (p, b)
              | None => Err Undefined_behaviour
              end
  | None => Err Undefined_behaviour
  end.

Definition operation (m : dmi_memory) (host : gmap Z (list Z)) (gp : payload)
  (delay : sc_time) : res (dmi_memory * gmap Z (list Z) * payload * sc_time) :=
  let gp := set_response_status TLM_GENERIC_ERROR_RESPONSE gp in
  '(m, ok) ← is_address_dmi m gp;
  if negb ok then
    Ok (m, host, set_response_status TLM_COMMAND_ERROR_RESPONSE gp, delay)
  else
    let m_offset := u64 (gp.(address) - m.(m_dmi_base_address)) in
    match gp.(command) with
    | TLM_WRITE_COMMAND =>
        '(p, b) ← dmi_block m host;
        b' ← write_loop (Z.to_nat gp.(data_length)) 0 m_offset (data_array gp) b;
        let gp := set_response_status TLM_OK_RESPONSE gp in
        _ ← print m.(dm_ID) gp;
        Ok (m, <[p := b']> host, gp, t_add delay m.(m_dmi_write_latency))
    | TLM_READ_COMMAND =>
        '(p, b) ← dmi_block m host;
        d ← read_loop (Z.to_nat gp.(data_length)) 0 m_offset b (data_array gp);
        let gp := set_response_status TLM_OK_RESPONSE (set_data (Some d) gp) in
        _ ← print m.(dm_ID) gp;
        Ok (m, host, gp, t_add delay m.(m_dmi_read_latency))
    | TLM_IGNORE_COMMAND =>
        Ok (m, host, set_response_status TLM_COMMAND_ERROR_RESPONSE gp, delay)
    end.

Definition invalidate_dmi_ptr (m : dmi_memory) (start_range end_range : Z) : dmi_memory :=
  if (start_range <=? end_range) &&
     (m.(m_dmi_base_address) <=? start_range) &&
     (end_range <=? u64 (m.(m_dmi_base_address) - m.(m_dmi_size)))
  then with_range 1 0 m
  else m.

(** A descriptor that grants [n] bytes of host memory under [p]. *)
Definition grants (p : tlm_dmi) (host : gmap Z (list Z)) (b : list Z) : Prop :=
  host !! p.(dmi_ptr) = Some b /\
  0 <= p.(start_address) <= p.(end_address) /\ p.(end_address) < 2 ^ 63 /\
  p.(end_address) - p.(start_address) < Z.of_nat (length b).

(** The commands and the transactions the descriptor allows. *)
Definition dmi_permits (p : tlm_dmi) (gp : payload) : bool :=
  match gp.(command), p.(granted_access) with
  | TLM_WRITE_COMMAND, (DMI_ACCESS_WRITE | DMI_ACCESS_READ_WRITE) => true
  | TLM_READ_COMMAND, (DMI_ACCESS_READ | DMI_ACCESS_READ_WRITE) => true
  | _, _ => false
  end.
Definition dmi_allows (p : tlm_dmi) (gp : payload) : bool :=
  (p.(start_address) <=? gp.(address)) &&
  (gp.(address) + gp.(data_length) <=? p.(end_address)) && dmi_permits p gp.

(** A transaction whose end wraps around and seems to lie in the region. *)
Definition dmi_mistakes (p : tlm_dmi) (gp : payload) : bool :=
  (2 ^ 64 <=? gp.(address) + gp.(data_length)) &&
  (gp.(address) + gp.(data_length) - 2 ^ 64 <=? p.(end_address)) && dmi_permits p gp.

(** ** Lemmas *)

Lemma is_address_dmi_loaded m p gp :
  payload_wf gp ->
  0 <= p.(start_address) <= p.(end_address) -> p.(end_address) < 2 ^ 63 ->
  is_address_dmi (load_dmi_ptr m p) gp =
  Ok (with_range gp.(address) (u64 (gp.(address) + gp.(data_length))) (load_dmi_ptr m p),
      dmi_allows p gp || dmi_mistakes p gp).
Proof.
  intros [Ha Hl _] Hs He. unfold is_address_dmi, dmi_allows, dmi_mistakes.
  cbn [m_dmi_base_address m_dmi_size m_granted_access load_dmi_ptr with_range].
  rewrite (wrap_small 64 (end_address p - _)) by lia.
  replace (start_address p + (end_address p - start_address p)) with (end_address p) by lia.
  rewrite (wrap_small 64 (end_address p)) by lia.
  set (e := u64 (address gp + data_length gp)).
  assert (Htest : (start_address p <=? address gp) && (address gp + data_length gp <=? end_address p) ||
      (2 ^ 64 <=? address gp + data_length gp) && (address gp + data_length gp - 2 ^ 64 <=? end_address p) =
    negb ((address gp <? start_address p) || (end_address p <? e))).
  { assert (He64 : e = if 2 ^ 64 <=? address gp + data_length gp then address gp + data_length gp - 2 ^ 64
                       else address gp + data_length gp).
    { unfold e, wrap. destruct (Z.leb_spec (2 ^ 64) (address gp + data_length gp)).
      - symmetry. apply (Z.mod_unique _ _ 1); lia.
      - apply Z.mod_small. lia. }
    rewrite He64. destruct (Z.leb_spec (2 ^ 64) (address gp + data_length gp)); cbn [andb]; lia. }
  rewrite <- andb_orb_distrib_l, Htest.
  destruct ((address gp <? start_address p) || (end_address p <? e)); cbn [negb andb]; [done|].
  unfold dmi_permits. by destruct (command gp), (granted_access p).
Qed.

Lemma write_loop_out n address data mem : Z.of_nat (length mem) <= address ->
  write_loop (S n) 0 address data mem = Err Undefined_behaviour.
Proof.
  intros Ha. cbn [write_loop]. destruct (get_byte data 0) as [b|f] eqn:Hb.
  - rewrite bind_Ok. unfold set_byte. destruct (Z.ltb_spec address (Z.of_nat (length mem))); [lia|].
    by rewrite andb_false_r.
  - unfold get_byte in Hb. by repeat case_match; simplify_eq.
Qed.

Lemma read_loop_out n address mem data : Z.of_nat (length mem) <= address ->
  read_loop (S n) 0 address mem data = Err Undefined_behaviour.
Proof.
  intros Ha. cbn [read_loop]. unfold get_byte. rewrite lookup_ge_None_2 by lia. by destruct (0 <=? address).
Qed.

(** Whatever range the object remembers is overwritten by the next test. *)
Lemma operation_forgets_range m s e host gp t :
  operation (with_range s e m) host gp t = operation m host gp t.
Proof. done. Qed.

(** ** Properties *)

(** C26: with a loaded descriptor that grants enough host memory (a block
    of less than 2^62 bytes), what an operation does with every transaction that
    has a buffer: an allowed one is a block transfer at the offset from the
    region's start with the region's latency added, within the granted block; one
    whose end, address plus length, wraps around modulo 2^64 into the region is
    let through by the test and leaves the block; any other is refused with a command error and no effect. *)
Theorem dmi_operation_spec m p host b gp d t :
  grants p host b -> payload_wf gp -> has_buffer gp d -> (4 <= length d)%nat ->
  Z.of_nat (length b) < 2 ^ 62 ->
  let off := gp.(address) - p.(start_address) in
  let m' := with_range gp.(address) (u64 (gp.(address) + gp.(data_length))) (load_dmi_ptr m p) in
  operation (load_dmi_ptr m p) host gp t =
  if dmi_allows p gp then
    match gp.(command) with
    | TLM_WRITE_COMMAND =>
        Ok (m', <[p.(dmi_ptr) := splice b off (slice d 0 gp.(data_length))]> host,
            set_response_status TLM_OK_RESPONSE gp, t_add t p.(write_latency))
    | _ =>
        Ok (m', host, set_response_status TLM_OK_RESPONSE
              (set_data (Some (splice d 0 (slice b off gp.(data_length)))) gp),
            t_add t p.(read_latency))
    end
  else if dmi_mistakes p gp then Err Undefined_behaviour
  else Ok (m', host, set_response_status TLM_COMMAND_ERROR_RESPONSE gp, t).
Proof.
  intros (Hb & Hs & He & Hsz) Hgp [Hd Hlen] H4 Hb63 off m'. unfold operation.
  assert (Hgp' : payload_wf (set_response_status TLM_GENERIC_ERROR_RESPONSE gp))
    by (destruct Hgp; by split).
  rewrite (is_address_dmi_loaded m p _ Hgp') by done. rewrite bind_Ok.
  change (dmi_allows p (set_response_status _ gp)) with (dmi_allows p gp).
  change (dmi_mistakes p (set_response_status _ gp)) with (dmi_mistakes p gp).
  unfold dmi_block, data_array. cbn [m_dmi_ptr with_range load_dmi_ptr command address
    data_length data set_response_status m_dmi_base_address].
  destruct (dmi_allows p gp) eqn:Hal; cbn [orb negb].
  - rewrite Hb, Hd, bind_Ok. change (default [] (Some d)) with d.
    unfold dmi_allows, dmi_permits in Hal. apply andb_true_iff in Hal as [Hr Hc]. breflect. destruct Hgp.
    fold off. rewrite (wrap_small 64 off) by (unfold off; lia).
    destruct (command gp); [| |done].
    + rewrite read_loop_splice, Z2Nat.id, bind_Ok by (unfold off; lia).
      match goal with |- context [print ?i ?g] =>
        destruct (print_Ok i g (splice d 0 (slice b off (data_length gp)))) as [str ->] end;
        [done | | done].
      rewrite splice_length; rewrite ?slice_length; unfold off; lia.
    + rewrite bind_Ok, write_loop_splice, Z2Nat.id, bind_Ok by (unfold off; lia).
      match goal with |- context [print ?i ?g] =>
        destruct (print_Ok i g d) as [str ->] end; done.
  - destruct (dmi_mistakes p gp) eqn:Hmi; cbn [negb]; [|done].
    unfold dmi_mistakes, dmi_permits in Hmi. apply andb_true_iff in Hmi as [Hr Hc]. breflect. destruct Hgp.
    rewrite Hb. fold off. rewrite (wrap_small 64 off) by (unfold off; lia).
    assert (Hn : exists n, Z.to_nat (data_length gp) = S n) by (exists (Z.to_nat (data_length gp - 1)); lia).
    destruct Hn as [n ->]. destruct (command gp); [| |done]; rewrite !bind_Ok.
    + by rewrite read_loop_out by (unfold off; lia).
    + by rewrite write_loop_out by (unfold off; lia).
Qed.

(** A word within the region, and one whose end wraps around to its start. *)
Lemma dmi_operation_spec_witness :
  let p := mk_dmi 7 0 0xf 10 20 DMI_ACCESS_READ_WRITE in
  let host := {[7 := replicate 16 0]} : gmap Z (list Z) in
  operation (load_dmi_ptr (new_dmi_memory 1) p) host (example_gp TLM_WRITE_COMMAND 4 [1; 2; 3; 4]) 5 =
    Ok (with_range 4 8 (load_dmi_ptr (new_dmi_memory 1) p),
      <[7 := splice (replicate 16 0) 4 [1; 2; 3; 4]]> host,
      set_response_status TLM_OK_RESPONSE (example_gp TLM_WRITE_COMMAND 4 [1; 2; 3; 4]), 25) /\
  operation (load_dmi_ptr (new_dmi_memory 1) p) host
    (example_gp TLM_WRITE_COMMAND (2 ^ 64 - 2) [1; 2; 3; 4]) 5 = Err Undefined_behaviour.
Proof.
  cbv zeta. split.
  - refine (dmi_operation_spec (new_dmi_memory 1) (mk_dmi 7 0 0xf 10 20 DMI_ACCESS_READ_WRITE)
      {[7 := replicate 16 0]} (replicate 16 0) (example_gp TLM_WRITE_COMMAND 4 [1; 2; 3; 4])
      [1; 2; 3; 4] 5 _ _ _ _ _).
    + split_and!; [reflexivity|done|done|done|done].
    + apply example_gp_wf; [lia|solve_bytes].
    + split; [reflexivity | cbn; lia].
    + cbn; lia.
    + cbn; lia.
  - refine (dmi_operation_spec (new_dmi_memory 1) (mk_dmi 7 0 0xf 10 20 DMI_ACCESS_READ_WRITE)
      {[7 := replicate 16 0]} (replicate 16 0) (example_gp TLM_WRITE_COMMAND (2 ^ 64 - 2) [1; 2; 3; 4])
      [1; 2; 3; 4] 5 _ _ _ _ _).
    + split_and!; [reflexivity|done|done|done|done].
    + apply example_gp_wf; [lia|solve_bytes].
    + split; [reflexivity | cbn; lia].
    + cbn; lia.
    + cbn; lia.
Defined.

(** Invalidation has no effect on later operations: whatever range is
    invalidated, the next operation behaves as if it had not been, because the
    only members [invalidate_dmi_ptr] changes are overwritten before they are
    read. *)
Theorem invalidate_dmi_ptr_no_effect m s e host gp t :
  operation (invalidate_dmi_ptr m s e) host gp t = operation m host gp t.
Proof.
  unfold invalidate_dmi_ptr. case_match; [apply operation_forgets_range | done].
Qed.
