(* ===== verification/AtTarget.v ===== *)
(** * The approximately-timed target
    (lt/systemc/third-party/systemc-lt-example/at_target_1_phase.cpp)

    A target with the same memory as [lt_target] and two protocols for
    non-blocking requests: most are completed at once, every twentieth is put in
    a payload event queue and answered later by [begin_response_method]. *)

From S2P Require Import Prelude Tlm Report LtMemory.
From stdpp Require Import base numbers list relations.
#[local] Open Scope Z_scope.

(** ** Definitions *)

(** What [begin_response_method] is sensitive to: the event of its queue, the
    time given to [next_trigger], or the end of the response. *)
Inductive trigger : Type :=
| On_response_PEQ
| After (delay : sc_time)
| On_end_resp_rcvd.

(** [end_resp_notified]: a notification of [m_end_resp_rcvd_event] is pending. *)
Record at_target_1_phase (P : Type) : Type := mk_at {
  m_accept_delay : sc_time;
  m_request_count : Z;
  m_nb_trans_fw_prev_warning : bool;
  m_begin_resp_method_prev_warning : bool;
  m_trans_dbg_prev_warning : bool;
  m_get_dm_ptr_prev_warning : bool;
  m_response_PEQ : P;
  m_target_memory : memory;
  end_resp_notified : bool;
  next_trigger : trigger;
}.
Arguments mk_at {P}. Arguments m_accept_delay {P}. Arguments m_request_count {P}.
Arguments m_nb_trans_fw_prev_warning {P}. Arguments m_begin_resp_method_prev_warning {P}.
Arguments m_trans_dbg_prev_warning {P}. Arguments m_get_dm_ptr_prev_warning {P}.
Arguments m_response_PEQ {P}. Arguments m_target_memory {P}.
Arguments end_resp_notified {P}. Arguments next_trigger {P}.

Section AtTarget.
(** The payload event queue of the TLM utilities. *)
Context {P : Type} (peq_new : P) (peq_notify : P -> payload -> sc_time -> P).
Context (peq_get_next_transaction : P -> option (payload * P)).

Notation target := (at_target_1_phase P).

Definition set_count n (s : target) : target :=
  mk_at s.(m_accept_delay) n s.(m_nb_trans_fw_prev_warning) s.(m_begin_resp_method_prev_warning)
    s.(m_trans_dbg_prev_warning) s.(m_get_dm_ptr_prev_warning) s.(m_response_PEQ)
    s.(m_target_memory) s.(end_resp_notified) s.(next_trigger).
Definition set_fw_warning b (s : target) : target :=
  mk_at s.(m_accept_delay) s.(m_request_count) b s.(m_begin_resp_method_prev_warning)
    s.(m_trans_dbg_prev_warning) s.(m_get_dm_ptr_prev_warning) s.(m_response_PEQ)
    s.(m_target_memory) s.(end_resp_notified) s.(next_trigger).
Definition set_resp_warning b (s : target) : target :=
  mk_at s.(m_accept_delay) s.(m_request_count) s.(m_nb_trans_fw_prev_warning) b
    s.(m_trans_dbg_prev_warning) s.(m_get_dm_ptr_prev_warning) s.(m_response_PEQ)
    s.(m_target_memory) s.(end_resp_notified) s.(next_trigger).
Definition set_dbg_warning b (s : target) : target :=
  mk_at s.(m_accept_delay) s.(m_request_count) s.(m_nb_trans_fw_prev_warning)
    s.(m_begin_resp_method_prev_warning) b s.(m_get_dm_ptr_prev_warning) s.(m_response_PEQ)
    s.(m_target_memory) s.(end_resp_notified) s.(next_trigger).
Definition set_dm_ptr_warning b (s : target) : target :=
  mk_at s.(m_accept_delay) s.(m_request_count) s.(m_nb_trans_fw_prev_warning)
    s.(m_begin_resp_method_prev_warning) s.(m_trans_dbg_prev_warning) b s.(m_response_PEQ)
    s.(m_target_memory) s.(end_resp_notified) s.(next_trigger).
Definition set_peq q (s : target) : target :=
  mk_at s.(m_accept_delay) s.(m_request_count) s.(m_nb_trans_fw_prev_warning)
    s.(m_begin_resp_method_prev_warning) s.(m_trans_dbg_prev_warning)
    s.(m_get_dm_ptr_prev_warning) q s.(m_target_memory) s.(end_resp_notified) s.(next_trigger).
Definition set_target_memory m (s : target) : target :=
  mk_at s.(m_accept_delay) s.(m_request_count) s.(m_nb_trans_fw_prev_warning)
    s.(m_begin_resp_method_prev_warning) s.(m_trans_dbg_prev_warning)
    s.(m_get_dm_ptr_prev_warning) s.(m_response_PEQ) m s.(end_resp_notified) s.(next_trigger).
Definition set_notified b (s : target) : target :=
  mk_at s.(m_accept_delay) s.(m_request_count) s.(m_nb_trans_fw_prev_warning)
    s.(m_begin_resp_method_prev_warning) s.(m_trans_dbg_prev_warning)
    s.(m_get_dm_ptr_prev_warning) s.(m_response_PEQ) s.(m_target_memory) b s.(next_trigger).
Definition set_trigger t (s : target) : target :=
  mk_at s.(m_accept_delay) s.(m_request_count) s.(m_nb_trans_fw_prev_warning)
    s.(m_begin_resp_method_prev_warning) s.(m_trans_dbg_prev_warning)
    s.(m_get_dm_ptr_prev_warning) s.(m_response_PEQ) s.(m_target_memory)
    s.(end_resp_notified) t.

Definition new_at_target (ID memory_size memory_width : Z)
  (accept_delay read_response_delay write_response_delay : sc_time) : res target :=
  m ← new_memory ID read_response_delay write_response_delay memory_size memory_width;
  Ok (mk_at accept_delay 1 false false false false peq_new m false On_response_PEQ).

Definition b_transport : b_transport_t target := fun s payload delay_time =>
  '(m, payload, mem_op_time) ← operation s.(m_target_memory) payload SC_ZERO_TIME;
  Ok (set_target_memory m s, payload,
      t_add (t_add delay_time s.(m_accept_delay)) mem_op_time).

(** [if (!warned) REPORT_WARNING(...); else warned = true;] *)
Definition warn (warned : bool) : bool := if negb warned then warned else true.

Definition nb_transport_fw (s : target) (gp : payload) (phase : tlm_phase) (delay_time : sc_time) :
  res (target * payload * tlm_phase * sc_time * tlm_sync_enum) :=
  match phase with
  | BEGIN_REQ =>
      let request_count := s.(m_request_count) in
      let s := set_count (u64 (request_count + 1)) s in
      if negb (request_count mod 20 =? 0) then
        '(m, gp, delay_time) ← operation s.(m_target_memory) gp delay_time;
        Ok (set_target_memory m s, gp, phase, t_add delay_time s.(m_accept_delay), TLM_COMPLETED)
      else
        let '(m, delay_time) := get_delay s.(m_target_memory) gp delay_time in
        let delay_time := t_add delay_time s.(m_accept_delay) in
        let s := set_target_memory m s in
        Ok (set_peq (peq_notify s.(m_response_PEQ) gp delay_time) s, gp, END_REQ,
            s.(m_accept_delay), TLM_UPDATED)
  | END_RESP => Ok (set_notified true s, gp, phase, delay_time, TLM_COMPLETED)
  | END_REQ | BEGIN_RESP => Err Fatal_report
  | UNINITIALIZED_PHASE =>
      Ok (set_fw_warning (warn s.(m_nb_trans_fw_prev_warning)) s, gp, phase, delay_time, TLM_ACCEPTED)
  end.

Section Response.
(** [m_memory_socket->nb_transport_bw]. *)
Context {W : Type}.
Context (nb_transport_bw : W -> payload -> tlm_phase -> sc_time ->
  W * payload * tlm_phase * sc_time * tlm_sync_enum).

(** At most [fuel] transactions are taken from the queue. *)
Fixpoint begin_response_method (fuel : nat) (s : target) (w : W) : res (target * W) :=
  match fuel with
  | O => Err Out_of_fuel
  | S n =>
      match peq_get_next_transaction s.(m_response_PEQ) with
      | None => Ok (set_trigger On_response_PEQ s, w)
      | Some (transaction, q) =>
          let s := set_peq q s in
          '(m, transaction, _) ← operation s.(m_target_memory) transaction SC_ZERO_TIME;
          let s := set_target_memory m s in
          let '(w, _, _, delay, status) :=
            nb_transport_bw w transaction BEGIN_RESP SC_ZERO_TIME in
          match status with
          | TLM_COMPLETED => Ok (set_trigger (After delay) s, w)
          | TLM_ACCEPTED => Ok (set_trigger On_end_resp_rcvd s, w)
          | TLM_UPDATED =>
              begin_response_method n
                (set_resp_warning (warn s.(m_begin_resp_method_prev_warning)) s) w
          end
      end
  end.
End Response.

Definition get_direct_mem_ptr (s : target) : target * bool :=
  (set_dm_ptr_warning (warn s.(m_get_dm_ptr_prev_warning)) s, false).

Definition transport_dbg (s : target) : target * Z :=
  (set_dbg_warning (warn s.(m_trans_dbg_prev_warning)) s, 0).

(** *** Runs of the target *)

(** Requests made one after the other; the statuses returned. *)
Fixpoint begin_requests (s : target) (ps : list (payload * sc_time)) : res (target * list tlm_sync_enum) :=
  match ps with
  | [] => Ok (s, [])
  | (p, t) :: ps =>
      '(s, _, _, _, status) ← nb_transport_fw s p BEGIN_REQ t;
      '(s, rest) ← begin_requests s ps;
      Ok (s, status :: rest)
  end.

(** The payloads a queue holds, due or not: what the queue promises. *)
Class Peq (held : P -> list payload) : Prop := {
  peq_new_empty : held peq_new = [];
  peq_notify_adds : forall q p t, held (peq_notify q p t) ≡ₚ p :: held q;
  peq_next_removes : forall q p q',
    peq_get_next_transaction q = Some (p, q') -> held q ≡ₚ p :: held q';
}.

(** The target, the initiator and the requests deferred so far, in any order of
    requests, ends of responses, activations of the method and time. *)
Section Steps.
Context {W : Type} (held : P -> list payload).
Context (nb_transport_bw : W -> payload -> tlm_phase -> sc_time ->
  W * payload * tlm_phase * sc_time * tlm_sync_enum).

(** The trigger the method is waiting for has fired. *)
Definition triggered (s : target) : bool :=
  match s.(next_trigger) with On_end_resp_rcvd => s.(end_resp_notified) | _ => true end.

Inductive at_step : target * W * list payload -> target * W * list payload -> Prop :=
| step_request s w ds p t s' p' ph t' status :
    nb_transport_fw s p BEGIN_REQ t = Ok (s', p', ph, t', status) ->
    at_step (s, w, ds)
      (s', w, if bool_decide (status = TLM_UPDATED) then ds ++ [p] else ds)
| step_end_resp s w ds p t s' p' ph t' status :
    nb_transport_fw s p END_RESP t = Ok (s', p', ph, t', status) ->
    at_step (s, w, ds) (s', w, ds)
| step_activate s w ds fuel s' w' :
    triggered s = true ->
    begin_response_method nb_transport_bw fuel (set_notified false s) w = Ok (s', w') ->
    at_step (s, w, ds) (s', w', ds)
| step_time s w ds q :
    held q ≡ₚ held s.(m_response_PEQ) -> at_step (s, w, ds) (set_peq q s, w, ds).
End Steps.
End AtTarget.

(** ** Lemmas *)

(** What identifies a request. *)
Definition req_id (p : payload) : tlm_command * Z * Z := (p.(command), p.(address), p.(data_length)).

Lemma operation_keeps_id m gp t m' gp' t' :
  operation m gp t = Ok (m', gp', t') -> req_id gp' = req_id gp.
Proof.
  unfold operation. rewrite check_features_eq. cbn zeta. intros H.
  destruct (command _) eqn:Hc in H; inv_bind H; cbn in Hc; unfold req_id; cbn; by rewrite ?Hc.
Qed.

Lemma get_delay_keeps_memory m gp t m' t' :
  get_delay m gp t = (m', t') -> m_memory m' = m_memory m /\ (memory_ok m -> memory_ok m').
Proof. unfold get_delay. by destruct (command gp); intros [= <- <-]. Qed.

(** The memory and the payload after an operation do not depend on the delay. *)
Lemma spec_operation_delay m gp t t' :
  (spec_operation m gp t).1 = (spec_operation m gp t').1.
Proof. unfold spec_operation. destruct (command gp), (accepts m gp); done. Qed.

Section Facts.
Context {P : Type} {peq_new : P} {peq_notify : P -> payload -> sc_time -> P}.
Context {peq_get_next_transaction : P -> option (payload * P)}.
Context {held : P -> list payload}.
Context `{HP : !Peq peq_new peq_notify peq_get_next_transaction held}.

Notation target := (at_target_1_phase P).

(** Both protocols accept every request with a buffer. *)
Lemma begin_req_total s p d t :
  memory_ok s.(m_target_memory) -> payload_wf p -> has_buffer p d -> (4 <= length d)%nat ->
  exists s' p' ph t',
    nb_transport_fw peq_notify s p BEGIN_REQ t =
      Ok (s', p', ph, t', if m_request_count s mod 20 =? 0 then TLM_UPDATED else TLM_COMPLETED) /\
    memory_ok s'.(m_target_memory) /\ s'.(m_request_count) = u64 (s.(m_request_count) + 1).
Proof.
  intros Hm Hp Hb H4. unfold nb_transport_fw.
  destruct (m_request_count s mod 20 =? 0); cbn [negb].
  - destruct (get_delay _ p t) as [m' t'] eqn:Hd. do 4 eexists. split; [reflexivity|].
    split; [by apply (get_delay_keeps_memory _ _ _ _ _ Hd)|done].
  - cbn [m_target_memory set_count].
    pose proof (operation_spec _ p d t Hm Hp Hb H4) as Hop.
    destruct (spec_operation (m_target_memory s) p t) as [[m' p'] t'] eqn:E.
    rewrite Hop, bind_Ok. do 4 eexists. split; [reflexivity|]. split; [|done].
    by eapply operation_preserves.
Qed.

(** Whatever the method does, what it takes from the queue it answers. *)
Lemma begin_response_accounts {W} bw (responses : W -> list payload) fuel : forall s w s' w',
  (forall w p ph t, responses (bw w p ph t).1.1.1.1 = responses w ++ [p]) ->
  begin_response_method peq_get_next_transaction bw fuel s w = Ok (s', w') ->
  (req_id <$> responses w') ++ (req_id <$> held s'.(m_response_PEQ)) ≡ₚ
  (req_id <$> responses w) ++ (req_id <$> held s.(m_response_PEQ)).
Proof.
  induction fuel as [|fuel IH]; intros s w s' w' Hlog H; [discriminate|].
  cbn [begin_response_method] in H.
  destruct (peq_get_next_transaction (m_response_PEQ s)) as [[p q]|] eqn:Hn; [|by simplify_eq].
  cbv zeta in H. apply bind_Ok_inv in H as ([[m p'] t'] & Hop & H). cbn beta iota in H.
  pose proof (Hlog w p' BEGIN_RESP SC_ZERO_TIME) as Hl.
  destruct (bw w p' BEGIN_RESP SC_ZERO_TIME) as [[[[w1 p1] ph1] t1] status].
  cbn [fst snd] in Hl. apply operation_keeps_id in Hop.
  assert (Hperm : (req_id <$> responses w1) ++ (req_id <$> held q) ≡ₚ
    (req_id <$> responses w) ++ (req_id <$> held (m_response_PEQ s))).
  { pose proof HP as [_ _ Hrem]. rewrite Hl, (Hrem _ _ _ Hn), fmap_app, !fmap_cons, Hop, <- app_assoc. done. }
  destruct status.
  - simplify_eq. done.
  - apply IH in H; [|done]. rewrite H. done.
  - simplify_eq. done.
Qed.
End Facts.

(** ** Properties *)

(** From a fresh count of [c], a sequence of requests with buffers is
    accepted whole, and request number [k] is deferred exactly when [k] is a
    multiple of 20, the others being completed at once. *)
Theorem every_twentieth_deferred {P} (notify : P -> payload -> sc_time -> P) ps s :
  memory_ok s.(m_target_memory) ->
  Forall (fun '(p, t) => payload_wf p /\ exists d, has_buffer p d /\ (4 <= length d)%nat) ps ->
  0 <= s.(m_request_count) -> s.(m_request_count) + Z.of_nat (length ps) < 2 ^ 64 ->
  exists s', begin_requests notify s ps =
      Ok (s', (fun k => if k mod 20 =? 0 then TLM_UPDATED else TLM_COMPLETED) <$>
              seqZ s.(m_request_count) (Z.of_nat (length ps))) /\
    s'.(m_request_count) = s.(m_request_count) + Z.of_nat (length ps) /\
    memory_ok s'.(m_target_memory).
Proof.
  intros Hm Hps. revert s Hm. induction Hps as [|[p t] ps (Hp & d & Hb & H4) _ IH]; intros s Hm Hc Hl.
  - exists s. split; [done|]. split; [cbn; lia|done].
  - cbn [length] in Hl. cbn [begin_requests].
    destruct (begin_req_total (peq_notify := notify) s p d t Hm Hp Hb H4) as (s1 & p1 & ph1 & t1 & -> & Hm1 & Hc1).
    rewrite wrap_small in Hc1 by lia.
    destruct (IH s1 Hm1) as (s2 & Hr & Hc2 & Hm2); [lia|lia|].
    rewrite bind_Ok. cbn beta iota. rewrite Hr, bind_Ok. exists s2. split; [|split; [|done]].
    + cbn [length]. rewrite (seqZ_cons _ (Z.of_nat (S _))) by lia. cbn [fmap list_fmap].
      rewrite Hc1. replace (Z.pred (Z.of_nat (S (length ps)))) with (Z.of_nat (length ps)) by lia. done.
    + cbn [length]. lia.
Qed.

Definition list_next (q : list payload) : option (payload * list payload) :=
  match q with [] => None | p :: q => Some (p, q) end.
Definition list_notify (q : list payload) (p : payload) (t : sc_time) : list payload := q ++ [p].

Lemma at_list_peq : Peq ([] : list payload) list_notify list_next (fun q => q).
Proof.
  split; [done| |].
  - intros q p t. unfold list_notify. by rewrite Permutation_app_comm.
  - intros [|p q] p' q' [= -> ->]. done.
Qed.

Definition example_target (count : Z) : at_target_1_phase (list payload) :=
  mk_at 20000 count false false false false [] example_memory false On_response_PEQ.

Lemma every_twentieth_deferred_witness :
  exists s', begin_requests list_notify (example_target 19)
      [(example_gp TLM_WRITE_COMMAND 0 [1; 2; 3; 4], 0); (example_gp TLM_READ_COMMAND 0 [0; 0; 0; 0], 0)] =
      Ok (s', [TLM_COMPLETED; TLM_UPDATED]) /\
    s'.(m_request_count) = 21 /\ memory_ok s'.(m_target_memory).
Proof.
  apply (every_twentieth_deferred list_notify
    [(example_gp TLM_WRITE_COMMAND 0 [1; 2; 3; 4], 0); (example_gp TLM_READ_COMMAND 0 [0; 0; 0; 0], 0)]
    (example_target 19)).
  - apply example_memory_ok.
  - repeat constructor; try (apply example_gp_wf; [lia|solve_bytes]);
      [exists [1; 2; 3; 4]|exists [0; 0; 0; 0]]; (split; [split; [reflexivity|cbn; lia]|cbn; lia]).
  - cbn; lia.
  - cbn; lia.
Defined.

(** What an activation of the method does with the first transaction it takes,
    given the memory and the payload after the operation. *)
Definition answered_with {P W} next (bw : W -> payload -> tlm_phase -> sc_time ->
    W * payload * tlm_phase * sc_time * tlm_sync_enum) fuel (s : at_target_1_phase P) q (w : W) m1 p1
    : Prop :=
  let s1 := set_target_memory m1 (set_peq q s) in
  let '(w', _, _, delay, status) := bw w p1 BEGIN_RESP SC_ZERO_TIME in
  begin_response_method next bw (S fuel) s w =
    match status with
    | TLM_COMPLETED => Ok (set_trigger (After delay) s1, w')
    | TLM_ACCEPTED => Ok (set_trigger On_end_resp_rcvd s1, w')
    | TLM_UPDATED =>
        begin_response_method next bw fuel
          (set_resp_warning (warn s1.(m_begin_resp_method_prev_warning)) s1) w'
    end.

(** C22: the two protocols agree.  A request is deferred without any effect on
    the contents of the memory or the payload; whenever the method then takes it
    from the queue, with any other requests served in between, the memory and the
    payload that it hands back with [BEGIN_RESP] are those that an immediate
    completion at that moment gives, and it goes on as the answer of the
    initiator says.  A read or write within the memory is due at the time that
    the immediate completion annotates as its end.  One that the memory refuses
    is due later than that, by the delay of the operation that is not performed;
    an immediate completion annotates none. *)
Theorem deferred_like_immediate {P W} notify next bw (s : at_target_1_phase P) p d t :
  memory_ok s.(m_target_memory) -> payload_wf p -> has_buffer p d -> (4 <= length d)%nat ->
  let m := s.(m_target_memory) in
  exists s1 p1 t1 s2 t2,
    nb_transport_fw notify (set_count 1 s) p BEGIN_REQ t = Ok (s1, p1, BEGIN_REQ, t1, TLM_COMPLETED) /\
    nb_transport_fw notify (set_count 20 s) p BEGIN_REQ t =
      Ok (s2, p, END_REQ, s.(m_accept_delay), TLM_UPDATED) /\
    s2.(m_response_PEQ) = notify s.(m_response_PEQ) p t2 /\
    s2.(m_target_memory).(m_memory) = m.(m_memory) /\
    (p.(command) <> TLM_IGNORE_COMMAND -> accepts m p = true ->
       t2 = t1 /\ p1.(response_status) = TLM_OK_RESPONSE) /\
    (p.(command) <> TLM_IGNORE_COMMAND -> accepts m p = false ->
       t1 = t_add t s.(m_accept_delay) /\
       t2 = t_add (t_add t (if is_write p then m.(m_write_delay) else m.(m_read_delay))) s.(m_accept_delay)) /\
    forall s' q fuel (w : W) u, memory_ok s'.(m_target_memory) -> next s'.(m_response_PEQ) = Some (p, q) ->
      exists s3 p3 u3,
        nb_transport_fw notify (set_count 1 s') p BEGIN_REQ u = Ok (s3, p3, BEGIN_REQ, u3, TLM_COMPLETED) /\
        answered_with next bw fuel s' q w s3.(m_target_memory) p3.
Proof.
  intros Hm Hp Hb H4 m.
  assert (Himm : forall (s : at_target_1_phase P) t, memory_ok s.(m_target_memory) ->
    exists m1 p1 t1, spec_operation s.(m_target_memory) p t = (m1, p1, t1) /\
      operation s.(m_target_memory) p t = Ok (m1, p1, t1) /\
      nb_transport_fw notify (set_count 1 s) p BEGIN_REQ t =
        Ok (set_target_memory m1 (set_count 2 s), p1, BEGIN_REQ, t_add t1 s.(m_accept_delay), TLM_COMPLETED)).
  { intros s0 u Hm0. destruct (spec_operation (m_target_memory s0) p u) as [[m1 p1] t1] eqn:E.
    assert (Hop : operation (m_target_memory s0) p u = Ok (m1, p1, t1)) by (rewrite <- E; by eapply operation_spec).
    exists m1, p1, t1. split_and!; [done|done|]. unfold nb_transport_fw.
    cbn [m_request_count set_count m_target_memory]. change (1 mod 20 =? 0) with false. cbn [negb].
    by rewrite Hop, bind_Ok. }
  destruct (Himm s t Hm) as (m1 & p1 & t1 & Hspec & _ & Hnow).
  destruct (get_delay m p t) as [m2 t2] eqn:Hdelay.
  do 3 eexists. exists (set_peq (notify s.(m_response_PEQ) p (t_add t2 s.(m_accept_delay)))
    (set_target_memory m2 (set_count 21 s))), (t_add t2 s.(m_accept_delay)).
  split; [exact Hnow|]. split.
  { unfold nb_transport_fw. cbn [m_request_count set_count m_target_memory].
    change (20 mod 20 =? 0) with true. cbn [negb]. fold m. by rewrite Hdelay. }
  split; [done|]. split; [by destruct (get_delay_keeps_memory _ _ _ _ _ Hdelay)|].
  unfold spec_operation in Hspec. fold m in Hspec. unfold get_delay in Hdelay.
  rewrite is_write_cmd. split; [|split].
  - intros Hc Ha. rewrite Ha in Hspec. by destruct (command p); simplify_eq.
  - intros Hc Ha. rewrite Ha in Hspec. by destruct (command p); simplify_eq.
  - intros s' q fuel w u Hm' Hn. destruct (Himm s' u Hm') as (m3 & p3 & u3 & Hs3 & _ & Hnow').
    do 3 eexists. split; [exact Hnow'|]. unfold answered_with. cbn [begin_response_method]. rewrite Hn.
    cbn [m_target_memory set_target_memory set_peq].
    destruct (Himm s' SC_ZERO_TIME Hm') as (m4 & p4 & u4 & Hs4 & Hop & _).
    pose proof (spec_operation_delay s'.(m_target_memory) p u SC_ZERO_TIME) as Hsame.
    rewrite Hs3, Hs4 in Hsame. cbn [fst] in Hsame. injection Hsame as -> ->.
    rewrite Hop, bind_Ok. by destruct (bw w p4 BEGIN_RESP SC_ZERO_TIME) as [[[[w' ?] ?] delay] []].
Qed.

Definition example_bw (w : list payload) (p : payload) (ph : tlm_phase) (t : sc_time) :
  list payload * payload * tlm_phase * sc_time * tlm_sync_enum := (w ++ [p], p, ph, t, TLM_ACCEPTED).

(** A write within the memory: due when an immediate completion ends. *)
Lemma deferred_like_immediate_witness :
  let p := example_gp TLM_WRITE_COMMAND 0 [1; 2; 3; 4] in
  exists s1 p1 s2 t2,
    nb_transport_fw list_notify (set_count 1 (example_target 5)) p BEGIN_REQ 7 =
      Ok (s1, p1, BEGIN_REQ, t2, TLM_COMPLETED) /\
    p1.(response_status) = TLM_OK_RESPONSE /\
    nb_transport_fw list_notify (set_count 20 (example_target 5)) p BEGIN_REQ 7 =
      Ok (s2, p, END_REQ, 20000, TLM_UPDATED) /\
    s2.(m_response_PEQ) = list_notify [] p t2 /\
    let s' := set_peq [p] (example_target 5) in
    exists s3 p3 u3,
      nb_transport_fw list_notify (set_count 1 s') p BEGIN_REQ 0 =
        Ok (s3, p3, BEGIN_REQ, u3, TLM_COMPLETED) /\
      answered_with list_next example_bw 0 s' [] [] s3.(m_target_memory) p3.
Proof.
  intros p.
  destruct (deferred_like_immediate list_notify list_next example_bw (example_target 5) p [1; 2; 3; 4] 7)
    as (s1 & p1 & t1 & s2 & t2 & H1 & H2 & Hq & Hmem & Hacc & _ & Hserve).
  - apply example_memory_ok.
  - apply example_gp_wf; [lia|solve_bytes].
  - split; [reflexivity|cbn; lia].
  - cbn; lia.
  - destruct (Hacc ltac:(discriminate) eq_refl) as [-> Hst].
    exists s1, p1, s2, t1. split; [exact H1|]. split; [exact Hst|]. split; [exact H2|]. split; [exact Hq|].
    apply Hserve; [apply example_memory_ok|reflexivity].
Defined.

(** C23: no deferred request is lost or answered twice: in every state the
    target can reach, in any order of requests, responses, activations and
    passage of time, the requests deferred so far are those whose response has
    been sent together with those the queue still holds. *)
Theorem deferred_accounted {P W} peq_new notify next (held : P -> list payload) bw
  (responses : W -> list payload) ID size width acc rd wr s0 w0 s w ds :
  Peq peq_new notify next held ->
  (forall w p ph t, responses (bw w p ph t).1.1.1.1 = responses w ++ [p]) ->
  responses w0 = [] ->
  new_at_target peq_new ID size width acc rd wr = Ok s0 ->
  rtc (at_step notify next held bw) (s0, w0, []) (s, w, ds) ->
  req_id <$> ds ≡ₚ (req_id <$> responses w) ++ (req_id <$> held s.(m_response_PEQ)).
Proof.
  intros HP Hlog Hw Hnew. pose proof HP as [Hempty Hadd _].
  set (I := fun x : at_target_1_phase P * W * list payload =>
    req_id <$> x.2 ≡ₚ (req_id <$> responses x.1.2) ++ (req_id <$> held x.1.1.(m_response_PEQ))).
  enough (H : forall x y, rtc (at_step notify next held bw) x y -> I x -> I y).
  { intros Hr. apply (H _ _ Hr). unfold I. cbn. unfold new_at_target in Hnew.
    apply bind_Ok_inv in Hnew as (m & _ & [= <-]). cbn. by rewrite Hw, Hempty. }
  clear s0 w0 s w ds Hw Hnew Hempty. intros x y Hr. induction Hr as [x|x y z Hstep _ IH]; [done|]. intros HI. apply IH. clear IH z.
  unfold I in *. destruct Hstep as [s w ds p t s' p' ph t' status Hfw
    |s w ds p t s' p' ph t' status Hfw|s w ds fuel s' w' _ Hact|s w ds q Hq]; cbn in *.
  - unfold nb_transport_fw in Hfw. cbv zeta in Hfw.
    destruct (m_request_count s mod 20 =? 0); cbn in Hfw.
    + destruct (get_delay _ p t). simplify_eq. rewrite bool_decide_eq_true_2 by done. cbn.
      rewrite Hadd, fmap_app, HI. cbn. solve_Permutation.
    + apply bind_Ok_inv in Hfw as ([[m gp'] d] & _ & [= <- <- <- <- <-]).
      by rewrite bool_decide_eq_false_2.
  - by simplify_eq.
  - rewrite (begin_response_accounts (held := held) bw responses fuel _ _ _ _ Hlog Hact). done.
  - by rewrite Hq.
Qed.

(** Twenty requests, of which the last is deferred, and its response. *)
Definition fresh_target : at_target_1_phase (list payload) :=
  mk_at 20000 1 false false false false []
    (mk_memory 201 100000 60000 16 4 (replicate 16 0) false) false On_response_PEQ.
Definition one_write : payload := example_gp TLM_WRITE_COMMAND 0 [1; 2; 3; 4].

(** The requests of a run that were deferred. *)
Fixpoint deferred (ps : list (payload * sc_time)) (sts : list tlm_sync_enum) : list payload :=
  match ps, sts with
  | (p, _) :: ps, status :: sts =>
      (if bool_decide (status = TLM_UPDATED) then [p] else []) ++ deferred ps sts
  | _, _ => []
  end.

Lemma begin_requests_steps {P W} notify next (held : P -> list payload) bw ps : forall s s' sts (w : W) ds,
  begin_requests notify s ps = Ok (s', sts) ->
  rtc (at_step notify next held bw) (s, w, ds) (s', w, ds ++ deferred ps sts).
Proof.
  induction ps as [|[p t] ps IH]; intros s s' sts w ds H; cbn [begin_requests] in H.
  - simplify_eq. rewrite app_nil_r. done.
  - apply bind_Ok_inv in H as ([[[[s1 p1] ph1] t1] status] & H1 & H). cbn beta iota in H.
    apply bind_Ok_inv in H as ([s2 rest] & H2 & H). cbn beta iota in H. simplify_eq.
    eapply rtc_l; [by eapply step_request|]. cbn [deferred]. rewrite app_assoc.
    replace (ds ++ (if bool_decide (status = TLM_UPDATED) then [p] else []))
      with (if bool_decide (status = TLM_UPDATED) then ds ++ [p] else ds);
      [by apply IH|case_bool_decide; [done|by rewrite app_nil_r]].
Qed.

Lemma deferred_run :
  exists s w, rtc (at_step list_notify list_next (fun q => q) example_bw)
      (fresh_target, [], []) (s, w, [one_write]) /\
    length w = 1%nat /\ s.(m_response_PEQ) = [] /\ s.(next_trigger) = On_end_resp_rcvd.
Proof.
  assert (H : exists s sts s' w, begin_requests list_notify fresh_target (replicate 20 (one_write, 0)) = Ok (s, sts) /\
    deferred (replicate 20 (one_write, 0)) sts = [one_write] /\ triggered s = true /\
    begin_response_method list_next example_bw 1 (set_notified false s) [] = Ok (s', w) /\
    length w = 1%nat /\ s'.(m_response_PEQ) = [] /\ s'.(next_trigger) = On_end_resp_rcvd).
  { do 4 eexists. do 2 (split; [vm_compute; reflexivity|]).
    split; [vm_compute; reflexivity|]. split; [vm_compute; reflexivity|].
    split; [reflexivity|]. split; reflexivity. }
  destruct H as (s & sts & s' & w & Hb & Hd & Ht & Hm & Hw & Hq & Hn). exists s', w.
  refine (conj _ (conj Hw (conj Hq Hn))).
  eapply rtc_r; [|by eapply step_activate].
  pose proof (begin_requests_steps list_notify list_next (fun q => q) example_bw _ _ _ _ [] [] Hb) as Hr.
  rewrite Hd in Hr. exact Hr.
Qed.

Lemma deferred_accounted_witness :
  exists s w, length w = 1%nat /\ s.(next_trigger) = On_end_resp_rcvd /\
    req_id <$> [one_write] ≡ₚ (req_id <$> w) ++ (req_id <$> s.(m_response_PEQ)).
Proof.
  destruct deferred_run as (s & w & Hr & Hw & _ & Ht). exists s, w. split; [done|]. split; [done|].
  apply (deferred_accounted [] list_notify list_next (fun q => q) example_bw (fun w => w)
    201 16 4 20000 100000 60000 fresh_target [] s w [one_write] at_list_peq); done.
Defined.

(** The warnings are meant to be given once, but no operation ever sets the
    flag that says so: it stays clear, and the warning is given every time. *)
Theorem warnings_never_latch b : warn b = b.
Proof. by destruct b. Qed.
