(* ===== verification/TrafficGenerator.v ===== *)
(** * The initiators of the loosely-timed example
    (lt/systemc/third-party/systemc-lt-example/traffic_generator.cpp and .h,
    lt_initiator.cpp, initiator_top.cpp; lt/systemc/src/top.cpp)

    A traffic generator owns a pool of transactions, fills memory through them
    and reads it back, passing pointers through two FIFOs to an initiator,
    which makes the blocking calls.  The transactions live in a store that both
    sides of the FIFOs share. *)

From S2P Require Import Prelude Tlm Kernel LtMemory SimpleBusLT.
From stdpp Require Import base numbers list gmap.
#[local] Open Scope Z_scope.

(** ** Definitions *)

(** A transaction: the payload and its reference count.  Pointers are [Z]. *)
Notation store_t := (gmap Z (payload * Z)).

Record traffic_generator : Type := mk_tg {
  m_ID : Z;
  m_base_address_1 : Z;
  m_base_address_2 : Z;
  m_transaction_queue : list Z;
  m_active_txn_count : Z;
  m_check_all : bool;
}.

Definition set_queue q s : traffic_generator :=
  mk_tg s.(m_ID) s.(m_base_address_1) s.(m_base_address_2) q s.(m_active_txn_count) s.(m_check_all).
Definition set_active n s : traffic_generator :=
  mk_tg s.(m_ID) s.(m_base_address_1) s.(m_base_address_2) s.(m_transaction_queue) n s.(m_check_all).
Definition set_check_all b s : traffic_generator :=
  mk_tg s.(m_ID) s.(m_base_address_1) s.(m_base_address_2) s.(m_transaction_queue)
    s.(m_active_txn_count) b.

Definition m_txn_data_size : Z := 4.

(** The generator, the transactions, and the rest of the simulation. *)
Record sys (W : Type) : Type := mk_sys { tg : traffic_generator; txns : store_t; world : W }.
Arguments mk_sys {W}. Arguments tg {W}. Arguments txns {W}. Arguments world {W}.

Definition upd_tg {W} (f : traffic_generator -> traffic_generator) (s : sys W) : sys W :=
  mk_sys (f s.(tg)) s.(txns) s.(world).
Definition upd_txns {W} (f : store_t -> store_t) (s : sys W) : sys W :=
  mk_sys s.(tg) (f s.(txns)) s.(world).

(** The FIFOs signal that data was written and that data was read. *)
Inductive fifo_name : Type := Request_fifo | Response_fifo.
Inductive event : Type := data_written_event (f : fifo_name) | data_read_event (f : fifo_name).

(** *** tg_queue_c *)

(** [new] returns [ptr]; the bytes of the new buffer are not initialised. *)
Definition enqueue {W} (ptr : Z) (garbage : list Z) (s : sys W) : sys W :=
  upd_tg (fun g => set_queue (g.(m_transaction_queue) ++ [ptr]) g)
    (upd_txns <[ptr := (set_data (Some (take (Z.to_nat m_txn_data_size) garbage)) new_payload, 0)]> s).

Definition dequeue {W} (s : sys W) : res (sys W * Z) :=
  match s.(tg).(m_transaction_queue) with
  | [] => Err Undefined_behaviour
  | ptr :: q => Ok (upd_tg (set_queue q) s, ptr)
  end.

Definition is_empty {W} (s : sys W) : bool := bool_decide (s.(tg).(m_transaction_queue) = []).

Definition queue_size {W} (s : sys W) : Z := Z.of_nat (length s.(tg).(m_transaction_queue)).

Section Generator.
Context {W : Type}.
(** [tlm_generic_payload::reset] releases extensions. *)
Context (payload_reset : payload -> payload).
(** [request_out_port->write], [response_in_port->read] and
    [response_in_port->num_available]. *)
Context (request_out : Z -> proc event (sys W) unit).
Context (response_in : proc event (sys W) Z).
Context (num_available : W -> Z).

Definition get_txn (ptr : Z) (s : sys W) : res (payload * Z) :=
  match s.(txns) !! ptr with Some t => Ok t | None => Err Undefined_behaviour end.

Definition put_txn (ptr : Z) (t : payload * Z) (s : sys W) : sys W := upd_txns <[ptr := t]> s.

(** [tg_queue_c::free]: the memory manager's callback. *)
Definition free (ptr : Z) (s : sys W) : res (sys W) :=
  '(p, n) ← get_txn ptr s;
  Ok (upd_tg (fun g => set_queue (g.(m_transaction_queue) ++ [ptr]) g)
        (put_txn ptr (payload_reset p, n) s)).

(** Reference counting of the payload; the last release calls [free]. *)
Definition acquire (ptr : Z) (s : sys W) : res (sys W) :=
  '(p, n) ← get_txn ptr s; Ok (put_txn ptr (p, n + 1) s).

Definition release (ptr : Z) (s : sys W) : res (sys W) :=
  '(p, n) ← get_txn ptr s;
  cassert (0 <? n);;
  let s := put_txn ptr (p, n - 1) s in
  if n - 1 =? 0 then free ptr s else Ok s.

(** [transaction_queue.dequeue(); acquire(); ++m_active_txn_count]. *)
Definition take_transaction (s : sys W) : res (sys W * Z) :=
  '(s, ptr) ← dequeue s;
  s ← acquire ptr s;
  Ok (upd_tg (fun g => set_active (u32 (g.(m_active_txn_count) + 1)) g) s, ptr).

(** The attributes set before a request is sent. *)
Definition set_request (c : tlm_command) (mem_address : Z) (p : payload) : payload :=
  set_response_status TLM_INCOMPLETE_RESPONSE (set_streaming_width m_txn_data_size
    (set_data_length m_txn_data_size (set_address mem_address (set_command c p)))).

Definition prepare_write (w_data mem_address ptr : Z) (s : sys W) : res (sys W) :=
  '(p, n) ← get_txn ptr s;
  p ← set_data_word 4 w_data p;
  Ok (put_txn ptr (set_request TLM_WRITE_COMMAND mem_address p, n) s).

Definition prepare_read (mem_address ptr : Z) (s : sys W) : res (sys W) :=
  '(p, n) ← get_txn ptr s;
  Ok (put_txn ptr (set_request TLM_READ_COMMAND mem_address p, n) s).

(** The inspection of a response: a bad status or bad data is fatal. *)
Definition data_mask : Z := 0x0FFFFFFF.

Definition check_response (p : payload) : res unit :=
  if negb (is_response_ok p) then Err Fatal_report
  else if is_read p then
    let expected_data := u32 p.(address) in
    read_data ← data_word 4 p;
    let read_data_masked := Z.land read_data data_mask in
    if negb (read_data_masked =? Z.land expected_data data_mask) &&
       negb (read_data_masked =? Z.land (wnot 32 expected_data) data_mask)
    then Err Fatal_report else Ok tt
  else Ok tt.

Definition check_complete : proc event (sys W) unit :=
  s ← p_get;
  if is_empty s || s.(tg).(m_check_all) || (0 <? num_available s.(world)) then
    ptr ← response_in;
    p_step (fun s =>
      '(p, _) ← get_txn ptr s;
      check_response p;;
      s ← release ptr s;
      Ok (upd_tg (fun g => set_active (u32 (g.(m_active_txn_count) - 1)) g) s, tt))
  else mret tt.

Fixpoint check_all_complete (fuel : nat) : proc event (sys W) unit :=
  match fuel with
  | O => fun _ => Fail Out_of_fuel
  | S n =>
      s ← p_get;
      if negb (s.(tg).(m_active_txn_count) =? 0) then
        p_modify (upd_tg (set_check_all true));;
        check_complete;;
        check_all_complete n
      else p_modify (upd_tg (set_check_all false))
  end.

(** The bodies of the write and of the read loop, with the memory address as
    the loop's state. *)
Definition write_iteration (i mem_address : Z) : proc event (sys W) Z :=
  s ← p_get;
  mem_address ←
    (if negb (is_empty s) then
       ptr ← p_step take_transaction;
       let w_data := u32 mem_address in
       let w_data := if i =? 1 then wnot 32 w_data else w_data in
       p_step (fun s => s ← prepare_write w_data mem_address ptr s; Ok (s, tt));;
       request_out ptr;;
       mret (u64 (mem_address + m_txn_data_size))
     else mret mem_address);
  check_complete;;
  mret mem_address.

Definition read_iteration (mem_address : Z) : proc event (sys W) Z :=
  s ← p_get;
  mem_address ←
    (if negb (is_empty s) then
       ptr ← p_step take_transaction;
       p_step (fun s => s ← prepare_read mem_address ptr s; Ok (s, tt));;
       request_out ptr;;
       mret (u64 (mem_address + m_txn_data_size))
     else mret mem_address);
  check_complete;;
  mret mem_address.

(** [for (j = 0; j < n; j++)]. *)
Fixpoint iterate (n : nat) (body : Z -> proc event (sys W) Z) (a : Z) : proc event (sys W) Z :=
  match n with
  | O => mret a
  | S n => a ← body a; iterate n body a
  end.

(** One iteration of the outer loop. *)
Definition traffic_pass (fuel : nat) (i : Z) : proc event (sys W) unit :=
  s ← p_get;
  let base_address :=
    if i =? 0 then s.(tg).(m_base_address_1) else s.(tg).(m_base_address_2) in
  iterate 16 (write_iteration i) base_address;;
  check_all_complete fuel;;
  iterate 16 read_iteration base_address;;
  check_all_complete fuel.

Definition traffic_generator_thread (fuel : nat) : proc event (sys W) unit :=
  traffic_pass fuel 0;; traffic_pass fuel 1.
End Generator.

(** The constructor builds the pool; [new] returns the pointers from 0 on. *)
Definition new_traffic_generator {W} (ID base_address_1 base_address_2 max_txns : Z)
  (garbage : Z -> list Z) (w : W) : sys W :=
  foldl (fun s ptr => enqueue ptr (garbage ptr) s)
    (mk_sys (mk_tg ID base_address_1 base_address_2 [] 0 true) ∅ w) (seqZ 0 max_txns).

(** *** lt_initiator *)
Section Initiator.
Context {W : Type}.
Context (request_in : proc event (sys W) Z) (response_out : Z -> proc event (sys W) unit).
(** [initiator_socket->b_transport]. *)
Context (b_transport : b_transport_t W).

(** One iteration of [initiator_thread]. *)
Definition initiator_body : proc event (sys W) unit :=
  transaction_ptr ← request_in;
  '(gp_status, delay) ← p_step (fun s =>
    '(p, n) ← get_txn transaction_ptr s;
    '(w, p, delay) ← b_transport s.(world) p SC_ZERO_TIME;
    Ok (put_txn transaction_ptr (p, n) (mk_sys s.(tg) s.(txns) w), (p.(response_status), delay)));
  (if bool_decide (gp_status = TLM_OK_RESPONSE) then p_wait (Wait_time delay) else mret tt);;
  response_out transaction_ptr.

Definition initiator_thread (n : nat) : proc event (sys W) unit := p_repeat n initiator_body.
End Initiator.

(** *** initiator_top: the pool has four transactions. *)
Definition new_initiator_top {W} (ID base_address_1 base_address_2 : Z) (garbage : Z -> list Z) (w : W) :
  sys W := new_traffic_generator ID base_address_1 base_address_2 4 garbage w.

(** *** The requests of a run *)
Inductive request : Type := Write_request (a x : Z) | Read_request (a : Z).

Definition written_data (i a : Z) : Z := if i =? 1 then wnot 32 (u32 a) else u32 a.

Definition pass_requests (i base : Z) : list request :=
  ((fun j => Write_request (base + 4 * j) (written_data i (base + 4 * j))) <$> seqZ 0 16) ++
  ((fun j => Read_request (base + 4 * j)) <$> seqZ 0 16).

(** The data any initiator of the example writes at an address: in the bits
    that are compared, the address or its complement. *)
Definition conforms (a x : Z) : Prop :=
  Z.land x data_mask = Z.land a data_mask \/ Z.land x data_mask = Z.land (Z.lnot a) data_mask.

(** The transaction has a four-byte buffer. *)
Definition buffer_ok (p : payload) : Prop :=
  exists d, p.(data) = Some d /\ length d = 4%nat /\ is_bytes d.

Definition is_request (p : payload) (r : request) : Prop :=
  p.(data_length) = 4 /\ p.(streaming_width) = 4 /\ buffer_ok p /\
  match r with
  | Write_request a x => p.(command) = TLM_WRITE_COMMAND /\ p.(address) = a /\ data_word 4 p = Ok x
  | Read_request a => p.(command) = TLM_READ_COMMAND /\ p.(address) = a
  end.

(** What a response to [r] looks like when [h a x] says that [x] was written
    to [a]: the address may have lost the bits that select the target. *)
Definition answers (h : Z -> Z -> Prop) (r : request) (p : payload) : Prop :=
  p.(response_status) = TLM_OK_RESPONSE /\
  match r with
  | Write_request _ _ => p.(command) = TLM_WRITE_COMMAND
  | Read_request a =>
      p.(command) = TLM_READ_COMMAND /\ Z.land p.(address) data_mask = Z.land a data_mask /\
      exists x, data_word 4 p = Ok x /\ h a x
  end.

(** *** What the generator relies on

    Behind the FIFOs is a platform that serves requests in the order in which
    they are sent.  [in_flight] are the transactions sent whose response has
    not been read, [sent] the requests of this generator, which are the first
    of its [plan], [history] the writes it can count on, [ok] the platform's own
    invariant; all may depend on ghost state.  [WP] is the logic in which the
    ends of the FIFOs are verified. *)
Section Channel.
Context {W Γ : Type}.
Context (WP : forall A : Type, Γ -> prog event (sys W) A -> (Γ -> A -> sys W -> Prop) -> Prop).
Context (payload_reset : payload -> payload).
Context (request_out : Z -> proc event (sys W) unit) (response_in : proc event (sys W) Z).
Context (num_available : W -> Z).
Context (in_flight : Γ -> W -> list (Z * request)) (sent : Γ -> W -> list request)
  (history : Γ -> W -> Z -> Z -> Prop).
Context (plan : list request) (ok : Γ -> W -> store_t -> Prop).

(** What a call to a FIFO may change: the transactions [flying], up to their
    reference count and buffer, and the history, by conforming writes. *)
Record changes (flying : list Z) (γ : Γ) (s : sys W) (γ' : Γ) (s' : sys W) : Prop := {
  ch_tg : s'.(tg) = s.(tg);
  ch_ok : ok γ' s'.(world) s'.(txns);
  ch_grows : forall a x, history γ s.(world) a x -> history γ' s'.(world) a x;
  ch_conforms : (forall a x, history γ s.(world) a x -> conforms a x) ->
    forall a x, history γ' s'.(world) a x -> conforms a x;
  ch_pool : forall ptr, ptr ∉ flying -> s'.(txns) !! ptr = s.(txns) !! ptr;
  ch_flying : forall ptr p n, s.(txns) !! ptr = Some (p, n) -> buffer_ok p ->
    exists p', s'.(txns) !! ptr = Some (p', n) /\ buffer_ok p';
}.

(** Transactions are in the pool or counted as active. *)
Definition accounted (n : Z) (w : wait_on event) (s : sys W) : Prop :=
  Z.of_nat (length s.(tg).(m_transaction_queue)) + s.(tg).(m_active_txn_count) = n.

Class Platform (n : Z) : Prop := {
  platform_logic :: Logic WP;
  reset_keeps : forall p, (payload_reset p).(data) = p.(data);
  ok_frame : forall γ w h ptr t, ok γ w h -> ptr ∉ (in_flight γ w).*1 -> ok γ w (<[ptr := t]> h);
  request_sent : forall γ ptr p k r s (Q : Γ -> unit -> sys W -> Prop),
    ok γ s.(world) s.(txns) -> accounted n Wait_static s ->
    s.(txns) !! ptr = Some (p, k) -> is_request p r ->
    (sent γ s.(world) ++ [r]) `prefix_of` plan ->
    ptr ∉ (in_flight γ s.(world)).*1 -> Z.of_nat (length (in_flight γ s.(world))) < n ->
    match r with
    | Write_request a x => conforms a x
    | Read_request a => exists x, history γ s.(world) a x
    end ->
    (forall γ' s', changes (ptr :: (in_flight γ s.(world)).*1) γ s γ' s' ->
       in_flight γ' s'.(world) = in_flight γ s.(world) ++ [(ptr, r)] ->
       sent γ' s'.(world) = sent γ s.(world) ++ [r] ->
       match r with Write_request a x => history γ' s'.(world) a x | Read_request _ => True end ->
       Q γ' tt s') ->
    WP unit γ (request_out ptr s) Q;
  response_read : forall γ ptr r rest s (Q : Γ -> Z -> sys W -> Prop),
    ok γ s.(world) s.(txns) -> accounted n Wait_static s ->
    in_flight γ s.(world) = (ptr, r) :: rest -> NoDup (in_flight γ s.(world)).*1 ->
    (forall q, q ∈ (in_flight γ s.(world)).*1 ->
       exists p k, s.(txns) !! q = Some (p, k) /\ buffer_ok p) ->
    (forall γ' s' p k, changes (in_flight γ s.(world)).*1 γ s γ' s' ->
       in_flight γ' s'.(world) = rest -> sent γ' s'.(world) = sent γ s.(world) ->
       s'.(txns) !! ptr = Some (p, k) -> answers (history γ' s'.(world)) r p -> Q γ' ptr s') ->
    WP Z γ (response_in s) Q;
}.
End Channel.

(** ** Lemmas *)

(** The check of a response accepts conforming data. *)
Lemma land_mask_wnot a : Z.land (wnot 32 (u32 a)) data_mask = Z.land (Z.lnot a) data_mask.
Proof.
  unfold data_mask, wnot, wrap. change 0x0FFFFFFF with (Z.ones 28).
  apply Z.bits_inj'. intros k Hk. rewrite !Z.land_spec, Z.lxor_spec.
  destruct (Z.ltb_spec k 28).
  - rewrite Z.mod_pow2_bits_low, Z.lnot_spec, !Z.ones_spec_low by lia. by destruct (Z.testbit a k).
  - by rewrite (Z.ones_spec_high 28), !andb_false_r by lia.
Qed.

Lemma land_mask_u32 a : Z.land (u32 a) data_mask = Z.land a data_mask.
Proof.
  unfold data_mask, wrap. change 0x0FFFFFFF with (Z.ones 28).
  apply Z.bits_inj'. intros k Hk. rewrite !Z.land_spec.
  destruct (Z.ltb_spec k 28); [by rewrite Z.mod_pow2_bits_low by lia|].
  by rewrite (Z.ones_spec_high 28), !andb_false_r by lia.
Qed.

Lemma land_mask_lnot a b :
  Z.land a data_mask = Z.land b data_mask ->
  Z.land (Z.lnot a) data_mask = Z.land (Z.lnot b) data_mask.
Proof.
  unfold data_mask. change 0x0FFFFFFF with (Z.ones 28). intros H.
  apply Z.bits_inj'. intros k Hk. rewrite !Z.land_spec, !Z.lnot_spec by done.
  destruct (Z.ltb_spec k 28).
  - assert (Hb : Z.testbit (Z.land a (Z.ones 28)) k = Z.testbit (Z.land b (Z.ones 28)) k) by by rewrite H.
    rewrite !Z.land_spec, Z.ones_spec_low, !andb_true_r in Hb by lia. by rewrite Hb.
  - by rewrite (Z.ones_spec_high 28), !andb_false_r by lia.
Qed.

Lemma written_data_conforms i a : conforms a (written_data i a).
Proof.
  unfold written_data. destruct (i =? 1); [right; apply land_mask_wnot|left; apply land_mask_u32].
Qed.

Lemma check_response_answers h r p :
  answers h r p -> (forall a x, h a x -> conforms a x) ->
  check_response p = Ok tt.
Proof.
  intros [Hs Hr] Hh. unfold check_response, is_response_ok.
  rewrite Hs, bool_decide_eq_true_2, is_read_cmd by done. cbn [negb].
  destruct r as [a x|a]; [by rewrite Hr|]. destruct Hr as (-> & Ha & x & -> & Hx).
  rewrite bind_Ok, land_mask_wnot, land_mask_u32, Ha, (land_mask_lnot _ a) by done.
  destruct (Hh a x Hx) as [-> | ->]; rewrite Z.eqb_refl; [done|]. by rewrite andb_false_r.
Qed.

Lemma set_data_word_buffer p x :
  buffer_ok p -> 0 <= x < 2 ^ 32 ->
  set_data_word 4 x p = Ok (set_data (Some (le_encode 4 x)) p).
Proof.
  intros (d & Hd & Hl & _) Hx. unfold set_data_word.
  rewrite (data_write_Ok p d) by (rewrite ?le_encode_length; done || lia).
  rewrite le_encode_length, drop_ge, app_nil_r by lia. done.
Qed.

Lemma written_data_range i a : 0 <= written_data i a < 2 ^ 32.
Proof.
  unfold written_data. pose proof (wrap_range 32 a). destruct (i =? 1); [|lia].
  unfold wnot. split; [apply Z.lxor_nonneg; change (Z.ones 32) with (2 ^ 32 - 1); lia|].
  apply Z.log2_lt_cancel. eapply Z.le_lt_trans; [apply Z.log2_lxor; change (Z.ones 32) with (2 ^ 32 - 1); lia|].
  change (Z.log2 (2 ^ 32)) with 32. change (Z.log2 (Z.ones 32)) with 31.
  destruct (Z.eq_dec (u32 a) 0) as [-> | ?]; [reflexivity|].
  assert (Z.log2 (u32 a) < 32) by (apply Z.log2_lt_pow2; lia). lia.
Qed.

(** The generator prepares exactly the request it means to send. *)
Lemma prepare_write_request i a p :
  buffer_ok p ->
  exists p', set_data_word 4 (written_data i a) p = Ok p' /\
    is_request (set_request TLM_WRITE_COMMAND a p') (Write_request a (written_data i a)).
Proof.
  intros Hb. pose proof (written_data_range i a).
  rewrite set_data_word_buffer by done. eexists. split; [done|].
  pose proof (data_word_set 4 (written_data i a) p _ (set_data_word_buffer p _ Hb ltac:(done))) as Hw.
  repeat split; try done.
  - exists (le_encode 4 (written_data i a)). cbn [data]. repeat split; [apply le_encode_bytes].
  - change (256 ^ Z.of_nat 4) with (2 ^ 32) in Hw. rewrite Z.mod_small in Hw by done. exact Hw.
Qed.

Section Run.
Context {W Γ : Type}.
Context {WP : forall A : Type, Γ -> prog event (sys W) A -> (Γ -> A -> sys W -> Prop) -> Prop}.
Context {payload_reset : payload -> payload}.
Context {request_out : Z -> proc event (sys W) unit} {response_in : proc event (sys W) Z}.
Context {num_available : W -> Z}.
Context {in_flight : Γ -> W -> list (Z * request)} {sent : Γ -> W -> list request}
  {history : Γ -> W -> Z -> Z -> Prop}.
Context {plan : list request} {ok : Γ -> W -> store_t -> Prop}.
Context (pool : list Z).
Context `{HP : !Platform WP payload_reset request_out response_in in_flight sent
  history plan ok (Z.of_nat (length pool))}.
Context (Hpool : NoDup pool) (Hsize : (0 < length pool < 16)%nat).

Notation flying γ s := ((in_flight γ s.(world)).*1).
Notation queue s := (s.(tg).(m_transaction_queue)).
Notation changes := (changes history ok).
Notation accounted := (accounted (W := W) (Z.of_nat (length pool))).

(** The pool and the transactions in flight partition the transactions; those
    in flight have one reference. *)
Record inv (γ : Γ) (s : sys W) : Prop := {
  inv_pool : queue s ++ flying γ s ≡ₚ pool;
  inv_active : s.(tg).(m_active_txn_count) = Z.of_nat (length (flying γ s));
  inv_free : forall ptr, ptr ∈ queue s -> exists p, s.(txns) !! ptr = Some (p, 0) /\ buffer_ok p;
  inv_flying : forall ptr, ptr ∈ flying γ s -> exists p, s.(txns) !! ptr = Some (p, 1) /\ buffer_ok p;
  inv_ok : ok γ s.(world) s.(txns);
  inv_sent : forall a x, Write_request a x ∈ sent γ s.(world) -> history γ s.(world) a x;
  inv_conforms : forall a x, history γ s.(world) a x -> conforms a x;
}.

Lemma inv_disjoint {γ} s ptr : inv γ s -> ptr ∈ queue s -> ptr ∉ flying γ s.
Proof.
  intros HI Hq. assert (H : NoDup (queue s ++ flying γ s)) by (by rewrite (inv_pool γ s HI)).
  apply NoDup_app in H as (_ & H & _). by apply H.
Qed.

Lemma inv_length {γ} s : inv γ s -> (length (queue s) + length (flying γ s) = length pool)%nat.
Proof. intros HI. by rewrite <- length_app, (inv_pool γ s HI). Qed.

Lemma inv_accounted {γ} s w : inv γ s -> accounted w s.
Proof.
  intros HI. unfold TrafficGenerator.accounted. rewrite (inv_active γ s HI).
  pose proof (inv_length s HI). lia.
Qed.

(** A response takes the head of the transactions in flight back to the pool. *)
Lemma inv_released {γ} s {γ'} s' ptr r rest p k p' k' :
  inv γ s -> in_flight γ s.(world) = (ptr, r) :: rest ->
  changes (flying γ s) γ s γ' s' -> in_flight γ' s'.(world) = rest -> sent γ' s'.(world) = sent γ s.(world) ->
  s'.(txns) !! ptr = Some (p, k) -> p' = payload_reset p -> k' = 0 ->
  inv γ' (mk_sys (set_active (u32 (s.(tg).(m_active_txn_count) - 1))
                 (set_queue (queue s ++ [ptr]) s.(tg)))
              (<[ptr := (p', k')]> s'.(txns)) s'.(world)).
Proof.
  intros HI Hfl [Htg Hok Hg Hc Hp Hf] Hrest Hsent Hptr -> ->.
  assert (Hnd : NoDup (queue s ++ flying γ s)) by (by rewrite (inv_pool γ s HI)).
  rewrite Hfl in Hnd. cbn [fmap list_fmap fst] in Hnd.
  apply NoDup_app in Hnd as (_ & Hdisj & Hnd). apply NoDup_cons in Hnd as [Hni _].
  assert (Hb : buffer_ok p).
  { destruct (inv_flying γ s HI ptr) as (q & Hq & Hb); [rewrite Hfl; by left|].
    destruct (Hf ptr q 1 Hq Hb) as (q' & Hq' & Hb'). rewrite Hptr in Hq'. by simplify_eq. }
  destruct HI as [Hpl Hact Hfree Hfly _ Hs Hcf]. rewrite Hfl in *. cbn [fmap list_fmap fst length] in *.
  split; cbn [tg txns world m_transaction_queue m_active_txn_count set_active set_queue].
  - rewrite Hrest. rewrite <- Hpl, <- app_assoc. done.
  - rewrite Hrest, Hact. assert (length (queue s ++ ptr :: rest.*1) < 16)%nat as Hl by (rewrite Hpl; lia).
    rewrite length_app in Hl. cbn [length] in Hl. rewrite wrap_small; lia.
  - intros q [Hq | ->%list_elem_of_singleton]%elem_of_app.
    + assert (q <> ptr) by (intros ->; apply (Hdisj ptr Hq); by left).
      destruct (Hfree q Hq) as (pq & Hpq & ?).
      exists pq. split; [|done]. rewrite lookup_insert_ne by done.
      rewrite Hp; [done|]. intros Hq'. by apply (Hdisj q Hq).
    + exists (payload_reset p). split; [apply lookup_insert_eq|].
      destruct Hb as (d & ? & ?), HP as [_ Hreset _ _ _]. exists d. by rewrite Hreset.
  - rewrite Hrest. intros q Hq. assert (q <> ptr) by (by intros ->).
    destruct (Hfly q) as (pq & Hpq & Hbq); [by right|].
    destruct (Hf q pq 1 Hpq Hbq) as (pq' & ? & ?). exists pq'. by rewrite lookup_insert_ne.
  - pose proof HP as [_ _ Hframe _ _]. apply Hframe; [done|]. by rewrite Hrest.
  - intros a x. rewrite Hsent. intros H. by apply Hg, Hs.
  - by apply Hc.
Qed.

Lemma check_complete_ok {γ} s (Q : Γ -> unit -> sys W -> Prop) :
  inv γ s -> in_flight γ s.(world) <> [] ->
  (forall γ' s', inv γ' s' -> sent γ' s'.(world) = sent γ s.(world) ->
     queue s' <> [] -> s'.(tg).(m_check_all) = s.(tg).(m_check_all) ->
     s'.(tg).(m_base_address_1) = s.(tg).(m_base_address_1) ->
     s'.(tg).(m_base_address_2) = s.(tg).(m_base_address_2) ->
     (length (in_flight γ' s'.(world)) <= length (in_flight γ s.(world)))%nat ->
     (s.(tg).(m_check_all) = true ->
      (length (in_flight γ' s'.(world)) < length (in_flight γ s.(world)))%nat) -> Q γ' tt s') ->
  WP _ γ (check_complete payload_reset response_in num_available s) Q.
Proof.
  intros HI Hne HQ. unfold check_complete. apply logic_get.
  destruct (is_empty s || m_check_all (tg s) || (0 <? num_available (world s))) eqn:Hcond.
  2:{ apply orb_false_iff in Hcond as [[He Hca]%orb_false_iff _]. apply logic_ret, HQ; try done.
      - by apply bool_decide_eq_false in He.
      - by rewrite Hca. }
  destruct (in_flight γ (world s)) as [|[ptr r] rest] eqn:Hfl; [done|].
  apply logic_mbind. pose proof HP as [_ _ _ _ Hresp]. apply (Hresp γ ptr r rest).
  - apply (inv_ok γ s HI).
  - by eapply inv_accounted.
  - done.
  - assert (H : NoDup (queue s ++ flying γ s)) by (by rewrite (inv_pool γ s HI)).
    by apply NoDup_app in H as (_ & _ & ?).
  - intros q Hq. rewrite Hfl in *. destruct (inv_flying γ s HI q) as (p & Hp & Hb); [by rewrite Hfl|]. eauto.
  - intros γ' s' p k Hch Hrest Hsent Hptr Hans.
    assert (k = 1) as ->.
    { destruct (inv_flying γ s HI ptr) as (q & Hq & Hb); [rewrite Hfl; by left|].
      destruct (ch_flying _ _ _ _ _ _ _ Hch ptr q 1 Hq Hb) as (q' & Hq' & _). rewrite Hptr in Hq'. by simplify_eq. }
    assert (Hcheck : check_response p = Ok tt).
    { apply (check_response_answers (history γ' s'.(world)) r p Hans).
      apply (ch_conforms _ _ _ _ _ _ _ Hch), (inv_conforms γ s HI). }
    pose proof (inv_released s s' ptr r rest p 1 (payload_reset p) 0 HI Hfl Hch Hrest Hsent Hptr
      eq_refl eq_refl) as HI'.
    eapply logic_step.
    { unfold get_txn at 1. rewrite Hptr, bind_Ok, Hcheck, bind_Ok. unfold release, get_txn at 1.
      rewrite Hptr, bind_Ok. cbn [Z.ltb Z.compare cassert]. rewrite bind_Ok. cbn [Z.sub Z.eqb].
      change (1 - 1 =? 0) with true. unfold free, get_txn, put_txn, upd_txns. cbn [txns].
      rewrite lookup_insert_eq, !bind_Ok. cbn [upd_tg tg txns world].
      rewrite insert_insert_eq, (ch_tg _ _ _ _ _ _ _ Hch). reflexivity. }
    apply HQ; cbn [tg txns world set_active set_queue upd_tg m_check_all m_base_address_1
      m_base_address_2 m_transaction_queue m_active_txn_count]; try done.
    + by destruct (queue s).
    + rewrite Hrest. cbn. lia.
    + rewrite Hrest. cbn. lia.
Qed.

(** A transaction leaves the pool, ... *)
Lemma take_ok {γ} s : inv γ s -> queue s <> [] ->
  exists ptr q p, queue s = ptr :: q /\ s.(txns) !! ptr = Some (p, 0) /\ buffer_ok p /\
    take_transaction s = Ok (mk_sys
      (set_active (Z.of_nat (S (length (flying γ s)))) (set_queue q s.(tg)))
      (<[ptr := (p, 1)]> s.(txns)) s.(world), ptr).
Proof.
  intros HI Hq. destruct (queue s) as [|ptr q] eqn:E; [done|].
  destruct (inv_free γ s HI ptr) as (p & Hp & Hb); [rewrite E; by left|].
  exists ptr, q, p. repeat split; [done|done|].
  pose proof (inv_length s HI) as Hl. unfold take_transaction, dequeue. rewrite E, bind_Ok.
  unfold acquire, get_txn. cbn [txns upd_tg]. rewrite Hp, !bind_Ok.
  unfold put_txn, upd_txns, upd_tg. cbn [tg txns world set_queue m_active_txn_count].
  rewrite (inv_active γ s HI), wrap_small by lia. do 3 f_equal.
  unfold set_active, set_queue. cbn. f_equal. lia.
Qed.

(** The state after a transaction has been sent: the pool lost it, it is in
    flight, its request is recorded. *)
Lemma inv_sent_out {γ} s {γ'} s' ptr q p p' r :
  inv γ s -> queue s = ptr :: q -> s.(txns) !! ptr = Some (p, 0) -> buffer_ok p' ->
  changes (ptr :: flying γ s) γ
    (mk_sys (set_active (Z.of_nat (S (length (flying γ s)))) (set_queue q s.(tg)))
       (<[ptr := (p', 1)]> s.(txns)) s.(world)) γ' s' ->
  in_flight γ' s'.(world) = in_flight γ s.(world) ++ [(ptr, r)] ->
  sent γ' s'.(world) = sent γ s.(world) ++ [r] ->
  match r with Write_request a x => history γ' s'.(world) a x | Read_request _ => True end ->
  inv γ' s'.
Proof.
  intros HI Hq Hp Hb' [Htg Hok Hg Hc Hpl Hf] Hfl Hsent Hw. cbn [txns tg world] in *.
  assert (Hnd : NoDup (queue s ++ flying γ s)) by (by rewrite (inv_pool γ s HI)).
  apply NoDup_app in Hnd as (Hnd & _). rewrite Hq in Hnd. apply NoDup_cons in Hnd as [Hnq _].
  assert (Hlook : forall ptr', ptr' <> ptr -> ptr' ∉ flying γ s -> s'.(txns) !! ptr' = s.(txns) !! ptr').
  { intros ptr' ? ?. rewrite Hpl by (rewrite not_elem_of_cons; done). by apply lookup_insert_ne. }
  destruct (Hf ptr p' 1) as (p'' & Hp'' & Hb''); [apply lookup_insert_eq|done|].
  split.
  - rewrite Htg, Hfl, fmap_app. cbn [m_transaction_queue set_queue set_active fmap list_fmap fst].
    rewrite <- (inv_pool γ s HI), Hq. rewrite app_assoc, (Permutation_app_comm (q ++ _)). done.
  - rewrite Htg, Hfl, fmap_app, length_app. cbn. lia.
  - intros ptr'. rewrite Htg. cbn [m_transaction_queue set_queue set_active]. intros Hin.
    rewrite Hlook.
    + apply (inv_free γ s HI). rewrite Hq. by right.
    + by intros ->.
    + apply inv_disjoint; [done|]. rewrite Hq. by right.
  - intros ptr'. rewrite Hfl, fmap_app. cbn [fmap list_fmap fst].
    intros [Hin | ->%list_elem_of_singleton]%elem_of_app; [|by exists p''].
    destruct (inv_flying γ s HI ptr' Hin) as (p1 & Hp1 & Hb1).
    apply (Hf ptr' p1 1); [|done]. rewrite lookup_insert_ne; [done|]. intros ->.
    destruct (inv_disjoint s ptr' HI); [rewrite Hq; by left|done].
  - done.
  - intros a x. rewrite Hsent. intros [Hin | Heq%list_elem_of_singleton]%elem_of_app.
    + by apply Hg, (inv_sent γ s HI).
    + by subst r.
  - by apply Hc, (inv_conforms γ s HI).
Qed.

(** ... and is in flight once it is sent. *)
Lemma sent_ok {γ} s ptr q p p' r (Q : Γ -> unit -> sys W -> Prop) :
  inv γ s -> queue s = ptr :: q -> s.(txns) !! ptr = Some (p, 0) ->
  is_request p' r -> (sent γ s.(world) ++ [r]) `prefix_of` plan ->
  match r with
  | Write_request a x => conforms a x
  | Read_request a => exists x, history γ s.(world) a x
  end ->
  (forall γ' s', inv γ' s' -> sent γ' s'.(world) = sent γ s.(world) ++ [r] ->
     in_flight γ' s'.(world) <> [] ->
     s'.(tg).(m_check_all) = s.(tg).(m_check_all) ->
     s'.(tg).(m_base_address_1) = s.(tg).(m_base_address_1) ->
     s'.(tg).(m_base_address_2) = s.(tg).(m_base_address_2) -> Q γ' tt s') ->
  WP _ γ
    (request_out ptr (mk_sys (set_active (Z.of_nat (S (length (flying γ s)))) (set_queue q s.(tg)))
      (<[ptr := (p', 1)]> s.(txns)) s.(world))) Q.
Proof.
  intros HI Hq Hp Hr Hv Hpre HQ. pose proof HP as [_ _ Hframe Hsend _].
  pose proof (inv_length s HI) as Hl. rewrite Hq in Hl. cbn [length] in Hl.
  assert (Hni : ptr ∉ flying γ s) by (apply inv_disjoint; [done|rewrite Hq; by left]).
  apply (Hsend γ ptr p' 1 r); cbn [txns tg world].
  - apply Hframe; [apply (inv_ok γ s HI)|done].
  - unfold TrafficGenerator.accounted. cbn. lia.
  - apply lookup_insert_eq.
  - done.
  - done.
  - done.
  - rewrite length_fmap in Hl. lia.
  - done.
  - intros γ' s' Hch Hfl Hsent Hw. cbn [txns tg world] in *. pose proof (ch_tg _ _ _ _ _ _ _ Hch) as Htg.
    apply HQ; try done; [by eapply (inv_sent_out s s' ptr q p p' r); [..|apply Hr| | | |]| |by rewrite Htg..].
    rewrite Hfl. by destruct (in_flight γ s.(world)).
Qed.

(** What a phase of the run changes: requests are sent, all is accounted for. *)
Record phase (reqs : list request) (γ : Γ) (s : sys W) (γ' : Γ) (s' : sys W) : Prop := {
  ph_inv : inv γ' s';
  ph_sent : sent γ' s'.(world) = sent γ s.(world) ++ reqs;
  ph_base_1 : s'.(tg).(m_base_address_1) = s.(tg).(m_base_address_1);
  ph_base_2 : s'.(tg).(m_base_address_2) = s.(tg).(m_base_address_2);
}.

Lemma phase_trans l1 l2 {γ1 s1 γ2 s2 γ3 s3} :
  phase l1 γ1 s1 γ2 s2 -> phase l2 γ2 s2 γ3 s3 -> phase (l1 ++ l2) γ1 s1 γ3 s3.
Proof.
  intros [? Hs ? ?] [? Hs' ? ?]. split; [done|by rewrite Hs', Hs, app_assoc|congruence..].
Qed.

Lemma phase_nil {γ} s : inv γ s -> phase [] γ s γ s.
Proof. intros. split; [done|by rewrite app_nil_r|done..]. Qed.

(** The requests still to be sent after the first. *)
Lemma phase_plan l1 l2 {γ s γ' s'} : phase l1 γ s γ' s' ->
  (sent γ s.(world) ++ l1 ++ l2) `prefix_of` plan -> (sent γ' s'.(world) ++ l2) `prefix_of` plan.
Proof. intros Hph. by rewrite (ph_sent _ _ _ _ _ Hph), <- app_assoc. Qed.

Lemma plan_app {l1 l2 γ s} : (sent γ s.(world) ++ l1 ++ l2) `prefix_of` plan ->
  (sent γ s.(world) ++ l1) `prefix_of` plan.
Proof. rewrite app_assoc. intros H. etrans; [|exact H]. by apply prefix_app_r. Qed.

Lemma checked_ok {γ γ1} r s s' (Q : Γ -> sys W -> Prop) :
  inv γ1 s' -> sent γ1 s'.(world) = sent γ s.(world) ++ [r] -> in_flight γ1 s'.(world) <> [] ->
  s'.(tg).(m_base_address_1) = s.(tg).(m_base_address_1) ->
  s'.(tg).(m_base_address_2) = s.(tg).(m_base_address_2) ->
  (forall γ' s'', phase [r] γ s γ' s'' -> queue s'' <> [] -> Q γ' s'') ->
  WP _ γ1
    (check_complete payload_reset response_in num_available s') (fun γ' _ s'' => Q γ' s'').
Proof.
  intros HI Hs Hfl Hb1 Hb2 HQ. apply check_complete_ok; [done..|].
  intros γ' s'' ? Hs' ? _ ? ? _ _. apply HQ; [|done]. split; [done|by rewrite Hs'|congruence..].
Qed.

(** One iteration of a loop: a transaction is taken, prepared and sent, and a
    response may be read. *)
Definition sends (body : proc event (sys W) Z) (r : request) (a : Z) (γ : Γ) (s : sys W) : Prop :=
  forall Q : Γ -> Z -> sys W -> Prop,
  inv γ s -> queue s <> [] -> (sent γ s.(world) ++ [r]) `prefix_of` plan ->
  (forall γ' s', phase [r] γ s γ' s' -> queue s' <> [] -> Q γ' (a + 4) s') -> WP _ γ (body s) Q.

Lemma iteration_ok (prepare : Z -> sys W -> res (sys W)) r a γ s :
  0 <= a -> a + 4 < 2 ^ 64 ->
  match r with
  | Write_request a x => conforms a x
  | Read_request a => exists x, history γ s.(world) a x
  end ->
  (forall ptr g h p, h !! ptr = Some (p, 1) -> buffer_ok p -> exists p', is_request p' r /\
     prepare ptr (mk_sys g h s.(world)) = Ok (mk_sys g (<[ptr := (p', 1)]> h) s.(world))) ->
  sends (s ← p_get;
    mem_address ←
      (if negb (is_empty s) then
         ptr ← p_step take_transaction;
         p_step (fun s => s ← prepare ptr s; Ok (s, tt));;
         request_out ptr;;
         mret (u64 (a + m_txn_data_size))
       else mret a);
    check_complete payload_reset response_in num_available;;
    mret mem_address) r a γ s.
Proof.
  intros Ha Ha' Hpre Hprep Q HI Hq Hplan HQ.
  destruct (take_ok s HI Hq) as (ptr & q & p & Eq & Hp & Hb & Htake).
  edestruct (Hprep ptr) as (p' & Hreq & Hset); [apply (lookup_insert_eq s.(txns))|exact Hb|].
  apply logic_get. unfold is_empty. rewrite bool_decide_eq_false_2 by done. cbn [negb].
  apply logic_mbind, logic_mbind. eapply logic_step; [exact Htake|]. apply logic_mbind.
  eapply logic_step; [rewrite Hset; reflexivity|]. rewrite insert_insert_eq.
  apply logic_mbind. apply (sent_ok s ptr q p _ r); try done.
  intros γ1 s1 HI1 Hs1 Hfl1 _ Hb1 Hb2. apply logic_ret, logic_mbind.
  apply (checked_ok (γ := γ) r s); try done.
  intros γ2 s2 Hph2 Hq2. apply logic_ret. unfold m_txn_data_size. rewrite wrap_small by lia. by apply HQ.
Qed.

Lemma write_iteration_ok i a γ s : 0 <= a -> a + 4 < 2 ^ 64 ->
  sends (write_iteration payload_reset request_out response_in num_available i a)
    (Write_request a (written_data i a)) a γ s.
Proof.
  intros Ha Ha'. apply (iteration_ok (prepare_write (written_data i a) a)); [done|done|apply written_data_conforms|].
  intros ptr g h p Hp Hb. destruct (prepare_write_request i a p Hb) as (p' & Hset & Hreq).
  eexists. split; [exact Hreq|]. unfold prepare_write, get_txn. cbn [txns]. by rewrite Hp, bind_Ok, Hset, bind_Ok.
Qed.

Lemma read_iteration_ok a γ s : 0 <= a -> a + 4 < 2 ^ 64 ->
  (exists x, history γ s.(world) a x) ->
  sends (read_iteration payload_reset request_out response_in num_available a) (Read_request a) a γ s.
Proof.
  intros Ha Ha' Hx. apply (iteration_ok (prepare_read a)); [done|done|done|].
  intros ptr g h p Hp Hb. exists (set_request TLM_READ_COMMAND a p). split; [done|].
  unfold prepare_read, get_txn. cbn [txns]. by rewrite Hp, bind_Ok.
Qed.

(** A loop sends one request per iteration. *)
Lemma iterate_ok (body : Z -> proc event (sys W) Z) (req : Z -> request) (P : Γ -> sys W -> Prop) base n :
  (forall j γ s, 0 <= j < n -> P γ s -> sends (body (base + 4 * j)) (req (base + 4 * j)) (base + 4 * j) γ s) ->
  (forall l γ s γ' s', inv γ s -> P γ s -> phase l γ s γ' s' -> P γ' s') ->
  forall m k γ s (Q : Γ -> Z -> sys W -> Prop), 0 <= k -> k + Z.of_nat m = n ->
  inv γ s -> queue s <> [] -> P γ s ->
  let reqs := (fun j => req (base + 4 * j)) <$> seqZ k (Z.of_nat m) in
  (sent γ s.(world) ++ reqs) `prefix_of` plan ->
  (forall γ' a s', phase reqs γ s γ' s' -> queue s' <> [] -> Q γ' a s') ->
  WP _ γ (iterate m body (base + 4 * k) s) Q.
Proof.
  intros Hbody HPs. induction m as [|m IH]; intros k γ s Q Hk Hn HI Hq HP0 reqs Hplan HQ.
  - apply logic_ret, HQ; [by apply phase_nil|done].
  - assert (Hreqs : reqs = [req (base + 4 * k)] ++
      ((fun j => req (base + 4 * j)) <$> seqZ (k + 1) (Z.of_nat m))).
    { unfold reqs. rewrite seqZ_cons by lia. by replace (Z.pred (Z.of_nat (S m))) with (Z.of_nat m) by lia. }
    rewrite Hreqs in Hplan, HQ. clear reqs Hreqs.
    cbn [iterate]. apply logic_mbind, Hbody; [lia|done..|by eapply plan_app|]. intros γ1 s1 Hph Hq1.
    replace (base + 4 * k + 4) with (base + 4 * (k + 1)) by lia.
    apply IH; [lia|lia|apply Hph|done|by eapply HPs|by eapply phase_plan|]. intros γ2 a s2 Hph2 Hq2.
    apply HQ; [|done]. by eapply phase_trans.
Qed.

Lemma inv_check_all b {γ} s : inv γ s -> inv γ (upd_tg (set_check_all b) s).
Proof. intros []. by split. Qed.

(** The drain loop waits for every response. *)
Lemma check_all_complete_ok fuel : forall γ s (Q : Γ -> unit -> sys W -> Prop),
  inv γ s -> (length (in_flight γ s.(world)) < fuel)%nat ->
  (forall γ' s', phase [] γ s γ' s' -> in_flight γ' s'.(world) = [] ->
     s'.(tg).(m_check_all) = false -> Q γ' tt s') ->
  WP _ γ (check_all_complete payload_reset response_in num_available fuel s) Q.
Proof.
  induction fuel as [|fuel IH]; intros γ s Q HI Hf HQ; [lia|]. cbn [check_all_complete].
  apply logic_get. pose proof (inv_active γ s HI) as Hact. rewrite length_fmap in Hact.
  destruct (Z.eqb_spec (m_active_txn_count (tg s)) 0) as [H0|H0]; cbn [negb].
  - apply logic_ret, HQ; [|cbn [upd_tg world]; destruct (in_flight γ (world s)); [done|cbn in Hact; lia]|done].
    split; [by apply inv_check_all|by rewrite app_nil_r|done..].
  - apply logic_modify, logic_mbind.
    pose proof (inv_check_all true s HI) as HI'.
    apply check_complete_ok; [done|cbn; destruct (in_flight γ (world s)); [|done]; cbn in Hact; lia|].
    intros γ' s' ? Hs' _ _ Hb1 Hb2 _ Hlt. cbn [upd_tg world tg set_check_all m_check_all
      m_base_address_1 m_base_address_2] in *. specialize (Hlt eq_refl).
    apply IH; [done|lia|]. intros γ'' s'' Hph. apply HQ.
    apply (phase_trans [] [] (γ2 := γ') (s2 := s')); [split; [done|by rewrite app_nil_r|done..]|done].
Qed.

Definition idle (γ : Γ) (s : sys W) : Prop := inv γ s /\ in_flight γ s.(world) = [].

Lemma idle_queue {γ} s : idle γ s -> queue s <> [].
Proof.
  intros [HI Hfl]. pose proof (inv_length s HI) as Hl. rewrite Hfl in Hl. cbn in Hl.
  destruct (queue s); [cbn in Hl; lia|done].
Qed.

Lemma inv_fuel fuel {γ} s : inv γ s -> (length pool < fuel)%nat ->
  (length (in_flight γ s.(world)) < fuel)%nat.
Proof. intros HI. pose proof (inv_length s HI) as Hl. rewrite length_fmap in Hl. lia. Qed.

(** What was sent stays sent, so it stays in the history. *)
Lemma phase_history l {γ s γ' s'} a x : phase l γ s γ' s' ->
  Write_request a x ∈ sent γ s.(world) -> Write_request a x ∈ sent γ' s'.(world).
Proof. intros Hph Hin. rewrite (ph_sent _ _ _ _ _ Hph), elem_of_app. by left. Qed.

Lemma traffic_pass_ok fuel i γ s (Q : Γ -> unit -> sys W -> Prop) :
  let base := if i =? 0 then s.(tg).(m_base_address_1) else s.(tg).(m_base_address_2) in
  idle γ s -> (length pool < fuel)%nat -> 0 <= base -> base + 64 < 2 ^ 64 ->
  (sent γ s.(world) ++ pass_requests i base) `prefix_of` plan ->
  (forall γ' s', phase (pass_requests i base) γ s γ' s' -> idle γ' s' -> Q γ' tt s') ->
  WP _ γ (traffic_pass payload_reset request_out response_in num_available fuel i s) Q.
Proof.
  intros base Hidle Hfuel Hb Hb' Hplan HQ. unfold traffic_pass. apply logic_get.
  fold base. apply logic_mbind. replace base with (base + 4 * 0) at 1 by lia.
  eapply (iterate_ok _ (fun a => Write_request a (written_data i a)) (fun _ _ => True) base 16);
    [|done|lia|done|apply Hidle|by eapply idle_queue|done|by eapply plan_app|].
  { intros j γ0 s0 Hj _. apply write_iteration_ok; lia. }
  intros γ1 _ s1 Hph1 _. apply logic_mbind, check_all_complete_ok; [apply Hph1|apply inv_fuel; [apply Hph1|done]|].
  intros γ2 s2 Hph2 Hfl2 _. apply logic_mbind. replace base with (base + 4 * 0) at 1 by lia.
  pose proof (phase_plan _ _ Hph1 Hplan) as Hplan1. apply (phase_plan [] _ Hph2) in Hplan1.
  eapply (iterate_ok _ Read_request (fun γ s => forall j, 0 <= j < 16 -> exists x,
    Write_request (base + 4 * j) x ∈ sent γ s.(world) /\ history γ s.(world) (base + 4 * j) x) base 16);
    [| |lia|done|apply Hph2|eapply idle_queue; split; [apply Hph2|done]| |exact Hplan1|].
  { intros j γ0 s0 Hj HP0. apply read_iteration_ok; [lia|lia|]. destruct (HP0 j Hj) as (x & _ & Hx). by exists x. }
  { intros l γ0 s0 γ0' s0' _ HP0 Hph0 j Hj. destruct (HP0 j Hj) as (x & Hx & _). exists x.
    pose proof (phase_history _ _ _ Hph0 Hx) as Hx'. split; [done|]. by apply (inv_sent _ _ (ph_inv _ _ _ _ _ Hph0)). }
  { intros j Hj. exists (written_data i (base + 4 * j)).
    assert (Hin : Write_request (base + 4 * j) (written_data i (base + 4 * j)) ∈ sent γ2 s2.(world)).
    { eapply phase_history; [exact Hph2|]. rewrite (ph_sent _ _ _ _ _ Hph1), elem_of_app, list_elem_of_fmap.
      right. exists j. rewrite elem_of_seqZ. auto with lia. }
    split; [done|]. by apply (inv_sent _ _ (ph_inv _ _ _ _ _ Hph2)). }
  intros γ3 _ s3 Hph3 _. apply check_all_complete_ok; [apply Hph3|apply inv_fuel; [apply Hph3|done]|].
  intros γ4 s4 Hph4 Hfl4 _. apply HQ; [|split; [apply Hph4|done]].
  pose proof (phase_trans _ _ Hph1 (phase_trans _ _ Hph2 (phase_trans _ _ Hph3 Hph4))) as Hph.
  rewrite app_nil_r in Hph. exact Hph.
Qed.
End Run.

(** The constructor's pool. *)
Lemma new_traffic_generator_pool {W} ID b1 b2 n garbage (w : W) :
  0 <= n -> (forall i, (4 <= length (garbage i))%nat /\ is_bytes (garbage i)) ->
  let s := new_traffic_generator ID b1 b2 n garbage w in
  s.(tg) = mk_tg ID b1 b2 (seqZ 0 n) 0 true /\ s.(world) = w /\
  forall ptr, ptr ∈ seqZ 0 n -> exists p, s.(txns) !! ptr = Some (p, 0) /\ buffer_ok p.
Proof.
  intros Hn Hg. unfold new_traffic_generator. cbv zeta.
  rewrite <- (Z2Nat.id n) by done. induction (Z.to_nat n) as [|k IH].
  { repeat split; try done. intros ptr Hin. inversion Hin. }
  rewrite seqZ_S, foldl_app. cbn [foldl]. destruct IH as (Htg & Hw & Hp).
  set (s := foldl _ _ _) in *. unfold enqueue, upd_tg, upd_txns. cbn [tg txns world].
  rewrite Htg, Hw. split; [done|]. split; [done|].
  intros ptr Hin. destruct (decide (ptr = 0 + Z.of_nat k)) as [-> | Hne].
  - eexists. split; [apply lookup_insert_eq|]. exists (take 4 (garbage (0 + Z.of_nat k))).
    destruct (Hg (0 + Z.of_nat k)). repeat split; [rewrite length_take; lia|by apply Forall_take].
  - apply elem_of_app in Hin as [Hin | ->%list_elem_of_singleton]; [|done].
    destruct (Hp ptr Hin) as (p & ? & ?). exists p. by rewrite lookup_insert_ne.
Qed.

(** The whole run, in any logic with a platform. *)
Lemma generator_thread_ok {W Γ} {WP payload_reset request_out response_in num_available}
  {in_flight : Γ -> W -> _} {sent history ok} n ID base_1 base_2 fuel γ (s : sys W)
  (Q : Γ -> unit -> sys W -> Prop) :
  let plan := pass_requests 0 base_1 ++ pass_requests 1 base_2 in
  Platform WP payload_reset request_out response_in in_flight sent history plan ok n ->
  0 < n < 16 -> n < Z.of_nat fuel ->
  0 <= base_1 -> base_1 + 64 < 2 ^ 64 -> 0 <= base_2 -> base_2 + 64 < 2 ^ 64 ->
  s.(tg) = mk_tg ID base_1 base_2 (seqZ 0 n) 0 true ->
  (forall ptr, ptr ∈ seqZ 0 n -> exists p, s.(txns) !! ptr = Some (p, 0) /\ buffer_ok p) ->
  in_flight γ s.(world) = [] -> sent γ s.(world) = [] ->
  (forall a x, history γ s.(world) a x -> conforms a x) -> ok γ s.(world) s.(txns) ->
  (forall γ' s', in_flight γ' s'.(world) = [] -> sent γ' s'.(world) = plan ->
     s'.(tg).(m_transaction_queue) ≡ₚ seqZ 0 n -> s'.(tg).(m_active_txn_count) = 0 ->
     ok γ' s'.(world) s'.(txns) -> Q γ' tt s') ->
  WP unit γ (traffic_generator_thread payload_reset request_out response_in num_available fuel s) Q.
Proof.
  intros plan HP Hn Hfuel Hb1 Hb1' Hb2 Hb2' Htg Hp Hfl Hsent Hh Hok HQ. pose proof HP as [HL _ _ _ _].
  assert (Hlen : Z.of_nat (length (seqZ 0 n)) = n) by (rewrite length_seqZ; lia).
  rewrite <- Hlen in HP. clear Hlen.
  assert (Hsize : (0 < length (seqZ 0 n) < 16)%nat) by (rewrite length_seqZ; lia).
  assert (Hfuel' : (length (seqZ 0 n) < fuel)%nat) by (rewrite length_seqZ; lia).
  pose proof (NoDup_seqZ 0 n) as Hnd.
  assert (Hidle : idle (in_flight := in_flight) (sent := sent) (history := history) (ok := ok) (seqZ 0 n) γ s).
  { split; [|done]. split; rewrite ?Htg, ?Hfl, ?Hsent; cbn; try done;
      [by rewrite app_nil_r|intros; by (inversion H || done)..]. }
  unfold traffic_generator_thread.
  apply logic_mbind, (traffic_pass_ok (plan := plan) (ok := ok) (seqZ 0 n)); try done; rewrite ?Htg; try done.
  { rewrite Hsent. cbn. by apply prefix_app_r. }
  intros γ1 s1 Hph1 Hidle1. cbn in Hph1. pose proof (ph_base_2 _ _ _ _ _ _ Hph1) as Hbase.
  rewrite Htg in Hbase. cbn in Hbase.
  apply (traffic_pass_ok (plan := plan) (ok := ok) (seqZ 0 n)); try done; cbn [Z.eqb]; rewrite ?Hbase; try done.
  { by rewrite (ph_sent _ _ _ _ _ _ Hph1), Hsent. }
  intros γ2 s2 Hph2 [HI2 Hfl2]. pose proof (inv_pool _ _ _ HI2) as Hpl. pose proof (inv_active _ _ _ HI2) as Hact.
  rewrite Hfl2 in *. cbn in *. rewrite app_nil_r in Hpl. apply HQ; try done; [|apply (inv_ok _ _ _ HI2)].
  by rewrite (ph_sent _ _ _ _ _ _ Hph2), (ph_sent _ _ _ _ _ _ Hph1), Hsent.
Qed.

(** ** Properties *)

(** C11: over any platform that serves requests in order, with a pool of [n]
    transactions, the generator terminates without a fatal report, whatever the
    rest of the simulation does as far as the platform tolerates it: it has sent, in order, sixteen words to
    each base address (the address, complemented in the second pass), each
    followed by sixteen reads of the same addresses, whose data it found
    acceptable; all transactions are back in the pool, and at every suspension
    they were either in the pool or counted as active. *)
Theorem traffic_completes {W} payload_reset request_out response_in num_available
  in_flight sent history ok R n ID base_1 base_2 garbage fuel (w : W) :
  let requests := pass_requests 0 base_1 ++ pass_requests 1 base_2 in
  Platform (plain R (accounted n)) payload_reset request_out response_in in_flight sent history requests ok n ->
  0 < n < 16 -> n < Z.of_nat fuel ->
  (forall i, (4 <= length (garbage i))%nat /\ is_bytes (garbage i)) ->
  0 <= base_1 -> base_1 + 64 < 2 ^ 64 -> 0 <= base_2 -> base_2 + 64 < 2 ^ 64 ->
  in_flight tt w = [] -> sent tt w = [] -> (forall a x, history tt w a x -> conforms a x) ->
  ok tt w (new_traffic_generator ID base_1 base_2 n garbage w).(txns) ->
  wp R (accounted n)
    (traffic_generator_thread payload_reset request_out response_in num_available fuel
       (new_traffic_generator ID base_1 base_2 n garbage w))
    (fun _ s => sent tt s.(world) = requests /\ s.(tg).(m_transaction_queue) ≡ₚ seqZ 0 n /\
       s.(tg).(m_active_txn_count) = 0).
Proof.
  intros requests HP Hn Hfuel Hg Hb1 Hb1' Hb2 Hb2' Hfl Hsent Hh Hok.
  destruct (new_traffic_generator_pool ID base_1 base_2 n garbage w) as (Htg & Hw & Hp); [lia|done|].
  set (s := new_traffic_generator _ _ _ _ _ _) in *. rewrite <- Hw in Hfl, Hsent, Hh, Hok.
  change (plain R (accounted n) unit tt (traffic_generator_thread payload_reset request_out response_in num_available fuel s)
    (fun _ _ s => sent tt s.(world) = requests /\ s.(tg).(m_transaction_queue) ≡ₚ seqZ 0 n /\
       s.(tg).(m_active_txn_count) = 0)).
  eapply generator_thread_ok; eauto. by intros [] s'.
Qed.
