(* ===== verification/LtTargets.v ===== *)
(** * The targets of the loosely-timed example behind its bus
    (lt/systemc/src/top.cpp and include/top.h)

    The two targets of the example and the bus that an initiator's blocking
    calls go through, as a state of their own, so that both models of the
    example, one initiator in an environment (LtPlatform) and the whole example
    (LtSystem), share what a word-sized access does. *)

From S2P Require Import Prelude Tlm Kernel LtMemory SimpleBusLT AtTarget TrafficGenerator.
From stdpp Require Import base numbers list gmap.
#[local] Open Scope Z_scope.

(** ** Definitions *)

Record targets : Type := mk_targets {
  m_at_and_lt_target_1 : at_target_1_phase (list payload);
  m_lt_target_2 : lt_target;
}.

(** [top::top]: the targets of the example. *)
Definition new_targets : res targets :=
  t1 ← new_at_target [] 201 (4 * 1024) 4 (sc_ns 20) (sc_ns 100) (sc_ns 60);
  t2 ← new_lt_target 202 (4 * 1024) 4 (sc_ns 10) (sc_ns 50) (sc_ns 30);
  Ok (mk_targets t1 t2).

Definition NR_OF_TARGETS : Z := 2.

(** [m_bus.initiator_socket[0](m_at_and_lt_target_1.m_memory_socket)] and
    [m_bus.initiator_socket[1](m_lt_target_2.m_memory_socket)]. *)
Definition target_b_transport (port : Z) : b_transport_t targets := fun w p t =>
  if port =? 0 then
    '(t1, p, t) ← AtTarget.b_transport w.(m_at_and_lt_target_1) p t;
    Ok (mk_targets t1 w.(m_lt_target_2), p, t)
  else
    '(t2, p, t) ← custom_b_transport w.(m_lt_target_2) p t;
    Ok (mk_targets w.(m_at_and_lt_target_1) t2, p, t).

Definition bus_b_transport (SocketId : Z) : b_transport_t targets :=
  initiatorBTransport NR_OF_TARGETS target_b_transport SocketId.

(** A transport of a part of the state, as one of the whole. *)
Definition on_part {A W} (get : W -> A) (put : A -> W -> W) (f : b_transport_t A) : b_transport_t W :=
  fun w p t => '(a, p, t) ← f (get w) p t; Ok (put a w, p, t).

(** The words the generators of the example use: sixteen of each target. *)
Definition word_address (a : Z) : Prop :=
  exists port j, (port = 0 \/ port = 1) /\ 0 <= j < 16 /\ a = port * 2 ^ 28 + 4 * j.


(** The memory of each target, and its words. *)
Definition memory_of (w : targets) (port : Z) : memory :=
  if port =? 0 then m_target_memory w.(m_at_and_lt_target_1) else lt_target_memory w.(m_lt_target_2).

Definition word_at (w : targets) (a : Z) : Z :=
  le_decode (slice (m_memory (memory_of w (a / 2 ^ 28))) (a mod 2 ^ 28) 4).

(** Both memories are as they were built, up to their contents. *)
Definition targets_ok (w : targets) : Prop := forall port, port = 0 \/ port = 1 ->
  memory_ok (memory_of w port) /\ m_memory_size (memory_of w port) = 4096.

(** ** Lemmas *)

Lemma word_address_split a : word_address a ->
  (a / 2 ^ 28 = 0 \/ a / 2 ^ 28 = 1) /\ 0 <= a mod 2 ^ 28 < 64 /\ (a mod 2 ^ 28) mod 4 = 0 /\
  0 <= a < 2 ^ 32.
Proof.
  intros (port & j & Hp & Hj & ->).
  assert (Hd : (port * 2 ^ 28 + 4 * j) / 2 ^ 28 = port).
  { rewrite Z.add_comm, Z.div_add, Z.div_small; lia. }
  assert (Hm : (port * 2 ^ 28 + 4 * j) mod 2 ^ 28 = 4 * j).
  { rewrite Z.add_comm, Z.mod_add, Z.mod_small; lia. }
  rewrite Hd, Hm. split; [done|]. split; [lia|]. split; [|lia].
  rewrite Z.mul_comm. apply Z.mod_mul. lia.
Qed.

Lemma word_address_eq a b : a / 2 ^ 28 = b / 2 ^ 28 -> a mod 2 ^ 28 = b mod 2 ^ 28 -> a = b.
Proof. intros Hd Hm. rewrite (Z.div_mod a (2 ^ 28)), (Z.div_mod b (2 ^ 28)) by lia. by rewrite Hd, Hm. Qed.

(** A word-sized transfer, as the bus makes it to a target. *)
Definition set_memory_of (w : targets) (port : Z) (m : memory) : targets :=
  if port =? 0
  then mk_targets (set_target_memory m w.(m_at_and_lt_target_1)) w.(m_lt_target_2)
  else mk_targets w.(m_at_and_lt_target_1) (mk_lt_target (lt_accept_delay w.(m_lt_target_2)) m).

(** An access to the window of a target is an operation of its memory. *)
Lemma bus_operation w p d t id :
  payload_wf p -> has_buffer p d -> (4 <= length d)%nat -> p.(address) < 2 * 2 ^ 28 ->
  let port := p.(address) / 2 ^ 28 in
  memory_ok (memory_of w port) ->
  let sp := spec_operation (memory_of w port) (set_address (p.(address) mod 2 ^ 28) p) SC_ZERO_TIME in
  exists t', bus_b_transport id w p t = Ok (set_memory_of w port sp.1.1, sp.1.2, t') /\ 0 <= t' /\
    memory_ok sp.1.1 /\ m_memory_size sp.1.1 = m_memory_size (memory_of w port).
Proof.
  intros [Hr Hwl Hwd] [Hd Hl] H4 Ha port Hm sp.
  assert (Hport : port = 0 \/ port = 1).
  { assert (0 <= port < 2); [|lia]. unfold port. split; [apply Z.div_pos; lia|apply Z.div_lt_upper_bound; lia]. }
  unfold bus_b_transport, initiatorBTransport. rewrite mask_mod. unfold decode.
  rewrite getPortId_div, Z.mod_small by lia. fold port.
  pose proof (Z.mod_pos_bound (address p) (2 ^ 28)).
  assert (Hq : payload_wf (set_address (p.(address) mod 2 ^ 28) p)) by (split; cbn; [lia|lia|done]).
  assert (Hbuf : has_buffer (set_address (p.(address) mod 2 ^ 28) p) d) by by split.
  assert (Hop : operation (memory_of w port) (set_address (p.(address) mod 2 ^ 28) p) SC_ZERO_TIME = Ok sp)
    by by apply (operation_spec _ _ d).
  assert (Hok : memory_ok sp.1.1).
  { destruct sp as [[m1 p1] t1]. by eapply (operation_preserves _ _ d SC_ZERO_TIME Hm Hq Hbuf H4). }
  assert (Hsize : m_memory_size sp.1.1 = m_memory_size (memory_of w port)).
  { subst sp. unfold spec_operation. by destruct (command _), (accepts _ _). }
  unfold NR_OF_TARGETS, target_b_transport, set_memory_of, memory_of in *.
  destruct sp as [[m' p'] t']. destruct Hport as [E|E]; rewrite E in *; cbn [Z.ltb Z.compare cassert Z.eqb] in *.
  - rewrite bind_Ok. unfold AtTarget.b_transport. rewrite Hop, !bind_Ok. eexists. split; [done|].
    split; [apply t_add_range|done].
  - change (1 <? 2) with true. cbn [cassert]. rewrite bind_Ok. unfold custom_b_transport.
    rewrite Hop, !bind_Ok. eexists. split; [done|]. split; [apply t_add_range|done].
Qed.

Lemma bus_transfer w a p d t id :
  word_address a -> p.(address) = a -> p.(data_length) = 4 -> p.(data) = Some d ->
  length d = 4%nat -> is_bytes d -> memory_ok (memory_of w (a / 2 ^ 28)) ->
  let sp := spec_operation (memory_of w (a / 2 ^ 28)) (set_address (a mod 2 ^ 28) p) SC_ZERO_TIME in
  exists t', bus_b_transport id w p t = Ok (set_memory_of w (a / 2 ^ 28) sp.1.1, sp.1.2, t') /\ 0 <= t'.
Proof.
  intros Ha <- Hl Hd Hld Hby Hm. destruct (word_address_split _ Ha) as (Hport & Hoff & _ & Hr).
  destruct (bus_operation w p d t id) as (t' & Ht & H0 & _); [|split; [done|lia]|lia| |done|by exists t'].
  - split; [lia|lia|]. rewrite Hd. by intros ? [= <-].
  - rewrite (Z.div_mod (address p) (2 ^ 28)) by lia. lia.
Qed.

Lemma memory_of_set w port m port' :
  port = 0 \/ port = 1 -> port' = 0 \/ port' = 1 ->
  memory_of (set_memory_of w port m) port' = if port' =? port then m else memory_of w port'.
Proof. by intros [-> | ->] [-> | ->]. Qed.

Lemma set_memory_of_id w port : set_memory_of w port (memory_of w port) = w.
Proof. unfold set_memory_of, memory_of. destruct w as [[] []]. by destruct (port =? 0). Qed.

Lemma data_word_le_decode d p x :
  p.(data) = Some d -> length d = 4%nat -> data_word 4 p = Ok x -> le_decode d = x.
Proof.
  intros Hd Hl. unfold data_word. rewrite (data_read_Ok p d) by (done || lia).
  rewrite bind_Ok, take_ge by (rewrite Nat2Z.id; lia). by intros [= <-].
Qed.

Section Exec.
Context (w : targets) (id : Z) (p : payload) (a : Z).
Context (Ha : word_address a).
Context (Hmem : targets_ok w).

(** The memory of the addressed target takes the access. *)
Lemma word_in_memory :
  let m := memory_of w (a / 2 ^ 28) in
  memory_ok m /\ Z.of_nat (length (m_memory m)) = 4096 /\ 0 <= a mod 2 ^ 28 < 64 /\
  (a / 2 ^ 28 = 0 \/ a / 2 ^ 28 = 1).
Proof.
  destruct (word_address_split a Ha) as (Hport & Hoff & _). cbv zeta.
  destruct (Hmem _ Hport) as [Hok Hs]. pose proof Hok as (Hlen & _). rewrite Hlen, Hs. auto.
Qed.

(** A write request stores its word and changes no other. *)
Lemma exec_write x :
  is_request p (Write_request a x) ->
  exists w' p' t', bus_b_transport id w p SC_ZERO_TIME = Ok (w', p', t') /\
    0 <= t' /\ p'.(response_status) = TLM_OK_RESPONSE /\ p'.(command) = TLM_WRITE_COMMAND /\
    buffer_ok p' /\ targets_ok w' /\
    forall b, word_address b -> word_at w' b = if b =? a then x else word_at w b.
Proof.
  intros (Hl & _ & (d & Hd & Hld & Hby) & Hc & Hpa & Hx).
  destruct word_in_memory as (Hok & Hlen & Hoff & Hport).
  destruct (bus_transfer w a p d SC_ZERO_TIME id Ha Hpa Hl Hd Hld Hby Hok) as (t' & Ht & Ht').
  set (q := set_address (a mod 2 ^ 28) p) in *.
  pose proof (data_word_le_decode d p x Hd Hld Hx) as Hdx.
  assert (Hacc : accepts (memory_of w (a / 2 ^ 28)) q = true).
  { unfold accepts. destruct (Hmem _ Hport) as [_ ->]. apply Z.ltb_lt. cbn. lia. }
  assert (Hq : payload_wf q) by (split; cbn; [lia|lia|rewrite Hd; by intros ? [= <-]]).
  assert (Hbuf : has_buffer q d) by (split; cbn; [done|lia]).
  pose proof (operation_spec _ q d SC_ZERO_TIME Hok Hq Hbuf ltac:(lia)) as Hop.
  assert (Hm' : memory_ok (spec_operation (memory_of w (a / 2 ^ 28)) q SC_ZERO_TIME).1.1).
  { destruct (spec_operation (memory_of w (a / 2 ^ 28)) q SC_ZERO_TIME) as [[m1 p1] t1].
    by apply (operation_preserves _ q d SC_ZERO_TIME Hok Hq Hbuf ltac:(lia) _ _ _ Hop). }
  unfold spec_operation in Ht, Hm'. change (command q) with (command p) in Ht, Hm'.
  rewrite Hc, Hacc in Ht, Hm'. cbn [fst snd] in Ht, Hm'. do 3 eexists. split; [exact Ht|].
  assert (Hmemory : spec_write (memory_of w (a / 2 ^ 28)) q =
    splice (m_memory (memory_of w (a / 2 ^ 28))) (a mod 2 ^ 28) d).
  { unfold spec_write, data_array. subst q. cbn [data address data_length set_address].
    rewrite Hd, Hl. change (default [] (Some d)) with d. f_equal. unfold slice. rewrite drop_0.
    apply take_ge. lia. }
  rewrite Hmemory in *. split; [done|]. split; [done|]. split; [done|]. split; [by exists d|].
  split; [intros port Hp; split|].
  - rewrite memory_of_set by done. destruct (_ =? _); [done|by apply Hmem].
  - rewrite memory_of_set by done. destruct (Z.eqb_spec port (a / 2 ^ 28)) as [->|]; [|by apply Hmem].
    cbn. by apply Hmem.
  - intros b Hb. destruct (word_address_split b Hb) as (Hbport & Hboff & Hb4 & _).
    destruct (word_address_split a Ha) as (_ & _ & Ha4 & _). unfold word_at.
    rewrite memory_of_set by done. destruct (Z.eqb_spec (b / 2 ^ 28) (a / 2 ^ 28)) as [E|E].
    + destruct (Z.eqb_spec b a) as [-> | Hne]; cbn [m_memory with_memory].
      * replace 4 with (Z.of_nat (length d)) by lia. rewrite slice_splice_same by lia. done.
      * assert (b mod 2 ^ 28 <> a mod 2 ^ 28) by (intros Em; by apply Hne, word_address_eq).
        apply Z.mod_divide in Ha4, Hb4; [|lia..]. destruct Ha4 as [ka Eka], Hb4 as [kb Ekb].
        rewrite slice_splice_disjoint by lia. by rewrite E.
    + destruct (Z.eqb_spec b a) as [-> | Hne]; [done|done].
Qed.

(** A read request returns the word and changes nothing. *)
Lemma exec_read :
  is_request p (Read_request a) ->
  exists p' t', bus_b_transport id w p SC_ZERO_TIME = Ok (w, p', t') /\
    0 <= t' /\ p'.(response_status) = TLM_OK_RESPONSE /\ p'.(command) = TLM_READ_COMMAND /\ buffer_ok p' /\
    p'.(address) = a mod 2 ^ 28 /\ data_word 4 p' = Ok (word_at w a).
Proof.
  intros (Hl & _ & (d & Hd & Hld & Hby) & Hc & Hpa).
  destruct word_in_memory as (Hok & Hlen & Hoff & Hport).
  destruct (bus_transfer w a p d SC_ZERO_TIME id Ha Hpa Hl Hd Hld Hby Hok) as (t' & Ht & Ht').
  set (q := set_address (a mod 2 ^ 28) p) in *.
  assert (Hacc : accepts (memory_of w (a / 2 ^ 28)) q = true).
  { unfold accepts. destruct (Hmem _ Hport) as [_ ->]. apply Z.ltb_lt. cbn. lia. }
  unfold spec_operation in Ht. change (command q) with (command p) in Ht.
  rewrite Hc, Hacc in Ht. cbn [fst snd] in Ht. rewrite set_memory_of_id in Ht.
  assert (Hsp : spec_read (memory_of w (a / 2 ^ 28)) q =
    slice (m_memory (memory_of w (a / 2 ^ 28))) (a mod 2 ^ 28) 4).
  { unfold spec_read, data_array. subst q. cbn [data address data_length set_address].
    rewrite Hd, Hl. change (default [] (Some d)) with d. unfold splice. cbn [Z.to_nat take app].
    change (Z.to_nat 0) with 0%nat. cbn [take app plus].
    rewrite slice_length by lia. rewrite drop_ge, app_nil_r by lia. done. }
  assert (Hsl : length (slice (m_memory (memory_of w (a / 2 ^ 28))) (a mod 2 ^ 28) 4) = 4%nat)
    by (rewrite slice_length; lia).
  rewrite Hsp in Ht. do 2 eexists. split; [exact Ht|]. split; [done|]. repeat split.
  - done.
  - eexists. split; [done|]. split; [done|]. by apply slice_bytes, Hok.
  - unfold data_word, data_read. cbn. rewrite load_Ok by lia.
    rewrite bind_Ok. unfold word_at. do 2 f_equal. unfold slice at 1. rewrite drop_0.
    apply take_ge. lia.
Qed.
End Exec.

(** An access of Renode, through the third port, that leaves the words of the
    generators alone. *)
Record renode_access (p : payload) : Prop := {
  ra_wf : payload_wf p;
  ra_buffer : exists d, has_buffer p d /\ (4 <= length d)%nat;
  ra_window : p.(address) < 2 * 2 ^ 28;
  ra_elsewhere : p.(command) = TLM_WRITE_COMMAND -> 64 <= p.(address) mod 2 ^ 28;
}.

Lemma exec_elsewhere w id p t : renode_access p -> targets_ok w ->
  exists w' p' t', bus_b_transport id w p t = Ok (w', p', t') /\ targets_ok w' /\
    forall a, word_address a -> word_at w' a = word_at w a.
Proof.
  intros [Hwf (d & Hbuf & H4) Ha Hw] Hmem. set (port := p.(address) / 2 ^ 28).
  assert (Hport : port = 0 \/ port = 1).
  { pose proof (wf_address _ Hwf). assert (0 <= port < 2); [|lia].
    unfold port. split; [apply Z.div_pos; lia|apply Z.div_lt_upper_bound; lia]. }
  destruct (Hmem _ Hport) as [Hok Hsize].
  destruct (bus_operation w p d t id Hwf Hbuf H4 Ha Hok) as (t' & Ht & _ & Hok' & Hsize').
  fold port in Ht, Hok', Hsize'. set (q := set_address (p.(address) mod 2 ^ 28) p) in *.
  do 3 eexists. split; [exact Ht|]. split.
  - intros port' Hp'. rewrite !memory_of_set by done. destruct (Z.eqb_spec port' port) as [->|]; [|by apply Hmem].
    split; [done|]. by rewrite Hsize'.
  - intros a Haw. destruct (word_address_split a Haw) as (Hap & Hao & Ha4 & _). unfold word_at.
    rewrite memory_of_set by done. destruct (Z.eqb_spec (a / 2 ^ 28) port) as [Ep|]; [|done]. rewrite Ep.
    assert (Hmm : forall off, 0 <= off -> off + 4 <= 64 ->
      slice (m_memory (spec_operation (memory_of w port) q SC_ZERO_TIME).1.1) off 4 =
      slice (m_memory (memory_of w port)) off 4).
    { intros off H0 H1. pose proof Hok as (Hlen & _).
      unfold spec_operation. change (command q) with (command p). destruct (command p); [by destruct (accepts _ _)| |done].
      destruct (accepts (memory_of w port) q) eqn:Hacc; [|done]. cbn [fst m_memory with_memory].
      specialize (Hw eq_refl). unfold accepts in Hacc. apply Z.ltb_lt in Hacc. destruct Hbuf as [Hd Hl].
      pose proof (wf_length _ Hwf). unfold spec_write, data_array. change (data q) with (data p). rewrite Hd.
      change (default [] (Some d)) with d. change (address q) with (p.(address) mod 2 ^ 28) in *.
      change (data_length q) with (data_length p) in *. apply slice_splice_disjoint; rewrite ?slice_length; lia. }
    f_equal. apply Hmm; [lia|]. apply Z.mod_divide in Ha4; [|lia]. destruct Ha4 as [k Hk]. lia.
Qed.

(** Renode maps 4 GB to the bus; an access above the windows of both targets
    fails an assertion. *)
Theorem access_beyond_targets w id p t :
  2 * 2 ^ 28 <= p.(address) < 2 ^ 32 -> bus_b_transport id w p t = Err Assert_failure.
Proof.
  intros Ha. unfold bus_b_transport, initiatorBTransport, decode. rewrite getPortId_div, Z.mod_small by lia.
  assert (2 <= address p / 2 ^ 28) by (apply Z.div_le_lower_bound; lia).
  destruct (Z.ltb_spec (address p / 2 ^ 28) NR_OF_TARGETS); [unfold NR_OF_TARGETS in *; lia|]. done.
Qed.

Lemma new_targets_ok w : new_targets = Ok w -> targets_ok w.
Proof.
  unfold new_targets. intros H. apply bind_Ok_inv in H as (t1 & H1 & H).
  apply bind_Ok_inv in H as (t2 & H2 & [= <-]).
  unfold new_at_target in H1. apply bind_Ok_inv in H1 as (m1 & Hm1 & [= <-]).
  unfold new_lt_target in H2. apply bind_Ok_inv in H2 as (m2 & Hm2 & [= <-]).
  pose proof Hm1 as Hs1. pose proof Hm2 as Hs2.
  apply new_memory_ok in Hm1; [|lia]. apply new_memory_ok in Hm2; [|lia].
  assert (Hs1' : m_memory_size m1 = 4096) by (unfold new_memory in Hs1; cbn in Hs1; by injection Hs1 as <-).
  assert (Hs2' : m_memory_size m2 = 4096) by (unfold new_memory in Hs2; cbn in Hs2; by injection Hs2 as <-).
  by intros port [-> | ->].
Qed.
