(* ===== verification/LtPlatform.v ===== *)
(** * One initiator of the loosely-timed example in its environment
    (lt/systemc/src/top.cpp; initiator_top.cpp, lt_initiator.cpp)

    The bus with its two targets behind one initiator, as the platform that a
    traffic generator relies on: [lt_platform] discharges the interface
    [TrafficGenerator.Platform] with the models of the bus, of both targets and
    of the initiator thread, whatever other masters write to other words or,
    conformingly, to the same ones.  LtSystem runs both initiators. *)

From S2P Require Import Prelude Tlm Kernel LtMemory SimpleBusLT AtTarget TrafficGenerator LtTargets.
From stdpp Require Import base numbers list gmap.
#[local] Open Scope Z_scope.

(** ** Definitions *)

(** The targets, the request FIFO, and what the interface speaks of: the
    requests sent, the writes made, and the addresses whose first write has
    reached its target. *)
Record platform : Type := mk_platform {
  bus_targets : targets;
  request_fifo : list (Z * request);
  sent : list request;
  history : list (Z * Z);
  committed : list Z;
}.

Definition set_bus_targets (t : targets) (w : platform) : platform :=
  mk_platform t w.(request_fifo) w.(sent) w.(history) w.(committed).

Definition new_platform : res platform := t ← new_targets; Ok (mk_platform t [] [] [] []).

(** The request a payload asks for. *)
Definition request_of (p : payload) : res request :=
  x ← data_word 4 p;
  Ok (if is_write p then Write_request p.(address) x else Read_request p.(address)).

(** [m_request_fifo]: [write] appends, [read] takes the first. *)
Definition request_out (ptr : Z) : proc event (sys platform) unit := p_step (fun s =>
  '(p, _) ← get_txn ptr s;
  r ← request_of p;
  let w := s.(world) in
  Ok (mk_sys s.(tg) s.(txns)
        (mk_platform w.(bus_targets) (w.(request_fifo) ++ [(ptr, r)])
           (w.(sent) ++ [r])
           (w.(history) ++ match r with Write_request a x => [(a, x)] | Read_request _ => [] end)
           w.(committed)), tt)).

Definition request_in : proc event (sys platform) Z := p_step (fun s =>
  let w := s.(world) in
  match w.(request_fifo) with
  | [] => Err Undefined_behaviour
  | (ptr, r) :: rest =>
      Ok (mk_sys s.(tg) s.(txns)
            (mk_platform w.(bus_targets) rest w.(sent) w.(history)
               (match r with Write_request a _ => [a] | Read_request _ => [] end ++ w.(committed))), ptr)
  end).

(** Reading the response FIFO lets the initiator thread run for one iteration. *)
Definition response_in (SocketId : Z) : proc event (sys platform) Z :=
  s ← p_get;
  ptr ← p_lift (match s.(world).(request_fifo) with
                | (ptr, _) :: _ => Ok ptr
                | [] => Err Undefined_behaviour
                end);
  initiator_body request_in (fun _ => mret tt) (on_part bus_targets set_bus_targets (bus_b_transport SocketId));;
  mret ptr.

Definition valid (r : request) : Prop :=
  match r with
  | Write_request a x => word_address a /\ 0 <= x < 2 ^ 32
  | Read_request a => word_address a
  end.

(** In the request FIFO, a read comes after a write to its address. *)
Fixpoint flows (c : list Z) (fl : list (Z * request)) : Prop :=
  match fl with
  | [] => True
  | (_, Write_request a _) :: fl => flows (a :: c) fl
  | (_, Read_request a) :: fl => a ∈ c /\ flows c fl
  end.

(** The invariant: a committed word holds a value that was written to it. *)
Record ok (w : platform) (h : gmap Z (payload * Z)) : Prop := {
  ok_memory : targets_ok w.(bus_targets);
  ok_words : forall a, word_address a -> a ∈ w.(committed) ->
    (a, word_at w.(bus_targets) a) ∈ w.(history);
  ok_flows : flows w.(committed) w.(request_fifo);
  ok_history : forall a x, (a, x) ∈ w.(history) ->
    a ∈ w.(committed) \/ exists ptr y, (ptr, Write_request a y) ∈ w.(request_fifo);
  ok_writes : forall ptr a x, (ptr, Write_request a x) ∈ w.(request_fifo) -> (a, x) ∈ w.(history);
  ok_requests : forall ptr r, (ptr, r) ∈ w.(request_fifo) ->
    valid r /\ exists p k, h !! ptr = Some (p, k) /\ is_request p r;
}.

(** The other initiator may access the targets while this one waits. *)
Definition rely (s s' : sys platform) : Prop :=
  s'.(tg) = s.(tg) /\ s'.(txns) = s.(txns) /\
  s'.(world).(request_fifo) = s.(world).(request_fifo) /\ s'.(world).(sent) = s.(world).(sent) /\
  (ok s.(world) s.(txns) -> ok s'.(world) s'.(txns)) /\
  (forall e, e ∈ s.(world).(history) -> e ∈ s'.(world).(history)) /\
  ((forall a x, (a, x) ∈ s.(world).(history) -> conforms a x) ->
   forall a x, (a, x) ∈ s'.(world).(history) -> conforms a x).

(** ** Lemmas *)

(** The state after the initiator took the first request and served it. *)
Definition taken (w : platform) (r : request) (rest : list (Z * request)) : platform :=
  mk_platform w.(bus_targets) rest w.(sent) w.(history)
    (match r with Write_request a _ => [a] | Read_request _ => [] end ++ w.(committed)).

Lemma ok_served w h ptr r rest p k w2 :
  ok w h -> w.(request_fifo) = (ptr, r) :: rest -> NoDup (w.(request_fifo)).*1 ->
  w2.(request_fifo) = rest -> w2.(history) = w.(history) ->
  w2.(committed) = (taken w r rest).(committed) ->
  targets_ok w2.(bus_targets) ->
  (forall b, word_address b -> word_at w2.(bus_targets) b =
     match r with
     | Write_request a x => if b =? a then x else word_at w.(bus_targets) b
     | Read_request _ => word_at w.(bus_targets) b
     end) ->
  ok w2 (<[ptr := (p, k)]> h).
Proof.
  intros [Hm Hwords Hflows Hhist Hwrites Hreqs] Hfifo Hnd Hf2 Hh2 Hc2 Hm2 Hw2.
  rewrite Hfifo in *. cbn [fmap list_fmap fst] in Hnd. apply NoDup_cons in Hnd as [Hni _].
  cbn [taken committed] in Hc2. split.
  - done.
  - intros b Hb. rewrite Hc2, Hh2, Hw2 by done. destruct r as [a x|a]; cbn [app].
    + destruct (Z.eqb_spec b a) as [-> | Hne].
      * intros _. apply (Hwrites ptr). by left.
      * intros Hin. apply elem_of_cons in Hin as [?|Hin]; [done|]. by apply Hwords.
    + by apply Hwords.
  - rewrite Hc2, Hf2. destruct r; cbn in *; [done|by destruct Hflows].
  - intros b y. rewrite Hc2, Hh2, Hf2. intros Hin. destruct (Hhist b y Hin) as [Hin'|(q & z & Hq)].
    + left. apply elem_of_app. by right.
    + apply elem_of_cons in Hq as [Heq|Hq]; [|right; by exists q, z].
      injection Heq as -> <-. left. apply elem_of_app. left. by left.
  - intros q b y. rewrite Hf2, Hh2. intros Hin. apply (Hwrites q). by right.
  - intros q r' Hin. rewrite Hf2 in Hin. destruct (Hreqs q r') as (Hv & p' & k' & Hp' & Hr'); [by right|].
    split; [done|]. exists p', k'. split; [|done]. rewrite lookup_insert_ne; [done|].
    intros ->. apply Hni, list_elem_of_fmap. by exists (q, r').
Qed.

(** Serving a request answers it and keeps the invariant. *)
Lemma serve_request id w h ptr r rest p k :
  ok w h -> w.(request_fifo) = (ptr, r) :: rest -> NoDup (w.(request_fifo)).*1 ->
  h !! ptr = Some (p, k) -> is_request p r -> valid r ->
  exists w2 p' t', on_part bus_targets set_bus_targets (bus_b_transport id) (taken w r rest) p SC_ZERO_TIME =
      Ok (w2, p', t') /\
    p'.(response_status) = TLM_OK_RESPONSE /\ buffer_ok p' /\
    answers (fun a x => (a, x) ∈ w.(history)) r p' /\
    w2.(request_fifo) = rest /\ w2.(sent) = w.(sent) /\ w2.(history) = w.(history) /\
    ok w2 (<[ptr := (p', k)]> h).
Proof.
  intros Hok Hfifo Hnd Hp Hr Hv. pose proof Hok as [Hm Hwords Hflows _ _ _].
  destruct r as [a x|a]; cbn in Hv.
  - destruct Hv as [Ha _].
    destruct (exec_write w.(bus_targets) id p a Ha Hm x Hr)
      as (w2 & p' & t' & Hb & _ & Hs & Hc & Hbuf & Hm2 & Hw2).
    eexists _, p', t'. split; [unfold on_part; cbn [bus_targets taken]; rewrite Hb, bind_Ok; reflexivity|].
    do 3 (split; [done|]). do 3 (split; [done|]). by eapply ok_served.
  - destruct (exec_read w.(bus_targets) id p a Hv Hm Hr) as (p' & t' & Hb & _ & Hs & Hc & Hbuf & Ha & Hx).
    rewrite Hfifo in Hflows. cbn in Hflows.
    eexists _, p', t'. split; [unfold on_part; cbn [bus_targets taken]; rewrite Hb, bind_Ok; reflexivity|].
    split; [done|]. split; [done|]. split; [|split; [done|split; [done|split; [done|]]]].
    + split; [done|]. split; [done|]. split.
      * rewrite Ha. change data_mask with (Z.ones 28). rewrite !Z.land_ones by lia.
        by rewrite Z.mod_mod by lia.
      * exists (word_at w.(bus_targets) a). split; [exact Hx|]. by apply Hwords; [|apply Hflows].
    + by eapply ok_served.
Qed.

(** Sending a request keeps the invariant. *)
Lemma flows_snoc fl ptr r : forall c, flows c fl ->
  match r with
  | Write_request _ _ => True
  | Read_request a => a ∈ c \/ exists q y, (q, Write_request a y) ∈ fl
  end -> flows c (fl ++ [(ptr, r)]).
Proof.
  induction fl as [|[q [b y|b]] fl IH]; intros c Hf Hr; cbn in *.
  - destruct r; [done|]. destruct Hr as [?|(q & y & Hin)]; [done|inversion Hin].
  - apply IH; [done|]. destruct r as [|a]; [done|].
    destruct Hr as [Hr|(q' & z & [Heq|Hin]%elem_of_cons)].
    + left. by right.
    + injection Heq as -> <- ->. left. by left.
    + right. by exists q', z.
  - destruct Hf as [Hb Hf]. split; [done|]. apply IH; [done|]. destruct r as [|a]; [done|].
    destruct Hr as [Hr|(q' & z & [Heq|Hin]%elem_of_cons)]; [by left|done|]. right. by exists q', z.
Qed.

Definition sent_request (w : platform) (ptr : Z) (r : request) : platform :=
  mk_platform w.(bus_targets) (w.(request_fifo) ++ [(ptr, r)])
    (w.(sent) ++ [r])
    (w.(history) ++ match r with Write_request a x => [(a, x)] | Read_request _ => [] end) w.(committed).

Lemma ok_sent w h ptr r p k :
  ok w h -> h !! ptr = Some (p, k) -> is_request p r -> valid r ->
  match r with Write_request _ _ => True | Read_request a => exists x, (a, x) ∈ w.(history) end ->
  ok (sent_request w ptr r) h.
Proof.
  intros [Hm Hwords Hflows Hhist Hwrites Hreqs] Hp Hr Hv Hpre.
  split; cbn [sent_request committed request_fifo history].
  - done.
  - intros a Ha Hc. apply elem_of_app. left. by apply Hwords.
  - apply flows_snoc; [done|]. destruct r as [|a]; [done|]. destruct Hpre as (x & Hx). by eapply Hhist.
  - intros a x [Hin|Hin]%elem_of_app.
    + destruct (Hhist a x Hin) as [?|(q & y & Hq)]; [by left|]. right. exists q, y. apply elem_of_app. by left.
    + destruct r as [b y|b]; [|inversion Hin]. apply list_elem_of_singleton in Hin as [= -> ->].
      right. exists ptr, y. apply elem_of_app. right. by left.
  - intros q a x [Hin|Hin]%elem_of_app; apply elem_of_app.
    + left. by apply (Hwrites q).
    + right. apply list_elem_of_singleton in Hin as [= -> <-]. by left.
  - intros q r' [Hin|Hin]%elem_of_app; [by apply Hreqs|].
    apply list_elem_of_singleton in Hin as [= -> ->]. split; [done|]. by exists p, k.
Qed.

Lemma request_of_is p r : is_request p r -> request_of p = Ok r.
Proof.
  intros (_ & _ & (d & Hd & Hl & _) & Hr). unfold request_of. rewrite is_write_cmd. destruct r as [a x|a].
  - destruct Hr as (-> & -> & ->). done.
  - destruct Hr as (-> & ->). unfold data_word. rewrite (data_read_Ok p d) by (done || lia). done.
Qed.

(** The two ends of the FIFOs keep what the traffic generator relies on. *)
Notation history_of := (fun (_ : unit) w a x => (a, x) ∈ w.(history)).
Notation ok_of := (fun (_ : unit) w h => ok w h).

Lemma request_out_sends n ptr p k r s (Q : unit -> unit -> sys platform -> Prop) :
  ok s.(world) s.(txns) -> accounted n Wait_static s ->
  s.(txns) !! ptr = Some (p, k) -> is_request p r -> valid r ->
  match r with
  | Write_request a x => conforms a x
  | Read_request a => exists x, (a, x) ∈ history s.(world)
  end ->
  (forall γ s', changes history_of ok_of (ptr :: (request_fifo s.(world)).*1) tt s γ s' ->
     request_fifo s'.(world) = request_fifo s.(world) ++ [(ptr, r)] ->
     sent s'.(world) = sent s.(world) ++ [r] ->
     match r with Write_request a x => (a, x) ∈ history s'.(world) | Read_request _ => True end ->
     Q γ tt s') ->
  plain rely (accounted n) unit tt (request_out ptr s) Q.
Proof.
  intros Hok Hacc Hp Hr Hv Hpre HQ. eapply wp_step.
  { unfold get_txn. rewrite Hp, bind_Ok. rewrite (request_of_is p r) by done. reflexivity. }
  apply HQ; cbn [world request_fifo sent]; try done.
  2:{ destruct r; [|done]. cbn. apply elem_of_app. right. by left. }
  split; cbn [tg txns world history]; try done.
  + apply (ok_sent (world s) (txns s) ptr r p k); [done..|]. by destruct r.
  + intros a x He. apply elem_of_app. by left.
  + intros Hc a x [Hin|Hin]%elem_of_app; [by apply Hc|].
    destruct r as [b y|b]; [|inversion Hin]. by apply list_elem_of_singleton in Hin as [= -> ->].
  + intros q p' m Hq Hb. by exists p'.
Qed.

Lemma response_in_reads id n ptr r rest s (Q : unit -> Z -> sys platform -> Prop) :
  ok s.(world) s.(txns) -> accounted n Wait_static s ->
  request_fifo s.(world) = (ptr, r) :: rest -> NoDup (request_fifo s.(world)).*1 ->
  (forall γ s' p k, changes history_of ok_of (request_fifo s.(world)).*1 tt s γ s' ->
     request_fifo s'.(world) = rest ->
     sent s'.(world) = sent s.(world) -> s'.(txns) !! ptr = Some (p, k) ->
     answers (fun a x => (a, x) ∈ history s'.(world)) r p -> Q γ ptr s') ->
  plain rely (accounted n) Z tt (response_in id s) Q.
Proof.
  intros Hok Hacc Hfifo Hnd HQ.
  destruct (ok_requests _ _ Hok ptr r) as (Hv & p & k & Hp & Hr); [rewrite Hfifo; by left|].
  destruct (serve_request id _ _ ptr r rest p k Hok Hfifo Hnd Hp Hr Hv)
    as (w2 & p' & t' & Hbus & Hst & Hbuf & Hans & Hf2 & Hs2 & Hh2 & Hok2).
  unfold plain, response_in. apply wp_bind. cbn [wp p_get]. rewrite Hfifo. apply wp_bind. cbn [p_lift wp].
  apply wp_bind. unfold initiator_body. apply wp_bind.
  eapply wp_step; [cbv zeta; rewrite Hfifo; reflexivity|]. apply wp_bind.
  eapply wp_step.
  { unfold get_txn. cbn [txns world]. rewrite Hp, bind_Ok. fold (taken (world s) r rest).
    rewrite Hbus, bind_Ok. reflexivity. }
  cbn beta iota. rewrite Hst, bool_decide_eq_true_2 by done. unfold put_txn, upd_txns. cbn [tg txns world].
  apply wp_bind, wp_wait; [exact Hacc|]. intros s3 (Htg & Htx & Hf3 & Hs3 & Hok3 & Hgrow & Hcf).
  cbn [tg txns world wp mret proc_ret] in *. rewrite Hh2 in Hgrow, Hcf.
  apply (HQ tt s3 p' k).
  + split; try done.
    * by apply Hok3.
    * intros a x. apply Hgrow.
    * intros q Hq. rewrite Htx, lookup_insert_ne; [done|]. intros ->. apply Hq. rewrite Hfifo. by left.
    * intros q p1 n1 Hq Hb1. rewrite Htx. destruct (decide (q = ptr)) as [-> | Hne].
      -- exists p'. rewrite lookup_insert_eq. by simplify_eq.
      -- exists p1. by rewrite lookup_insert_ne.
  + by rewrite Hf3.
  + by rewrite Hs3.
  + rewrite Htx. apply lookup_insert_eq.
  + destruct Hans as [? Hans]. split; [done|]. destruct r; [done|].
    destruct Hans as (? & ? & x & ? & ?). split; [done|]. split; [done|]. exists x.
    split; [done|]. by apply Hgrow.
Qed.

(** The example's platform keeps what the traffic generator relies on. *)
Lemma lt_platform id n plan : Forall valid plan ->
  Platform (plain rely (accounted n)) (fun p => p) request_out (response_in id)
    (fun _ => request_fifo) (fun _ => sent) history_of plan ok_of n.
Proof.
  intros Hplan. split.
  - apply _.
  - done.
  - intros [] w h ptr t [Hm Hwords Hflows Hhist Hwrites Hreqs] Hni. split; try done.
    intros q r Hin. destruct (Hreqs q r Hin) as (? & p & k & ? & ?). split; [done|].
    exists p, k. split; [|done]. rewrite lookup_insert_ne; [done|]. intros ->.
    apply Hni, list_elem_of_fmap. by exists (q, r).
  - intros [] ptr p k r s Q Hok Hacc Hp Hr Hpre _ _ Hh HQ. eapply request_out_sends; try done.
    destruct Hpre as [rest ->]. rewrite !Forall_app, Forall_singleton in Hplan. apply Hplan.
  - intros [] ptr r rest s Q Hok Hacc Hfl Hnd _ HQ. by eapply response_in_reads.
Qed.

Lemma new_platform_ok w h : new_platform = Ok w -> ok w h /\ w.(request_fifo) = [] /\ w.(sent) = [] /\ w.(history) = [].
Proof.
  unfold new_platform. intros H. apply bind_Ok_inv in H as (t & Ht & [= <-]). split; [|done].
  apply new_targets_ok in Ht. split; cbn; try done.
  - intros a _ Hin. inversion Hin.
  - intros a x Hin. inversion Hin.
  - intros ptr a x Hin. inversion Hin.
  - intros ptr r Hin. inversion Hin.
Qed.

(** The requests of the example are to the sixteen words of each target. *)
Lemma example_requests_valid r :
  r ∈ pass_requests 0 0 ++ pass_requests 1 0x10000000 -> valid r.
Proof.
  assert (Hw : forall i j port, port = 0 \/ port = 1 -> 0 <= j < 16 ->
    valid (Write_request (port * 2 ^ 28 + 4 * j) (written_data i (port * 2 ^ 28 + 4 * j))) /\
    valid (Read_request (port * 2 ^ 28 + 4 * j))).
  { intros i j port Hp Hj. assert (word_address (port * 2 ^ 28 + 4 * j)) by (by exists port, j).
    pose proof (written_data_range i (port * 2 ^ 28 + 4 * j)). done. }
  unfold pass_requests. rewrite !elem_of_app, !list_elem_of_fmap.
  intros [[(j & -> & Hj)|(j & -> & Hj)]|[(j & -> & Hj)|(j & -> & Hj)]]; apply elem_of_seqZ in Hj.
  - apply (Hw 0 j 0); lia.
  - apply (Hw 0 j 0); lia.
  - apply (Hw 1 j 1); lia.
  - apply (Hw 1 j 1); lia.
Qed.

(** The first initiator of the example, on the example's bus and targets. *)
Lemma traffic_completes_witness :
  exists w, new_platform = Ok w /\
    wp rely (accounted 4)
      (traffic_generator_thread (fun p => p) request_out (response_in 0) (fun _ => 0) 5
         (new_initiator_top 101 0 0x10000000 (fun _ => [0; 0; 0; 0]) w))
      (fun _ s => s.(world).(sent) = pass_requests 0 0 ++ pass_requests 1 0x10000000 /\
         s.(tg).(m_transaction_queue) ≡ₚ seqZ 0 4 /\ s.(tg).(m_active_txn_count) = 0).
Proof.
  destruct new_platform as [w|f] eqn:Hw; [|discriminate Hw].
  exists w. split; [reflexivity|].
  destruct (new_platform_ok w ∅ Hw) as (_ & Hf & Hs & Hh).
  refine (traffic_completes (fun p => p) request_out (response_in 0) (fun _ => 0)
    (fun _ => request_fifo) (fun _ => sent) history_of ok_of rely 4 101 0 0x10000000
    (fun _ => [0; 0; 0; 0]) 5 w (lt_platform 0 4 _ _) _ _ _ _ _ _ _ Hf Hs _ _).
  - apply Forall_forall, example_requests_valid.
  - lia.
  - lia.
  - intros i. split; [cbn; lia|solve_bytes].
  - lia.
  - lia.
  - lia.
  - lia.
  - intros a x. rewrite Hh. intros Hin. inversion Hin.
  - by apply new_platform_ok.
Defined.
