(* ===== verification/LtSystem.v ===== *)
(** * The loosely-timed example, composed (lt/systemc/src/top.cpp)

    Both initiators of the example at once: two traffic generators and two
    initiator threads, each pair connected by a request FIFO and a response
    FIFO (lt/initiator_top.cpp), above one bus and both targets.  The four
    processes are the code of TrafficGenerator, focused on the [initiator_top]
    they belong to; they form a pool (Scheduler), and [step] is the simulation:
    it resumes any process that may run, lets a FIFO update, lets Renode make
    an access, or, when no process may run and no update is due, advances time.

    What the steps assume of SystemC: what is written to an [sc_fifo] can be
    read, and the room of what is read can be written, once the FIFO has been
    updated; a FIFO keeps the order, a reader waits while nothing can be read
    and a writer while there is no room.  Since each end of each FIFO belongs to
    one process, a reader that is resumed finds something to read and a writer
    room.  Nothing is assumed of the order in which processes run and FIFOs
    update at one time.  Through the third port of the bus Renode makes any
    accesses, at any times; they are given as a list. *)

From stdpp Require Import base numbers list gmap relations.
From S2P Require Import Prelude Tlm Kernel Scheduler LtMemory SimpleBusLT TrafficGenerator LtTargets.
#[local] Open Scope Z_scope.

(** ** Definitions *)

(** *** sc_fifo *)

Record sc_fifo : Type := mk_fifo {
  readable : list Z;      (* can be read *)
  num_read : Z;           (* read since the last update *)
  written : list Z;       (* written since the last update *)
}.

Definition new_fifo : sc_fifo := mk_fifo [] 0 [].
Definition contents (f : sc_fifo) : list Z := f.(readable) ++ f.(written).
Definition num_available (f : sc_fifo) : Z := Z.of_nat (length f.(readable)).
Definition num_free (size : Z) (f : sc_fifo) : Z :=
  size - (num_available f + f.(num_read)) - Z.of_nat (length f.(written)).
Definition push (v : Z) (f : sc_fifo) : sc_fifo :=
  mk_fifo f.(readable) f.(num_read) (f.(written) ++ [v]).
Definition pop (f : sc_fifo) : res (sc_fifo * Z) :=
  match f.(readable) with
  | [] => Err Undefined_behaviour
  | v :: vs => Ok (mk_fifo vs (f.(num_read) + 1) f.(written), v)
  end.
Definition update (f : sc_fifo) : sc_fifo := mk_fifo (contents f) 0 [].
Definition update_requested (f : sc_fifo) : bool :=
  (0 <? f.(num_read)) || negb (bool_decide (f.(written) = [])).

(** *** The example *)

(** [initiator_top], with the transactions of its traffic generator. *)
Record initiator_top : Type := mk_initiator_top {
  m_traffic_gen : traffic_generator;
  m_transactions : store_t;
  m_request_fifo : sc_fifo;
  m_response_fifo : sc_fifo;
}.

Definition fifo_of (f : fifo_name) (x : initiator_top) : sc_fifo :=
  match f with Request_fifo => x.(m_request_fifo) | Response_fifo => x.(m_response_fifo) end.
Definition set_fifo (f : fifo_name) (q : sc_fifo) (x : initiator_top) : initiator_top :=
  match f with
  | Request_fifo => mk_initiator_top x.(m_traffic_gen) x.(m_transactions) q x.(m_response_fifo)
  | Response_fifo => mk_initiator_top x.(m_traffic_gen) x.(m_transactions) x.(m_request_fifo) q
  end.

Record top : Type := mk_top {
  time : sc_time;                       (* sc_time_stamp() *)
  m_targets : targets;                  (* behind m_bus *)
  m_initiator_1 : initiator_top;
  m_initiator_2 : initiator_top;
  m_renode : list payload;              (* accesses that Renode is going to make *)
}.

Inductive index : Type := Initiator_1 | Initiator_2.

Definition initiator (i : index) (s : top) : initiator_top :=
  match i with Initiator_1 => s.(m_initiator_1) | Initiator_2 => s.(m_initiator_2) end.
Definition set_initiator (i : index) (x : initiator_top) (s : top) : top :=
  match i with
  | Initiator_1 => mk_top s.(time) s.(m_targets) x s.(m_initiator_2) s.(m_renode)
  | Initiator_2 => mk_top s.(time) s.(m_targets) s.(m_initiator_1) x s.(m_renode)
  end.
Definition set_targets (t : targets) (s : top) : top :=
  mk_top s.(time) t s.(m_initiator_1) s.(m_initiator_2) s.(m_renode).
Definition set_time (t : sc_time) (s : top) : top :=
  mk_top t s.(m_targets) s.(m_initiator_1) s.(m_initiator_2) s.(m_renode).
Definition set_renode (l : list payload) (s : top) : top :=
  mk_top s.(time) s.(m_targets) s.(m_initiator_1) s.(m_initiator_2) l.

(** [m_initiator_1("m_initiator_1", 101, 0x0, 0x10000000)], bound to
    [m_bus.target_socket[0]], and likewise the second. *)
Definition initiator_ID (i : index) : Z := match i with Initiator_1 => 101 | Initiator_2 => 102 end.
Definition base_address_1 : Z := 0x0000000000000000.
Definition base_address_2 : Z := 0x0000000010000000.
Definition socket_id (i : index) : Z := match i with Initiator_1 => 0 | Initiator_2 => 1 end.

(** [m_renode_bridge.initiator_socket(m_bus.target_socket[2])] *)
Definition renode_socket_id : Z := 2.

(** Renode makes its next access. *)
Definition access_of_renode (p : payload) (rest : list payload) (s : top) : res top :=
  '(t, _, _) ← bus_b_transport renode_socket_id s.(m_targets) p SC_ZERO_TIME;
  Ok (set_renode rest (set_targets t s)).

(** *** The processes *)

(** The events of the FIFOs of each initiator. *)
Definition top_event : Type := index * event.

Definition tag (i : index) (w : wait_on event) : wait_on top_event :=
  match w with
  | Wait_time t => Wait_time t
  | Wait_event e => Wait_event (i, e)
  | Wait_static => Wait_static
  end.

(** An [initiator_top] and the rest of the example. *)
Definition enter (i : index) (s : top) : sys top :=
  mk_sys (initiator i s).(m_traffic_gen) (initiator i s).(m_transactions) s.
Definition leave (i : index) (s : sys top) : top :=
  let x := initiator i s.(world) in
  set_initiator i (mk_initiator_top s.(tg) s.(txns) x.(m_request_fifo) x.(m_response_fifo)) s.(world).

Definition set_world (w : top) (s : sys top) : sys top := mk_sys s.(tg) s.(txns) w.

Section System.
(** The size of the FIFOs; the reset of a payload; the fuel of the drain loop;
    the iterations of the initiator threads. *)
Context (size : Z) (payload_reset : payload -> payload) (fuel iterations : nat).

(** [write] and [read] of FIFO [f] of initiator [i]. *)
Definition fifo_write (i : index) (f : fifo_name) (v : Z) : proc event (sys top) unit :=
  s ← p_get;
  (if num_free size (fifo_of f (initiator i s.(world))) <=? 0
   then p_wait (Wait_event (data_read_event f)) else mret tt);;
  p_modify (fun s =>
    let x := initiator i s.(world) in
    set_world (set_initiator i (set_fifo f (push v (fifo_of f x)) x) s.(world)) s).

Definition fifo_read (i : index) (f : fifo_name) : proc event (sys top) Z :=
  s ← p_get;
  (if num_available (fifo_of f (initiator i s.(world))) <=? 0
   then p_wait (Wait_event (data_written_event f)) else mret tt);;
  p_step (fun s =>
    let x := initiator i s.(world) in
    '(q, v) ← pop (fifo_of f x);
    Ok (set_world (set_initiator i (set_fifo f q x) s.(world)) s, v)).

Definition run_traffic_generator (i : index) : proc event (sys top) unit :=
  traffic_generator_thread payload_reset (fifo_write i Request_fifo) (fifo_read i Response_fifo)
    (fun w => num_available (initiator i w).(m_response_fifo)) fuel.

Definition run_initiator (i : index) : proc event (sys top) unit :=
  initiator_thread (fifo_read i Request_fifo) (fifo_write i Response_fifo)
    (on_part m_targets set_targets (bus_b_transport (socket_id i))) iterations.

Definition on_initiator {A} (i : index) (m : proc event (sys top) A) : proc top_event top A :=
  focus (tag i) (enter i) (leave i) m.

(** *** The simulation *)

Definition config : Type := pool top_event top.

(** [initiator_top::initiator_top], with the uninitialised bytes of the
    buffers. *)
Definition new_initiator (i : index) (garbage : Z -> list Z) : initiator_top :=
  let s := new_initiator_top (initiator_ID i) base_address_1 base_address_2 garbage tt in
  mk_initiator_top s.(tg) s.(txns) new_fifo new_fifo.

Definition new_top (garbage : index -> Z -> list Z) (accesses : list payload) : res config :=
  t ← new_targets;
  let s := mk_top SC_ZERO_TIME t (new_initiator Initiator_1 (garbage Initiator_1))
             (new_initiator Initiator_2 (garbage Initiator_2)) accesses in
  Ok (mk_pool s [boot (on_initiator Initiator_1 (run_traffic_generator Initiator_1)) s;
                 boot (on_initiator Initiator_1 (run_initiator Initiator_1)) s;
                 boot (on_initiator Initiator_2 (run_traffic_generator Initiator_2)) s;
                 boot (on_initiator Initiator_2 (run_initiator Initiator_2)) s]).

Definition generator_process (i : index) : nat := match i with Initiator_1 => 0 | Initiator_2 => 2 end.
Definition initiator_process (i : index) : nat := match i with Initiator_1 => 1 | Initiator_2 => 3 end.

(** What resumes a process: the elapsed time, data in a FIFO it reads, room in
    a FIFO it writes. *)
Definition ready (n : nat) (w : wait_on top_event) (s0 s : top) : Prop :=
  match w with
  | Wait_time t => s.(time) = s0.(time) + t
  | Wait_event (i, data_written_event f) => 0 < num_available (fifo_of f (initiator i s))
  | Wait_event (i, data_read_event f) => 0 < num_free size (fifo_of f (initiator i s))
  | Wait_static => False
  end.

Definition update_fifo (i : index) (f : fifo_name) (s : top) : top :=
  set_initiator i (set_fifo f (update (fifo_of f (initiator i s))) (initiator i s)) s.

Inductive step (c : config) : res config -> Prop :=
| step_resume n r : resume ready c n r -> step c r
| step_update i f :
    update_requested (fifo_of f (initiator i c.(shared))) = true ->
    step c (Ok (mk_pool (update_fifo i f c.(shared)) c.(threads)))
| step_renode p rest :
    c.(shared).(m_renode) = p :: rest ->
    step c (s ← access_of_renode p rest c.(shared); Ok (mk_pool s c.(threads)))
| step_elapse t :
    c.(shared).(time) < t -> (forall n, ~ is_ready ready c n) ->
    (forall i f, update_requested (fifo_of f (initiator i c.(shared))) = false) ->
    due time c t -> (forall t', due time c t' -> t <= t') ->
    step c (Ok (mk_pool (set_time t c.(shared)) c.(threads))).

Definition rstep : res config -> res config -> Prop := steps_to step.
End System.
