(* ===== verification/LtInvariant.v ===== *)
(** * The invariant of the loosely-timed example

    What every process of LtSystem may count on: the labels of the pool's
    logic, the invariant over them and the state, and what the operations of
    the generators, the initiators and the FIFOs do to it.

    Both generators write the same words, so each may read what the other
    wrote; that is harmless because the words are a function of the address
    ([plan_write_unique]). *)

From stdpp Require Import base numbers list gmap relations.
From S2P Require Import Prelude Tlm Kernel Scheduler LtMemory SimpleBusLT TrafficGenerator LtTargets LtSystem.
#[local] Open Scope Z_scope.

(** ** Definitions *)

(** What each generator sends. *)
Definition plan : list request := pass_requests 0 base_address_1 ++ pass_requests 1 base_address_2.

(** Every read of [l] comes after a write to its address, at one of [c] if not
    in [l]. *)
Fixpoint ordered (c : list Z) (l : list request) : bool :=
  match l with
  | [] => true
  | Write_request a _ :: l => ordered (a :: c) l
  | Read_request a :: l => bool_decide (a ∈ c) && ordered c l
  end.

(** *** Labels *)

(** A suspended generator: its state and transactions, what it has sent, and
    which of that is on its way. *)
Record generator_label : Type := mk_generator_label {
  g_tg : traffic_generator;
  g_store : store_t;
  g_sent : list request;
  g_flight : list (Z * request);
}.

(** A suspended initiator: waiting for a request, or having served one, and
    the iterations left after that. *)
Inductive initiator_label : Type := Idle (m : nat) | Serving (ptr : Z) (m : nat).

Definition serving (l : initiator_label) : list Z :=
  match l with Idle _ => [] | Serving ptr _ => [ptr] end.
Definition remaining (l : initiator_label) : nat := match l with Idle m | Serving _ m => m end.

Inductive label : Type := Generator (i : index) (g : generator_label) | Server (i : index) (l : initiator_label).

(** *** The invariant *)

Definition wrote (sent : list request) (a x : Z) : Prop := Write_request a x ∈ sent.

(** Of the requests [sent], [D] have been served and [T] not; of those served,
    [A] wait for the generator to read the response. *)
Record parts (n : nat) (sent : list request) (flight : list (Z * request)) (l : initiator_label)
  (h : store_t) (rq rp : sc_fifo) (t : targets) (D : list request) (A T : list (Z * request)) : Prop := {
  p_sent : sent = D ++ T.*2;
  p_flight : flight = A ++ T;
  p_answered : A.*1 = contents rp ++ serving l;
  p_todo : T.*1 = contents rq;
  p_count : (length D + remaining l = n)%nat;
  p_words : forall a x, Write_request a x ∈ D -> word_at t a = x;
  p_answers : forall ptr r, (ptr, r) ∈ A ->
    exists p k, h !! ptr = Some (p, k) /\ answers (wrote sent) r p;
  p_requests : forall ptr r, (ptr, r) ∈ T ->
    exists p k, h !! ptr = Some (p, k) /\ is_request p r;
}.

Record flying (n : nat) (sent : list request) (flight : list (Z * request)) (l : initiator_label)
  (h : store_t) (rq rp : sc_fifo) (t : targets) : Prop := {
  fl_plan : sent `prefix_of` plan;
  fl_nodup : NoDup flight.*1;
  fl_length : (length flight <= 4)%nat;
  fl_parts : exists D A T, parts n sent flight l h rq rp t D A T;
}.

(** One generator and its initiator, of [n] iterations. *)
Record half (n : nat) (g : generator_label) (l : initiator_label) (x : initiator_top) (t : targets) :
  Prop := {
  h_tg : x.(m_traffic_gen) = g.(g_tg);
  h_pool : forall ptr, ptr ∉ g.(g_flight).*1 -> x.(m_transactions) !! ptr = g.(g_store) !! ptr;
  h_buffers : forall ptr p k, g.(g_store) !! ptr = Some (p, k) -> buffer_ok p ->
    exists p', x.(m_transactions) !! ptr = Some (p', k) /\ buffer_ok p';
  h_flying : flying n g.(g_sent) g.(g_flight) l x.(m_transactions) x.(m_request_fifo)
    x.(m_response_fifo) t;
}.

Definition labelled (ls : list label) (i : index) (g : generator_label) (l : initiator_label) : Prop :=
  ls !! generator_process i = Some (Generator i g) /\ ls !! initiator_process i = Some (Server i l).

Definition Inv (n : nat) (ls : list label) (s : top) : Prop :=
  targets_ok s.(m_targets) /\ length ls = 4%nat /\
  forall i, exists g l, labelled ls i g l /\ half n g l (initiator i s) s.(m_targets).

(** Neither does time advance nor Renode make an access while a process runs. *)
Definition unhurried (s : top) : sc_time * list payload := (s.(time), s.(m_renode)).
Definition guar (s s' : top) : Prop := unhurried s' = unhurried s.

Definition waits (lb : label) (w : wait_on top_event) (_ : top) : Prop :=
  match lb with
  | Generator i g =>
      w = Wait_time 0 \/
      (w = Wait_event (i, data_read_event Request_fifo) /\ (length g.(g_flight) < 4)%nat) \/
      (w = Wait_event (i, data_written_event Response_fifo) /\ g.(g_flight) <> [])
  | Server i (Idle _) => w = Wait_time 0 \/ w = Wait_event (i, data_written_event Request_fifo)
  | Server i (Serving _ _) =>
      (exists t, w = Wait_time t /\ 0 <= t) \/ w = Wait_event (i, data_read_event Response_fifo)
  end.

(** A generator that is done has sent everything and has its pool back; an
    initiator is never done. *)
Definition final (lb : label) : Prop :=
  match lb with
  | Generator _ g =>
      g.(g_flight) = [] /\ g.(g_sent) = plan /\
      g.(g_tg).(m_transaction_queue) ≡ₚ seqZ 0 4 /\ g.(g_tg).(m_active_txn_count) = 0
  | Server _ _ => False
  end.

(** ** Lemmas *)

(** *** The requests *)

Lemma plan_length : length plan = 64%nat.
Proof. reflexivity. Qed.

(** What is written, by address. *)
Definition word_value (a : Z) : Z := written_data (a / 2 ^ 28) a.

Definition request_address (r : request) : Z :=
  match r with Write_request a _ | Read_request a => a end.

Lemma plan_requests r : r ∈ plan -> word_address (request_address r) /\
  match r with Write_request a x => x = word_value a | Read_request _ => True end.
Proof.
  unfold plan, pass_requests. rewrite !elem_of_app, !list_elem_of_fmap.
  assert (Hw : forall i j, i = 0 \/ i = 1 -> 0 <= j < 16 ->
    word_address (i * 2 ^ 28 + 4 * j) /\
    written_data i (i * 2 ^ 28 + 4 * j) = word_value (i * 2 ^ 28 + 4 * j)).
  { intros i j Hi Hj. split; [by exists i, j|]. unfold word_value.
    replace ((i * 2 ^ 28 + 4 * j) / 2 ^ 28) with i; [done|].
    rewrite Z.add_comm, Z.div_add by lia. rewrite Z.div_small; lia. }
  intros [[(j & -> & Hj)|(j & -> & Hj)]|[(j & -> & Hj)|(j & -> & Hj)]]; apply elem_of_seqZ in Hj.
  - by apply (Hw 0 j); [left|lia].
  - by split; [apply (Hw 0 j); [left|lia]|].
  - by apply (Hw 1 j); [right|lia].
  - by split; [apply (Hw 1 j); [right|lia]|].
Qed.

Lemma plan_write_unique a x y : Write_request a x ∈ plan -> Write_request a y ∈ plan -> x = y.
Proof. intros [_ ->]%plan_requests [_ ->]%plan_requests. done. Qed.

Lemma plan_conforms a x : Write_request a x ∈ plan -> conforms a x.
Proof. intros [_ ->]%plan_requests. apply written_data_conforms. Qed.

Lemma ordered_app l : forall c D a T, ordered c l = true -> l = D ++ Read_request a :: T ->
  a ∈ c \/ exists x, Write_request a x ∈ D.
Proof.
  induction l as [|r l IH]; intros c D a T Ho He; [by destruct D|]. destruct D as [|d D].
  - injection He as -> ->. cbn in Ho. apply andb_true_iff in Ho as [Ho _].
    left. by apply bool_decide_eq_true in Ho.
  - injection He as -> ->. destruct d as [b y|b]; cbn in Ho.
    + destruct (IH _ D a T Ho eq_refl) as [[-> | Hin]%elem_of_cons|(x & Hx)].
      * right. exists y. by left.
      * by left.
      * right. exists x. by right.
    + apply andb_true_iff in Ho as [_ Ho]. destruct (IH _ D a T Ho eq_refl) as [Hin|(x & Hx)]; [by left|].
      right. exists x. by right.
Qed.

Lemma plan_ordered D a T : plan = D ++ Read_request a :: T -> exists x, Write_request a x ∈ D.
Proof.
  intros H. assert (Ho : ordered [] plan = true) by by vm_compute.
  destruct (ordered_app plan [] D a T Ho H) as [Hin|Hx]; [by apply elem_of_nil in Hin|done].
Qed.

(** *** What the operations do to the requests of one initiator *)

Lemma answers_mono h h' r p : (forall a x, h a x -> h' a x) -> answers h r p -> answers h' r p.
Proof.
  intros Hh [Hs Hr]. split; [done|]. destruct r as [|a]; [done|].
  destruct Hr as (Hc & Ha & x & Hd & Hx). split; [done|]. split; [done|]. exists x. auto.
Qed.

Lemma pop_Ok q q' v : pop q = Ok (q', v) -> contents q = v :: contents q'.
Proof. unfold pop, contents. destruct (readable q) as [|v' vs]; [done|]. by intros [= <- <-]. Qed.

Lemma contents_push v q : contents (push v q) = contents q ++ [v].
Proof. unfold contents. cbn. by rewrite app_assoc. Qed.

Lemma contents_update q : contents (update q) = contents q.
Proof. unfold contents. cbn. by rewrite app_nil_r. Qed.

(** The generator sends a request. *)
Lemma flying_sent n sent flight l h rq rp t ptr r p k :
  flying n sent flight l h rq rp t -> h !! ptr = Some (p, k) -> is_request p r ->
  (sent ++ [r]) `prefix_of` plan -> ptr ∉ flight.*1 -> (length flight < 4)%nat ->
  flying n (sent ++ [r]) (flight ++ [(ptr, r)]) l h (push ptr rq) rp t.
Proof.
  intros [_ Hnd _ (D & A & T & [-> -> Ha Ht Hc Hw Hans Hreq])] Hp Hr Hplan Hni Hl. split; [done|..].
  - rewrite fmap_app. apply NoDup_app. split; [done|]. split; [|apply NoDup_singleton].
    by intros q Hq ->%list_elem_of_singleton.
  - rewrite length_app. cbn. lia.
  - exists D, A, (T ++ [(ptr, r)]). split; [by rewrite fmap_app, app_assoc|by rewrite app_assoc|done| |done|done| |].
    + by rewrite fmap_app, contents_push, Ht.
    + intros q r' Hin. destruct (Hans q r' Hin) as (p' & k' & Hp' & Hr'). exists p', k'. split; [done|].
      eapply answers_mono; [|exact Hr']. intros a x Hx. apply elem_of_app. by left.
    + intros q r' [Hin|[= -> ->]%list_elem_of_singleton]%elem_of_app; [by apply Hreq|]. eauto.
Qed.

(** ... and reads the response to the first that is on its way. *)
Lemma flying_received n sent ptr r rest l h rq rp rp' t v :
  flying n sent ((ptr, r) :: rest) l h rq rp t -> pop rp = Ok (rp', v) ->
  v = ptr /\ flying n sent rest l h rq rp' t /\
  exists p k, h !! ptr = Some (p, k) /\ answers (wrote sent) r p.
Proof.
  intros [Hplan Hnd Hl (D & A & T & [Hs Hf Ha Ht Hc Hw Hans Hreq])] Hpop%pop_Ok.
  rewrite Hpop in Ha. destruct A as [|[v' r'] A]; [done|]. injection Ha as -> Ha. injection Hf as <- <- ->.
  split; [done|]. split.
  - apply NoDup_cons in Hnd as [_ Hnd]. cbn in Hl. split; [done|done|lia|].
    exists D, A, T. split; try done. intros q r' Hin. apply Hans. by right.
  - apply Hans. by left.
Qed.

(** A transaction that is not on its way is the generator's own. *)
Lemma flying_frame n sent flight l h rq rp t ptr x :
  flying n sent flight l h rq rp t -> ptr ∉ flight.*1 -> flying n sent flight l (<[ptr := x]> h) rq rp t.
Proof.
  intros [Hplan Hnd Hl (D & A & T & [Hs Hf Ha Ht Hc Hw Hans Hreq])] Hni. split; [done..|].
  exists D, A, T. rewrite Hf, fmap_app in Hni. apply not_elem_of_app in Hni as [HA HT].
  assert (Hne : forall l q (r : request), ptr ∉ l.*1 -> (q, r) ∈ l -> <[ptr := x]> h !! q = h !! q).
  { intros l0 q r Hni Hin. apply lookup_insert_ne. intros ->. apply Hni, list_elem_of_fmap. by exists (q, r). }
  split; try done.
  - intros q r Hin. rewrite (Hne A q r HA Hin). by apply Hans.
  - intros q r Hin. rewrite (Hne T q r HT Hin). by apply Hreq.
Qed.

(** The targets have changed to what was already so for the words written. *)
Definition keeps (t t' : targets) : Prop :=
  forall a x, Write_request a x ∈ plan -> word_at t a = x -> word_at t' a = x.

Lemma flying_served_of_plan n sent flight l h rq rp t D A T r :
  flying n sent flight l h rq rp t -> parts n sent flight l h rq rp t D A T -> r ∈ D -> r ∈ plan.
Proof.
  intros [[k ->] _ _ _] [-> _ _ _ _ _ _ _] Hr. rewrite !elem_of_app. by left; left.
Qed.

Lemma flying_keeps n sent flight l h rq rp t t' :
  flying n sent flight l h rq rp t -> keeps t t' -> flying n sent flight l h rq rp t'.
Proof.
  intros Hfl Hk. pose proof Hfl as [? ? ? (D & A & T & Hp)]. split; [done..|]. exists D, A, T.
  pose proof Hp as [? ? ? ? ? Hw ? ?]. split; try done. intros a x Hx.
  apply Hk; [|by apply Hw]. by eapply flying_served_of_plan.
Qed.

(** A FIFO updates. *)
Lemma flying_contents n sent flight l h rq rp rq' rp' t :
  contents rq' = contents rq -> contents rp' = contents rp ->
  flying n sent flight l h rq rp t -> flying n sent flight l h rq' rp' t.
Proof.
  intros Hq Hp [? ? ? (D & A & T & [? ? ? ? ? ? ? ?])]. split; [done..|]. exists D, A, T.
  split; try done; congruence.
Qed.

(** The initiator hands a response over. *)
Lemma flying_delivered n sent flight ptr m h rq rp t :
  flying n sent flight (Serving ptr m) h rq rp t -> flying n sent flight (Idle m) h rq (push ptr rp) t.
Proof.
  intros [? ? ? (D & A & T & [? ? Ha ? ? ? ? ?])]. split; [done..|]. exists D, A, T. split; try done.
  by rewrite contents_push, app_nil_r.
Qed.

(** The access of one request: it is answered with a value that was written,
    and the words of the plan keep their values. *)
Lemma access_request id t r p sent :
  targets_ok t -> r ∈ plan -> is_request p r ->
  match r with Read_request a => wrote sent a (word_at t a) | Write_request _ _ => True end ->
  exists t' p' d, bus_b_transport id t p SC_ZERO_TIME = Ok (t', p', d) /\ 0 <= d /\
    targets_ok t' /\ keeps t t' /\ buffer_ok p' /\ answers (wrote sent) r p' /\
    match r with Write_request a x => word_at t' a = x | Read_request _ => True end.
Proof.
  intros Ht Hplan Hr Hread. destruct (plan_requests r Hplan) as [Ha _]. destruct r as [a x|a]; cbn in Ha.
  - destruct (exec_write t id p a Ha Ht x Hr) as (t' & p' & d & Hb & Hd & Hs & Hc & Hbuf & Ht' & Hw).
    exists t', p', d. do 3 (split; [done|]). split; [|by do 2 (split; [done|]); rewrite Hw, Z.eqb_refl].
    + intros b y Hb' Hy. destruct (plan_requests _ Hb') as [Hbw _]. rewrite Hw by done.
      destruct (Z.eqb_spec b a) as [->|]; [by eapply plan_write_unique|done].
  - destruct (exec_read t id p a Ha Ht Hr) as (p' & d & Hb & Hd & Hs & Hc & Hbuf & Haddr & Hx).
    exists t, p', d. do 3 (split; [done|]). split; [by intros b y _|]. split; [done|]. split; [|done].
    split; [done|]. split; [done|]. split; [|by exists (word_at t a)].
    rewrite Haddr. change data_mask with (Z.ones 28). rewrite !Z.land_ones by lia. by rewrite Z.mod_mod by lia.
Qed.

(** The initiator takes a request and makes the access. *)
Lemma flying_served id n sent flight m h rq rq' rp t ptr :
  targets_ok t -> flying n sent flight (Idle (S m)) h rq rp t -> pop rq = Ok (rq', ptr) ->
  ptr ∈ flight.*1 /\
  exists p k t' p' d, h !! ptr = Some (p, k) /\
    bus_b_transport id t p SC_ZERO_TIME = Ok (t', p', d) /\ 0 <= d /\
    p'.(response_status) = TLM_OK_RESPONSE /\ buffer_ok p' /\ targets_ok t' /\ keeps t t' /\
    flying n sent flight (Serving ptr m) (<[ptr := (p', k)]> h) rq' rp t'.
Proof.
  intros Htg Hfl Hpop%pop_Ok.
  pose proof Hfl as [Hplan Hnd Hl (D & A & T & Hp)].
  pose proof Hp as [Hs Hf Ha Ht Hc Hw Hans Hreq].
  rewrite Hpop in Ht. destruct T as [|[ptr' r] T]; [done|]. injection Ht as -> Ht.
  destruct (Hreq ptr r) as (p & k & Hptr & Hr); [by left|].
  assert (Hrp : sent = (D ++ [r]) ++ T.*2) by (rewrite Hs; cbn; by rewrite <- app_assoc).
  assert (Hin : r ∈ plan).
  { destruct Hplan as [rest ->]. rewrite Hrp, !elem_of_app. left. left. right. by left. }
  assert (Hread : match r with Read_request a => wrote sent a (word_at t a) | Write_request _ _ => True end).
  { destruct r as [|a]; [done|]. destruct Hplan as [rest Hrest].
    destruct (plan_ordered D a (T.*2 ++ rest)) as (x & Hx).
    { rewrite Hrest, Hs. cbn. by rewrite <- app_assoc. }
    rewrite (Hw a x Hx). unfold wrote. rewrite Hs, elem_of_app. by left. }
  destruct (access_request id t r p sent Htg Hin Hr Hread) as (t' & p' & d & Hb & Hd & Ht' & Hk & Hbuf & Hans' & Hwr).
  split; [rewrite Hf, fmap_app, elem_of_app; right; by left|].
  exists p, k, t', p', d. do 3 (split; [done|]). split; [by destruct Hans'|]. do 3 (split; [done|]).
  rewrite Hf, fmap_app in Hnd. apply NoDup_app in Hnd as (_ & Hdis & Hnd'). cbn in Hnd'.
  apply NoDup_cons in Hnd' as [HniT _].
  assert (Hne : forall l q (r : request), ptr ∉ l.*1 -> (q, r) ∈ l -> <[ptr := (p', k)]> h !! q = h !! q).
  { intros l0 q r0 Hni Hq. apply lookup_insert_ne. intros ->. apply Hni, list_elem_of_fmap. by exists (q, r0). }
  assert (HniA : ptr ∉ A.*1) by (intros HA; apply (Hdis ptr HA); by left).
  split; [done|by apply Hfl|done|]. exists (D ++ [r]), (A ++ [(ptr, r)]), T. split.
  - done.
  - rewrite Hf. by rewrite <- app_assoc.
  - rewrite fmap_app, Ha. cbn. by rewrite app_nil_r.
  - done.
  - rewrite length_app. cbn in Hc |- *. lia.
  - intros a x [Hx|Hx%list_elem_of_singleton]%elem_of_app.
    + apply Hk; [|by apply Hw]. by eapply flying_served_of_plan.
    + by subst r.
  - intros q r' [Hq|[= -> ->]%list_elem_of_singleton]%elem_of_app.
    + rewrite (Hne A q r' HniA Hq). by apply Hans.
    + exists p', k. by rewrite lookup_insert_eq.
  - intros q r' Hq. rewrite (Hne T q r' HniT Hq). apply Hreq. by right.
Qed.

(** *** The invariant as a whole *)

Lemma initiator_set i x s : initiator i (set_initiator i x s) = x.
Proof. by destruct i. Qed.

Lemma initiator_set_ne i j x s : i <> j -> initiator j (set_initiator i x s) = initiator j s.
Proof. by destruct i, j. Qed.

Lemma m_targets_set i x s : m_targets (set_initiator i x s) = m_targets s.
Proof. by destruct i. Qed.

Lemma time_set i x s : time (set_initiator i x s) = time s.
Proof. by destruct i. Qed.

Lemma unhurried_set i x s : unhurried (set_initiator i x s) = unhurried s.
Proof. by destruct i. Qed.

Lemma leave_enter i s : leave i (enter i s) = s.
Proof. by destruct i, s as [? ? [] [] ?]. Qed.

#[export] Instance index_eq_dec : EqDecision index.
Proof. solve_decision. Defined.

Lemma labelled_generator ls i g l g' : length ls = 4%nat -> labelled ls i g l ->
  labelled (<[generator_process i := Generator i g']> ls) i g' l.
Proof.
  intros Hl [_ Hs]. split; [apply list_lookup_insert_eq; rewrite Hl; destruct i; cbn; lia|].
  rewrite list_lookup_insert_ne; [done|by destruct i].
Qed.

Lemma labelled_server ls i g l l' : length ls = 4%nat -> labelled ls i g l ->
  labelled (<[initiator_process i := Server i l']> ls) i g l'.
Proof.
  intros Hl [Hg _]. split; [|apply list_lookup_insert_eq; rewrite Hl; destruct i; cbn; lia].
  rewrite list_lookup_insert_ne; [done|by destruct i].
Qed.

Lemma labelled_other ls i j k lb g l : i <> j -> k = generator_process i \/ k = initiator_process i ->
  labelled ls j g l -> labelled (<[k := lb]> ls) j g l.
Proof.
  intros Hne Hk [Hg Hs]. destruct Hk as [-> | ->];
    (split; (rewrite list_lookup_insert_ne; [done|by destruct i, j])).
Qed.

(** What a change of initiator [i] and of the targets needs. *)
Lemma Inv_change n i ls ls' s s' g l :
  Inv n ls s -> length ls' = 4%nat ->
  (forall j g l, i <> j -> labelled ls j g l -> labelled ls' j g l) ->
  (forall j, i <> j -> initiator j s' = initiator j s) ->
  targets_ok s'.(m_targets) -> keeps s.(m_targets) s'.(m_targets) ->
  labelled ls' i g l -> half n g l (initiator i s') s'.(m_targets) ->
  Inv n ls' s'.
Proof.
  intros (_ & _ & HI) Hl Hlab Hother Ht Hk Hi Hh. split; [done|]. split; [done|]. intros j.
  destruct (decide (i = j)) as [<-|Hne]; [by exists g, l|].
  destruct (HI j) as (g' & l' & Hj & [? ? ? Hf]). exists g', l'. split; [by apply Hlab|].
  rewrite Hother by done. split; try done. by eapply flying_keeps.
Qed.

Lemma keeps_refl t : keeps t t.
Proof. by intros a x. Qed.

(** FIFOs update and time advances without anybody noticing. *)
Lemma Inv_update n ls s i f : Inv n ls s -> Inv n ls (update_fifo i f s).
Proof.
  intros HI. pose proof HI as (Ht & Hl & Hh). destruct (Hh i) as (g & l & Hi & [Htg Hp Hb Hf]).
  eapply Inv_change; [exact HI|done|done| | | |exact Hi|]; unfold update_fifo.
  - intros j Hne. by apply initiator_set_ne.
  - by rewrite m_targets_set.
  - rewrite m_targets_set. apply keeps_refl.
  - rewrite initiator_set, m_targets_set. split; [by destruct f..|].
    eapply flying_contents; [| |by destruct f]; destruct f; done || apply contents_update.
Qed.

Lemma Inv_time n ls s t : Inv n ls s -> Inv n ls (set_time t s).
Proof. intros (Ht & Hl & Hh). split; [done|]. split; [done|]. intros i. by destruct i; [apply (Hh Initiator_1)|apply (Hh Initiator_2)]. Qed.

(** Renode makes an access that leaves the words alone. *)
Lemma Inv_renode n ls s p rest : Inv n ls s -> renode_access p ->
  exists s', access_of_renode p rest s = Ok s' /\ Inv n ls s' /\ s'.(time) = s.(time) /\
    s'.(m_renode) = rest /\ forall i, initiator i s' = initiator i s.
Proof.
  intros (Ht & Hl & Hh) Hp.
  destruct (exec_elsewhere s.(m_targets) renode_socket_id p SC_ZERO_TIME Hp Ht) as (t' & p' & d & He & Ht' & Hw).
  unfold access_of_renode. rewrite He, bind_Ok. eexists. split; [done|]. split; [|by split_and!; [..|intros []]].
  split; [done|]. split; [done|]. intros i. destruct (Hh i) as (g & l & Hi & [? ? ? Hf]).
  exists g, l. split; [done|]. replace (initiator i (set_renode _ _)) with (initiator i s) by by destruct i.
  split; try done. eapply flying_keeps; [done|]. intros a x Hx. destruct (plan_requests _ Hx) as [Ha _].
  cbn. by rewrite Hw.
Qed.

#[export] Instance guar_preorder : PreOrder guar.
Proof. split; [done|]. unfold guar. intros x y z. congruence. Qed.
