(* ===== verification/LtThreads.v ===== *)
(** * The processes of the loosely-timed example, verified

    The generators and the initiators of LtSystem in the logic of Scheduler,
    against the invariant of LtInvariant.  A generator needs no new proof: the
    FIFOs are a [TrafficGenerator.Platform] whose ghost state is what the label
    records, and the generator's run over any platform is
    [TrafficGenerator.generator_thread_ok]. *)

From stdpp Require Import base numbers list gmap relations.
From S2P Require Import Prelude Tlm Kernel Scheduler LtMemory SimpleBusLT TrafficGenerator LtTargets LtSystem LtInvariant.
#[local] Open Scope Z_scope.

(** ** Definitions *)

(** What a generator running after the labels [ls] and the state [s0] knows of
    the example, when it has sent [γ.2.1], of which [γ.2.2] is on its way. *)
Definition ghost : Type := list label * top * (list request * list (Z * request)).
Definition ghost_sent (γ : ghost) (_ : top) : list request := γ.2.1.
Definition ghost_flight (γ : ghost) (_ : top) : list (Z * request) := γ.2.2.

Record surroundings_ok (n : nat) (i : index) (γ : ghost) (w : top) (h : store_t) : Prop := {
  su_time : guar γ.1.2 w;
  su_targets : targets_ok w.(m_targets);
  su_length : length γ.1.1 = 4%nat;
  su_flying : exists l, γ.1.1 !! initiator_process i = Some (Server i l) /\
    flying n γ.2.1 γ.2.2 l h (initiator i w).(m_request_fifo) (initiator i w).(m_response_fifo) w.(m_targets);
  su_others : forall j, i <> j -> exists g l, labelled γ.1.1 j g l /\
    half n g l (initiator j w) w.(m_targets);
}.

(** ** Lemmas *)

Section Threads.
Context (size : Z) (payload_reset : payload -> payload) (fuel iterations : nat).
Context (reset_keeps : forall p, (payload_reset p).(data) = p.(data)).
Notation Inv := (Inv iterations).
Notation publish := (publish Inv guar).
Notation ftwp i := (ftwp (tag i) (enter i) (leave i) (ready size) Inv guar waits).

(** *** The FIFOs *)

Lemma fifo_write_ok i f v n lb ls s0 x Q :
  publish n ls s0 lb (leave i x) -> waits lb (Wait_event (i, data_read_event f)) (leave i x) ->
  (forall ls s0 y, publish n ls s0 lb (leave i y) ->
     let z := initiator i y.(world) in
     Q ls s0 tt (set_world (set_initiator i (set_fifo f (push v (fifo_of f z)) z) y.(world)) y)) ->
  ftwp i n ls s0 (fifo_write size i f v x) Q.
Proof.
  intros Hp Hw HQ. unfold fifo_write, mbind, proc_bind, p_get, p_modify. cbn [prog_bind].
  destruct (num_free size (fifo_of f (initiator i (world x))) <=? 0); [|by apply HQ]. cbn [prog_bind]. exists lb. split; [done|]. split; [done|].
  intros ls' s' Hl HI Hr. apply HQ. rewrite leave_enter. by apply publish_same.
Qed.

Lemma fifo_read_ok i f n lb ls s0 x Q :
  publish n ls s0 lb (leave i x) -> waits lb (Wait_event (i, data_written_event f)) (leave i x) ->
  (forall ls s0 y q v, publish n ls s0 lb (leave i y) ->
     let z := initiator i y.(world) in
     pop (fifo_of f z) = Ok (q, v) ->
     Q ls s0 v (set_world (set_initiator i (set_fifo f q z) y.(world)) y)) ->
  ftwp i n ls s0 (fifo_read i f x) Q.
Proof.
  intros Hp Hw HQ. unfold fifo_read, mbind, proc_bind, p_get. cbn [prog_bind].
  assert (Hpop : forall q, 0 < num_available q -> exists q' v, pop q = Ok (q', v)).
  { intros [[|v vs] k w] Hq; [done|]. eexists _, _. reflexivity. }
  destruct (Z.leb_spec (num_available (fifo_of f (initiator i (world x)))) 0) as [Ha|Ha].
  - cbn [prog_bind]. exists lb. split; [done|]. split; [done|]. intros ls' s' Hl HI Hr. cbn [ready tag] in Hr.
    destruct (Hpop _ Hr) as (q & v & Hq). unfold p_wait, p_step. cbn [prog_bind world enter]. rewrite Hq, bind_Ok.
    cbn. apply (HQ ls' s' (enter i s')); [rewrite leave_enter; by apply publish_same|exact Hq].
  - destruct (Hpop _ Ha) as (q & v & Hq). unfold p_step. cbn [prog_bind mret proc_ret]. rewrite Hq, bind_Ok. by apply HQ.
Qed.

(** *** The generators *)

Lemma labelled_lookup ls i g l lb : labelled ls i g l -> ls !! generator_process i = Some lb -> lb = Generator i g.
Proof. intros [Hg _] H. congruence. Qed.

(** Between the label of a suspension and what the generator knows. *)
Lemma surroundings_publish i g ls s0 y :
  publish (generator_process i) ls s0 (Generator i g) (leave i y) -> length ls = 4%nat ->
  surroundings_ok iterations i (ls, s0, (g.(g_sent), g.(g_flight))) y.(world) y.(txns) /\
  y.(tg) = g.(g_tg) /\
  (forall ptr, ptr ∉ g.(g_flight).*1 -> y.(txns) !! ptr = g.(g_store) !! ptr) /\
  (forall ptr p k, g.(g_store) !! ptr = Some (p, k) -> buffer_ok p ->
    exists p', y.(txns) !! ptr = Some (p', k) /\ buffer_ok p').
Proof.
  intros [Hg (Ht & _ & HI)] Hls. unfold leave in *. rewrite m_targets_set in *.
  assert (Hlen : (generator_process i < length ls)%nat) by (rewrite Hls; destruct i; cbn; lia).
  destruct (HI i) as (g' & l & [Hi Hs] & Hh). rewrite list_lookup_insert_eq in Hi by done.
  injection Hi as <-. rewrite list_lookup_insert_ne in Hs by (by destruct i).
  rewrite initiator_set in Hh. destruct Hh as [Htg Hp Hb Hf]. cbn in Htg, Hp, Hb, Hf.
  split; [|done]. split; cbn [fst snd]; [|done|done|by exists l|].
  - unfold guar in *. by rewrite unhurried_set in Hg.
  - intros j Hne. destruct (HI j) as (gj & lj & [Hgj Hlj] & Hhj). exists gj, lj.
    rewrite initiator_set_ne in Hhj by done. rewrite list_lookup_insert_ne in Hgj, Hlj by (by destruct i, j).
    by split.
Qed.

Lemma publish_surroundings i γ y :
  surroundings_ok iterations i γ y.(world) y.(txns) ->
  publish (generator_process i) γ.1.1 γ.1.2
    (Generator i (mk_generator_label y.(tg) y.(txns) γ.2.1 γ.2.2)) (leave i y).
Proof.
  intros [Hg Ht Hl (l & Hs & Hf) Ho]. unfold leave. split; [unfold guar in *; by rewrite unhurried_set|].
  rewrite <- m_targets_set with (i := i) (x := mk_initiator_top y.(tg) y.(txns)
    (initiator i y.(world)).(m_request_fifo) (initiator i y.(world)).(m_response_fifo)) in Ht.
  split; [done|]. split; [by rewrite length_insert|]. intros j. rewrite m_targets_set.
  destruct (decide (i = j)) as [<-|Hne].
  - eexists _, l. split; [split; [apply list_lookup_insert_eq; rewrite Hl; destruct i; cbn; lia|]|].
    + by rewrite list_lookup_insert_ne by (by destruct i).
    + rewrite initiator_set. split; cbn; [done|done| |done]. intros ptr p k Hp Hb. by exists p.
  - destruct (Ho j Hne) as (gj & lj & Hj & Hh). exists gj, lj. rewrite initiator_set_ne by done.
    split; [|done]. by eapply labelled_other; [|left|].
Qed.

(** What a FIFO operation of the generator changes. *)
Lemma surroundings_fifos i γ w h x sent flight :
  surroundings_ok iterations i γ w h ->
  (forall l, flying iterations γ.2.1 γ.2.2 l h (initiator i w).(m_request_fifo)
     (initiator i w).(m_response_fifo) w.(m_targets) ->
   flying iterations sent flight l h x.(m_request_fifo) x.(m_response_fifo) w.(m_targets)) ->
  surroundings_ok iterations i (γ.1, (sent, flight)) (set_initiator i x w) h.
Proof.
  intros [Hg Ht Hl (l & Hs & Hf) Ho] Hx. split; cbn [fst snd]; rewrite ?m_targets_set, ?initiator_set.
  - unfold guar in *. by rewrite unhurried_set.
  - done.
  - done.
  - exists l. split; [done|]. by apply Hx.
  - intros j Hne. rewrite initiator_set_ne by done. by apply Ho.
Qed.

Lemma publish_length n ls s0 lb s : publish n ls s0 lb s -> length ls = 4%nat.
Proof. intros [_ (_ & Hl & _)]. by rewrite length_insert in Hl. Qed.

Notation gwp i := (ghost_wp (tag i) (enter i) (leave i) (ready size) Inv guar waits (generator_process i)).
Notation history := (fun (γ : ghost) (_ : top) => wrote γ.2.1).

Lemma request_out_ok i γ ptr p k r s (Q : ghost -> unit -> sys top -> Prop) :
  surroundings_ok iterations i γ s.(world) s.(txns) ->
  s.(txns) !! ptr = Some (p, k) -> is_request p r -> (ghost_sent γ s.(world) ++ [r]) `prefix_of` plan ->
  ptr ∉ (ghost_flight γ s.(world)).*1 -> Z.of_nat (length (ghost_flight γ s.(world))) < 4 ->
  (forall γ' s', changes history (surroundings_ok iterations i) (ptr :: (ghost_flight γ s.(world)).*1) γ s γ' s' ->
     ghost_flight γ' s'.(world) = ghost_flight γ s.(world) ++ [(ptr, r)] ->
     ghost_sent γ' s'.(world) = ghost_sent γ s.(world) ++ [r] ->
     match r with Write_request a x => wrote γ'.2.1 a x | Read_request _ => True end ->
     Q γ' tt s') ->
  gwp i unit γ (fifo_write size i Request_fifo ptr s) Q.
Proof.
  unfold ghost_sent, ghost_flight. destruct γ as [[ls s0] [sent flight]]. cbn [fst snd].
  intros Hok Hp Hr Hplan Hni Hlen HQ. unfold ghost_wp. cbn [fst snd].
  eapply fifo_write_ok; [exact (publish_surroundings _ _ _ Hok)|right; left; split; [done|cbn; lia]|].
  clear Hok. intros ls1 s1 y Hpub. cbv zeta.
  destruct (surroundings_publish _ _ _ _ _ Hpub (publish_length _ _ _ _ _ Hpub)) as (Hok & Htg & Hpool & Hbuf).
  cbn [g_tg g_store g_sent g_flight fst snd] in *. exists (sent ++ [r], flight ++ [(ptr, r)]). apply HQ; cbn [fst snd]; try done.
  2: { destruct r; [|done]. apply elem_of_app. right. by left. }
  split; cbn [tg txns world set_world fst snd]; try done.
  - apply (surroundings_fifos i (ls1, s1, (sent, flight))); [exact Hok|]. intros l Hf. apply (flying_sent _ _ _ _ _ _ _ _ _ _ p k); try done.
    + by rewrite Hpool.
    + lia.
  - intros a x Hx. apply elem_of_app. by left.
  - intros _ a x Hx. apply plan_conforms. destruct Hplan as [rest ->]. apply elem_of_app. by left.
  - intros q Hq. apply Hpool. intros Hin. apply Hq. by right.
Qed.

Lemma response_in_ok i γ ptr r rest s (Q : ghost -> Z -> sys top -> Prop) :
  surroundings_ok iterations i γ s.(world) s.(txns) ->
  ghost_flight γ s.(world) = (ptr, r) :: rest ->
  (forall γ' s' p k, changes history (surroundings_ok iterations i) (ghost_flight γ s.(world)).*1 γ s γ' s' ->
     ghost_flight γ' s'.(world) = rest -> ghost_sent γ' s'.(world) = ghost_sent γ s.(world) ->
     s'.(txns) !! ptr = Some (p, k) -> answers (wrote γ'.2.1) r p -> Q γ' ptr s') ->
  gwp i Z γ (fifo_read i Response_fifo s) Q.
Proof.
  unfold ghost_sent, ghost_flight. destruct γ as [[ls s0] [sent flight]]. cbn [fst snd].
  intros Hok -> HQ. unfold ghost_wp. cbn [fst snd].
  eapply fifo_read_ok; [exact (publish_surroundings _ _ _ Hok)|right; right; by split|].
  clear Hok. intros ls1 s1 y q v Hpub z Hpop.
  destruct (surroundings_publish _ _ _ _ _ Hpub (publish_length _ _ _ _ _ Hpub)) as (Hok & Htg & Hpool & Hbuf).
  cbn [g_tg g_store g_sent g_flight fst snd] in *. pose proof (su_flying _ _ _ _ _ Hok) as (l & _ & Hf).
  cbn [fst snd] in Hf. destruct (flying_received _ _ _ _ _ _ _ _ _ _ _ _ Hf Hpop) as (-> & Hf' & p & k & Hp & Hans).
  exists (sent, rest). apply (HQ _ _ p k); cbn [fst snd]; try done.
  split; cbn [tg txns world set_world fst snd]; try done.
  - apply (surroundings_fifos i (ls1, s1, (sent, (ptr, r) :: rest))); [exact Hok|]. intros l' Hf2.
    by destruct (flying_received _ _ _ _ _ _ _ _ _ _ _ _ Hf2 Hpop) as (_ & ? & _).
Qed.

(** The FIFOs of an initiator are a platform for its generator. *)
Lemma fifo_platform i :
  Platform (gwp i) payload_reset (fifo_write size i Request_fifo) (fifo_read i Response_fifo)
    ghost_flight ghost_sent history plan (surroundings_ok iterations i) 4.
Proof.
  split.
  - apply _.
  - done.
  - intros γ w h ptr x [Hg Ht Hl (l & Hs & Hf) Ho] Hni. split; try done. exists l. split; [done|].
    by apply flying_frame.
  - intros γ ptr p k r s Q Hok _ Hp Hr Hplan Hni Hlen _ HQ. by eapply request_out_ok.
  - intros γ ptr r rest s Q Hok _ Hfl _ _ HQ. by eapply response_in_ok.
Qed.

(** The label of a generator that has not started. *)
Definition new_generator_label (i : index) (x : initiator_top) : generator_label :=
  mk_generator_label x.(m_traffic_gen) x.(m_transactions) [] [].

Lemma generator_ok i garbage s :
  (5 <= fuel)%nat -> (forall j, (4 <= length (garbage j))%nat /\ is_bytes (garbage j)) ->
  thread_ok (ready size) Inv guar waits final (generator_process i)
    (Generator i (new_generator_label i (new_initiator i garbage)))
    (boot (on_initiator i (run_traffic_generator size payload_reset fuel i)) s).
Proof.
  intros Hfuel Hg. split; [by left|]. intros ls s1 Hl HI _.
  destruct (new_traffic_generator_pool (initiator_ID i) base_address_1 base_address_2 4 garbage tt)
    as (Hgen & _ & Hpool); [lia|done|].
  assert (Hp : publish (generator_process i) ls s1
    (Generator i (new_generator_label i (new_initiator i garbage))) (leave i (enter i s1))).
  { rewrite leave_enter. by apply publish_same. }
  destruct (surroundings_publish _ _ _ _ _ Hp (publish_length _ _ _ _ _ Hp)) as (Hok & Htg & Hst & _).
  cbn [new_generator_label g_tg g_store g_sent g_flight] in *.
  apply ftwp_focus.
  eapply ftwp_mono; [|eapply (generator_thread_ok 4 (initiator_ID i) base_address_1 base_address_2 fuel
    (ls, s1, ([], [])) (enter i s1) (fun γ _ x => finished Inv guar final (generator_process i) γ.1.1 γ.1.2 tt (leave i x))
    (fifo_platform i))].
  - intros ls' s' [] x (gh & Hx). exact Hx.
  - lia.
  - lia.
  - done.
  - done.
  - done.
  - done.
  - by rewrite Htg.
  - intros ptr Hptr. rewrite Hst by (cbn; intros H; inversion H). by apply Hpool.
  - done.
  - done.
  - intros a x Hx. inversion Hx.
  - exact Hok.
  - intros γ x Hfl Hsent Hq Ha Hx. eexists. split; [by apply publish_surroundings|]. done.
Qed.

(** *** The initiators *)

Lemma Inv_label n lb ls s0 i y l : n = initiator_process i -> lb = Server i l ->
  publish n ls s0 lb (leave i y) ->
  length ls = 4%nat /\ guar s0 y.(world) /\ Inv (<[n := lb]> ls) (leave i y) /\
  exists g, labelled (<[n := lb]> ls) i g l /\
    half iterations g l (mk_initiator_top y.(tg) y.(txns) (initiator i y.(world)).(m_request_fifo)
      (initiator i y.(world)).(m_response_fifo)) y.(world).(m_targets).
Proof.
  intros -> -> Hp. pose proof (publish_length _ _ _ _ _ Hp) as Hlen. destruct Hp as [Hg HI].
  split; [done|]. split; [unfold guar, leave in *; by rewrite unhurried_set in Hg|]. split; [done|].
  destruct HI as (_ & _ & HI). destruct (HI i) as (g & l' & [Hgl Hsl] & Hh). exists g.
  rewrite list_lookup_insert_eq in Hsl by (rewrite Hlen; destruct i; cbn; lia). injection Hsl as <-.
  unfold leave in Hh. rewrite initiator_set, m_targets_set in Hh. split; [|done].
  split; [done|]. apply list_lookup_insert_eq. rewrite Hlen; destruct i; cbn; lia.
Qed.

(** A change of the initiator's own data and of the targets. *)
Lemma publish_change i l l' ls s0 y y' :
  publish (initiator_process i) ls s0 (Server i l) (leave i y) ->
  guar y.(world) y'.(world) ->
  (forall j, i <> j -> initiator j y'.(world) = initiator j y.(world)) ->
  targets_ok y'.(world).(m_targets) -> keeps y.(world).(m_targets) y'.(world).(m_targets) ->
  (forall g, half iterations g l (mk_initiator_top y.(tg) y.(txns) (initiator i y.(world)).(m_request_fifo)
      (initiator i y.(world)).(m_response_fifo)) y.(world).(m_targets) ->
    half iterations g l' (mk_initiator_top y'.(tg) y'.(txns) (initiator i y'.(world)).(m_request_fifo)
      (initiator i y'.(world)).(m_response_fifo)) y'.(world).(m_targets)) ->
  publish (initiator_process i) ls s0 (Server i l') (leave i y').
Proof.
  intros Hp Hguar Hother Ht Hk Hh.
  destruct (Inv_label _ _ _ _ _ _ _ eq_refl eq_refl Hp) as (Hlen & Hg & HI & g & Hlab & Hhalf).
  assert (Hlen' : length (<[initiator_process i := Server i l]> ls) = 4%nat) by (by rewrite length_insert).
  split; [unfold guar, leave in *; rewrite unhurried_set; congruence|].
  rewrite <- (list_insert_insert_eq ls (initiator_process i) (Server i l') (Server i l)).
  eapply Inv_change; [exact HI|by rewrite !length_insert| | | | |by eapply labelled_server|].
  - intros j gj lj Hne. apply labelled_other with (i := i); [done|by right].
  - intros j Hne. unfold leave. rewrite !initiator_set_ne by done. by apply Hother.
  - unfold leave. by rewrite m_targets_set.
  - unfold leave. by rewrite !m_targets_set.
  - unfold leave. rewrite initiator_set, m_targets_set. by apply Hh.
Qed.

Lemma initiator_body_ok i m ls s0 x Q :
  publish (initiator_process i) ls s0 (Server i (Idle (S m))) (leave i x) ->
  (forall ls s0 y, publish (initiator_process i) ls s0 (Server i (Idle m)) (leave i y) -> Q ls s0 tt y) ->
  ftwp i (initiator_process i) ls s0
    (initiator_body (fifo_read i Request_fifo) (fifo_write size i Response_fifo)
       (on_part m_targets set_targets (bus_b_transport (socket_id i))) x) Q.
Proof.
  intros Hp HQ. unfold initiator_body. apply ftwp_bind.
  eapply fifo_read_ok; [exact Hp|by right|]. clear ls s0 x Hp. intros ls s0 y q ptr Hp z Hpop.
  destruct (Inv_label _ _ _ _ _ _ _ eq_refl eq_refl Hp) as (Hlen & Hguar & HI & g & Hlab & Hhalf).
  assert (Htok : targets_ok y.(world).(m_targets)).
  { destruct HI as (Ht & _). unfold leave in Ht. by rewrite m_targets_set in Ht. }
  pose proof Hhalf as [Htg Hpool Hbuf Hf]. cbn in Htg, Hpool, Hbuf, Hf.
  destruct (flying_served (socket_id i) _ _ _ _ _ _ _ _ _ _ Htok Hf Hpop)
    as (Hin & p & k & t' & p' & d & Hptr & Hbus & Hd & Hst & Hbuf' & Ht' & Hk & _).
  apply ftwp_bind. eapply ftwp_step.
  { unfold get_txn. cbn [txns set_world]. rewrite Hptr, bind_Ok. unfold on_part at 1. cbn [world set_world].
    rewrite m_targets_set, Hbus, !bind_Ok. reflexivity. }
  cbn beta iota. rewrite Hst, bool_decide_eq_true_2 by done. apply ftwp_bind.
  apply (ftwp_wait _ _ _ _ _ _ _ _ (Server i (Serving ptr m))).
  - eapply publish_change; [exact Hp|..]; unfold put_txn, upd_txns; cbn [tg txns world].
    + by destruct i.
    + intros j Hne. destruct i, j; done.
    + done.
    + done.
    + intros g' [Htg' Hpool' Hb' Hf']. cbn in Htg', Hpool', Hb', Hf'.
      destruct (flying_served (socket_id i) _ _ _ _ _ _ _ _ _ _ Htok Hf' Hpop)
        as (Hin' & p1 & k1 & t1 & p1' & d1 & Hptr1 & Hbus1 & _ & _ & _ & _ & _ & Hf1).
      rewrite Hptr in Hptr1. injection Hptr1 as <- <-. rewrite Hbus in Hbus1. injection Hbus1 as <- <- <-.
      split; cbn; [done| | |].
      * intros q' Hq'. rewrite lookup_insert_ne; [by apply Hpool'|]. by intros ->.
      * intros q' p0 k0 Hq' Hb0. destruct (Hb' _ _ _ Hq' Hb0) as (p2 & Hp2 & Hb2).
        destruct (decide (q' = ptr)) as [-> | Hne].
        -- rewrite lookup_insert_eq. exists p'. by simplify_eq.
        -- exists p2. by rewrite lookup_insert_ne.
      * destruct i; exact Hf1.
  - left. exists d. by split.
  - clear HI.
    intros ls2 s2 Hl HI _. eapply fifo_write_ok.
    + rewrite leave_enter. by apply publish_same.
    + by right.
    + intros ls3 s3 y3 Hp3 z3. apply HQ. eapply publish_change; [exact Hp3|..]; cbn [tg txns world set_world].
      * unfold guar. by rewrite unhurried_set.
      * intros j Hne. by rewrite initiator_set_ne.
      * rewrite m_targets_set. destruct Hp3 as [_ (Ht3 & _)]. unfold leave in Ht3. by rewrite m_targets_set in Ht3.
      * rewrite m_targets_set. apply keeps_refl.
      * intros g' [Htg' Hpool' Hb' Hf']. rewrite initiator_set, m_targets_set. split; cbn in *; [done..|].
        by apply flying_delivered.
Qed.

Lemma initiator_thread_ok i m : forall ls s0 x, (64 < iterations)%nat ->
  publish (initiator_process i) ls s0 (Server i (Idle m)) (leave i x) ->
  ftwp i (initiator_process i) ls s0 (run_initiator size m i x)
    (fun ls s0 a y => finished Inv guar final (initiator_process i) ls s0 a (leave i y)).
Proof.
  induction m as [|m IH]; intros ls s0 x Hn Hp; unfold run_initiator, initiator_thread; cbn [p_repeat].
  - exfalso. destruct (Inv_label _ _ _ _ _ _ _ eq_refl eq_refl Hp) as (_ & _ & _ & g & _ & [_ _ _ Hf]).
    destruct Hf as [[rest Hplan] _ _ (D & A & T & [Hs _ _ _ Hc _ _ _])]. cbn in Hc.
    pose proof plan_length as Hpl. rewrite Hplan, Hs, !length_app in Hpl. lia.
  - apply ftwp_bind. eapply initiator_body_ok; [exact Hp|]. intros ls' s' y Hp'. by apply IH.
Qed.

Lemma server_ok i s : (64 < iterations)%nat ->
  thread_ok (ready size) Inv guar waits final (initiator_process i) (Server i (Idle iterations))
    (boot (on_initiator i (run_initiator size iterations i)) s).
Proof.
  intros Hn. split; [by left|]. intros ls s1 Hl HI _. apply ftwp_focus.
  eapply ftwp_mono; [|apply initiator_thread_ok; [done|rewrite leave_enter; by apply publish_same]].
  intros ls' s' [] y H. exact H.
Qed.
End Threads.
