(* ===== verification/LtRun.v ===== *)
(** * The runs of the loosely-timed example

    The steps of LtSystem keep the invariant of LtInvariant, so that neither
    generator ever reports an error, in any run; a run that is not over can go
    on; every run ends; and where it ends both generators are done and the
    memories hold what was written. *)

From stdpp Require Import base numbers list gmap relations.
From S2P Require Import Prelude Tlm Kernel Scheduler LtMemory SimpleBusLT AtTarget TrafficGenerator LtTargets LtSystem LtInvariant LtThreads.
#[local] Open Scope Z_scope.

(** ** Definitions *)

(** The transactions in the FIFOs of an initiator are distinct, at most as many
    as the pool has, and those in the response FIFO have succeeded. *)
Record fifos_ok (x : initiator_top) : Prop := {
  fifos_distinct : NoDup (contents x.(m_response_fifo) ++ contents x.(m_request_fifo));
  fifos_bounded :
    (length (contents x.(m_response_fifo)) + length (contents x.(m_request_fifo)) <= 4)%nat;
  fifos_answered : forall ptr, ptr ∈ contents x.(m_response_fifo) ->
    exists p k, x.(m_transactions) !! ptr = Some (p, k) /\ p.(response_status) = TLM_OK_RESPONSE;
}.

(** An initiator whose generator has ended with all its transactions back in
    the pool; its thread waits for requests. *)
Definition traffic_complete (c : config) (i : index) : Prop :=
  (exists s, c.(threads) !! generator_process i = Some (Ret s tt)) /\
  (exists s k, c.(threads) !! initiator_process i =
     Some (Wait (Wait_event (i, data_written_event Request_fifo)) s k)) /\
  let x := initiator i c.(shared) in
  x.(m_traffic_gen).(m_transaction_queue) ≡ₚ seqZ 0 4 /\
  x.(m_traffic_gen).(m_active_txn_count) = 0 /\
  contents x.(m_request_fifo) = [] /\ contents x.(m_response_fifo) = [].

(** The first target holds the addresses of its sixteen words, the second the
    complements. *)
Definition memory_filled (t : targets) : Prop :=
  forall port j, port = 0 \/ port = 1 -> 0 <= j < 16 ->
    word_at t (port * 2 ^ 28 + 4 * j) =
      (if port =? 0 then port * 2 ^ 28 + 4 * j else wnot 32 (port * 2 ^ 28 + 4 * j)).

(** ** Lemmas *)

Section Runs.
Context (size : Z) (payload_reset : payload -> payload) (fuel iterations : nat).
Context (garbage : index -> Z -> list Z) (accesses : list payload).

(** What the theorems ask of the surroundings: FIFOs for the whole pool, a
    reset that keeps the buffer, fuel for draining the pool, more iterations
    than requests, buffers of four bytes, and accesses of Renode that leave the
    words of the generators alone. *)
Record surroundings : Prop := {
  size_ok : 4 <= size;
  reset_ok : forall p, (payload_reset p).(data) = p.(data);
  fuel_ok : (5 <= fuel)%nat;
  iterations_ok : (64 < iterations)%nat;
  garbage_ok : forall i j, (4 <= length (garbage i j))%nat /\ is_bytes (garbage i j);
  accesses_ok : Forall renode_access accesses;
}.

Context (HS : surroundings).
Notation step := (step size).
Notation rstep := (rstep size).
Notation Inv := (Inv iterations).
Notation pool_inv := (pool_inv (ready size) Inv guar waits final).
Notation thread_ok := (thread_ok (ready size) Inv guar waits final).
Notation is_ready := (is_ready (ready size)).
Notation due := (due time).

(** A configuration the processes and the kernel keep. *)
Record good (ls : list label) (c : config) : Prop := {
  g_pool : pool_inv ls c;
  g_timely : forall t, due c t -> c.(shared).(time) <= t;
  g_renode : Forall renode_access c.(shared).(m_renode);
}.

Definition reaches (r : res config) : Prop :=
  rtc rstep (new_top size payload_reset fuel iterations garbage accesses) r.

#[local] Instance ready_dec n w s0 s : Decision (ready size n w s0 s).
Proof. destruct w as [t|[i [f|f]]|]; cbn; apply _. Defined.

(** *** The initial configuration *)

Definition new_labels : list label :=
  [Generator Initiator_1 (new_generator_label Initiator_1 (new_initiator Initiator_1 (garbage Initiator_1)));
   Server Initiator_1 (Idle iterations);
   Generator Initiator_2 (new_generator_label Initiator_2 (new_initiator Initiator_2 (garbage Initiator_2)));
   Server Initiator_2 (Idle iterations)].

Lemma new_half i t : half iterations (new_generator_label i (new_initiator i (garbage i))) (Idle iterations)
  (new_initiator i (garbage i)) t.
Proof.
  split; [done|done|by intros ptr p k Hp Hb; exists p|].
  split; [by apply prefix_nil|constructor|cbn; lia|]. exists [], [], [].
  split; try done; intros ? ? Hin; inversion Hin.
Qed.

Lemma lt_new_top_good : exists c, new_top size payload_reset fuel iterations garbage accesses = Ok c /\ good new_labels c.
Proof.
  unfold new_top. destruct new_targets as [t|f] eqn:Ht; [|discriminate Ht].
  apply new_targets_ok in Ht. rewrite bind_Ok. cbv zeta.
  set (s := mk_top _ _ _ _ _). eexists. split; [reflexivity|]. split.
  - split; [|done|].
    + split; [done|]. split; [done|]. intros i. eexists _, _.
      split; [destruct i; by split|]. destruct i; apply new_half.
    + intros n l p Hl Hp. destruct HS.
      destruct n as [|[|[|[|n]]]]; cbn in Hl, Hp; [injection Hl as <-; injection Hp as <-..|done].
      * by apply (generator_ok size payload_reset fuel iterations reset_ok0 Initiator_1).
      * by apply (server_ok size iterations Initiator_1).
      * by apply (generator_ok size payload_reset fuel iterations reset_ok0 Initiator_2).
      * by apply (server_ok size iterations Initiator_2).
  - intros u (n & d & s0 & k & Hn & ->). destruct n as [|[|[|[|n]]]]; cbn in Hn; try done;
      injection Hn as <- <- _; cbn; lia.
  - apply HS.
Qed.

(** *** Steps *)

Lemma lt_waits_nonneg l t s : waits l (Wait_time t) s -> 0 <= t.
Proof.
  destruct l as [i g|i [m|ptr m]]; cbn.
  - intros [[= ->]|[[? _]|[? _]]]; done.
  - intros [[= ->]|?]; done.
  - intros [(t' & [= ->] & ?)|?]; done.
Qed.

Lemma lt_step_good ls c r : good ls c -> step c r -> exists ls' c', r = Ok c' /\ good ls' c'.
Proof.
  intros [Hpool Htimely Hren] [n r' Hres|i f Hu|p rest Hp|t Ht Hidle Hnone Hd Hmin].
  - destruct (resume_timely _ time _ _ _ _ _ _ _ _ lt_waits_nonneg
        (fun s s' (H : guar s s') => f_equal fst H) Hpool Htimely Hres) as (l & c' & -> & Hpool' & Hg & Hdue).
    exists (<[n := l]> ls), c'. split; [done|]. split; [done|done|]. by injection Hg as _ ->.
  - exists ls. eexists. split; [done|].
    split; [apply (pool_inv_kernel _ _ _ _ _ _ _ _ Hpool), Inv_update; apply Hpool| |by destruct i].
    cbn [shared]. unfold update_fifo. by rewrite time_set.
  - rewrite Hp in Hren. apply Forall_cons in Hren as [Hra Hren].
    destruct (Inv_renode _ _ _ p rest (pool_state _ _ _ _ _ _ _ Hpool) Hra) as (s' & -> & HI & Ht & Hr & _).
    rewrite bind_Ok. exists ls. eexists. split; [done|]. split; cbn [shared].
    + by apply (pool_inv_kernel _ _ _ _ _ _ _ _ Hpool).
    + rewrite Ht. exact Htimely.
    + by rewrite Hr.
  - exists ls. eexists. split; [done|].
    split; [apply (pool_inv_kernel _ _ _ _ _ _ _ _ Hpool), Inv_time; apply Hpool|done|done].
Qed.

Lemma lt_reachable_good r : reaches r -> exists c, r = Ok c /\ exists ls, good ls c.
Proof.
  apply steps_keep.
  - intros c r' (ls & Hg) Hs. destruct (lt_step_good _ _ _ Hg Hs) as (ls' & c' & -> & Hg'). eauto.
  - destruct lt_new_top_good as (c & Hc & Hg). eauto.
Qed.

(** *** Termination *)

(** The FIFOs that are due to update, and the accesses of Renode to come. *)
Definition update_count (s : top) (i : index) (f : fifo_name) : nat :=
  if update_requested (fifo_of f (initiator i s)) then 1 else 0.
Definition updates (s : top) : nat :=
  update_count s Initiator_1 Request_fifo + update_count s Initiator_1 Response_fifo +
  (update_count s Initiator_2 Request_fifo + update_count s Initiator_2 Response_fifo).

Definition lt_pending (c : config) : nat := updates c.(shared) + length c.(shared).(m_renode).

Lemma update_once i f s : update_requested (fifo_of f (initiator i s)) = true ->
  (updates (update_fifo i f s) < updates s)%nat.
Proof.
  intros Hu. assert (He : forall q, update_requested (update q) = false) by done.
  unfold updates, update_count, update_fifo. destruct i, f; cbn in *; rewrite Hu; lia.
Qed.

Lemma renode_once c p rest s' ls :
  good ls c -> c.(shared).(m_renode) = p :: rest -> access_of_renode p rest c.(shared) = Ok s' ->
  (lt_pending (mk_pool s' c.(threads)) < lt_pending c)%nat.
Proof.
  intros [Hpool _ Hren] Hp Hs. rewrite Hp in Hren. apply Forall_cons in Hren as [Hra _].
  destruct (Inv_renode _ _ _ p rest (pool_state _ _ _ _ _ _ _ Hpool) Hra) as (s1 & Hs1 & _ & _ & Hr & Hi).
  rewrite Hs in Hs1. injection Hs1 as <-. unfold lt_pending, updates, update_count. cbn [shared].
  rewrite !Hi, Hr, Hp. cbn. lia.
Qed.

(** Every step but the advance of time. *)
Lemma lt_step_closer ls c c' : good ls c -> step c (Ok c') ->
  closer lt_pending c' c \/
  exists t, c' = mk_pool (set_time t c.(shared)) c.(threads) /\ (forall n, ~ is_ready c n) /\
    (forall i f, update_requested (fifo_of f (initiator i c.(shared))) = false) /\
    due c t /\ c.(shared).(time) < t.
Proof.
  intros Hg Hs. remember (Ok c') as r eqn:Hr. destruct Hs as [n r' Hres|i f Hu|p rest Hp|t Ht Hidle Hnone Hd Hmin].
  - subst r'. left. left. by eapply resume_continues.
  - injection Hr as <-. left. right. split; [done|]. unfold lt_pending. cbn [shared].
    pose proof (update_once i f _ Hu). replace (m_renode (update_fifo i f (shared c))) with (m_renode (shared c)) by by destruct i.
    lia.
  - left. right. apply bind_Ok_inv in Hr as (s' & Hs' & [= <-]). split; [done|]. by eapply renode_once.
  - injection Hr as <-. right. by exists t.
Qed.

Lemma lt_good_terminates ls c : good ls c -> sn rstep (Ok c).
Proof.
  revert ls. induction (closer_wf lt_pending c) as [c _ IH]. intros ls Hg.
  constructor. intros r (c0 & [= <-] & Hs). destruct (lt_step_good _ _ _ Hg Hs) as (ls' & c' & -> & Hg').
  destruct (lt_step_closer _ _ _ Hg Hs) as [Hc|(t & -> & Hidle & Hnone & Hd & _)]; [by eapply IH|].
  (* after time has advanced a process runs or Renode makes an access *)
  constructor. intros r (c1 & [= <-] & Hs1). destruct (lt_step_good _ _ _ Hg' Hs1) as (ls1 & c1 & -> & Hg1).
  destruct (lt_step_closer _ _ _ Hg' Hs1) as [[Hone|(Hth & Hlt)]|(t' & -> & Hidle' & _ & _ & _)].
  - eapply IH; [|done]. by left.
  - eapply IH; [|done]. right. split; [done|]. unfold lt_pending in *. cbn [shared] in Hlt.
    replace (updates (set_time t (shared c))) with (updates (shared c)) in Hlt by (unfold updates, update_count; done). exact Hlt.
  - exfalso. destruct Hd as (n & d & s0 & k & Hn & ->). apply (Hidle' n). by exists (Wait_time d), s0, k.
Qed.
(** *** Where a run ends *)

Section Stuck.
Context (ls : list label) (c : config) (Hg : good ls c) (Hstuck : forall r, ~ step c r).

Lemma stuck_idle n : ~ is_ready c n.
Proof. intros (w & s0 & k & Hn & Hr). eapply Hstuck, step_resume. by econstructor. Qed.

Lemma stuck_updated i f : update_requested (fifo_of f (initiator i c.(shared))) = false.
Proof. destruct (update_requested _) eqn:Hu; [|done]. exfalso. eapply Hstuck. by apply (step_update _ _ i f). Qed.

Lemma stuck_time t : ~ due c t.
Proof.
  intros Ht. destruct (due_minimum _ _ _ Ht) as (m & Hm & Hmin).
  pose proof (g_timely _ _ Hg m Hm) as Hle. destruct (Z.eq_dec (time (shared c)) m) as [He|Hne].
  - destruct Hm as (n & d & s0 & k & Hn & ->). apply (stuck_idle n). by exists (Wait_time d), s0, k.
  - eapply Hstuck. apply (step_elapse _ _ m); [lia|apply stuck_idle|apply stuck_updated|done|done].
Qed.

(** What a FIFO that has updated and whose ends do not run holds. *)
Lemma updated_contents i f : let q := fifo_of f (initiator i c.(shared)) in
  contents q = q.(readable) /\ size - Z.of_nat (length (contents q)) <= num_free size q.
Proof.
  cbv zeta. pose proof (stuck_updated i f) as Hu. destruct (fifo_of f _) as [qr qn qw].
  unfold update_requested in Hu. cbn [num_read written] in Hu. apply orb_false_iff in Hu as [Hn Hw].
  apply Z.ltb_ge in Hn. apply negb_false_iff, bool_decide_eq_true in Hw as ->.
  unfold contents, num_free, num_available. cbn [readable num_read written]. rewrite app_nil_r. cbn. split; [done|lia].
Qed.

(** What a process that has not ended waits for. *)
Lemma stuck_waits n lb p : ls !! n = Some lb -> c.(threads) !! n = Some p ->
  (exists s, p = Ret s tt /\ final lb) \/
  (exists e s k, p = Wait (Wait_event e) s k /\ waits lb (Wait_event e) s /\
     ~ ready size n (Wait_event e) s c.(shared)).
Proof.
  intros Hl Hn. pose proof (pool_threads _ _ _ _ _ _ _ (g_pool _ _ Hg) n lb p Hl Hn) as Hok.
  destruct p as [s []|f|w s k]; [left; by exists s|done|right]. destruct Hok as [Hw _]. destruct w as [d|e|].
  - exfalso. eapply stuck_time. by exists n, d, s, k.
  - exists e, s, k. split; [done|]. split; [done|]. intros Hr. apply (stuck_idle n). by exists (Wait_event e), s, k.
  - exfalso. destruct lb as [i g|i [m|ptr m]]; cbn in Hw.
    + destruct Hw as [?|[[? _]|[? _]]]; done.
    + by destruct Hw.
    + by destruct Hw as [(t & ? & _)|?].
Qed.

Lemma stuck_complete i : traffic_complete c i /\
  forall a x, Write_request a x ∈ plan -> word_at c.(shared).(m_targets) a = x.
Proof.
  destruct HS as [Hsize _ _ _ _ _]. pose proof (g_pool _ _ Hg) as Hpool. pose proof (pool_state _ _ _ _ _ _ _ Hpool) as (_ & _ & HI).
  destruct (HI i) as (g & l & [Hgl Hsl] & [Htg _ _ [_ _ Hlen (D & A & T & [Hs Hf Ha Ht _ Hw _ _])]]).
  destruct (pool_thread _ _ _ _ _ _ _ _ _ Hpool Hgl) as (pg & Hpg & _).
  destruct (pool_thread _ _ _ _ _ _ _ _ _ Hpool Hsl) as (pl & Hpl & _).
  destruct (updated_contents i Request_fifo) as [Hrq Hrqf], (updated_contents i Response_fifo) as [Hrp Hrpf].
  cbn [fifo_of] in *.
  assert (HlA : (length A + length T <= 4)%nat) by (rewrite Hf, length_app in Hlen; lia).
  assert (HA : length A = length (contents (m_response_fifo (initiator i (shared c))) ++ serving l)) by (by rewrite <- Ha, length_fmap).
  assert (HT : length T = length (contents (m_request_fifo (initiator i (shared c))))) by (by rewrite <- Ht, length_fmap).
  rewrite length_app in HA.
  (* the initiator waits for a request, and there is none *)
  destruct (stuck_waits _ _ _ Hsl Hpl) as [(s & _ & [])|(e & s & k & -> & Hwait & Hnr)].
  assert (Hidle : serving l = [] /\ e = (i, data_written_event Request_fifo)).
  { destruct l as [m|ptr m]; cbn in Hwait.
    - destruct Hwait as [?|[= ->]]; done.
    - exfalso. destruct Hwait as [(t & ? & _)|[= ->]]; [done|]. apply Hnr. cbn. cbn in HA. lia. }
  destruct Hidle as [Hserving ->]. cbn in Hnr. rewrite Hserving in *.
  assert (HTnil : T = []).
  { apply length_zero_iff_nil. rewrite HT, Hrq. unfold num_available in Hnr. lia. }
  subst T. cbn in Ht, Hs, HT. rewrite app_nil_r in Hs, Hf, Ha. subst A D.
  (* so the generator does not wait for a response *)
  destruct (stuck_waits _ _ _ Hgl Hpg) as [(s' & -> & Hfin)|(e & s' & k' & -> & Hwait' & Hnr')].
  - destruct Hfin as (Hflight & Hsent & Hq & Hact). rewrite Hflight in Ha. cbn in Ha. split.
    + split; [by exists s'|]. split; [by exists s, k|]. cbv zeta. by rewrite Htg.
    + intros a x Hx. apply Hw. by rewrite Hsent.
  - exfalso. destruct Hwait' as [?|[[[= ->] Hfl]|[[= ->] Hfl]]]; [done|..]; cbn in Hnr'.
    + rewrite <- HT in Hrqf. lia.
    + unfold num_available in Hnr'. rewrite <- Hrp, <- Ha, length_fmap in Hnr'.
      destruct (g_flight g); [done|cbn in Hnr'; lia].
Qed.
End Stuck.

Lemma filled_by_plan t : (forall a x, Write_request a x ∈ plan -> word_at t a = x) -> memory_filled t.
Proof.
  intros Hw port j Hp Hj. apply Hw. unfold plan, pass_requests. rewrite !elem_of_app, !list_elem_of_fmap.
  assert (Hu : u32 (port * 2 ^ 28 + 4 * j) = port * 2 ^ 28 + 4 * j) by (apply wrap_small; lia).
  destruct Hp as [-> | ->]; [left|right]; left; exists j; (split; [|apply elem_of_seqZ; lia]);
    unfold written_data; cbn [Z.eqb]; [change base_address_1 with (0 * 2 ^ 28)|change base_address_2 with (1 * 2 ^ 28)];
    rewrite Hu; done.
Qed.

Lemma good_fifos ls c i : good ls c -> fifos_ok (initiator i c.(shared)).
Proof.
  intros [Hpool _]. destruct (pool_state _ _ _ _ _ _ _ Hpool) as (_ & _ & HI).
  destruct (HI i) as (g & l & _ & [_ _ _ [_ Hnd Hlen (D & A & T & [_ Hf Ha Ht _ _ Hans _])]]).
  rewrite Hf, fmap_app, Ha, Ht in Hnd. rewrite Hf, length_app in Hlen. split.
  - rewrite <- app_assoc in Hnd. apply NoDup_app in Hnd as (Hnd1 & Hdis & Hnd2).
    apply NoDup_app in Hnd2 as (_ & _ & Hnd3). apply NoDup_app. split; [done|]. split; [|done].
    intros x Hx Hy. apply (Hdis x Hx). apply elem_of_app. by right.
  - assert (HA : length A = length (contents (m_response_fifo (initiator i (shared c))) ++ serving l)) by (by rewrite <- Ha, length_fmap).
    assert (HT : length T = length (contents (m_request_fifo (initiator i (shared c))))) by (by rewrite <- Ht, length_fmap).
    rewrite length_app in HA. lia.
  - intros ptr Hptr. assert (Hin : ptr ∈ A.*1) by (rewrite Ha; apply elem_of_app; by left).
    apply list_elem_of_fmap in Hin as ([q r] & -> & Hq). destruct (Hans q r Hq) as (p & k & Hp & [Hst _]).
    by exists p, k.
Qed.
End Runs.

(** ** Properties *)

(** C5: no run of the loosely-timed example fails, in whatever order its four
    processes run, its FIFOs update and Renode accesses the rest of the targets
    through the third port of the bus: neither generator reports a bad status
    or bad data although both write the same words, nothing undefined is
    executed and the bus decodes every address; at all times the transactions
    in the FIFOs of an initiator are distinct and at most four, and every one
    that is handed back has succeeded. *)
Theorem lt_system_safe size payload_reset fuel iterations garbage accesses r :
  surroundings size payload_reset fuel iterations garbage accesses ->
  reaches size payload_reset fuel iterations garbage accesses r ->
  exists c, r = Ok c /\ forall i, fifos_ok (initiator i c.(shared)).
Proof.
  intros HS Hr. destruct (lt_reachable_good _ _ _ _ _ _ HS _ Hr) as (c & -> & ls & Hg).
  exists c. split; [done|]. intros i. by eapply good_fifos.
Qed.

(** C6: every run of the loosely-timed example ends: there is no infinite
    sequence of steps, and where no further step is possible both generators
    have returned with all four transactions back in their pools, the FIFOs are
    empty, both initiator threads wait for a request, and the first target
    holds the address of each of its sixteen words, the second the complement. *)
Theorem lt_system_ends size payload_reset fuel iterations garbage accesses :
  surroundings size payload_reset fuel iterations garbage accesses ->
  sn (rstep size) (new_top size payload_reset fuel iterations garbage accesses) /\
  forall r, reaches size payload_reset fuel iterations garbage accesses r -> nf (rstep size) r ->
    exists c, r = Ok c /\ (forall i, traffic_complete c i) /\ memory_filled c.(shared).(m_targets).
Proof.
  intros HS. split.
  - destruct (lt_new_top_good _ _ _ _ _ _ HS) as (c & -> & Hg). by eapply lt_good_terminates.
  - intros r Hr Hnf. destruct (lt_reachable_good _ _ _ _ _ _ HS _ Hr) as (c & -> & ls & Hg).
    pose proof (steps_stuck _ _ Hnf) as Hstuck.
    exists c. split; [done|]. split; [intros i; by eapply stuck_complete|].
    apply filled_by_plan. by eapply (stuck_complete _ _ _ _ _ _ HS _ _ Hg Hstuck Initiator_1).
Qed.

(** *** The example with the default size of a FIFO *)

Definition example_garbage (_ : index) (_ : Z) : list Z := [0xAA; 0xAA; 0xAA; 0xAA].

(** Renode writes the word after those of the generators, and reads the first. *)
Definition example_accesses : list payload :=
  [mk_payload TLM_WRITE_COMMAND 0x40 (Some [1; 2; 3; 4]) 4 4 None 0 false TLM_INCOMPLETE_RESPONSE;
   mk_payload TLM_READ_COMMAND 0 (Some [0; 0; 0; 0]) 4 4 None 0 false TLM_INCOMPLETE_RESPONSE].

Lemma example_accesses_ok : Forall renode_access example_accesses.
Proof.
  unfold example_accesses. repeat apply List.Forall_cons; [..|apply List.Forall_nil];
    (split; [split; [cbn; lia|cbn; lia|by intros d [= <-]; solve_bytes]
            |eexists; split; [by split|cbn; lia]|cbn; lia|by vm_compute]).
Qed.

Lemma example_surroundings : surroundings 16 (fun p => p) 5 65 example_garbage example_accesses.
Proof. split; [lia|done|lia|lia|intros i j; split; [cbn; lia|solve_bytes]|apply example_accesses_ok]. Qed.

Lemma lt_system_safe_witness :
  exists c, new_top 16 (fun p => p) 5 65 example_garbage example_accesses = Ok c /\
    forall i, fifos_ok (initiator i c.(shared)).
Proof.
  destruct (lt_system_safe 16 (fun p => p) 5 65 example_garbage example_accesses
    (new_top 16 (fun p => p) 5 65 example_garbage example_accesses) example_surroundings) as (c & Hc & H).
  - apply rtc_refl.
  - by exists c.
Defined.

Lemma lt_system_ends_witness :
  sn (rstep 16) (new_top 16 (fun p => p) 5 65 example_garbage example_accesses) /\
  forall r, reaches 16 (fun p => p) 5 65 example_garbage example_accesses r -> nf (rstep 16) r ->
    exists c, r = Ok c /\ (forall i, traffic_complete c i) /\ memory_filled c.(shared).(m_targets).
Proof. exact (lt_system_ends 16 (fun p => p) 5 65 example_garbage example_accesses example_surroundings). Defined.
