(* ===== verification/RegisterFile.v ===== *)
(** * Memory-mapped register files that drive signals

    The decoding shared by riscv_signals and hmp_signals: which fields an
    access overlaps, the interrupt loop, and the facts about fields that an
    access leaves alone. *)

From S2P Require Import Prelude Tlm.
From stdpp Require Import base numbers list.
#[local] Open Scope Z_scope.

(** ** Definitions *)

(** [control_registers[i] != 0] *)
Definition reg_set (regs : list Z) (i : Z) : bool := negb (regs !!! Z.to_nat i =? 0).

Definition overlaps (offset length start size : Z) : bool :=
  (offset <? u64 (start + size)) && (start <? u64 (offset + length)).

(** One iteration of the interrupt loop. *)
Definition write_interrupt (regs : list Z) (offset length : Z) (l : list bool) (i : Z) :
  list bool :=
  if overlaps offset length i 1 then <[Z.to_nat i := reg_set regs i]> l else l.

(** ** Lemmas *)

Lemma overlaps_iff offset length start size :
  0 <= offset -> 0 <= length -> offset + length < 2 ^ 64 ->
  0 <= start -> 0 <= size -> start + size < 2 ^ 64 ->
  overlaps offset length start size = true <->
  offset < start + size /\ start < offset + length.
Proof.
  intros. unfold overlaps. rewrite !wrap_small by lia.
  rewrite andb_true_iff, !Z.ltb_lt. done.
Qed.

(** A register field the write does not overlap keeps its value. *)
Lemma field_unchanged regs off bs start size :
  0 <= off -> off + Z.of_nat (length bs) <= Z.of_nat (length regs) ->
  0 <= start -> 0 < size -> start + size <= Z.of_nat (length regs) ->
  Z.of_nat (length regs) < 2 ^ 64 ->
  overlaps off (Z.of_nat (length bs)) start size = false ->
  slice (splice regs off bs) start size = slice regs start size.
Proof.
  intros ? ? ? ? ? ? Ho. apply slice_splice_disjoint; try lia.
  destruct (decide (off < start + size /\ start < off + Z.of_nat (length bs))) as [Hy|]; [|lia].
  apply (overlaps_iff off (Z.of_nat (length bs)) start size) in Hy; [congruence|lia..].
Qed.

Lemma reg_unchanged regs off bs i :
  0 <= off -> off + Z.of_nat (length bs) <= Z.of_nat (length regs) ->
  0 <= i < Z.of_nat (length regs) -> Z.of_nat (length regs) < 2 ^ 64 ->
  overlaps off (Z.of_nat (length bs)) i 1 = false ->
  reg_set (splice regs off bs) i = reg_set regs i.
Proof.
  intros ? ? ? ? Ho. unfold reg_set. rewrite lookup_total_splice_out; try done; try lia.
  destruct (decide (off < i + 1 /\ i < off + Z.of_nat (length bs))) as [Hy|]; [|lia].
  apply (overlaps_iff off (Z.of_nat (length bs)) i 1) in Hy; [congruence|lia..].
Qed.

Lemma write_interrupts_length regs off len l js :
  length (foldl (write_interrupt regs off len) l js) = length l.
Proof.
  revert l. induction js as [|j js IH]; intros l; [done|]. cbn. rewrite IH.
  unfold write_interrupt. case_match; [apply length_insert | done].
Qed.

(** The loop writes exactly the interrupt inputs the access overlaps. *)
Lemma write_interrupts_lookup regs off len l js i :
  Forall (fun j => 0 <= j) js -> 0 <= i < Z.of_nat (length l) ->
  foldl (write_interrupt regs off len) l js !! Z.to_nat i =
  if decide (i ∈ js /\ overlaps off len i 1 = true)
  then Some (reg_set regs i) else l !! Z.to_nat i.
Proof.
  intros Hjs Hi. revert l Hi. induction Hjs as [|j js Hj Hjs IH]; intros l Hi; cbn [foldl].
  - rewrite decide_False; [done|]. intros [Hin _]. by apply not_elem_of_nil in Hin.
  - assert (length (write_interrupt regs off len l j) = length l) as Hlen
      by (unfold write_interrupt; destruct (overlaps off len j 1); [apply length_insert | done]).
    rewrite IH by (rewrite Hlen; done). destruct (decide (i = j)) as [->|Hne].
    + unfold write_interrupt. destruct (overlaps off len j 1) eqn:Ho.
      * rewrite (decide_True (P := j ∈ j :: js /\ _)) by (split; [constructor|done]).
        case_decide; [done|]. apply list_lookup_insert_eq. lia.
      * rewrite !decide_False by (intros []; done). done.
    + rewrite (decide_ext (i ∈ j :: js /\ _) (i ∈ js /\ overlaps off len i 1 = true))
        by (rewrite elem_of_cons; split; [intros [[->|?] ?]; done | intros [??]; eauto]).
      case_decide; [done|]. unfold write_interrupt. destruct (overlaps off len j 1); [|done].
      rewrite list_lookup_insert_ne by lia. done.
Qed.

(** *** Outputs that show the registers

    After a write of [bs] at [off], an output that is updated when the write
    overlaps its register, and left alone otherwise, shows the register again. *)
Section Mirror.
Context (regs bs : list Z) (off : Z).
Context (Hoff : 0 <= off) (Hlen : off + Z.of_nat (length bs) <= Z.of_nat (length regs)).
Context (Hsize : Z.of_nat (length regs) < 2 ^ 32).

Lemma mirror_bit b i :
  0 <= i < Z.of_nat (length regs) -> b = reg_set regs i ->
  (if overlaps off (Z.of_nat (length bs)) i 1 then reg_set (splice regs off bs) i else b) =
  reg_set (splice regs off bs) i.
Proof using Hoff Hlen Hsize.
  intros Hi ->. destruct (overlaps _ _ _ _) eqn:E; [done|].
  symmetry. apply reg_unchanged; done || lia.
Qed.

Lemma mirror_field {A} (f : list Z -> A) start size osize v :
  0 <= start -> 0 < size <= osize -> start + osize <= Z.of_nat (length regs) ->
  v = f (slice regs start size) ->
  (if overlaps off (Z.of_nat (length bs)) start osize
   then f (slice (splice regs off bs) start size) else v) =
  f (slice (splice regs off bs) start size).
Proof using Hoff Hlen Hsize.
  intros Hs Ho He ->. destruct (overlaps _ _ _ osize) eqn:E; [done|].
  f_equal. symmetry. apply field_unchanged; try lia.
  apply not_true_is_false. intros Hy. apply overlaps_iff in Hy; [|lia..].
  apply not_true_iff_false in E. apply E. apply overlaps_iff; lia.
Qed.

Lemma mirror_interrupts l n :
  0 <= n <= Z.of_nat (length regs) -> Z.of_nat (length l) = n ->
  (forall i, 0 <= i < n -> l !! Z.to_nat i = Some (reg_set regs i)) ->
  forall i, 0 <= i < n ->
    foldl (write_interrupt (splice regs off bs) off (Z.of_nat (length bs))) l (seqZ 0 n)
      !! Z.to_nat i = Some (reg_set (splice regs off bs) i).
Proof using Hoff Hlen Hsize.
  intros Hn Hl Hmir i Hi. rewrite write_interrupts_lookup.
  - case_decide as Hd; [done|]. rewrite (Hmir i Hi). f_equal. symmetry.
    apply reg_unchanged; try lia. apply not_true_is_false. intros Ho. apply Hd.
    split; [|done]. apply elem_of_seqZ. lia.
  - apply Forall_forall. intros j Hj%elem_of_seqZ. lia.
  - lia.
Qed.
End Mirror.
