(* ===== verification/RiscvSignals.v ===== *)
(** * RISC-V signals (examples/riscv-signals)

    [riscv_signals] is a register file whose writes drive output signals, a
    memory, and a thread that writes to the Renode system bus when triggered
    (see RiscvWriter); [bus] splits Renode's accesses between the two targets.  An output port is
    represented by the value last written to it. *)

From S2P Require Import Prelude Tlm Kernel RegisterFile.
From stdpp Require Import base numbers list.
#[local] Open Scope Z_scope.

(** ** Definitions *)

Definition NUM_INTERRUPTS : Z := 16.
Definition SYSTEM_BUS_TEST_ADDRESS : Z := 0x80001000.
Definition SYSTEM_BUS_TEST_VALUE : Z := 0x5A5AA5A5.
Definition RESET_OFFSET : Z := 0x100.
Definition NMI_OFFSET : Z := 0x104.
Definition BOOT_ADDRESS_OFFSET : Z := 0x108.
Definition CLOCK_PERIOD_OFFSET : Z := 0x110.
Definition SYSTEM_BUS_TRIGGER_OFFSET : Z := 0x114.
Definition DEFAULT_BOOT_ADDRESS : Z := 0x80000000.
Definition DEFAULT_CLOCK_PERIOD_NS : Z := 10.
Definition CONTROL_SIZE : Z := 0x1000.
Definition MEMORY_SIZE : Z := 0x1000.

Record riscv_signals : Type := mk_riscv_signals {
  (* output ports *)
  reset_in : bool;
  nmi_in : bool;
  boot_address : Z;
  interrupt_inputs : list bool;
  clock_period : sc_time;
  (* state *)
  control_registers : list Z;
  memory : list Z;
  system_bus_write_notified : bool;   (* a notification of the event is pending *)
  system_bus_write_pending : bool;
  boot_address_value : Z;
  clock_period_ns : Z;
}.

Definition set_interrupts l (s : riscv_signals) : riscv_signals :=
  mk_riscv_signals s.(reset_in) s.(nmi_in) s.(boot_address) l s.(clock_period)
    s.(control_registers) s.(memory) s.(system_bus_write_notified)
    s.(system_bus_write_pending) s.(boot_address_value) s.(clock_period_ns).
Definition set_reset b (s : riscv_signals) : riscv_signals :=
  mk_riscv_signals b s.(nmi_in) s.(boot_address) s.(interrupt_inputs) s.(clock_period)
    s.(control_registers) s.(memory) s.(system_bus_write_notified)
    s.(system_bus_write_pending) s.(boot_address_value) s.(clock_period_ns).
Definition set_nmi b (s : riscv_signals) : riscv_signals :=
  mk_riscv_signals s.(reset_in) b s.(boot_address) s.(interrupt_inputs) s.(clock_period)
    s.(control_registers) s.(memory) s.(system_bus_write_notified)
    s.(system_bus_write_pending) s.(boot_address_value) s.(clock_period_ns).
Definition set_boot_address a (s : riscv_signals) : riscv_signals :=
  mk_riscv_signals s.(reset_in) s.(nmi_in) a s.(interrupt_inputs) s.(clock_period)
    s.(control_registers) s.(memory) s.(system_bus_write_notified)
    s.(system_bus_write_pending) a s.(clock_period_ns).
Definition set_clock_period n (s : riscv_signals) : riscv_signals :=
  mk_riscv_signals s.(reset_in) s.(nmi_in) s.(boot_address) s.(interrupt_inputs) (sc_ns n)
    s.(control_registers) s.(memory) s.(system_bus_write_notified)
    s.(system_bus_write_pending) s.(boot_address_value) n.
Definition set_registers r (s : riscv_signals) : riscv_signals :=
  mk_riscv_signals s.(reset_in) s.(nmi_in) s.(boot_address) s.(interrupt_inputs)
    s.(clock_period) r s.(memory) s.(system_bus_write_notified)
    s.(system_bus_write_pending) s.(boot_address_value) s.(clock_period_ns).
Definition set_memory m (s : riscv_signals) : riscv_signals :=
  mk_riscv_signals s.(reset_in) s.(nmi_in) s.(boot_address) s.(interrupt_inputs)
    s.(clock_period) s.(control_registers) m s.(system_bus_write_notified)
    s.(system_bus_write_pending) s.(boot_address_value) s.(clock_period_ns).
Definition set_pending n p (s : riscv_signals) : riscv_signals :=
  mk_riscv_signals s.(reset_in) s.(nmi_in) s.(boot_address) s.(interrupt_inputs)
    s.(clock_period) s.(control_registers) s.(memory) n p
    s.(boot_address_value) s.(clock_period_ns).

(** The constructor: signals are low, the registers that have a reset value
    hold it, the rest is zero. *)
Definition new_riscv_signals : riscv_signals :=
  let regs := replicate (Z.to_nat CONTROL_SIZE) 0 in
  let regs := splice regs BOOT_ADDRESS_OFFSET (le_encode 8 DEFAULT_BOOT_ADDRESS) in
  let regs := splice regs CLOCK_PERIOD_OFFSET (le_encode 4 DEFAULT_CLOCK_PERIOD_NS) in
  mk_riscv_signals false false DEFAULT_BOOT_ADDRESS
    (replicate (Z.to_nat NUM_INTERRUPTS) false) (sc_ns DEFAULT_CLOCK_PERIOD_NS)
    regs (replicate (Z.to_nat MEMORY_SIZE) 0) false false
    DEFAULT_BOOT_ADDRESS DEFAULT_CLOCK_PERIOD_NS.

Definition apply_control_write (offset length : Z) (s : riscv_signals) : riscv_signals :=
  let regs := s.(control_registers) in
  let s := set_interrupts
    (foldl (write_interrupt regs offset length) s.(interrupt_inputs) (seqZ 0 NUM_INTERRUPTS)) s in
  let s := if overlaps offset length RESET_OFFSET 1
           then set_reset (reg_set regs RESET_OFFSET) s else s in
  let s := if overlaps offset length NMI_OFFSET 1
           then set_nmi (reg_set regs NMI_OFFSET) s else s in
  let s := if overlaps offset length BOOT_ADDRESS_OFFSET 8
           then set_boot_address (le_decode (slice regs BOOT_ADDRESS_OFFSET 8)) s else s in
  let s := if overlaps offset length CLOCK_PERIOD_OFFSET 4
           then set_clock_period (le_decode (slice regs CLOCK_PERIOD_OFFSET 4)) s else s in
  if overlaps offset length SYSTEM_BUS_TRIGGER_OFFSET 4 then
    let trigger := le_decode (slice regs SYSTEM_BUS_TRIGGER_OFFSET 4) in
    if negb (trigger =? 0) then set_pending true true s else s
  else s.

Definition handle_control : b_transport_t riscv_signals := fun s payload t =>
  let offset := payload.(address) in
  let length := payload.(data_length) in
  if Z.of_nat (List.length s.(control_registers)) <? u64 (offset + length) then
    Ok (s, set_response_status TLM_ADDRESS_ERROR_RESPONSE payload, t)
  else if is_read payload then
    bs ← load s.(control_registers) offset length;
    payload ← data_write payload bs;
    Ok (s, set_response_status TLM_OK_RESPONSE payload, t)
  else if is_write payload then
    bs ← data_read payload length;
    regs ← store s.(control_registers) offset bs;
    let s := apply_control_write offset length (set_registers regs s) in
    Ok (s, set_response_status TLM_OK_RESPONSE payload, t)
  else Ok (s, set_response_status TLM_COMMAND_ERROR_RESPONSE payload, t).

Definition handle_memory : b_transport_t riscv_signals := fun s payload t =>
  let offset := payload.(address) in
  let length := payload.(data_length) in
  if Z.of_nat (List.length s.(memory)) <? u64 (offset + length) then
    Ok (s, set_response_status TLM_ADDRESS_ERROR_RESPONSE payload, t)
  else if is_read payload then
    bs ← load s.(memory) offset length;
    payload ← data_write payload bs;
    Ok (s, set_response_status TLM_OK_RESPONSE payload, t)
  else if is_write payload then
    bs ← data_read payload length;
    mem ← store s.(memory) offset bs;
    Ok (set_memory mem s, set_response_status TLM_OK_RESPONSE payload, t)
  else Ok (s, set_response_status TLM_COMMAND_ERROR_RESPONSE payload, t).

(** The bus between Renode and the two target sockets. *)
Definition bus_b_transport {W} (control memory : b_transport_t W) : b_transport_t W :=
  fun w payload delay =>
  let addr := payload.(address) in
  if addr <? 0x1000 then control w payload delay
  else
    let payload := set_address (u64 (addr - 0x1000)) payload in
    '(w, payload, delay) ← memory w payload delay;
    Ok (w, set_address addr payload, delay).

(** The bus as it is bound in [top]. *)
Definition system_b_transport : b_transport_t riscv_signals :=
  bus_b_transport handle_control handle_memory.

(** The event the writer thread waits for. *)
Inductive event : Type := system_bus_write_event.

(** The payload of the SystemC-initiated write. *)
Definition bus_test_payload : payload :=
  mk_payload TLM_WRITE_COMMAND SYSTEM_BUS_TEST_ADDRESS
    (Some (le_encode 4 SYSTEM_BUS_TEST_VALUE)) 4 4 None 0 false TLM_INCOMPLETE_RESPONSE.

Section Writer.
(** The rest of the simulation, and the transport behind the initiator
    socket, which may suspend the thread. *)
Context {W : Type}.
Context (system_bus_transport :
  payload -> sc_time -> proc event (riscv_signals * W) (payload * sc_time)).

(** One iteration of [while (true)] in [system_bus_writer]. *)
Definition system_bus_writer_body : proc event (riscv_signals * W) unit :=
  s ← p_get;
  (if negb s.1.(system_bus_write_pending) then p_wait (Wait_event system_bus_write_event)
   else mret tt);;
  p_modify (fun s => (set_pending s.1.(system_bus_write_notified) false s.1, s.2));;
  p_wait (Wait_time SC_ZERO_TIME);;
  _ ← system_bus_transport bus_test_payload SC_ZERO_TIME;
  mret tt.
End Writer.

(** The outputs show the registers. *)
Record mirrors (s : riscv_signals) : Prop := {
  mir_regs : length s.(control_registers) = Z.to_nat CONTROL_SIZE;
  mir_bytes : is_bytes s.(control_registers);
  mir_memory : length s.(memory) = Z.to_nat MEMORY_SIZE;
  mir_irq_len : length s.(interrupt_inputs) = Z.to_nat NUM_INTERRUPTS;
  mir_irq : forall i, 0 <= i < NUM_INTERRUPTS ->
    s.(interrupt_inputs) !! Z.to_nat i = Some (reg_set s.(control_registers) i);
  mir_reset : s.(reset_in) = reg_set s.(control_registers) RESET_OFFSET;
  mir_nmi : s.(nmi_in) = reg_set s.(control_registers) NMI_OFFSET;
  mir_boot : s.(boot_address) = le_decode (slice s.(control_registers) BOOT_ADDRESS_OFFSET 8);
  mir_clock : s.(clock_period) =
    sc_ns (le_decode (slice s.(control_registers) CLOCK_PERIOD_OFFSET 4));
}.

(** ** Lemmas *)

Section Apply.
Context (regs bs : list Z) (off : Z) (s : riscv_signals).
Context (Hm : mirrors s) (Hregs : regs = s.(control_registers)).
Context (Hoff : 0 <= off) (Hlen : off + Z.of_nat (length bs) <= Z.of_nat (length regs)).
Context (Hbs : is_bytes bs).

Lemma regs_size : Z.of_nat (length regs) = 0x1000.
Proof using Hm Hregs. rewrite Hregs, (mir_regs s Hm). done. Qed.

Let s' := apply_control_write off (Z.of_nat (length bs)) (set_registers (splice regs off bs) s).

(** Every output after the write, whatever the write overlaps. *)
Lemma apply_outputs :
  s'.(control_registers) = splice regs off bs /\ s'.(memory) = s.(memory) /\
  s'.(interrupt_inputs) =
    foldl (write_interrupt (splice regs off bs) off (Z.of_nat (length bs)))
      s.(interrupt_inputs) (seqZ 0 NUM_INTERRUPTS) /\
  s'.(reset_in) = (if overlaps off (Z.of_nat (length bs)) RESET_OFFSET 1
    then reg_set (splice regs off bs) RESET_OFFSET else s.(reset_in)) /\
  s'.(nmi_in) = (if overlaps off (Z.of_nat (length bs)) NMI_OFFSET 1
    then reg_set (splice regs off bs) NMI_OFFSET else s.(nmi_in)) /\
  s'.(boot_address) = (if overlaps off (Z.of_nat (length bs)) BOOT_ADDRESS_OFFSET 8
    then le_decode (slice (splice regs off bs) BOOT_ADDRESS_OFFSET 8) else s.(boot_address)) /\
  s'.(clock_period) = (if overlaps off (Z.of_nat (length bs)) CLOCK_PERIOD_OFFSET 4
    then sc_ns (le_decode (slice (splice regs off bs) CLOCK_PERIOD_OFFSET 4))
    else s.(clock_period)).
Proof using Type.
  unfold s', apply_control_write. cbn [control_registers set_registers].
  destruct (overlaps off _ RESET_OFFSET 1), (overlaps off _ NMI_OFFSET 1),
    (overlaps off _ BOOT_ADDRESS_OFFSET 8), (overlaps off _ CLOCK_PERIOD_OFFSET 4),
    (overlaps off _ SYSTEM_BUS_TRIGGER_OFFSET 4); cbn;
    try (destruct (negb _)); cbn; by split_and!.
Qed.

Lemma apply_mirrors : mirrors s'.
Proof using Hm Hregs Hoff Hlen Hbs.
  pose proof regs_size as Hsz. destruct apply_outputs as (Er & Em & Ei & Ere & En & Eb & Ec).
  assert (Hsp : length (splice regs off bs) = length regs) by (apply splice_length; lia).
  split; rewrite ?Er, ?Em, ?Ei, ?Ere, ?En, ?Eb, ?Ec.
  - rewrite Hsp, Hregs. apply Hm.
  - apply splice_bytes; [rewrite Hregs; apply Hm | done].
  - apply Hm.
  - rewrite write_interrupts_length. apply Hm.
  - apply mirror_interrupts; try done; try (unfold NUM_INTERRUPTS in *; lia).
    + rewrite (mir_irq_len s Hm). done.
    + rewrite Hregs. apply Hm.
  - apply mirror_bit; try done; try (unfold RESET_OFFSET; lia). rewrite Hregs. apply Hm.
  - apply mirror_bit; try done; try (unfold NMI_OFFSET; lia). rewrite Hregs. apply Hm.
  - apply mirror_field; try done; try (unfold BOOT_ADDRESS_OFFSET; lia). rewrite Hregs. apply Hm.
  - apply (mirror_field _ _ _ Hoff Hlen ltac:(lia) (fun b => sc_ns (le_decode b)));
      try done; try (unfold CLOCK_PERIOD_OFFSET; lia). rewrite Hregs. apply Hm.
Qed.
End Apply.

(** A control access, on every branch. *)
Definition spec_control (s : riscv_signals) (p : payload) (d : list Z) (t : sc_time) :
  riscv_signals * payload * sc_time :=
  if CONTROL_SIZE <? p.(address) + p.(data_length) then
    (s, set_response_status TLM_ADDRESS_ERROR_RESPONSE p, t)
  else match p.(command) with
  | TLM_READ_COMMAND =>
      (s, set_response_status TLM_OK_RESPONSE
        (set_data (Some (splice d 0 (slice s.(control_registers) p.(address) p.(data_length)))) p), t)
  | TLM_WRITE_COMMAND =>
      (apply_control_write p.(address) p.(data_length)
         (set_registers (splice s.(control_registers) p.(address) (slice d 0 p.(data_length))) s),
       set_response_status TLM_OK_RESPONSE p, t)
  | TLM_IGNORE_COMMAND => (s, set_response_status TLM_COMMAND_ERROR_RESPONSE p, t)
  end.

Lemma handle_control_spec s p d t :
  mirrors s -> payload_wf p -> has_buffer p d -> p.(address) + p.(data_length) < 2 ^ 64 ->
  handle_control s p t = Ok (spec_control s p d t).
Proof.
  intros Hm [Ha Hl _] [Hd Hb] Hw. unfold handle_control, spec_control.
  rewrite (mir_regs s Hm), Z2Nat.id by done. rewrite wrap_small by lia.
  destruct (Z.ltb_spec CONTROL_SIZE (address p + data_length p)); [done|].
  pose proof (mir_regs s Hm) as Hr. unfold CONTROL_SIZE in *.
  rewrite is_read_cmd, is_write_cmd. destruct (command p); [| |done].
  - rewrite load_Ok, bind_Ok by lia.
    rewrite (data_write_splice p d), bind_Ok by (rewrite ?slice_length; done || lia). done.
  - rewrite (data_read_slice p d), bind_Ok by (done || lia).
    rewrite store_Ok, bind_Ok by (rewrite ?slice_length; lia). done.
Qed.

Lemma spec_control_mirrors s p d t :
  mirrors s -> payload_wf p -> has_buffer p d -> mirrors (spec_control s p d t).1.1.
Proof.
  intros Hm [Ha Hl Hby] [Hd Hb]. unfold spec_control, CONTROL_SIZE.
  destruct (Z.ltb_spec 0x1000 (address p + data_length p)); [done|].
  destruct (command p); cbn [fst]; [done| |done].
  assert (Hlen : Z.of_nat (length (slice d 0 (data_length p))) = data_length p)
    by (rewrite slice_length; lia).
  rewrite <- Hlen at 1. pose proof (mir_regs s Hm).
  apply apply_mirrors; try done; rewrite ?Hlen; try (unfold CONTROL_SIZE in *; lia).
  apply slice_bytes, Hby, Hd.
Qed.

Lemma handle_memory_outputs s p t s' p' t' :
  handle_memory s p t = Ok (s', p', t') -> length s'.(memory) = length s.(memory) /\
  s' = set_memory s'.(memory) s.
Proof.
  unfold handle_memory. destruct (_ <? _); [intros [= <- _ _]; by destruct s|].
  destruct (is_read p).
  - intros H. apply bind_Ok_inv in H as (bs & _ & H). apply bind_Ok_inv in H as (q & _ & [= <- _ _]).
    by destruct s.
  - destruct (is_write p); [|intros [= <- _ _]; by destruct s].
    intros H. apply bind_Ok_inv in H as (bs & _ & H). apply bind_Ok_inv in H as (mem & Hs & [= <- _ _]).
    apply store_inv in Hs as (-> & ? & ?). cbn. rewrite splice_length by done. done.
Qed.

Lemma new_riscv_signals_mirrors : mirrors new_riscv_signals.
Proof.
  split; try reflexivity.
  - cbn [new_riscv_signals control_registers].
    apply splice_bytes; [apply splice_bytes|]; auto with mem.
    by apply Forall_replicate.
  - intros i Hi.
    assert (Hall : Forall (fun i => interrupt_inputs new_riscv_signals !! Z.to_nat i =
      Some (reg_set (control_registers new_riscv_signals) i)) (seqZ 0 16)).
    { vm_compute. repeat constructor. }
    rewrite Forall_forall in Hall. apply Hall, elem_of_seqZ. unfold NUM_INTERRUPTS in Hi. lia.
Qed.

(** ** Properties *)

(** C15: after construction, and after any number of accesses that Renode makes
    through the bus, the reset, NMI, interrupt, boot-address and clock-period
    outputs show exactly what the control registers hold. *)
Theorem signals_mirror_registers accesses s :
  Forall (fun a => payload_wf a.1 /\ (exists d, has_buffer a.1 d) /\
                   a.1.(address) + a.1.(data_length) < 2 ^ 64) accesses ->
  foldl (fun r a => s ← r; '(s', _, _) ← system_b_transport s a.1 a.2; Ok s')
    (Ok new_riscv_signals) accesses = Ok s ->
  mirrors s.
Proof.
  intros Hacc. revert s. induction accesses as [|a accesses IH] using rev_ind; intros s.
  - intros [= <-]. apply new_riscv_signals_mirrors.
  - apply Forall_app in Hacc as [Hacc Ha]. inversion Ha as [|? ? (Hwf & [d Hd] & Hw) _]; subst.
    rewrite foldl_app. cbn [foldl]. intros H. apply bind_Ok_inv in H as (s0 & H0 & H).
    specialize (IH Hacc s0 H0). apply bind_Ok_inv in H as ([[s1 p1] t1] & H & [= <-]).
    unfold system_b_transport, bus_b_transport in H. destruct (Z.ltb_spec (address a.1) 0x1000).
    + rewrite (handle_control_spec s0 a.1 d a.2) in H by done. injection H as H.
      assert (s1 = (spec_control s0 a.1 d a.2).1.1) as -> by (by rewrite H).
      by apply spec_control_mirrors.
    + apply bind_Ok_inv in H as ([[s2 p2] t2] & H & [= <- _ _]).
      apply handle_memory_outputs in H as [Hl ->].
      destruct IH; split; cbn; try done. by rewrite Hl.
Qed.

Lemma signals_mirror_registers_witness :
  let w := mk_payload TLM_WRITE_COMMAND 0x100 (Some [1]) 1 1 None 0 false TLM_INCOMPLETE_RESPONSE in
  exists s, foldl (fun r a => s ← r; '(s', _, _) ← system_b_transport s a.1 a.2; Ok s')
    (Ok new_riscv_signals) [(w, 0)] = Ok s /\ s.(reset_in) = true /\ mirrors s.
Proof.
  cbv zeta. eexists. split; [vm_compute; reflexivity|]. split; [reflexivity|].
  apply (signals_mirror_registers [(mk_payload TLM_WRITE_COMMAND 0x100 (Some [1]) 1 1 None 0 false
    TLM_INCOMPLETE_RESPONSE, 0)]).
  - apply List.Forall_cons; [|apply List.Forall_nil]. cbn. split_and!.
    + split; cbn; [lia|lia|]. intros ? [= <-]. solve_bytes.
    + exists [1]. split; [reflexivity | cbn; lia].
    + lia.
  - vm_compute; reflexivity.
Defined.

(** A control access is bounds-checked, and does what its command says: an
    out-of-range access and an unsupported command change nothing but the
    status, a read returns the registers, a write stores the bytes and then
    applies them. *)
Theorem handle_control_functional s p d t :
  mirrors s -> payload_wf p -> has_buffer p d -> p.(address) + p.(data_length) < 2 ^ 64 ->
  handle_control s p t = Ok (spec_control s p d t).
Proof. apply handle_control_spec. Qed.

Lemma handle_control_functional_witness :
  let p := mk_payload TLM_READ_COMMAND 0x108 (Some (replicate 8 0)) 8 8 None 0 false
             TLM_INCOMPLETE_RESPONSE in
  handle_control new_riscv_signals p 0 =
    Ok (spec_control new_riscv_signals p (replicate 8 0) 0).
Proof.
  cbv zeta. apply handle_control_functional.
  - exact new_riscv_signals_mirrors.
  - split; cbn; [lia|lia|]. intros ? [= <-]. solve_bytes.
  - split; [reflexivity | cbn; lia].
  - cbn; lia.
Defined.

(** The bounds check of the memory target adds the 64-bit offset and the
    length modulo 2^64: an access whose end wraps around to an offset within
    the memory is let through and reads outside of the array. *)
Theorem handle_memory_wraps s p t :
  payload_wf p -> 2 ^ 64 <= p.(address) + p.(data_length) ->
  p.(address) + p.(data_length) - 2 ^ 64 <= Z.of_nat (length s.(memory)) < 2 ^ 32 ->
  p.(command) = TLM_READ_COMMAND ->
  handle_memory s p t = Err Undefined_behaviour.
Proof.
  intros [Ha Hl _] Hw Hlen Hc. unfold handle_memory.
  assert (u64 (address p + data_length p) = address p + data_length p - 2 ^ 64) as ->.
  { unfold wrap. symmetry. apply Z.mod_unique with 1; lia. }
  destruct (Z.ltb_spec (Z.of_nat (length (memory s))) (address p + data_length p - 2 ^ 64)); [lia|].
  rewrite is_read_cmd, Hc. unfold load.
  destruct (in_block _ _ _) eqn:E; [|done]. apply in_block_iff in E. lia.
Qed.

Lemma handle_memory_wraps_witness :
  handle_memory new_riscv_signals
    (mk_payload TLM_READ_COMMAND (2 ^ 64 - 4096) (Some []) 4100 4100 None 0 false
       TLM_INCOMPLETE_RESPONSE) 0 = Err Undefined_behaviour.
Proof.
  apply handle_memory_wraps.
  - split; cbn; [lia|lia|]. intros ? [= <-]. solve_bytes.
  - cbn; lia.
  - change (length (memory new_riscv_signals)) with (Z.to_nat 0x1000). cbn [address data_length].
    rewrite Z2Nat.id by lia. lia.
  - reflexivity.
Defined.

(** The bus hands every access to exactly one target, rebasing the address
    of a memory access, and gives the payload back with the address it came
    with, whatever the target did to it. *)
Theorem bus_b_transport_spec {W} (control memory : b_transport_t W) w p t w' p' t' :
  0 <= p.(address) < 2 ^ 64 -> bus_b_transport control memory w p t = Ok (w', p', t') ->
  (p.(address) < 0x1000 /\ control w p t = Ok (w', p', t')) \/
  (0x1000 <= p.(address) /\ p'.(address) = p.(address) /\
   exists q, memory w (set_address (p.(address) - 0x1000) p) t = Ok (w', q, t') /\
     p' = set_address p.(address) q).
Proof.
  intros Ha. unfold bus_b_transport. destruct (Z.ltb_spec (address p) 0x1000); [by left|].
  rewrite wrap_small by lia. intros H'. apply bind_Ok_inv in H' as ([[w1 q] t1] & Hq & [= <- <- <-]).
  right. split_and!; [done|done|]. eauto.
Qed.

Lemma bus_b_transport_spec_witness :
  let control : b_transport_t (list Z) := fun w p t => Ok (w, p, t) in
  let memory : b_transport_t (list Z) := fun w p t => Ok (w ++ [p.(address)], set_address 0 p, t) in
  let p := set_address 0x1004 new_payload in
  (p.(address) < 0x1000 /\ control [] p 0 = Ok ([4], p, 0)) \/
  (0x1000 <= p.(address) /\ p.(address) = p.(address) /\
   exists q, memory [] (set_address (p.(address) - 0x1000) p) 0 = Ok ([4], q, 0) /\
     p = set_address p.(address) q).
Proof.
  cbv zeta. apply bus_b_transport_spec; [cbn; lia | reflexivity].
Defined.
