(* ===== verification/RiscvWriter.v ===== *)
(** * The triggered bus writes of the RISC-V example (examples/riscv-signals)

    [riscv_signals] under the delta cycle, next to a Renode that makes any
    accesses at any time: what becomes of the writes to the trigger register.
    A ledger records them, and the bus accesses of the writer thread. *)

From S2P Require Import Prelude Tlm Kernel DeltaCycle RegisterFile RiscvSignals.
From stdpp Require Import base numbers relations list.
#[local] Open Scope Z_scope.

(** ** Definitions *)

(** A trigger has been written since the last bus access began; how many have
    been written; how many accesses have begun. *)
Record ledger : Type := mk_ledger {
  unserved : bool;
  triggers : nat;
  served : nat;
}.
Definition new_ledger : ledger := mk_ledger false 0 0.
Definition triggered (l : ledger) : ledger := mk_ledger true (S l.(triggers)) l.(served).
Definition access_begun (l : ledger) : ledger := mk_ledger false l.(triggers) (S l.(served)).

(** A write that was carried out and left the trigger register other than
    zero. *)
Definition writes_trigger (p p' : payload) (s' : riscv_signals) : bool :=
  is_write p && bool_decide (p'.(response_status) = TLM_OK_RESPONSE) &&
  overlaps p.(address) p.(data_length) SYSTEM_BUS_TRIGGER_OFFSET 4 &&
  negb (le_decode (slice s'.(control_registers) SYSTEM_BUS_TRIGGER_OFFSET 4) =? 0).

Section System.
(** The rest of the simulation. *)
Context {X : Type}.
Notation state := (riscv_signals * (ledger * X))%type.
Context (system_bus_transport : payload -> sc_time -> proc event state (payload * sc_time)).

(** The call behind the initiator socket leaves the module alone and
    suspends for amounts of time only. *)
Fixpoint leaves_alone {A} (s : state) (p : prog event state A) : Prop :=
  match p with
  | Ret s' _ => s'.1 = s.1 /\ s'.2.1 = s.2.1
  | Fail _ => False
  | Wait w s' k => s'.1 = s.1 /\ s'.2.1 = s.2.1 /\ (exists t, w = Wait_time t) /\
      forall s'', leaves_alone s'' (k s'')
  end.

Class OutgoingBus : Prop := {
  transport_leaves_alone : forall p t s, leaves_alone s (system_bus_transport p t s);
}.

(** The ledger takes note of the moment at which an access begins. *)
Definition recorded (p : payload) (t : sc_time) : proc event state (payload * sc_time) :=
  fun s => system_bus_transport p t (s.1, (access_begun s.2.1, s.2.2)).

Definition writer_body : proc event state unit := system_bus_writer_body recorded.

(** The one event of the module is notified for the next delta cycle. *)
Definition wakes (elapsed : bool) (w : wait_on event) (s : state) : bool :=
  match w with
  | Wait_time t => (t =? SC_ZERO_TIME) || elapsed
  | Wait_event system_bus_write_event => s.1.(system_bus_write_notified)
  | Wait_static => false
  end.
Definition deliver (s : state) : state :=
  (set_pending false s.1.(system_bus_write_pending) s.1, s.2).

(** Renode accesses the targets of the module, anything happens elsewhere, and
    delta cycles go by in which no time elapses. *)
Inductive others : config event state -> config event state -> Prop :=
| renode_access th s l x p t s' p' t' :
    system_b_transport s p t = Ok (s', p', t') ->
    others (th, (s, (l, x)))
      (th, (s', ((if writes_trigger p p' s' then triggered l else l), x)))
| elsewhere th s l x x' : others (th, (s, (l, x))) (th, (s, (l, x')))
| delta_cycle c : others c (notify_phase wakes deliver false c).

Definition step (c c' : config event state) : Prop :=
  others c c' \/ c' = advance writer_body wakes deliver c.

Definition start (x : X) : config event state :=
  initialized writer_body (new_riscv_signals, (new_ledger, x)).
Definition reachable (x : X) : config event state -> Prop := rtc step (start x).

(** The thread comes to begin a bus access. *)
Definition will_access : config event state -> Prop :=
  answers writer_body wakes deliver others (fun s => s.2.1.(served)).

(** ** Lemmas *)

(** What the thread runs after each of its waits. *)
Definition access_now : proc event state unit :=
  fun s => prog_bind (recorded bus_test_payload SC_ZERO_TIME s) (fun _ s => Ret s tt).
Definition cleared (s : state) : state :=
  (set_pending s.1.(system_bus_write_notified) false s.1, s.2).
Definition clear_now : proc event state unit :=
  fun s => Wait (Wait_time SC_ZERO_TIME) (cleared s) access_now.

Lemma writer_body_runs s :
  writer_body s = if s.1.(system_bus_write_pending) then clear_now s
                  else Wait (Wait_event system_bus_write_event) s clear_now.
Proof.
  unfold writer_body, system_bus_writer_body, mbind, proc_bind. cbn [p_get prog_bind].
  by destruct (system_bus_write_pending s.1).
Qed.

(** The books: what is unserved is pending, what is notified is pending, and
    every access that is under way ([owed]) or pending has its trigger. *)
Definition books (owed : nat) (s : state) : Prop :=
  (owed = 0%nat -> s.2.1.(unserved) = true -> s.1.(system_bus_write_pending) = true) /\
  (s.2.1.(served) + owed + Nat.b2n s.1.(system_bus_write_pending) <= s.2.1.(triggers))%nat.
Definition notified_pending (s : state) : Prop :=
  s.1.(system_bus_write_notified) = true -> s.1.(system_bus_write_pending) = true.

Inductive stage : config event state -> Prop :=
| at_body s : books 0 s -> notified_pending s -> stage (Ready writer_body, s)
| asleep s : books 0 s ->
    s.1.(system_bus_write_notified) = s.1.(system_bus_write_pending) ->
    stage (Waiting (Wait_event system_bus_write_event) clear_now, s)
| woken s : books 0 s -> s.1.(system_bus_write_pending) = true -> stage (Ready clear_now, s)
| yielding s : books 1 s -> stage (Waiting (Wait_time SC_ZERO_TIME) access_now, s)
| about_to_access s : books 1 s -> notified_pending s -> stage (Ready access_now, s)
| in_access w k s : books 0 s -> notified_pending s -> (exists t, w = Wait_time t) ->
    (forall s', leaves_alone s' (k s' : prog event state (payload * sc_time))) ->
    stage (Waiting w (fun s => prog_bind (k s) (fun _ s => Ret s tt)), s)
| access_resumes k s : books 0 s -> notified_pending s ->
    (forall s', leaves_alone s' (k s' : prog event state (payload * sc_time))) ->
    stage (Ready (fun s => prog_bind (k s) (fun _ s => Ret s tt)), s).

(** An access either sets off the trigger or leaves flag and notification. *)
Lemma access_trigger s p t s' p' t' :
  system_b_transport s p t = Ok (s', p', t') ->
  if writes_trigger p p' s'
  then s'.(system_bus_write_pending) = true /\ s'.(system_bus_write_notified) = true
  else s'.(system_bus_write_pending) = s.(system_bus_write_pending) /\
       s'.(system_bus_write_notified) = s.(system_bus_write_notified).
Proof.
  unfold system_b_transport, bus_b_transport, writes_trigger.
  destruct (Z.ltb_spec (address p) 0x1000).
  - unfold handle_control. destruct (_ <? _).
    { intros [= <- <- _]. cbn. by rewrite andb_false_r. }
    rewrite is_read_cmd, is_write_cmd. destruct (command p); cbn [andb].
    + intros H'. apply bind_Ok_inv in H' as (bs & _ & H'). apply bind_Ok_inv in H' as (q & _ & H').
      by injection H' as <- _ _.
    + intros H'. apply bind_Ok_inv in H' as (bs & _ & H'). apply bind_Ok_inv in H' as (mem & _ & H').
      injection H' as <- <- _. cbn [response_status set_response_status].
      rewrite bool_decide_true by done. cbn [andb]. set (regs := set_registers mem s).
      unfold apply_control_write.
      destruct (overlaps _ _ RESET_OFFSET 1), (overlaps _ _ NMI_OFFSET 1),
        (overlaps _ _ BOOT_ADDRESS_OFFSET 8), (overlaps _ _ CLOCK_PERIOD_OFFSET 4),
        (overlaps _ _ SYSTEM_BUS_TRIGGER_OFFSET 4); cbn [andb]; try done;
        cbn [control_registers set_interrupts set_reset set_nmi set_boot_address set_clock_period
          set_registers regs];
        destruct (le_decode (slice mem SYSTEM_BUS_TRIGGER_OFFSET 4) =? 0) eqn:E; cbn;
        rewrite ?E; done.
    + intros [= <- _ _]. done.
  - intros H'. apply bind_Ok_inv in H' as ([[s1 q] t1] & H' & [= <- <- _]).
    apply handle_memory_outputs in H' as [_ ->].
    assert (overlaps (address p) (data_length p) SYSTEM_BUS_TRIGGER_OFFSET 4 = false) as ->.
    { unfold overlaps. apply andb_false_iff. left. unfold SYSTEM_BUS_TRIGGER_OFFSET.
      rewrite wrap_small by lia. lia. }
    rewrite andb_false_r. done.
Qed.

Lemma access_keeps s l x p t s' p' t' owed :
  system_b_transport s p t = Ok (s', p', t') ->
  let l' := if writes_trigger p p' s' then triggered l else l in
  (books owed (s, (l, x)) -> books owed (s', (l', x))) /\
  (notified_pending (s, (l, x)) -> notified_pending (s', (l', x))) /\
  (s.(system_bus_write_notified) = s.(system_bus_write_pending) ->
   s'.(system_bus_write_notified) = s'.(system_bus_write_pending)) /\
  (s.(system_bus_write_pending) = true -> s'.(system_bus_write_pending) = true).
Proof.
  intros Ht%access_trigger. unfold books, notified_pending. cbn [fst snd].
  destruct (writes_trigger p p' s'), Ht as [-> ->]; cbn; split_and!; try done.
  destruct (system_bus_write_pending s); cbn; intros [? ?]; (split; [done | lia]).
Qed.

Lemma stage_others c c' : stage c -> others c c' -> stage c'.
Proof.
  intros Hst Ho. destruct Ho as [th s l x p t s' p' t' Ht| |c].
  - inversion Hst; subst;
      (match goal with Hb : books ?o _ |- _ =>
         destruct (access_keeps s l x p t s' p' t' o Ht) as (Hbk & Hn & He & Hp) end);
      constructor; auto.
  - inversion Hst; subst; by constructor.
  - inversion Hst as [|s Hb He|? Hb Hp|s Hb| |w k s Hb Hn [t ->] Hk|]; subst; try done;
      unfold notify_phase; cbn [fst snd wakes].
    + destruct (system_bus_write_notified s.1) eqn:En; by constructor.
    + by constructor.
    + destruct ((t =? SC_ZERO_TIME) || false); constructor; try done. by exists t.
Qed.

Lemma run_on_body s : books 0 s -> notified_pending s -> stage (run_on writer_body (writer_body s) s).
Proof.
  intros Hb Hn. rewrite writer_body_runs.
  destruct (system_bus_write_pending s.1) eqn:E; cbn [run_on suspend clear_now].
  - constructor. unfold books in *. rewrite E in Hb. cbn in *. destruct Hb. split; [done | lia].
  - constructor; [done|]. unfold notified_pending in Hn. rewrite E in *.
    by destruct (system_bus_write_notified s.1); [discriminate Hn|].
Qed.

(** A call that is under way, and the loop after it. *)
Lemma run_on_access (p : prog event state (payload * sc_time)) s :
  leaves_alone s p -> books 0 s -> notified_pending s ->
  stage (run_on writer_body (prog_bind p (fun _ s => Ret s tt)) s).
Proof.
  intros Hp Hb Hn. destruct p as [s' a|f|w s' k]; cbn [prog_bind run_on suspend leaves_alone] in *.
  - destruct Hp as [E1 E2]. assert (Hs' : books 0 s' /\ notified_pending s').
    { unfold books, notified_pending in *. by rewrite E1, E2. }
    pose proof (run_on_body s' (proj1 Hs') (proj2 Hs')) as Hrun. rewrite writer_body_runs in *.
    by destruct (system_bus_write_pending s'.1).
  - done.
  - destruct Hp as (E1 & E2 & Hw & Hk). constructor; try done;
      unfold books, notified_pending in *; by rewrite E1, ?E2.
Qed.

Section Answered.
Context {OB : OutgoingBus}.

Lemma begins_access s :
  books 1 s -> notified_pending s -> stage (run_on writer_body (access_now s) s) /\
  (s.2.1.(served) < (run_on writer_body (access_now s) s).2.2.1.(served))%nat.
Proof.
  intros Hb Hn. unfold access_now, recorded.
  pose proof (transport_leaves_alone bus_test_payload SC_ZERO_TIME
    (s.1, (access_begun s.2.1, s.2.2))) as Hl.
  set (s0 := (s.1, (access_begun s.2.1, s.2.2))) in *.
  assert (Hs0 : books 0 s0 /\ notified_pending s0).
  { split; [|exact Hn]. unfold books, s0 in *. cbn in *. destruct Hb. split; [done | lia]. }
  destruct Hs0 as [Hb0 Hn0]. split.
  - pose proof (run_on_access _ s0 Hl Hb0 Hn0) as H.
    destruct (system_bus_transport _ _ _) as [s' a| |]; cbn in *; done.
  - destruct (system_bus_transport _ _ _) as [s' a|f|w s' k]; cbn [prog_bind run_on leaves_alone] in *.
    + destruct Hl as [E1 E2]. rewrite writer_body_runs.
      destruct (system_bus_write_pending s'.1); cbn; rewrite E2; cbn; lia.
    + done.
    + destruct Hl as (E1 & E2 & _). cbn. rewrite E2. cbn. lia.
Qed.

Lemma stage_advance c : stage c -> stage (advance writer_body wakes deliver c).
Proof.
  intros Hst. inversion Hst as [s Hb Hn|s Hb He|s Hb Hp|s Hb|s Hb Hn|w k s Hb Hn [t ->] Hk|k s Hb Hn Hk];
    subst; unfold advance, notify_phase, evaluate; cbn [fst snd wakes].
  - by apply run_on_body.
  - destruct (system_bus_write_notified s.1) eqn:En; by constructor.
  - constructor. unfold books in *. rewrite Hp in Hb. cbn in *. destruct Hb. split; [done | lia].
  - by constructor.
  - by apply begins_access.
  - rewrite orb_true_r. by constructor.
  - by apply run_on_access.
Qed.

Lemma reachable_stage x c : reachable x c -> stage c.
Proof.
  intros Hr. apply (rtc_keeps (fun c c' => others c c' \/ c' = advance writer_body wakes deliver c)
    stage (start x) c); [| |exact Hr].
  - intros c1 c2 Hc [Ho| ->]; [by eapply stage_others | by apply stage_advance].
  - by constructor.
Qed.

Lemma others_count c c' : others c c' -> c'.2.2.1.(served) = c.2.2.1.(served).
Proof.
  intros [th s l x p t s' p' t' _| |[[w k|k|f] s]]; try done.
  cbn. by destruct (writes_trigger p p' s').
Qed.

(** What the thread finds when it goes on with a trigger unserved: the flag is
    raised, so that its next iteration does not sleep. *)
Definition flagged (s : state) : Prop :=
  books 0 s /\ notified_pending s /\ s.1.(system_bus_write_pending) = true.
Definition owing (s : state) : Prop := books 1 s /\ notified_pending s.

(** What the others do to a ready and to a waiting thread. *)
Lemma others_ready k s c' : others (Ready k, s) c' ->
  c'.1 = Ready k /\ forall owed,
    (books owed s -> books owed c'.2) /\ (notified_pending s -> notified_pending c'.2) /\
    (s.1.(system_bus_write_pending) = true -> c'.2.1.(system_bus_write_pending) = true).
Proof.
  intros Ho. inversion Ho as [th s0 l x p t s' p' t' Ht| |]; subst; cbn; (split; [done|]); intros owed; try done.
  destruct (access_keeps s0 l x p t s' p' t' owed Ht) as (Hb & Hn & _ & Hp). auto.
Qed.

Lemma others_waiting w k s c' : others (Waiting w k, s) c' ->
  (c' = notify_phase wakes deliver false (Waiting w k, s)) \/
  (c'.1 = Waiting w k /\ forall owed,
    (books owed s -> books owed c'.2) /\ (notified_pending s -> notified_pending c'.2) /\
    (s.1.(system_bus_write_notified) = s.1.(system_bus_write_pending) ->
     c'.2.1.(system_bus_write_notified) = c'.2.1.(system_bus_write_pending)) /\
    (s.1.(system_bus_write_pending) = true -> c'.2.1.(system_bus_write_pending) = true)).
Proof.
  intros Ho. inversion Ho as [th s0 l x p t s' p' t' Ht| |]; subst; cbn;
    [right; split; [done|]..|by left]; intros owed; try done.
  apply (access_keeps s0 l x p t s' p' t' owed Ht).
Qed.

Lemma flagged_ready k s c' : flagged s -> others (Ready k, s) c' -> c'.1 = Ready k /\ flagged c'.2.
Proof.
  intros (Hb & Hn & Hp) [Hth Hk]%others_ready. split; [done|]. destruct (Hk 0%nat) as (? & ? & ?).
  unfold flagged. auto.
Qed.

(** From the statement that clears the flag the thread goes straight to its
    access. *)
Lemma access_now_answers s : owing s -> will_access (Ready access_now, s).
Proof using OB.
  revert s. apply answers_ready; [exact others_count| |].
  - intros s c' [Hb Hn] [Hth Hk]%others_ready. split; [done|].
    destruct (Hk 1%nat) as (? & ? & ?). unfold owing. auto.
  - intros s [Hb Hn]. left. by apply begins_access.
Qed.

Lemma yield_answers s : books 1 s -> will_access (Waiting (Wait_time SC_ZERO_TIME) access_now, s).
Proof using OB.
  revert s. apply (answers_waiting _ _ _ _ _ others_count (books 1) owing).
  - intros s0 c' Hb0 [->|[Hth Hk]]%others_waiting; [right; split; [done|]; by split|].
    left. split; [done|]. by apply Hk.
  - intros s0 c' [Hb0 Hn] [Hth Hk]%others_ready. split; [done|].
    destruct (Hk 1%nat) as (? & ? & ?). unfold owing. auto.
  - intros s0 Hb0. split; [done|]. by split.
  - apply access_now_answers.
Qed.

Lemma clear_now_answers s : flagged s -> will_access (suspend (clear_now s) s).
Proof using OB.
  intros (Hb & _ & Hp). apply yield_answers. unfold books in *. rewrite Hp in Hb. cbn in *.
  destruct Hb. split; [done | lia].
Qed.

(** A ready thread that runs to that statement. *)
Lemma ready_answers k s :
  (forall s, flagged s -> will_access (run_on writer_body (k s) s)) -> flagged s -> will_access (Ready k, s).
Proof using Type.
  intros Hk. revert s. apply answers_ready; [exact others_count|apply flagged_ready|].
  intros s Hs. right. by apply Hk.
Qed.

Lemma waits_answers t k s :
  (forall s, flagged s -> will_access (run_on writer_body (k s) s)) -> flagged s ->
  will_access (Waiting (Wait_time t) k, s).
Proof using Type.
  intros Hk. revert s. apply (answers_waiting _ _ _ _ _ others_count flagged flagged).
  - intros s0 c' (Hb0 & Hn0 & Hp0) [->|[Hth Hs]]%others_waiting.
    + unfold notify_phase. cbn [fst snd wakes].
      destruct ((t =? SC_ZERO_TIME) || false); [right | left]; (split; [done|]); by split_and!.
    + left. split; [done|]. destruct (Hs 0%nat) as (? & ? & _ & ?). unfold flagged. auto.
  - apply flagged_ready.
  - intros s0 (Hb0 & Hn0 & Hp0). cbn. rewrite orb_true_r. by split_and!.
  - intros s0. by apply ready_answers.
Qed.

Lemma body_answers s : flagged s -> will_access (run_on writer_body (writer_body s) s).
Proof using OB.
  intros (Hb & Hn & Hp). rewrite writer_body_runs, Hp. by apply clear_now_answers.
Qed.

(** So it does from within an access, however long that takes. *)
Lemma access_answers (p : prog event state (payload * sc_time)) s :
  leaves_alone s p -> flagged s -> will_access (run_on writer_body (prog_bind p (fun _ s => Ret s tt)) s).
Proof using OB.
  revert s. induction p as [s' a|f|w s' k IH]; intros s Hp (Hb & Hn & Hpe);
    cbn [prog_bind run_on leaves_alone] in *.
  - destruct Hp as [E1 E2]. assert (flagged s') as Hs'.
    { unfold flagged, books, notified_pending in *. by rewrite E1, E2. }
    pose proof (body_answers s' Hs') as Hrun. rewrite writer_body_runs in *.
    by destruct (system_bus_write_pending s'.1).
  - done.
  - destruct Hp as (E1 & E2 & [t ->] & Hk). apply waits_answers; [by intros; apply IH|].
    unfold flagged, books, notified_pending in *. by rewrite E1, E2.
Qed.

(** Whatever the thread is doing. *)
Lemma stage_answers c : stage c -> c.2.2.1.(unserved) = true -> will_access c.
Proof using OB.
  intros Hst Hu. inversion Hst as [s Hb Hn|s Hb He|s Hb Hp|s Hb|s Hb Hn|w k s Hb Hn [t ->] Hk|k s Hb Hn Hk];
    subst; cbn in Hu; try (assert (system_bus_write_pending s.1 = true) as Hpe by (by apply Hb)).
  - apply ready_answers; [apply body_answers | by split_and!].
  - assert (books 0 s /\ system_bus_write_notified s.1 = system_bus_write_pending s.1 /\
      system_bus_write_pending s.1 = true) as Hs by done. clear Hst Hu Hb He Hpe. revert s Hs.
    apply (answers_waiting _ _ _ _ _ others_count _ flagged).
    + intros s c' (Hb & He & Hp) [->|[Hth Hs]]%others_waiting.
      * right. unfold notify_phase. cbn. rewrite He, Hp. by split_and!.
      * left. split; [done|]. destruct (Hs 0%nat) as (? & _ & ? & ?). auto.
    + apply flagged_ready.
    + intros s (Hb & He & Hp). split; [by cbn; rewrite He|]. by split_and!.
    + intros s. apply ready_answers, clear_now_answers.
  - apply ready_answers; [apply clear_now_answers|]. split_and!; [done | by intros _ | done].
  - by apply yield_answers.
  - by apply access_now_answers.
  - apply waits_answers; [|by split_and!]. intros s1 Hs1. by apply access_answers.
  - apply ready_answers; [|by split_and!]. intros s1 Hs1. by apply access_answers.
Qed.
End Answered.
End System.

(** ** Properties *)

(** C28: no trigger is lost.  Whenever the simulation stands after any accesses
    of Renode, any delta cycles and any progress of the thread, interleaved in
    any way, with a transport that suspends the thread as often and as long as
    it likes: the thread has not failed; it has not begun more bus accesses
    than triggers were written; and if a trigger has been written since the
    last access began, the thread will begin another one, however the others
    go on.  So it neither sleeps through a trigger nor loses one that arrives
    while it is in an access. *)
Theorem triggers_served {X : Type}
  (transport : payload -> sc_time -> proc event (riscv_signals * (ledger * X)) (payload * sc_time))
  (x : X) c :
  OutgoingBus transport -> reachable transport x c ->
  (forall f, c.1 <> Faulted f) /\
  (c.2.2.1.(served) <= c.2.2.1.(triggers))%nat /\
  (c.2.2.1.(unserved) = true -> will_access transport c).
Proof.
  intros HO Hr. assert (stage transport c) as Hst by (by eapply reachable_stage). split_and!.
  - intros f Hf. destruct c as [th s]. cbn in Hf. subst. by inversion Hst.
  - inversion Hst as [? [_ ?]|? [_ ?]|? [_ ?]|? [_ ?]|? [_ ?]|? ? ? [_ ?]|? ? [_ ?]]; subst; cbn in *; lia.
  - by apply stage_answers.
Qed.

(** A bus access that takes time, and the first write to the trigger register. *)
Definition slow_bus : payload -> sc_time ->
  proc event (riscv_signals * (ledger * unit)) (payload * sc_time) :=
  fun p t s => Wait (Wait_time (sc_ns 5)) s (fun s' => Ret s' (p, t)).
Definition trigger_write : payload :=
  mk_payload TLM_WRITE_COMMAND 0x114 (Some [1; 0; 0; 0]) 4 4 None 0 false TLM_INCOMPLETE_RESPONSE.
Definition triggered_signals : riscv_signals :=
  match system_b_transport new_riscv_signals trigger_write 0 with
  | Ok (s, _, _) => s | Err _ => new_riscv_signals end.

#[export] Instance slow_bus_outgoing : OutgoingBus slow_bus.
Proof. split. intros p t s. cbn. split_and!; [done|done|by eexists|]. done. Qed.

Lemma triggers_served_witness :
  let c := (Ready (writer_body slow_bus), (triggered_signals, (triggered new_ledger, tt))) in
  reachable slow_bus tt c /\
  (c.2.2.1.(served) <= c.2.2.1.(triggers))%nat /\ will_access slow_bus c.
Proof.
  cbv zeta. assert (reachable slow_bus tt
    (Ready (writer_body slow_bus), (triggered_signals, (triggered new_ledger, tt)))) as Hr.
  { apply rtc_once. left.
    apply (renode_access _ new_riscv_signals new_ledger tt trigger_write 0 triggered_signals
      (set_response_status TLM_OK_RESPONSE trigger_write) 0). vm_compute. reflexivity. }
  split; [exact Hr|]. destruct (triggers_served slow_bus tt _ slow_bus_outgoing Hr) as (_ & Hle & Ha).
  split; [exact Hle|]. apply Ha. reflexivity.
Defined.
