(* ===== verification/HmpSignals.v ===== *)
(** * Heterogeneous CPU signals (examples/hmp-signals)

    One module drives the signals of a RISC-V and of an Arm core through two
    banks of control registers and memories, one per bridge.  A control access
    first lets a delta cycle pass, so it is a process; the writer thread serves
    both cores. *)

From S2P Require Import Prelude Tlm Kernel RegisterFile.
From stdpp Require Import base numbers list relations.
#[local] Open Scope Z_scope.

(** ** Definitions *)

Inductive Core : Type := RiscV | Arm.
#[export] Instance core_eq_dec : EqDecision Core.
Proof. solve_decision. Defined.

Definition NUM_INTERRUPTS : Z := 16.
Definition SYSTEM_BUS_TEST_ADDRESS (core : Core) : Z :=
  match core with RiscV => 0x80001000 | Arm => 0x20001000 end.
Definition SYSTEM_BUS_TEST_VALUE : Z := 0x5A5AA5A5.
Definition RESET_OFFSET : Z := 0x100.
Definition NMI_OFFSET : Z := 0x104.
Definition BOOT_ADDRESS_OFFSET : Z := 0x108.
Definition CLOCK_PERIOD_OFFSET : Z := 0x110.
Definition SYSTEM_BUS_TRIGGER_OFFSET : Z := 0x114.
Definition CPU_WAIT_OFFSET : Z := 0x118.
Definition SYSTEM_RESET_REQUEST_OFFSET : Z := 0x11c.
Definition DEFAULT_VTOR : Z := 0x20000000.
Definition DEFAULT_BOOT_ADDRESS : Z := 0x80000000.
Definition DEFAULT_CLOCK_PERIOD_NS (core : Core) : Z :=
  match core with RiscV => 10 | Arm => 20 end.
Definition CONTROL_SIZE : Z := 0x1000.
Definition MEMORY_SIZE : Z := 0x1000.

(** The members that are arrays indexed by the core. *)
Record bank : Type := mk_bank {
  reset_in : bool;
  nmi_in : bool;
  interrupt_inputs : list bool;
  clock_period : sc_time;
  control_registers : list Z;
  memory : list Z;
  system_bus_write_pending : bool;
  clock_period_ns : Z;
}.

Record hmp_signals : Type := mk_hmp_signals {
  riscv_bank : bank;
  arm_bank : bank;
  boot_address : Z;
  vector_table_offset : Z;
  cpu_wait : bool;
  system_reset_request : bool;           (* input port *)
  system_bus_write_notified : bool;      (* a notification of the event is pending *)
  boot_address_value : Z;
  vtor_value : Z;
}.

Definition get_bank (core : Core) (s : hmp_signals) : bank :=
  match core with RiscV => s.(riscv_bank) | Arm => s.(arm_bank) end.

Definition set_bank (core : Core) (b : bank) (s : hmp_signals) : hmp_signals :=
  match core with
  | RiscV => mk_hmp_signals b s.(arm_bank) s.(boot_address) s.(vector_table_offset) s.(cpu_wait)
      s.(system_reset_request) s.(system_bus_write_notified) s.(boot_address_value) s.(vtor_value)
  | Arm => mk_hmp_signals s.(riscv_bank) b s.(boot_address) s.(vector_table_offset) s.(cpu_wait)
      s.(system_reset_request) s.(system_bus_write_notified) s.(boot_address_value) s.(vtor_value)
  end.

Definition bank_registers r (b : bank) : bank :=
  mk_bank b.(reset_in) b.(nmi_in) b.(interrupt_inputs) b.(clock_period) r b.(memory)
    b.(system_bus_write_pending) b.(clock_period_ns).
Definition bank_memory m (b : bank) : bank :=
  mk_bank b.(reset_in) b.(nmi_in) b.(interrupt_inputs) b.(clock_period) b.(control_registers) m
    b.(system_bus_write_pending) b.(clock_period_ns).
Definition bank_pending p (b : bank) : bank :=
  mk_bank b.(reset_in) b.(nmi_in) b.(interrupt_inputs) b.(clock_period) b.(control_registers)
    b.(memory) p b.(clock_period_ns).
Definition bank_interrupts l (b : bank) : bank :=
  mk_bank b.(reset_in) b.(nmi_in) l b.(clock_period) b.(control_registers) b.(memory)
    b.(system_bus_write_pending) b.(clock_period_ns).
Definition bank_reset v (b : bank) : bank :=
  mk_bank v b.(nmi_in) b.(interrupt_inputs) b.(clock_period) b.(control_registers) b.(memory)
    b.(system_bus_write_pending) b.(clock_period_ns).
Definition bank_nmi v (b : bank) : bank :=
  mk_bank b.(reset_in) v b.(interrupt_inputs) b.(clock_period) b.(control_registers) b.(memory)
    b.(system_bus_write_pending) b.(clock_period_ns).
Definition bank_clock n (b : bank) : bank :=
  mk_bank b.(reset_in) b.(nmi_in) b.(interrupt_inputs) (sc_ns n) b.(control_registers) b.(memory)
    b.(system_bus_write_pending) n.

Definition set_boot a (s : hmp_signals) : hmp_signals :=
  mk_hmp_signals s.(riscv_bank) s.(arm_bank) a s.(vector_table_offset) s.(cpu_wait)
    s.(system_reset_request) s.(system_bus_write_notified) a s.(vtor_value).
Definition set_vtor a (s : hmp_signals) : hmp_signals :=
  mk_hmp_signals s.(riscv_bank) s.(arm_bank) s.(boot_address) a s.(cpu_wait)
    s.(system_reset_request) s.(system_bus_write_notified) s.(boot_address_value) a.
Definition set_cpu_wait v (s : hmp_signals) : hmp_signals :=
  mk_hmp_signals s.(riscv_bank) s.(arm_bank) s.(boot_address) s.(vector_table_offset) v
    s.(system_reset_request) s.(system_bus_write_notified) s.(boot_address_value) s.(vtor_value).
Definition set_notified v (s : hmp_signals) : hmp_signals :=
  mk_hmp_signals s.(riscv_bank) s.(arm_bank) s.(boot_address) s.(vector_table_offset) s.(cpu_wait)
    s.(system_reset_request) v s.(boot_address_value) s.(vtor_value).

Definition upd (core : Core) (f : bank -> bank) (s : hmp_signals) : hmp_signals :=
  set_bank core (f (get_bank core s)) s.

(** The constructor. *)
Definition new_bank (core : Core) : bank :=
  let regs := replicate (Z.to_nat CONTROL_SIZE) 0 in
  let regs := splice regs CLOCK_PERIOD_OFFSET (le_encode 4 (DEFAULT_CLOCK_PERIOD_NS core)) in
  let regs := match core with
    | RiscV => splice regs BOOT_ADDRESS_OFFSET (le_encode 8 DEFAULT_BOOT_ADDRESS)
    | Arm => splice regs BOOT_ADDRESS_OFFSET (le_encode 4 DEFAULT_VTOR) end in
  mk_bank false false (replicate (Z.to_nat NUM_INTERRUPTS) false)
    (sc_ns (DEFAULT_CLOCK_PERIOD_NS core)) regs (replicate (Z.to_nat MEMORY_SIZE) 0) false
    (DEFAULT_CLOCK_PERIOD_NS core).

Definition new_hmp_signals : hmp_signals :=
  mk_hmp_signals (new_bank RiscV) (new_bank Arm) DEFAULT_BOOT_ADDRESS DEFAULT_VTOR false false
    false DEFAULT_BOOT_ADDRESS DEFAULT_VTOR.

(** [if (b) { ... }] around an update of the core's bank. *)
Definition upd_if (b : bool) (core : Core) (f : bank -> bank) (s : hmp_signals) : hmp_signals :=
  if b then upd core f s else s.

(** The blocks of [apply_control_write] that touch more than the bank. *)
Definition apply_boot (core : Core) (b : bool) (regs : list Z) (s : hmp_signals) : hmp_signals :=
  if b then
    match core with
    | RiscV => set_boot (le_decode (slice regs BOOT_ADDRESS_OFFSET 8)) s
    | Arm => set_vtor (le_decode (slice regs BOOT_ADDRESS_OFFSET 4)) s
    end
  else s.

Definition apply_cpu_wait (core : Core) (b : bool) (regs : list Z) (s : hmp_signals) : hmp_signals :=
  if bool_decide (core = Arm) && b then set_cpu_wait (reg_set regs CPU_WAIT_OFFSET) s else s.

Definition apply_trigger (core : Core) (b : bool) (regs : list Z) (s : hmp_signals) : hmp_signals :=
  if b then
    let trigger := le_decode (slice regs SYSTEM_BUS_TRIGGER_OFFSET 4) in
    if negb (trigger =? 0) then set_notified true (upd core (bank_pending true) s) else s
  else s.

Definition apply_control_write (core : Core) (offset length : Z) (s : hmp_signals) : hmp_signals :=
  let regs := (get_bank core s).(control_registers) in
  let ov := overlaps offset length in
  let s := upd core (fun b => bank_interrupts
    (foldl (write_interrupt regs offset length) b.(interrupt_inputs) (seqZ 0 NUM_INTERRUPTS)) b) s in
  let s := upd_if (ov RESET_OFFSET 1) core (bank_reset (reg_set regs RESET_OFFSET)) s in
  let s := upd_if (ov NMI_OFFSET 1) core (bank_nmi (reg_set regs NMI_OFFSET)) s in
  let s := apply_boot core (ov BOOT_ADDRESS_OFFSET 8) regs s in
  let s := upd_if (ov CLOCK_PERIOD_OFFSET 4) core
             (bank_clock (le_decode (slice regs CLOCK_PERIOD_OFFSET 4))) s in
  let s := apply_cpu_wait core (ov CPU_WAIT_OFFSET 1) regs s in
  apply_trigger core (ov SYSTEM_BUS_TRIGGER_OFFSET 4) regs s.

(** The bounds check of both targets. *)
Definition out_of_range (size offset length : Z) : bool :=
  (size <? offset) || (u64 (size - offset) <? length).

(** The body of [handle_control] after its [wait]. *)
Definition handle_control_now (core : Core) (s : hmp_signals) (payload : payload) :
  res (hmp_signals * Tlm.payload) :=
  let offset := payload.(address) in
  let length := payload.(data_length) in
  let regs := (get_bank core s).(control_registers) in
  if out_of_range (Z.of_nat (List.length regs)) offset length then
    Ok (s, set_response_status TLM_ADDRESS_ERROR_RESPONSE payload)
  else if is_read payload then
    let s := match core with
      | Arm => upd core (bank_registers (<[Z.to_nat SYSTEM_RESET_REQUEST_OFFSET :=
                 Z.b2z s.(system_reset_request)]> regs)) s
      | RiscV => s end in
    bs ← load (get_bank core s).(control_registers) offset length;
    payload ← data_write payload bs;
    Ok (s, set_response_status TLM_OK_RESPONSE payload)
  else if is_write payload then
    bs ← data_read payload length;
    regs ← store regs offset bs;
    let s := apply_control_write core offset length (upd core (bank_registers regs) s) in
    Ok (s, set_response_status TLM_OK_RESPONSE payload)
  else Ok (s, set_response_status TLM_COMMAND_ERROR_RESPONSE payload).

Definition handle_memory (core : Core) : b_transport_t hmp_signals := fun s payload t =>
  let offset := payload.(address) in
  let length := payload.(data_length) in
  let mem := (get_bank core s).(memory) in
  if out_of_range (Z.of_nat (List.length mem)) offset length then
    Ok (s, set_response_status TLM_ADDRESS_ERROR_RESPONSE payload, t)
  else if is_read payload then
    bs ← load mem offset length;
    payload ← data_write payload bs;
    Ok (s, set_response_status TLM_OK_RESPONSE payload, t)
  else if is_write payload then
    bs ← data_read payload length;
    mem ← store mem offset bs;
    Ok (upd core (bank_memory mem) s, set_response_status TLM_OK_RESPONSE payload, t)
  else Ok (s, set_response_status TLM_COMMAND_ERROR_RESPONSE payload, t).

Inductive event : Type := system_bus_write_event.

Section Processes.
Context {W : Type}.

Definition handle_control (core : Core) (payload : payload) :
  proc event (hmp_signals * W) Tlm.payload :=
  p_wait (Wait_time SC_ZERO_TIME);;
  p_step (fun s => '(h, payload) ← handle_control_now core s.1 payload; Ok ((h, s.2), payload)).

(** The per-core buses of [top]: the socket calls may suspend. *)
Definition bus_b_transport (control memory : payload -> proc event (hmp_signals * W) payload)
  (payload : payload) : proc event (hmp_signals * W) Tlm.payload :=
  let addr := payload.(address) in
  if addr <? 0x1000 then control payload
  else
    payload ← memory (set_address (u64 (addr - 0x1000)) payload);
    mret (set_address addr payload).

Definition core_index (core : Core) : Z := match core with RiscV => 0 | Arm => 1 end.

Definition bus_test_payload (core : Core) : payload :=
  mk_payload TLM_WRITE_COMMAND (SYSTEM_BUS_TEST_ADDRESS core)
    (Some (le_encode 4 (u32 (SYSTEM_BUS_TEST_VALUE + core_index core)))) 4 4 None 0 false
    TLM_INCOMPLETE_RESPONSE.

Context (system_bus_transport :
  Core -> payload -> sc_time -> proc event (hmp_signals * W) (payload * sc_time)).

(** The body of the [for] loop over the cores. *)
Definition serve_core (core : Core) : proc event (hmp_signals * W) unit :=
  s ← p_get;
  if negb (get_bank core s.1).(system_bus_write_pending) then mret tt
  else
    p_modify (fun s => (upd core (bank_pending false) s.1, s.2));;
    _ ← system_bus_transport core (bus_test_payload core) SC_ZERO_TIME;
    mret tt.

(** One iteration of [while (true)] in [system_bus_writer]. *)
Definition system_bus_writer_body : proc event (hmp_signals * W) unit :=
  p_wait (Wait_event system_bus_write_event);;
  p_wait (Wait_time SC_ZERO_TIME);;
  serve_core RiscV;;
  serve_core Arm.

Definition system_bus_writer (n : nat) : proc event (hmp_signals * W) unit :=
  p_repeat n system_bus_writer_body.
End Processes.

(** The outputs show the registers of their bank. *)
Record bank_mirrors (b : bank) : Prop := {
  mir_regs : length b.(control_registers) = Z.to_nat CONTROL_SIZE;
  mir_bytes : is_bytes b.(control_registers);
  mir_memory : length b.(memory) = Z.to_nat MEMORY_SIZE;
  mir_irq_len : length b.(interrupt_inputs) = Z.to_nat NUM_INTERRUPTS;
  mir_irq : forall i, 0 <= i < NUM_INTERRUPTS ->
    b.(interrupt_inputs) !! Z.to_nat i = Some (reg_set b.(control_registers) i);
  mir_reset : b.(reset_in) = reg_set b.(control_registers) RESET_OFFSET;
  mir_nmi : b.(nmi_in) = reg_set b.(control_registers) NMI_OFFSET;
  mir_clock : b.(clock_period) =
    sc_ns (le_decode (slice b.(control_registers) CLOCK_PERIOD_OFFSET 4));
}.

Record mirrors (s : hmp_signals) : Prop := {
  mir_banks : forall core, bank_mirrors (get_bank core s);
  mir_boot : s.(boot_address) =
    le_decode (slice s.(riscv_bank).(control_registers) BOOT_ADDRESS_OFFSET 8);
  mir_vtor : s.(vector_table_offset) =
    le_decode (slice s.(arm_bank).(control_registers) BOOT_ADDRESS_OFFSET 4);
  mir_cpu_wait : s.(cpu_wait) = reg_set s.(arm_bank).(control_registers) CPU_WAIT_OFFSET;
}.

(** A control access after the delta cycle, on every branch. *)
Definition spec_control (core : Core) (s : hmp_signals) (p : payload) (d : list Z) :
  hmp_signals * payload :=
  let regs := (get_bank core s).(control_registers) in
  if CONTROL_SIZE <? p.(address) + p.(data_length) then
    (s, set_response_status TLM_ADDRESS_ERROR_RESPONSE p)
  else match p.(command) with
  | TLM_READ_COMMAND =>
      let regs := match core with
        | Arm => <[Z.to_nat SYSTEM_RESET_REQUEST_OFFSET := Z.b2z s.(system_reset_request)]> regs
        | RiscV => regs end in
      (upd core (bank_registers regs) s, set_response_status TLM_OK_RESPONSE
        (set_data (Some (splice d 0 (slice regs p.(address) p.(data_length)))) p))
  | TLM_WRITE_COMMAND =>
      (apply_control_write core p.(address) p.(data_length)
         (upd core (bank_registers (splice regs p.(address) (slice d 0 p.(data_length)))) s),
       set_response_status TLM_OK_RESPONSE p)
  | TLM_IGNORE_COMMAND => (s, set_response_status TLM_COMMAND_ERROR_RESPONSE p)
  end.

(** One step of the simulation as this module sees it: an access to either
    target of either core, a change of the input port, the writer thread taking
    a request, and the kernel delivering the event. *)
Inductive hmp_step (s : hmp_signals) : hmp_signals -> Prop :=
| Step_control core p d s' p' :
    payload_wf p -> has_buffer p d -> handle_control_now core s p = Ok (s', p') ->
    hmp_step s s'
| Step_memory core p t s' p' t' :
    handle_memory core s p t = Ok (s', p', t') -> hmp_step s s'
| Step_input b :
    hmp_step s (mk_hmp_signals s.(riscv_bank) s.(arm_bank) s.(boot_address)
      s.(vector_table_offset) s.(cpu_wait) b s.(system_bus_write_notified)
      s.(boot_address_value) s.(vtor_value))
| Step_take core : hmp_step s (upd core (bank_pending false) s)
| Step_deliver : hmp_step s (set_notified false s).

Definition other (core : Core) : Core := match core with RiscV => Arm | Arm => RiscV end.

(** ** Lemmas *)

Lemma get_upd core f s : get_bank core (upd core f s) = f (get_bank core s).
Proof. by destruct core. Qed.

Lemma get_upd_other core f s : get_bank (other core) (upd core f s) = get_bank (other core) s.
Proof. by destruct core. Qed.

Lemma upd_registers_id core s :
  upd core (bank_registers (get_bank core s).(control_registers)) s = s.
Proof. by destruct core, s as [[] []]. Qed.

(** Without overflow the check is the check of the end address. *)
Lemma out_of_range_spec size offset length :
  0 <= offset < 2 ^ 64 -> 0 <= length < 2 ^ 32 -> 0 <= size < 2 ^ 64 ->
  out_of_range size offset length = (size <? offset + length).
Proof.
  intros. unfold out_of_range. destruct (Z.ltb_spec size offset); cbn [orb].
  - symmetry. apply Z.ltb_lt. lia.
  - rewrite wrap_small by lia.
    destruct (Z.ltb_spec (size - offset) length), (Z.ltb_spec size (offset + length)); done || lia.
Qed.

Lemma handle_control_now_spec core s p d :
  mirrors s -> payload_wf p -> has_buffer p d ->
  handle_control_now core s p = Ok (spec_control core s p d).
Proof.
  intros Hm [Ha Hl _] [Hd Hb]. unfold handle_control_now, spec_control.
  pose proof (mir_regs _ (mir_banks s Hm core)) as Hr.
  rewrite Hr, Z2Nat.id, out_of_range_spec by (unfold CONTROL_SIZE; lia).
  destruct (Z.ltb_spec CONTROL_SIZE (address p + data_length p)); [done|].
  unfold CONTROL_SIZE in *. rewrite is_read_cmd, is_write_cmd. destruct (command p); [| |done].
  - assert (forall r, length r = Z.to_nat 0x1000 ->
      (bs ← load r (address p) (data_length p); payload ← data_write p bs;
       Ok (upd core (bank_registers r) s, set_response_status TLM_OK_RESPONSE payload)) =
      Ok (upd core (bank_registers r) s, set_response_status TLM_OK_RESPONSE
        (set_data (Some (splice d 0 (slice r (address p) (data_length p)))) p))) as Hread.
    { intros r Hlen. rewrite load_Ok, bind_Ok by lia.
      rewrite (data_write_splice p d), bind_Ok by (rewrite ?slice_length; done || lia). done. }
    destruct core.
    + specialize (Hread _ Hr). rewrite upd_registers_id in Hread |- *. exact Hread.
    + apply Hread. rewrite length_insert. apply Hr.
  - rewrite (data_read_slice p d), bind_Ok by (done || lia).
    rewrite store_Ok, bind_Ok by (rewrite ?slice_length; lia). done.
Qed.

(** Conditional updates as unconditional updates with a conditional value. *)
Lemma get_upd_reset c core v s :
  get_bank core (upd_if c core (bank_reset v) s) =
  bank_reset (if c then v else (get_bank core s).(reset_in)) (get_bank core s).
Proof. unfold upd_if. destruct c; [apply get_upd | by destruct (get_bank core s)]. Qed.

Lemma get_upd_nmi c core v s :
  get_bank core (upd_if c core (bank_nmi v) s) =
  bank_nmi (if c then v else (get_bank core s).(nmi_in)) (get_bank core s).
Proof. unfold upd_if. destruct c; [apply get_upd | by destruct (get_bank core s)]. Qed.

Lemma get_upd_clock c core n s :
  let b := get_bank core (upd_if c core (bank_clock n) s) in let b0 := get_bank core s in
  b.(clock_period) = (if c then sc_ns n else b0.(clock_period)) /\
  b.(control_registers) = b0.(control_registers) /\ b.(memory) = b0.(memory) /\
  b.(interrupt_inputs) = b0.(interrupt_inputs) /\
  b.(reset_in) = b0.(reset_in) /\ b.(nmi_in) = b0.(nmi_in).
Proof. unfold upd_if. destruct c; [rewrite get_upd|]; done. Qed.

Lemma get_apply_boot core c regs s : get_bank core (apply_boot core c regs s) = get_bank core s.
Proof. by destruct core, c. Qed.

Lemma get_apply_cpu_wait core c regs s :
  get_bank core (apply_cpu_wait core c regs s) = get_bank core s.
Proof. by destruct core, c. Qed.

Lemma get_apply_trigger core c regs s :
  exists p, get_bank core (apply_trigger core c regs s) = bank_pending p (get_bank core s).
Proof.
  exists (system_bus_write_pending (get_bank core (apply_trigger core c regs s))).
  unfold apply_trigger. destruct c; [|by destruct (get_bank core s)].
  destruct (negb _); [by destruct core | by destruct (get_bank core s)].
Qed.

(** The outputs that are not in the core's bank. *)
Definition shared (core : Core) (s : hmp_signals) : bank * Z * Z * bool :=
  (get_bank (other core) s, s.(boot_address), s.(vector_table_offset), s.(cpu_wait)).

Lemma shared_upd core f s : shared core (upd core f s) = shared core s.
Proof. by destruct core. Qed.

Lemma shared_upd_if c core f s : shared core (upd_if c core f s) = shared core s.
Proof. destruct c; [apply shared_upd | done]. Qed.

Lemma shared_trigger c core regs s : shared core (apply_trigger core c regs s) = shared core s.
Proof.
  unfold apply_trigger. destruct c; [|done]. destruct (negb _); [|done]. by destruct core.
Qed.

Lemma shared_cpu_wait c core regs s : shared core (apply_cpu_wait core c regs s) =
  ((shared core s).1, if bool_decide (core = Arm) && c then reg_set regs CPU_WAIT_OFFSET
                      else (shared core s).2).
Proof. by destruct core, c. Qed.

Lemma shared_boot c core regs s : shared core (apply_boot core c regs s) =
  ((shared core s).1.1.1,
   if bool_decide (core = RiscV) && c then le_decode (slice regs BOOT_ADDRESS_OFFSET 8)
   else (shared core s).1.1.2,
   if bool_decide (core = Arm) && c then le_decode (slice regs BOOT_ADDRESS_OFFSET 4)
   else (shared core s).1.2, (shared core s).2).
Proof. by destruct core, c. Qed.

(** What a control write leaves in the core's bank and in the shared outputs. *)
Section Apply.
Context (core : Core) (regs bs : list Z) (off : Z) (s : hmp_signals).
Context (Hm : mirrors s) (Hregs : regs = (get_bank core s).(control_registers)).
Context (Hoff : 0 <= off) (Hlen : off + Z.of_nat (length bs) <= Z.of_nat (length regs)).
Context (Hbs : is_bytes bs).

Let len := Z.of_nat (length bs).
Let regs' := splice regs off bs.
Let s' := apply_control_write core off len (upd core (bank_registers regs') s).

Lemma apply_bank :
  let b := get_bank core s' in let b0 := get_bank core s in
  b.(control_registers) = regs' /\ b.(memory) = b0.(memory) /\
  b.(interrupt_inputs) =
    foldl (write_interrupt regs' off len) b0.(interrupt_inputs) (seqZ 0 NUM_INTERRUPTS) /\
  b.(reset_in) =
    (if overlaps off len RESET_OFFSET 1 then reg_set regs' RESET_OFFSET else b0.(reset_in)) /\
  b.(nmi_in) =
    (if overlaps off len NMI_OFFSET 1 then reg_set regs' NMI_OFFSET else b0.(nmi_in)) /\
  b.(clock_period) =
    (if overlaps off len CLOCK_PERIOD_OFFSET 4
     then sc_ns (le_decode (slice regs' CLOCK_PERIOD_OFFSET 4)) else b0.(clock_period)).
Proof using Type.
  unfold s', apply_control_write. rewrite get_upd. cbv zeta.
  match goal with |- context [apply_trigger ?c ?b ?r ?s0] =>
    destruct (get_apply_trigger c b r s0) as [p ->] end.
  rewrite get_apply_cpu_wait.
  match goal with |- context [upd_if ?c core (bank_clock ?n) ?s0] =>
    destruct (get_upd_clock c core n s0) as (Ec & Er & Em & Ei & Ere & En) end.
  cbn [bank_pending control_registers memory interrupt_inputs reset_in nmi_in clock_period].
  rewrite Ec, Er, Em, Ei, Ere, En, get_apply_boot, get_upd_nmi, get_upd_reset, !get_upd. done.
Qed.

Lemma apply_shared :
  shared core s' = (get_bank (other core) s,
    if bool_decide (core = RiscV) && overlaps off len BOOT_ADDRESS_OFFSET 8
    then le_decode (slice regs' BOOT_ADDRESS_OFFSET 8) else s.(boot_address),
    if bool_decide (core = Arm) && overlaps off len BOOT_ADDRESS_OFFSET 8
    then le_decode (slice regs' BOOT_ADDRESS_OFFSET 4) else s.(vector_table_offset),
    if bool_decide (core = Arm) && overlaps off len CPU_WAIT_OFFSET 1
    then reg_set regs' CPU_WAIT_OFFSET else s.(cpu_wait)).
Proof using Type.
  unfold s', apply_control_write. rewrite get_upd. cbv zeta.
  rewrite shared_trigger, shared_cpu_wait, shared_upd_if, shared_boot, !shared_upd_if, !shared_upd.
  done.
Qed.

Lemma bank_regs_size : Z.of_nat (length regs) = 0x1000.
Proof using Hm Hregs. rewrite Hregs, (mir_regs _ (mir_banks s Hm core)). done. Qed.

Lemma apply_bank_mirrors : bank_mirrors (get_bank core s').
Proof using Hm Hregs Hoff Hlen Hbs.
  pose proof bank_regs_size as Hsz. pose proof (mir_banks s Hm core) as Hb.
  destruct apply_bank as (Er & Em & Ei & Ere & En & Ec).
  assert (Hsp : length regs' = length regs) by (apply splice_length; lia).
  split; rewrite ?Er, ?Em, ?Ei, ?Ere, ?En, ?Ec.
  - rewrite Hsp, Hregs. apply Hb.
  - apply splice_bytes; [rewrite Hregs; apply Hb | done].
  - apply Hb.
  - rewrite write_interrupts_length. apply Hb.
  - apply mirror_interrupts; try done; try (unfold NUM_INTERRUPTS in *; lia).
    + rewrite (mir_irq_len _ Hb). done.
    + rewrite Hregs. apply Hb.
  - apply mirror_bit; try done; try (unfold RESET_OFFSET; lia). rewrite Hregs. apply Hb.
  - apply mirror_bit; try done; try (unfold NMI_OFFSET; lia). rewrite Hregs. apply Hb.
  - apply (mirror_field _ _ _ Hoff Hlen ltac:(lia) (fun b => sc_ns (le_decode b)));
      try done; try (unfold CLOCK_PERIOD_OFFSET; lia). rewrite Hregs. apply Hb.
Qed.

Lemma hmp_apply_mirrors : mirrors s'.
Proof using Hm Hregs Hoff Hlen Hbs.
  pose proof bank_regs_size as Hsz. pose proof apply_bank_mirrors as Hbank.
  destruct apply_bank as (Er & _). injection apply_shared as Eo Eb Ev Ec.
  split.
  - intros c. destruct (decide (c = core)) as [->|]; [done|].
    assert (c = other core) as -> by (by destruct c, core). rewrite Eo. apply Hm.
  - rewrite Eb. destruct core; cbn in Er, Eo |- *.
    + rewrite Er. apply mirror_field; try done; try (unfold BOOT_ADDRESS_OFFSET; lia).
      rewrite Hregs. apply Hm.
    + rewrite Eo. apply Hm.
  - rewrite Ev. destruct core; cbn in Er, Eo |- *.
    + rewrite Eo. apply Hm.
    + rewrite Er. apply mirror_field; try done; try (unfold BOOT_ADDRESS_OFFSET; lia).
      rewrite Hregs. apply Hm.
  - rewrite Ec. destruct core; cbn in Er, Eo |- *.
    + rewrite Eo. apply Hm.
    + rewrite Er. apply mirror_bit; try done; try (unfold CPU_WAIT_OFFSET; lia).
      rewrite Hregs. apply Hm.
Qed.
End Apply.

Lemma bank_mirrors_pending b p : bank_mirrors b -> bank_mirrors (bank_pending p b).
Proof. intros []; by split. Qed.

Lemma bank_mirrors_memory b m :
  bank_mirrors b -> length m = Z.to_nat MEMORY_SIZE -> bank_mirrors (bank_memory m b).
Proof. intros []; by split. Qed.

(** Updates of a bank that keep its registers keep the shared outputs right. *)
Lemma mirrors_upd core f s :
  mirrors s -> (forall b, bank_mirrors b -> bank_mirrors (f b)) ->
  (forall b, (f b).(control_registers) = b.(control_registers)) -> mirrors (upd core f s).
Proof.
  intros [Hb Hbo Hv Hc] Hf Hr. split.
  - intros c. destruct (decide (c = core)) as [->|].
    + rewrite get_upd. apply Hf, Hb.
    + assert (c = other core) as -> by (by destruct c, core). rewrite get_upd_other. apply Hb.
  - destruct core; cbn; rewrite ?Hr; done.
  - destruct core; cbn; rewrite ?Hr; done.
  - destruct core; cbn; rewrite ?Hr; done.
Qed.

(** Refreshing the read-only reset-request byte disturbs no mirrored field. *)
Lemma mirrors_reset_request s v :
  is_byte v -> mirrors s ->
  mirrors (upd Arm (bank_registers (<[Z.to_nat SYSTEM_RESET_REQUEST_OFFSET := v]>
    (get_bank Arm s).(control_registers))) s).
Proof.
  intros Hv [Hb Hbo Hvt Hc]. pose proof (Hb Arm) as Ha. cbn in Ha |- *.
  set (regs := control_registers (arm_bank s)) in *.
  assert (Hl : length regs = Z.to_nat 0x1000) by apply (mir_regs _ Ha).
  assert (Hsp : <[Z.to_nat SYSTEM_RESET_REQUEST_OFFSET := v]> regs =
    splice regs SYSTEM_RESET_REQUEST_OFFSET [v]).
  { apply list_eq. intros i. unfold SYSTEM_RESET_REQUEST_OFFSET in *.
    rewrite lookup_splice by (cbn [length]; lia). cbn [length].
    destruct (decide (i = Z.to_nat 0x11c)) as [->|].
    - rewrite list_lookup_insert_eq by lia. rewrite decide_False, decide_True by lia.
      by rewrite Nat.sub_diag.
    - rewrite list_lookup_insert_ne by done. repeat case_decide; done || lia. }
  rewrite Hsp.
  assert (Hslice : forall st sz, 0 <= st -> 0 <= sz -> st + sz <= 0x11c ->
    slice (splice regs SYSTEM_RESET_REQUEST_OFFSET [v]) st sz = slice regs st sz).
  { intros. unfold SYSTEM_RESET_REQUEST_OFFSET. apply slice_splice_disjoint; cbn [length]; lia. }
  assert (Hbit : forall i, 0 <= i < 0x11c ->
    reg_set (splice regs SYSTEM_RESET_REQUEST_OFFSET [v]) i = reg_set regs i).
  { intros. unfold reg_set, SYSTEM_RESET_REQUEST_OFFSET.
    rewrite lookup_total_splice_out; cbn [length]; done || lia. }
  split.
  - intros []; cbn; [apply (Hb RiscV)|]. destruct Ha. split; cbn; try done.
    + rewrite splice_length; unfold SYSTEM_RESET_REQUEST_OFFSET; cbn [length]; lia || done.
    + apply splice_bytes; [done|]. apply List.Forall_cons; [done|apply List.Forall_nil].
    + intros i Hi. rewrite Hbit by (unfold NUM_INTERRUPTS in Hi; lia). auto.
    + rewrite Hbit by (unfold RESET_OFFSET; lia). done.
    + rewrite Hbit by (unfold NMI_OFFSET; lia). done.
    + rewrite Hslice by (unfold CLOCK_PERIOD_OFFSET; lia). done.
  - done.
  - cbn. rewrite Hslice by (unfold BOOT_ADDRESS_OFFSET; lia). done.
  - cbn. rewrite Hbit by (unfold CPU_WAIT_OFFSET; lia). done.
Qed.

Lemma hmp_spec_control_mirrors core s p d :
  mirrors s -> payload_wf p -> has_buffer p d -> mirrors (spec_control core s p d).1.
Proof.
  intros Hm [Ha Hl Hby] [Hd Hb]. unfold spec_control, CONTROL_SIZE.
  destruct (Z.ltb_spec 0x1000 (address p + data_length p)); [done|].
  destruct (command p); cbn [fst]; [| |done].
  - destruct core; [by rewrite upd_registers_id|]. apply mirrors_reset_request; [|done].
    by destruct (system_reset_request s).
  - assert (Hlen : Z.of_nat (length (slice d 0 (data_length p))) = data_length p)
      by (rewrite slice_length; lia).
    rewrite <- Hlen at 1. pose proof (mir_regs _ (mir_banks s Hm core)) as Hr.
    apply hmp_apply_mirrors; try done; rewrite ?Hlen; try (unfold CONTROL_SIZE in *; lia).
    apply slice_bytes, Hby, Hd.
Qed.

Lemma handle_memory_effect core s p t s' p' t' :
  handle_memory core s p t = Ok (s', p', t') ->
  s' = s \/ exists m, length m = length (get_bank core s).(memory) /\
                      s' = upd core (bank_memory m) s.
Proof.
  unfold handle_memory. destruct (out_of_range _ _ _); [intros [= <- _ _]; by left|].
  destruct (is_read p).
  - intros H. apply bind_Ok_inv in H as (bs & _ & H). apply bind_Ok_inv in H as (q & _ & [= <- _ _]).
    by left.
  - destruct (is_write p); [|intros [= <- _ _]; by left].
    intros H. apply bind_Ok_inv in H as (bs & _ & H). apply bind_Ok_inv in H as (mem & Hs & [= <- _ _]).
    apply store_inv in Hs as (-> & ? & ?). right. eexists. split; [|done].
    by apply splice_length.
Qed.

Lemma new_hmp_signals_mirrors : mirrors new_hmp_signals.
Proof.
  split; [|reflexivity..]. intros core. split; try (by destruct core).
  - destruct core; apply splice_bytes; auto with mem; apply splice_bytes; auto with mem;
      by apply Forall_replicate.
  - intros i Hi.
    assert (Hall : Forall (fun i => interrupt_inputs (get_bank core new_hmp_signals) !! Z.to_nat i =
      Some (reg_set (control_registers (get_bank core new_hmp_signals)) i)) (seqZ 0 16)).
    { destruct core; vm_compute; repeat constructor. }
    rewrite Forall_forall in Hall. apply Hall, elem_of_seqZ. unfold NUM_INTERRUPTS in Hi. lia.
Qed.

Lemma hmp_step_mirrors s s' : mirrors s -> hmp_step s s' -> mirrors s'.
Proof.
  intros Hm [core p d s1 p1 Hp Hd Hc|core p t s1 p1 t1 Hc|b|core|].
  - rewrite (handle_control_now_spec core s p d) in Hc by done. injection Hc as Hc.
    assert (s1 = (spec_control core s p d).1) as -> by (by rewrite Hc).
    by apply hmp_spec_control_mirrors.
  - apply handle_memory_effect in Hc as [->|(m & Hl & ->)]; [done|].
    destruct Hm as [Hb Hbo Hv Hw]. split.
    + intros c. destruct (decide (c = core)) as [->|].
      * rewrite get_upd. apply bank_mirrors_memory; [done|]. rewrite Hl. apply (Hb core).
      * assert (c = other core) as -> by (by destruct c, core). rewrite get_upd_other. apply Hb.
    + by destruct core.
    + by destruct core.
    + by destruct core.
  - destruct Hm as [Hb Hbo Hv Hw]. split; [|done..]. intros c. destruct c; [apply (Hb RiscV)|apply (Hb Arm)].
  - apply mirrors_upd; [done| |done]. intros b. apply bank_mirrors_pending.
  - destruct Hm as [Hb Hbo Hv Hw]. split; [|done..]. intros c. destruct c; [apply (Hb RiscV)|apply (Hb Arm)].
Qed.

(** ** Properties *)

(** C16: in every state the module can reach, by any interleaving of accesses
    from both cores, changes of the reset-request input, the writer thread and
    event deliveries, each output shows the registers of its own core's bank. *)
Theorem reachable_mirrors s : rtc hmp_step new_hmp_signals s -> mirrors s.
Proof.
  intros Hr. generalize new_hmp_signals_mirrors. induction Hr; eauto using hmp_step_mirrors.
Qed.

Definition example_write (a : Z) (d : list Z) : payload :=
  mk_payload TLM_WRITE_COMMAND a (Some d) (Z.of_nat (length d)) (Z.of_nat (length d)) None 0 false
    TLM_INCOMPLETE_RESPONSE.

Lemma reachable_mirrors_witness :
  exists s, rtc hmp_step new_hmp_signals s /\ s.(cpu_wait) = true /\ mirrors s.
Proof.
  assert (exists s, rtc hmp_step new_hmp_signals s /\ s.(cpu_wait) = true) as (s & Hs & Hc).
  { eexists. split.
    - apply rtc_once. eapply (Step_control _ Arm (example_write 0x118 [1]) [1]).
      + split; cbn; [lia|lia|]. intros ? [= <-]. solve_bytes.
      + split; [reflexivity | cbn; lia].
      + reflexivity.
    - reflexivity. }
  exists s. split; [exact Hs|]. split; [exact Hc|]. exact (reachable_mirrors s Hs).
Defined.

(** A control access takes effect in one delta cycle, atomically on the
    state it finds then, and for every payload with a buffer, at any 64-bit
    address, it does what its command and range say: an out-of-range access or
    an unsupported command changes only the status, a read returns the
    registers (for the Arm core with the current reset-request level), a write
    stores and applies the bytes.  It never faults. *)
Theorem handle_control_run {W} core p d (s : hmp_signals * W) env i :
  mirrors (env i s).1 -> payload_wf p -> has_buffer p d ->
  run env i (handle_control core p s) =
    ([(Wait_time SC_ZERO_TIME, s)],
     let '(h, p') := spec_control core (env i s).1 p d in Ok ((h, (env i s).2), p')).
Proof.
  intros Hm Hp Hd. unfold handle_control, mbind at 1, proc_bind, p_wait, p_step.
  cbn [prog_bind run]. rewrite (handle_control_now_spec core _ p d) by done. rewrite bind_Ok.
  by destruct (spec_control core (env i s).1 p d).
Qed.

Lemma handle_control_run_witness :
  let p := mk_payload TLM_READ_COMMAND (2 ^ 64 - 1) (Some [0; 0]) 2 2 None 0 false
             TLM_INCOMPLETE_RESPONSE in
  run (fun _ s => s) 0 (handle_control (W := unit) Arm p (new_hmp_signals, tt)) =
    ([(Wait_time SC_ZERO_TIME, (new_hmp_signals, tt))],
     let '(h, p') := spec_control Arm new_hmp_signals p [0; 0] in Ok ((h, tt), p')).
Proof.
  cbv zeta. apply (handle_control_run Arm _ [0; 0] (new_hmp_signals, tt) (fun _ s => s) 0).
  - exact new_hmp_signals_mirrors.
  - split; cbn; [lia|lia|]. intros ? [= <-]. solve_bytes.
  - split; [reflexivity | cbn; lia].
Defined.

(** The two cores are isolated: a control access of one core leaves the
    other core's registers, memory, interrupts, clock and pending trigger
    alone, and the outputs that belong to the other core's configuration. *)
Theorem control_access_isolated core s p d s' p' :
  mirrors s -> payload_wf p -> has_buffer p d ->
  handle_control_now core s p = Ok (s', p') ->
  get_bank (other core) s' = get_bank (other core) s /\
  match core with
  | RiscV => s'.(vector_table_offset) = s.(vector_table_offset) /\ s'.(cpu_wait) = s.(cpu_wait)
  | Arm => s'.(boot_address) = s.(boot_address)
  end.
Proof.
  intros Hm Hp [Hd Hb]. rewrite (handle_control_now_spec core s p d) by done.
  unfold spec_control. destruct (Z.ltb_spec CONTROL_SIZE (address p + data_length p));
    [intros [= <- <-]; by destruct core|].
  destruct (command p).
  - intros [= <- _]. by destruct core.
  - intros [= Hs _]. destruct Hp as [Ha Hl Hby].
    assert (Hlen : Z.of_nat (length (slice d 0 (data_length p))) = data_length p)
      by (rewrite slice_length; lia).
    pose proof (apply_shared core (control_registers (get_bank core s)) (slice d 0 (data_length p))
      (address p) s) as Hsh.
    rewrite Hlen, Hs in Hsh. unfold shared in Hsh.
    assert (get_bank (other core) s' = get_bank (other core) s) as Eo by congruence.
    split; [exact Eo|]. clear Hs Eo. destruct core.
    + change (bool_decide (RiscV = Arm)) with false in Hsh. cbn [andb] in Hsh.
      injection Hsh as _ _ Ev Ec. done.
    + change (bool_decide (Arm = RiscV)) with false in Hsh. cbn [andb] in Hsh.
      injection Hsh as _ Eb _ _. done.
  - intros [= <- _]. by destruct core.
Qed.

Lemma control_access_isolated_witness :
  exists s' p', handle_control_now RiscV new_hmp_signals (example_write 0x108 [1; 2; 3; 4]) = Ok (s', p') /\
    get_bank Arm s' = get_bank Arm new_hmp_signals /\
    s'.(vector_table_offset) = DEFAULT_VTOR /\ s'.(cpu_wait) = false.
Proof.
  do 2 eexists. split; [reflexivity|].
  apply (control_access_isolated RiscV new_hmp_signals (example_write 0x108 [1; 2; 3; 4]) [1; 2; 3; 4] _
    (set_response_status TLM_OK_RESPONSE (example_write 0x108 [1; 2; 3; 4]))).
  - exact new_hmp_signals_mirrors.
  - split; cbn; [lia|lia|]. intros ? [= <-]. solve_bytes.
  - split; [reflexivity | cbn; lia].
  - reflexivity.
Defined.

(** The environment of the scenario below: during the first delta cycle of the
    Arm transport the RISC-V core writes its trigger register, the event is
    delivered in the next one; nothing else happens. *)
Definition late_trigger (riscv_trigger : hmp_signals -> hmp_signals) (i : nat)
  (s : hmp_signals * unit) : hmp_signals * unit :=
  match i with
  | 2%nat => (riscv_trigger s.1, s.2)
  | 3%nat => (set_notified false s.1, s.2)
  | _ => s
  end.

(** A trigger can be lost.  When the transport of the Arm write takes two
    delta cycles and the RISC-V core writes its trigger register in the first
    of them, the event fires while the thread is not waiting for it, and the
    thread then sleeps on the event with the RISC-V request still pending and
    no notification left to wake it. *)
Theorem system_bus_writer_loses_trigger :
  let two_deltas := fun (core : Core) (p : payload) (t : sc_time) (s : hmp_signals * unit) =>
    Wait (Wait_time SC_ZERO_TIME) s (fun s' =>
      Wait (Wait_time SC_ZERO_TIME) s' (fun s'' => Ret s'' (p, t))) in
  let trigger := fun h =>
    match handle_control_now RiscV h (example_write 0x114 [1; 0; 0; 0]) with
    | Ok (h', _) => h' | Err _ => h end in
  let start := (upd Arm (bank_pending true) new_hmp_signals, tt) in
  exists s, (run (late_trigger trigger) 0 (system_bus_writer two_deltas 2 start)).1 !! 4%nat =
      Some (Wait_event system_bus_write_event, s) /\
    s.1.(riscv_bank).(system_bus_write_pending) = true /\
    s.1.(system_bus_write_notified) = false.
Proof.
  cbv zeta. eexists. split; [vm_compute; reflexivity|]. split; reflexivity.
Qed.
