(* ===== verification/SignalTops.v ===== *)
(** * The tops of the signal examples (examples/riscv-signals,
    examples/hmp-signals)

    [top] binds the ports of the signals module to the pins of one bridge or of
    two, and each bridge's bus to the module's targets.  Here the modules of
    RiscvSignals and HmpSignals are put behind those bindings: an access that
    Renode makes through a bridge is a process over the whole platform, and the
    pins that Renode sees are functions of its state. *)

From stdpp Require Import base numbers list relations.
From S2P Require Import Prelude Tlm Kernel RegisterFile RiscvSignals HmpSignals.
#[local] Open Scope Z_scope.

(** ** Definitions *)

(** The ports of a bridge that the tops bind, towards Renode; [None] is a port
    that is left unbound. *)
Record bridge_ports : Type := mk_ports {
  gpio_ports_in : Z -> option bool;
  boot_address_in : option Z;
  init_vtor_ns_in : option Z;
  clock_period_in : option sc_time;
}.

(** *** examples/riscv-signals: one bridge *)
Module RiscvTop.

(** [top::Signal] *)
Definition NonMaskableInterrupt : Z := 4096.
Definition Reset : Z := 4097.

Definition ports (s : riscv_signals) : bridge_ports :=
  mk_ports
    (fun pin =>
       if (0 <=? pin) && (pin <? RiscvSignals.NUM_INTERRUPTS)
       then s.(RiscvSignals.interrupt_inputs) !! Z.to_nat pin
       else if pin =? Reset then Some s.(RiscvSignals.reset_in)
       else if pin =? NonMaskableInterrupt then Some s.(RiscvSignals.nmi_in)
       else None)
    (Some s.(RiscvSignals.boot_address)) None (Some s.(RiscvSignals.clock_period)).

(** The register that a pin shows. *)
Definition register_of_pin (pin : Z) : option Z :=
  if (0 <=? pin) && (pin <? 16) then Some pin
  else if pin =? 4097 then Some 0x100
  else if pin =? 4096 then Some 0x104
  else None.
End RiscvTop.

(** *** examples/hmp-signals: a bridge for each core *)
Module HmpTop.

(** The enumerations [cortex_m::Signal] and [riscv::Signal]. *)
Module cortex_m.
Definition NonMaskableInterrupt : Z := 1000.
Definition CoreResetIn : Z := 1001.
Definition CpuWait : Z := 1002.
Definition SystemResetRequest : Z := 1006.
End cortex_m.
Module riscv.
Definition NonMaskableInterrupt : Z := 4096.
Definition Reset : Z := 4097.
End riscv.

Definition reset_pins (core : Core) : Z :=
  match core with RiscV => riscv.Reset | Arm => cortex_m.CoreResetIn end.
Definition nmi_pins (core : Core) : Z :=
  match core with RiscV => riscv.NonMaskableInterrupt | Arm => cortex_m.NonMaskableInterrupt end.

Definition ports (core : Core) (s : hmp_signals) : bridge_ports :=
  let b := get_bank core s in
  mk_ports
    (fun pin =>
       if (0 <=? pin) && (pin <? HmpSignals.NUM_INTERRUPTS) then
         if negb (bool_decide (core = RiscV)) || negb (pin =? 0)
         then b.(HmpSignals.interrupt_inputs) !! Z.to_nat pin else None
       else if pin =? reset_pins core then Some b.(HmpSignals.reset_in)
       else if pin =? nmi_pins core then Some b.(HmpSignals.nmi_in)
       else if bool_decide (core = Arm) && (pin =? cortex_m.CpuWait) then Some s.(cpu_wait)
       else None)
    (match core with RiscV => Some s.(HmpSignals.boot_address) | Arm => None end)
    (match core with RiscV => None | Arm => Some s.(vector_table_offset) end)
    (Some b.(HmpSignals.clock_period)).

(** A pin that Renode drives, [gpio_ports_out]: one is bound. *)
Definition gpio_ports_out (core : Core) (pin : Z) (v : bool) (s : hmp_signals) : hmp_signals :=
  if bool_decide (core = Arm) && (pin =? cortex_m.SystemResetRequest) then
    mk_hmp_signals s.(riscv_bank) s.(arm_bank) s.(HmpSignals.boot_address) s.(vector_table_offset)
      s.(cpu_wait) v s.(system_bus_write_notified) s.(HmpSignals.boot_address_value) s.(vtor_value)
  else s.

Section Access.
Context {W : Type}.

Definition memory_target (core : Core) (p : payload) : proc HmpSignals.event (hmp_signals * W) payload :=
  p_step (fun s => '(h, p, _) ← HmpSignals.handle_memory core s.1 p SC_ZERO_TIME; Ok ((h, s.2), p)).

(** An access of Renode through the bridge of a core, its bus and the tagged
    target sockets. *)
Definition renode_access (core : Core) (p : payload) : proc HmpSignals.event (hmp_signals * W) payload :=
  HmpSignals.bus_b_transport (HmpSignals.handle_control core) (memory_target core) p.
End Access.

(** The register of the core's bank that a pin of its bridge shows. *)
Definition register_of_pin (core : Core) (pin : Z) : option Z :=
  if (0 <=? pin) && (pin <? 16) then
    match core with RiscV => if pin =? 0 then None else Some pin | Arm => Some pin end
  else match core with
  | RiscV => if pin =? 4097 then Some 0x100 else if pin =? 4096 then Some 0x104 else None
  | Arm => if pin =? 1001 then Some 0x100 else if pin =? 1000 then Some 0x104
           else if pin =? 1002 then Some 0x118 else None
  end.

(** What the rest of the platform may do while an access is suspended. *)
Definition platform_rely {W} (s s' : hmp_signals * W) : Prop := rtc hmp_step s.1 s'.1.
End HmpTop.

(** A byte access at an address. *)
Definition byte_access (c : tlm_command) (a b : Z) : payload :=
  mk_payload c a (Some [b]) 1 1 None 0 false TLM_INCOMPLETE_RESPONSE.

(** Every pin of every bridge shows its register, and the pins without one are
    unbound. *)
Definition riscv_pins_show (s : riscv_signals) : Prop := forall pin,
  (RiscvTop.ports s).(gpio_ports_in) pin =
    (r ← RiscvTop.register_of_pin pin; Some (reg_set s.(RiscvSignals.control_registers) r)).

Definition hmp_pins_show (s : hmp_signals) : Prop := forall core pin,
  (HmpTop.ports core s).(gpio_ports_in) pin =
    (r ← HmpTop.register_of_pin core pin;
     Some (reg_set (get_bank core s).(HmpSignals.control_registers) r)).

(** Several accesses through one bridge, one after the other. *)
Fixpoint hmp_session {W} (core : Core) (ps : list payload) : proc HmpSignals.event (hmp_signals * W) unit :=
  match ps with
  | [] => mret tt
  | p :: ps => _ ← HmpTop.renode_access core p; hmp_session core ps
  end.

(** ** Lemmas *)

Lemma riscv_mirrors_pins s : RiscvSignals.mirrors s -> riscv_pins_show s.
Proof.
  intros Hm pin. unfold RiscvTop.ports, RiscvTop.register_of_pin, RiscvTop.Reset,
    RiscvTop.NonMaskableInterrupt, RiscvSignals.NUM_INTERRUPTS. cbn [gpio_ports_in].
  destruct (Z.leb_spec 0 pin), (Z.ltb_spec pin 16); cbn [andb].
  1: { cbn. apply (RiscvSignals.mir_irq s Hm). unfold RiscvSignals.NUM_INTERRUPTS. lia. }
  all: destruct (pin =? 4097); [by cbn; rewrite (RiscvSignals.mir_reset s Hm)|].
  all: destruct (pin =? 4096); [by cbn; rewrite (RiscvSignals.mir_nmi s Hm)|done].
Qed.

Lemma hmp_mirrors_pins s : HmpSignals.mirrors s -> hmp_pins_show s.
Proof.
  intros Hm core pin. pose proof (HmpSignals.mir_banks s Hm core) as Hb.
  unfold HmpTop.ports, HmpTop.register_of_pin, HmpSignals.NUM_INTERRUPTS. cbn [gpio_ports_in].
  destruct ((0 <=? pin) && (pin <? 16)) eqn:E.
  - assert (Hi : (get_bank core s).(HmpSignals.interrupt_inputs) !! Z.to_nat pin =
      Some (reg_set (get_bank core s).(HmpSignals.control_registers) pin)).
    { apply (HmpSignals.mir_irq _ Hb). unfold HmpSignals.NUM_INTERRUPTS. lia. }
    destruct core; [|exact Hi]. cbn. by destruct (pin =? 0).
  - destruct core; cbn [HmpTop.reset_pins HmpTop.nmi_pins bool_decide].
    + change (HmpTop.riscv.Reset) with 4097. change HmpTop.riscv.NonMaskableInterrupt with 4096.
      destruct (pin =? 4097); [by apply (f_equal Some), (HmpSignals.mir_reset _ Hb)|].
      by destruct (pin =? 4096); [apply (f_equal Some), (HmpSignals.mir_nmi _ Hb)|].
    + change (HmpTop.cortex_m.CoreResetIn) with 1001.
      change HmpTop.cortex_m.NonMaskableInterrupt with 1000. change HmpTop.cortex_m.CpuWait with 1002.
      destruct (pin =? 1001); [by apply (f_equal Some), (HmpSignals.mir_reset _ Hb)|].
      destruct (pin =? 1000); [by apply (f_equal Some), (HmpSignals.mir_nmi _ Hb)|].
      cbn. by destruct (pin =? 1002); [apply (f_equal Some), (HmpSignals.mir_cpu_wait s Hm)|].
Qed.

Lemma hmp_steps_mirrors s s' : HmpSignals.mirrors s -> rtc hmp_step s s' -> HmpSignals.mirrors s'.
Proof. intros Hm Hr. induction Hr; eauto using hmp_step_mirrors. Qed.

Lemma hmp_control_step core s p d :
  HmpSignals.mirrors s -> payload_wf p -> has_buffer p d ->
  hmp_step s (HmpSignals.spec_control core s p d).1.
Proof.
  intros Hm Hp Hd. apply (Step_control _ core p d _ (HmpSignals.spec_control core s p d).2); [exact Hp|exact Hd|].
  rewrite (handle_control_now_spec core s p d) by done. by rewrite <- surjective_pairing.
Qed.

(** The memory target serves every payload that has a buffer. *)
Lemma hmp_memory_total core s p d t :
  HmpSignals.mirrors s -> payload_wf p -> has_buffer p d ->
  exists s' p', HmpSignals.handle_memory core s p t = Ok (s', p', t).
Proof.
  intros Hm [Ha Hl _] [Hd Hb]. pose proof (HmpSignals.mir_memory _ (mir_banks s Hm core)) as Hmem.
  unfold HmpSignals.handle_memory, HmpSignals.MEMORY_SIZE in *. rewrite Hmem, Z2Nat.id, out_of_range_spec by lia. destruct (Z.ltb_spec 0x1000 (address p + data_length p)); [eauto|].
  rewrite is_read_cmd, is_write_cmd. destruct (command p); [| |eauto].
  - rewrite load_Ok, bind_Ok by lia.
    rewrite (data_write_splice p d), bind_Ok by (rewrite ?slice_length; done || lia). eauto.
  - rewrite (data_read_slice p d), bind_Ok by (done || lia).
    rewrite store_Ok, bind_Ok by (rewrite ?slice_length; lia). eauto.
Qed.

Section Access.
Context {W : Type} (R : hmp_signals * W -> hmp_signals * W -> Prop).
Context (G : wait_on HmpSignals.event -> hmp_signals * W -> Prop).

(** A control access: its effect is that of [spec_control] on the state it finds
    after the delta cycle. *)
Lemma wp_control_access core p d s Q :
  p.(address) < 0x1000 -> payload_wf p -> has_buffer p d ->
  G (Wait_time SC_ZERO_TIME) s ->
  (forall s1, R s s1 -> HmpSignals.mirrors s1.1 /\
     Q (HmpSignals.spec_control core s1.1 p d).2 ((HmpSignals.spec_control core s1.1 p d).1, s1.2)) ->
  wp R G (HmpTop.renode_access core p s) Q.
Proof.
  intros Ha Hp Hd HG HQ. unfold HmpTop.renode_access, HmpSignals.bus_b_transport.
  destruct (Z.ltb_spec (address p) 0x1000); [|lia].
  unfold HmpSignals.handle_control. apply wp_bind, wp_wait; [done|]. intros s1 Hs1.
  destruct (HQ s1 Hs1) as [Hm HQ1].
  destruct (HmpSignals.spec_control core s1.1 p d) as [h' p'] eqn:E. cbn [fst snd] in HQ1.
  eapply wp_step; [|exact HQ1].
  by rewrite (handle_control_now_spec core _ p d), E, bind_Ok.
Qed.
End Access.

(** Every access ends without a fault, and all it does are steps of the module. *)
Lemma wp_renode_access {W} core p d (s : hmp_signals * W) :
  HmpSignals.mirrors s.1 -> payload_wf p -> has_buffer p d ->
  wp HmpTop.platform_rely (fun _ s => hmp_pins_show s.1) (HmpTop.renode_access core p s)
    (fun _ s' => HmpSignals.mirrors s'.1).
Proof.
  intros Hm Hp Hd. destruct (decide (p.(address) < 0x1000)) as [Ha|Ha].
  - apply (wp_control_access _ _ core p d); [done..|by apply hmp_mirrors_pins|].
    intros s1 Hs1. pose proof (hmp_steps_mirrors _ _ Hm Hs1) as Hm1. split; [done|].
    cbn [fst]. eapply hmp_step_mirrors; [exact Hm1|by apply hmp_control_step].
  - unfold HmpTop.renode_access, HmpSignals.bus_b_transport.
    destruct (Z.ltb_spec (address p) 0x1000); [lia|]. apply wp_bind. cbv zeta.
    assert (Hq : payload_wf (set_address (u64 (address p - 0x1000)) p)).
    { destruct Hp. split; cbn; [apply wrap_range; lia|done..]. }
    destruct (hmp_memory_total core s.1 _ d SC_ZERO_TIME Hm Hq Hd) as (h & q & Hh).
    eapply wp_step; [by rewrite Hh, bind_Ok|]. cbn [wp mret proc_ret fst].
    eapply hmp_step_mirrors; [exact Hm|]. eapply Step_memory, Hh.
Qed.

(** *** A byte written to the control registers *)

Lemma byte_access_wf c a b : 0 <= a < 2 ^ 64 -> is_byte b -> payload_wf (byte_access c a b).
Proof. intros Ha Hb. split; cbn; [done|lia|]. intros ? [= <-]. constructor; [done|constructor]. Qed.

Lemma byte_access_buffer c a b : has_buffer (byte_access c a b) [b].
Proof. split; [reflexivity | cbn; lia]. Qed.

Lemma reg_set_splice_byte regs a b r :
  0 <= a < Z.of_nat (length regs) -> 0 <= r ->
  reg_set (splice regs a [b]) r = if decide (r = a) then negb (b =? 0) else reg_set regs r.
Proof.
  intros Ha Hr. unfold reg_set. case_decide as E.
  - subst. f_equal. f_equal. apply list_lookup_total_correct.
    rewrite lookup_splice by (cbn [length]; lia). cbn [length].
    rewrite decide_False, decide_True by lia. by rewrite Nat.sub_diag.
  - rewrite lookup_total_splice_out by (cbn [length]; lia). done.
Qed.

Lemma riscv_control_write_registers s a b t :
  RiscvSignals.mirrors s -> 0 <= a < 0x1000 -> is_byte b ->
  ((RiscvSignals.spec_control s (byte_access TLM_WRITE_COMMAND a b) [b] t).1.1).(RiscvSignals.control_registers)
    = splice s.(RiscvSignals.control_registers) a [b].
Proof.
  intros Hm Ha Hb. unfold RiscvSignals.spec_control, RiscvSignals.CONTROL_SIZE.
  cbn [address data_length byte_access command].
  destruct (Z.ltb_spec 0x1000 (a + 1)); [lia|]. cbn [fst].
  change (slice [b] 0 1) with [b].
  apply (RiscvSignals.apply_outputs s.(RiscvSignals.control_registers) [b] a s).
Qed.

Lemma hmp_control_write_registers core c s a b :
  HmpSignals.mirrors s -> 0 <= a < 0x1000 -> is_byte b ->
  (get_bank c (HmpSignals.spec_control core s (byte_access TLM_WRITE_COMMAND a b) [b]).1).(HmpSignals.control_registers)
    = let regs := (get_bank c s).(HmpSignals.control_registers) in
      if decide (c = core) then splice regs a [b] else regs.
Proof.
  intros Hm Ha Hb. unfold HmpSignals.spec_control, HmpSignals.CONTROL_SIZE.
  cbn [address data_length byte_access command].
  destruct (Z.ltb_spec 0x1000 (a + 1)); [lia|]. cbn [fst].
  change (slice [b] 0 1) with [b].
  pose proof (HmpSignals.apply_bank core (get_bank core s).(HmpSignals.control_registers) [b] a s) as [Hr _].
  pose proof (HmpSignals.apply_shared core (get_bank core s).(HmpSignals.control_registers) [b] a s) as Hs.
  cbn [length] in *. change (Z.of_nat 1) with 1 in *. cbv zeta.
  destruct (decide (c = core)) as [E|E].
  - rewrite E. exact Hr.
  - assert (c = other core) as -> by (by destruct c, core). unfold shared in Hs.
    by injection Hs as -> _ _ _.
Qed.

(** ** Properties *)

(** C34: the pins of the two-core platform.  While Renode makes any accesses
    through one bridge, with the other bridge, the writer thread and the reset
    request acting during every suspension, no access faults or fails to end, and
    whenever an access is suspended and at the end every pin of both bridges
    shows the control register of its own core that the documentation assigns to
    it; the pins without a register, interrupt 0 of the RISC-V core among them,
    are unbound. *)
Theorem hmp_platform_pins {W} core ps (s : hmp_signals * W) :
  HmpSignals.mirrors s.1 -> Forall (fun p => payload_wf p /\ exists d, has_buffer p d) ps ->
  wp HmpTop.platform_rely (fun _ s => hmp_pins_show s.1) (hmp_session core ps s)
    (fun _ s' => hmp_pins_show s'.1).
Proof.
  intros Hm Hps. revert s Hm. induction Hps as [|p ps [Hp [d Hd]] _ IH]; intros s Hm.
  - by apply hmp_mirrors_pins.
  - apply wp_bind. eapply wp_mono; [|by eapply wp_renode_access].
    intros ? s' Hm'. by apply IH.
Qed.

Lemma hmp_platform_pins_witness :
  wp HmpTop.platform_rely (fun _ s => hmp_pins_show s.1)
    (hmp_session Arm [byte_access TLM_WRITE_COMMAND 0x118 1; byte_access TLM_READ_COMMAND 0x1005 0]
       (new_hmp_signals, tt))
    (fun _ s' => hmp_pins_show s'.1).
Proof.
  apply hmp_platform_pins; [exact new_hmp_signals_mirrors|].
  apply List.Forall_cons; [|apply List.Forall_cons; [|apply List.Forall_nil]]; (split; [|eexists; apply byte_access_buffer]);
    apply byte_access_wf; unfold is_byte; lia.
Defined.

(** C17: a byte that Renode writes to the control space through the bridge of a
    core takes effect at the end of a delta cycle, on the state [env i s] that the
    rest of the platform has made by then: the access is answered OK, the pin of
    that bridge, if any, that shows the register at this address is then high
    exactly when the byte is not zero, every other pin of the two bridges is as
    it was in that state, and of the other core neither the bank nor the boot
    address, vector table or clock of its bridge has changed. *)
Theorem hmp_byte_drives_pin {W} core a b (s : hmp_signals * W) env i :
  HmpSignals.mirrors (env i s).1 -> 0 <= a < 0x1000 -> is_byte b ->
  exists s', run env i (HmpTop.renode_access core (byte_access TLM_WRITE_COMMAND a b) s) =
      ([(Wait_time SC_ZERO_TIME, s)],
       Ok (s', set_response_status TLM_OK_RESPONSE (byte_access TLM_WRITE_COMMAND a b))) /\
    s'.2 = (env i s).2 /\
    (forall c pin, (HmpTop.ports c s'.1).(gpio_ports_in) pin =
       if decide (c = core /\ HmpTop.register_of_pin c pin = Some a)
       then Some (negb (b =? 0)) else (HmpTop.ports c (env i s).1).(gpio_ports_in) pin) /\
    get_bank (other core) s'.1 = get_bank (other core) (env i s).1 /\
    (HmpTop.ports (other core) s'.1).(boot_address_in) =
      (HmpTop.ports (other core) (env i s).1).(boot_address_in) /\
    (HmpTop.ports (other core) s'.1).(init_vtor_ns_in) =
      (HmpTop.ports (other core) (env i s).1).(init_vtor_ns_in) /\
    (HmpTop.ports (other core) s'.1).(clock_period_in) =
      (HmpTop.ports (other core) (env i s).1).(clock_period_in).
Proof.
  intros Hm1 Ha Hb. pose proof (byte_access_wf TLM_WRITE_COMMAND a b ltac:(lia) Hb) as Hwf.
  pose proof (byte_access_buffer TLM_WRITE_COMMAND a b) as Hbuf.
  pose proof (hmp_spec_control_mirrors core _ _ _ Hm1 Hwf Hbuf) as Hm2.
  pose proof (handle_control_now_spec core _ _ _ Hm1 Hwf Hbuf) as Hnow.
  assert (Hok : (HmpSignals.spec_control core (env i s).1 (byte_access TLM_WRITE_COMMAND a b) [b]).2 =
    set_response_status TLM_OK_RESPONSE (byte_access TLM_WRITE_COMMAND a b)).
  { unfold HmpSignals.spec_control, HmpSignals.CONTROL_SIZE. cbn [address data_length byte_access command].
    by destruct (Z.ltb_spec 0x1000 (a + 1)); [lia|]. }
  pose proof (fun c => hmp_control_write_registers core c _ _ _ Hm1 Ha Hb) as Hregs.
  destruct (HmpSignals.spec_control core (env i s).1 (byte_access TLM_WRITE_COMMAND a b) [b]) as [h' p'].
  cbn [fst snd] in *. subst p'.
  destruct (control_access_isolated core _ _ _ _ _ Hm1 Hwf Hbuf Hnow) as [Hbank Hshared].
  exists (h', (env i s).2). cbn [fst snd]. split; [|split; [done|split]].
  - unfold HmpTop.renode_access, HmpSignals.bus_b_transport. cbn [address byte_access].
    destruct (Z.ltb_spec a 0x1000); [|lia].
    unfold HmpSignals.handle_control, mbind at 1, proc_bind, p_wait, p_step. cbn [prog_bind run].
    by rewrite Hnow, bind_Ok.
  - intros c pin. rewrite (hmp_mirrors_pins _ Hm2), (hmp_mirrors_pins _ Hm1), Hregs.
    destruct (HmpTop.register_of_pin c pin) as [r|] eqn:Er.
    2: { cbn [mbind option_bind]. by rewrite decide_False by (intros [_ E]; done). }
    assert (Hr : 0 <= r).
    { revert Er. unfold HmpTop.register_of_pin.
      destruct (Z.leb_spec 0 pin); cbn [andb]; repeat case_match; intros [= <-]; lia. }
    cbn [mbind option_bind]. destruct (decide (c = core)) as [->|Ec].
    + rewrite reg_set_splice_byte; [|rewrite (HmpSignals.mir_regs _ (mir_banks _ Hm1 core)); done|done].
      destruct (decide (r = a)) as [->|E]; [by rewrite decide_True|].
      by rewrite decide_False by (intros [_ [=]]; done).
    + by rewrite decide_False by (intros [? _]; done).
  - split; [exact Hbank|]. unfold HmpTop.ports. cbn [boot_address_in init_vtor_ns_in clock_period_in].
    rewrite Hbank. destruct core; cbn [other]; [destruct Hshared as [-> _]|rewrite Hshared]; done.
Qed.

(** The reset request changes during the delta cycle. *)
Lemma hmp_byte_drives_pin_witness :
  let env := fun (_ : nat) (s : hmp_signals * unit) => (HmpTop.gpio_ports_out Arm 1006 true s.1, s.2) in
  exists s', run env 0 (HmpTop.renode_access Arm (byte_access TLM_WRITE_COMMAND 0x118 1) (new_hmp_signals, tt)) =
      ([(Wait_time SC_ZERO_TIME, (new_hmp_signals, tt))],
       Ok (s', set_response_status TLM_OK_RESPONSE (byte_access TLM_WRITE_COMMAND 0x118 1))) /\
    (HmpTop.ports Arm s'.1).(gpio_ports_in) 1002 = Some true /\
    (HmpTop.ports Arm s'.1).(gpio_ports_in) 1001 = Some false /\
    (HmpTop.ports RiscV s'.1).(gpio_ports_in) 4096 = Some false /\
    get_bank RiscV s'.1 = get_bank RiscV new_hmp_signals.
Proof.
  intros env.
  assert (Hm : HmpSignals.mirrors (env 0%nat (new_hmp_signals, tt)).1).
  { exact (hmp_step_mirrors _ _ new_hmp_signals_mirrors (Step_input _ true)). }
  assert (Hb : is_byte 1) by (unfold is_byte; lia).
  destruct (hmp_byte_drives_pin Arm 0x118 1 (new_hmp_signals, tt) env 0 Hm ltac:(lia) Hb)
    as (s' & Hrun & _ & Hpins & Hbank & _).
  exists s'. split; [exact Hrun|]. rewrite !Hpins. split; [reflexivity|]. split; [reflexivity|].
  split; [reflexivity|exact Hbank].
Defined.

(** The same for the single-core platform, at once: the pin of the bridge
    that shows the register gets the level, the other pins keep theirs. *)
Theorem riscv_byte_drives_pin a b s t :
  RiscvSignals.mirrors s -> 0 <= a < 0x1000 -> is_byte b ->
  exists s', system_b_transport s (byte_access TLM_WRITE_COMMAND a b) t =
      Ok (s', set_response_status TLM_OK_RESPONSE (byte_access TLM_WRITE_COMMAND a b), t) /\
    RiscvSignals.mirrors s' /\ forall pin,
      (RiscvTop.ports s').(gpio_ports_in) pin =
        if decide (RiscvTop.register_of_pin pin = Some a)
        then Some (negb (b =? 0)) else (RiscvTop.ports s).(gpio_ports_in) pin.
Proof.
  intros Hm Ha Hb. pose proof (byte_access_wf TLM_WRITE_COMMAND a b ltac:(lia) Hb) as Hwf.
  pose proof (byte_access_buffer TLM_WRITE_COMMAND a b) as Hbuf.
  pose proof (riscv_control_write_registers s a b t Hm Ha Hb) as Hregs.
  pose proof (RiscvSignals.spec_control_mirrors s _ _ t Hm Hwf Hbuf) as Hm'.
  eexists. split; [|split; [exact Hm'|]].
  - unfold system_b_transport, RiscvSignals.bus_b_transport. cbn [address byte_access].
    destruct (Z.ltb_spec a 0x1000); [|lia].
    rewrite (RiscvSignals.handle_control_spec s _ [b]) by (done || (cbn; lia)).
    unfold RiscvSignals.spec_control, RiscvSignals.CONTROL_SIZE.
    cbn [address data_length byte_access command].
    by destruct (Z.ltb_spec 0x1000 (a + 1)); [lia|].
  - intros pin. rewrite (riscv_mirrors_pins _ Hm'), (riscv_mirrors_pins _ Hm), Hregs.
    destruct (RiscvTop.register_of_pin pin) as [r|] eqn:Er; cbn [mbind option_bind].
    + assert (Hr : 0 <= r).
      { revert Er. unfold RiscvTop.register_of_pin.
        destruct (Z.leb_spec 0 pin); cbn [andb]; repeat case_match; intros [= <-]; lia. }
      rewrite reg_set_splice_byte; [|rewrite (RiscvSignals.mir_regs _ Hm); done|done].
      destruct (decide (r = a)) as [->|E]; [by rewrite decide_True|].
      by rewrite decide_False by (intros [=]; done).
    + by rewrite decide_False.
Qed.

Lemma riscv_byte_drives_pin_witness :
  exists s', system_b_transport new_riscv_signals (byte_access TLM_WRITE_COMMAND 0x104 9) 5 =
      Ok (s', set_response_status TLM_OK_RESPONSE (byte_access TLM_WRITE_COMMAND 0x104 9), 5) /\
    RiscvSignals.mirrors s' /\ forall pin,
      (RiscvTop.ports s').(gpio_ports_in) pin =
        if decide (RiscvTop.register_of_pin pin = Some 0x104)
        then Some true else (RiscvTop.ports new_riscv_signals).(gpio_ports_in) pin.
Proof.
  apply (riscv_byte_drives_pin 0x104 9 new_riscv_signals 5).
  - exact new_riscv_signals_mirrors.
  - lia.
  - unfold is_byte; lia.
Defined.

(** Interrupt 0, which the PLIC reserves, is bound to pin 0 on this platform and
    unbound on the RISC-V bridge of the other. *)
Theorem riscv_slot_0_connected s h :
  RiscvSignals.mirrors s ->
  (RiscvTop.ports s).(gpio_ports_in) 0 = Some (reg_set s.(RiscvSignals.control_registers) 0) /\
  (HmpTop.ports RiscV h).(gpio_ports_in) 0 = None.
Proof. intros Hm. split; [exact (riscv_mirrors_pins s Hm 0)|done]. Qed.

(** The level that Renode gives to the pin of the system reset request is what a
    read of its register through the Arm bridge returns, as long as Renode does
    not change it in between. *)
Theorem hmp_reads_reset_request {W} h (w : W) v b :
  HmpSignals.mirrors h -> is_byte b ->
  wp (fun s s' => HmpTop.platform_rely s s' /\
        s'.1.(system_reset_request) = s.1.(system_reset_request))
     (fun w _ => w = Wait_time SC_ZERO_TIME)
     (HmpTop.renode_access Arm (byte_access TLM_READ_COMMAND 0x11c b)
        (HmpTop.gpio_ports_out Arm 1006 v h, w))
     (fun p' _ => p' = set_response_status TLM_OK_RESPONSE
        (byte_access TLM_READ_COMMAND 0x11c (Z.b2z v))).
Proof.
  intros Hm Hb. apply (wp_control_access _ _ Arm _ [b]); [done|by apply byte_access_wf|
    apply byte_access_buffer|done|].
  intros s1 [Hs1 Hv]. cbn [fst] in *.
  assert (Hm0 : HmpSignals.mirrors (HmpTop.gpio_ports_out Arm 1006 v h))
    by (eapply hmp_step_mirrors; [exact Hm|apply (Step_input _ v)]).
  pose proof (hmp_steps_mirrors _ _ Hm0 Hs1) as Hm1. split; [done|].
  pose proof (HmpSignals.mir_regs _ (mir_banks _ Hm1 Arm)) as Hl. cbn [get_bank] in Hl.
  unfold HmpSignals.spec_control. cbn [address data_length byte_access command snd].
  change (HmpSignals.CONTROL_SIZE <? 0x11c + 1) with false. cbn [snd get_bank]. rewrite Hv.
  unfold byte_access, set_data. cbn [command address data_length].
  do 3 f_equal. cbn [system_reset_request].
  change (system_reset_request (HmpTop.gpio_ports_out Arm 1006 v h)) with v.
  assert (Hsl : slice (<[Z.to_nat SYSTEM_RESET_REQUEST_OFFSET := Z.b2z v]>
    s1.1.(arm_bank).(HmpSignals.control_registers)) 0x11c 1 = [Z.b2z v]).
  { apply list_eq. intros [|i].
    - rewrite lookup_slice by lia. apply list_lookup_insert_eq. rewrite Hl. unfold HmpSignals.CONTROL_SIZE, SYSTEM_RESET_REQUEST_OFFSET. lia.
    - rewrite !lookup_ge_None_2; [done|cbn; lia|].
      rewrite slice_length; rewrite ?length_insert, ?Hl; unfold HmpSignals.CONTROL_SIZE; lia. }
  by rewrite Hsl.
Qed.

Lemma hmp_reads_reset_request_witness :
  wp (fun s s' => HmpTop.platform_rely s s' /\
        s'.1.(system_reset_request) = s.1.(system_reset_request))
     (fun w _ => w = Wait_time SC_ZERO_TIME)
     (HmpTop.renode_access Arm (byte_access TLM_READ_COMMAND 0x11c 7)
        (HmpTop.gpio_ports_out Arm 1006 true new_hmp_signals, tt))
     (fun p' _ => p' = set_response_status TLM_OK_RESPONSE (byte_access TLM_READ_COMMAND 0x11c 1)).
Proof.
  apply (hmp_reads_reset_request new_hmp_signals tt true 7).
  - exact new_hmp_signals_mirrors.
  - unfold is_byte; lia.
Defined.
