(* ===== verification/Dmac.v ===== *)
(** * The DMA controller (examples/dma)

    Registers written over the bus, and a thread that, when started, asks for
    the bus, waits until it is free and copies bytes one at a time.  The system
    bus behind the initiator socket is an interface ([MemoryBus]): the copy is
    proved correct for every bus that reads and writes memory, and one such bus
    is given. *)

From S2P Require Import Prelude Tlm Kernel.
From stdpp Require Import base numbers list.
#[local] Open Scope Z_scope.

(** ** Definitions *)

(** The registers have no initialiser: a value before the first write is not
    determined, and the model is stated for all of them. *)
Record dmac : Type := mk_dmac {
  bus_request : bool;
  addr_src : Z;
  addr_dst : Z;
  data_len : Z;
}.

Definition set_bus_request b (s : dmac) : dmac :=
  mk_dmac b s.(addr_src) s.(addr_dst) s.(data_len).
Definition set_addr_src v (s : dmac) : dmac :=
  mk_dmac s.(bus_request) v s.(addr_dst) s.(data_len).
Definition set_addr_dst v (s : dmac) : dmac :=
  mk_dmac s.(bus_request) s.(addr_src) v s.(data_len).
Definition set_data_len v (s : dmac) : dmac :=
  mk_dmac s.(bus_request) s.(addr_src) s.(addr_dst) v.

Inductive event : Type := start_event | bus_free_posedge.
#[export] Instance event_eq_dec : EqDecision event.
Proof. solve_decision. Defined.

(** [reset_payload]: every attribute is set, so the old payload does not matter. *)
Definition reset_payload : payload :=
  mk_payload TLM_IGNORE_COMMAND 0 None 1 1 None 0 false TLM_INCOMPLETE_RESPONSE.

(** A one-byte transfer through the local variable [data]. *)
Definition byte_payload (c : tlm_command) (a data : Z) : payload :=
  set_data (Some [data]) (set_address a (set_command c reset_payload)).

(** The register interface; the result says whether [start_event] is notified. *)
Definition receive_b_transport (s : dmac) (trans : payload) : res (dmac * bool) :=
  cassert (is_write trans);;
  let address := u32 trans.(address) in
  value ← data_word 4 trans;
  if address =? 0x4 then Ok (set_addr_src value s, false)
  else if address =? 0x8 then Ok (set_addr_dst value s, false)
  else if address =? 0xC then Ok (set_data_len value s, false)
  else if address =? 0x10 then
    if Z.land value 0xf =? 1 then Ok (s, true) else Err Assert_failure
  else Err Assert_failure.

Section Loop.
Context {W : Type}.
(** [bus_initiator_socket->b_transport]: the payload with the buffer it points
    to, and the annotated delay. *)
Context (bus_transport : payload -> sc_time -> proc event (dmac * W) (payload * sc_time)).

(** The contents of the local variable after a call. *)
Definition data_of (p : payload) : Z := default 0 (head (default [] p.(data))).

(** One iteration of the copy loop: the byte read is the new [data]. *)
Definition copy_byte (r_addr w_addr data : Z) : proc event (dmac * W) Z :=
  '(payload, delay) ← bus_transport (byte_payload TLM_READ_COMMAND r_addr data) SC_ZERO_TIME;
  p_lift (cassert (is_response_ok payload));;
  let data := data_of payload in
  '(payload, delay) ← bus_transport (byte_payload TLM_WRITE_COMMAND w_addr data) delay;
  p_lift (cassert (is_response_ok payload));;
  mret (data_of payload).

(** [++i] of a signed 32-bit integer. *)
Definition int_succ (i : Z) : res Z :=
  if i <? 2 ^ 31 - 1 then Ok (i + 1) else Err Undefined_behaviour.

(** [for (int i = 0; i < data_len; ++i)]: the comparison is unsigned and reads
    the register again in every iteration. *)
Fixpoint copy_loop (fuel : nat) (i r_addr w_addr data : Z) : proc event (dmac * W) unit :=
  match fuel with
  | O => fun _ => Fail Out_of_fuel
  | S n =>
      s ← p_get;
      if u32 i <? s.1.(data_len) then
        data ← copy_byte r_addr w_addr data;
        i ← p_lift (int_succ i);
        copy_loop n i (u32 (r_addr + 1)) (u32 (w_addr + 1)) data
      else mret tt
  end.

(** One iteration of [while (true)]; [data] is the value the local variable
    has, which is not initialised. *)
Definition dmac_body (fuel : nat) (data : Z) : proc event (dmac * W) unit :=
  p_wait Wait_static;;
  p_modify (fun s => (set_bus_request true s.1, s.2));;
  p_wait (Wait_event bus_free_posedge);;
  s ← p_get;
  copy_loop fuel 0 s.1.(addr_src) s.1.(addr_dst) data;;
  p_modify (fun s => (set_bus_request false s.1, s.2)).

Definition dmac_loop (fuel : nat) (data : Z) (n : nat) : proc event (dmac * W) unit :=
  p_repeat n (dmac_body fuel data).
End Loop.

(** *** The bus as a memory

    What the controller relies on: at a valid address, a one-byte read returns
    the byte and a one-byte write changes that byte only, both with an OK
    response, neither touching the controller's registers, for an environment
    that leaves the controller and the memory alone while a call is suspended.
    [P] holds of the registers at every call, [G] at every suspension. *)
Section Bus.
Context {W : Type}.

(** The environment leaves the registers and the contents alone. *)
Definition stable (view : W -> Z -> Z) (s s' : dmac * W) : Prop :=
  s'.1 = s.1 /\ forall a, view s'.2 a = view s.2 a.

Class MemoryBus (view : W -> Z -> Z) (valid : Z -> Prop)
  (P : dmac -> Prop) (G : wait_on event -> dmac * W -> Prop)
  (bus : payload -> sc_time -> proc event (dmac * W) (payload * sc_time)) : Prop := {
  bus_read : forall a x t s (Q : payload * sc_time -> dmac * W -> Prop),
    valid a -> P s.1 ->
    (forall w' t', (forall b, view w' b = view s.2 b) ->
      Q (set_response_status TLM_OK_RESPONSE (byte_payload TLM_READ_COMMAND a (view s.2 a)), t')
        (s.1, w')) ->
    wp (stable view) G (bus (byte_payload TLM_READ_COMMAND a x) t s) Q;
  bus_write : forall a x t s (Q : payload * sc_time -> dmac * W -> Prop),
    valid a -> P s.1 ->
    (forall w' t', (forall b, view w' b = if b =? a then x else view s.2 b) ->
      Q (set_response_status TLM_OK_RESPONSE (byte_payload TLM_WRITE_COMMAND a x), t') (s.1, w')) ->
    wp (stable view) G (bus (byte_payload TLM_WRITE_COMMAND a x) t s) Q;
}.
End Bus.

(** What the copy computes: bytes are moved one at a time, in ascending order,
    so a byte already overwritten is read back as its new value. *)
Fixpoint copied (n : nat) (src dst : Z) (m : Z -> Z) : Z -> Z :=
  match n with
  | O => m
  | S n' => copied n' (src + 1) (dst + 1) (fun b => if b =? dst then m src else m b)
  end.

(** The accesses of the register interface that are handled. *)
Definition handled (a v : Z) : bool :=
  (a =? 0x4) || (a =? 0x8) || (a =? 0xC) || ((a =? 0x10) && (v mod 16 =? 1)).

(** A bus with a memory behind it: every call takes one time step. *)
Definition mem_bus (p : payload) (t : sc_time) : proc event (dmac * (Z -> Z)) (payload * sc_time) :=
  p_wait (Wait_time (sc_ns 1));;
  p_step (fun s => Ok
    match p.(command) with
    | TLM_READ_COMMAND =>
        (s, (set_response_status TLM_OK_RESPONSE (set_data (Some [s.2 p.(address)]) p), t))
    | _ =>
        ((s.1, fun b => if b =? p.(address) then data_of p else s.2 b),
         (set_response_status TLM_OK_RESPONSE p, t))
    end).

(** During a transfer the bus stays requested. *)
Definition requesting (s : dmac) : Prop := s.(bus_request) = true.
Definition requested {W} (w : wait_on event) (s : dmac * W) : Prop := requesting s.1.

(** ** Lemmas *)

Lemma copied_ext n src dst m m' :
  (forall b, m b = m' b) -> forall b, copied n src dst m b = copied n src dst m' b.
Proof.
  revert src dst m m'; induction n as [|n IH]; cbn; intros src dst m m' Hm; [done|].
  apply IH. intros b. by rewrite !Hm.
Qed.

Lemma copied_out n src dst m b :
  b < dst \/ dst + Z.of_nat n <= b -> copied n src dst m b = m b.
Proof.
  revert src dst m; induction n as [|n IH]; cbn; intros src dst m Hb; [done|].
  rewrite IH by lia. destruct (Z.eqb_spec b dst); [lia|done].
Qed.

(** Downward or non-overlapping copies move the block. *)
Lemma copied_move n src dst m b :
  dst <= src -> dst <= b < dst + Z.of_nat n ->
  copied n src dst m b = m (src + (b - dst)).
Proof.
  revert src dst m; induction n as [|n IH]; cbn [copied]; intros src dst m Hd Hb; [lia|].
  destruct (decide (b = dst)) as [->|].
  - rewrite copied_out by lia. rewrite Z.eqb_refl. f_equal. lia.
  - rewrite IH by lia. replace (src + 1 + (b - (dst + 1))) with (src + (b - dst)) by lia.
    destruct (Z.eqb_spec (src + (b - dst)) dst); [lia|done].
Qed.

(** Upward copies repeat the first [dst - src] bytes. *)
Lemma copied_repeat n src dst m i :
  src < dst -> 0 <= i < Z.of_nat n ->
  copied n src dst m (dst + i) = m (src + i mod (dst - src)).
Proof.
  revert src dst m i; induction n as [|n IH]; cbn [copied]; intros src dst m i Hd Hi; [lia|].
  set (k := dst - src). destruct (decide (i = 0)) as [->|].
  - rewrite copied_out by lia. replace (dst + 0 =? dst) with true by lia.
    rewrite Z.mod_0_l by lia. f_equal. lia.
  - replace (dst + i) with (dst + 1 + (i - 1)) by lia. rewrite IH by lia.
    replace (dst + 1 - (src + 1)) with k by lia.
    assert (0 <= (i - 1) mod k < k) by (apply Z.mod_pos_bound; lia).
    destruct (Z.eqb_spec (src + 1 + (i - 1) mod k) dst) as [E|E].
    + replace (i mod k) with 0; [f_equal; lia|].
      apply (Z.mod_unique _ _ ((i - 1) / k + 1)); [lia|].
      pose proof (Z.div_mod (i - 1) k). lia.
    + f_equal. replace (i mod k) with ((i - 1) mod k + 1); [lia|].
      apply (Z.mod_unique _ _ ((i - 1) / k)); [lia|].
      pose proof (Z.div_mod (i - 1) k). lia.
Qed.

Section Copy.
Context {W : Type} (view : W -> Z -> Z) (valid : Z -> Prop).
Context (P : dmac -> Prop) (G : wait_on event -> dmac * W -> Prop).
Context (bus : payload -> sc_time -> proc event (dmac * W) (payload * sc_time)).
Context `{HB : !MemoryBus view valid P G bus}.

Lemma copy_byte_spec r w d s Q :
  valid r -> valid w -> P s.1 ->
  (forall w', (forall b, view w' b = if b =? w then view s.2 r else view s.2 b) ->
     Q (view s.2 r) (s.1, w')) ->
  wp (stable view) G (copy_byte bus r w d s) Q.
Proof.
  intros Hr Hw Hreq HQ. unfold copy_byte. apply wp_bind, bus_read; [done..|].
  intros w1 t1 Hw1. cbn beta iota. apply wp_bind. cbn [p_lift cassert].
  apply wp_bind, bus_write; [done..|]. cbn [fst snd data_of set_response_status byte_payload
    set_data data default head]. intros w2 t2 Hw2. apply wp_bind. cbn [p_lift cassert].
  apply HQ. intros b. rewrite Hw2. by destruct (b =? w).
Qed.

(** The loop with [n] bytes to go. *)
Lemma copy_loop_spec n : forall fuel i r w d s (Q : unit -> dmac * W -> Prop),
  (n < fuel)%nat -> i + Z.of_nat n = s.1.(data_len) -> 0 <= i -> s.1.(data_len) < 2 ^ 31 ->
  0 <= r -> r + Z.of_nat n <= 2 ^ 32 -> 0 <= w -> w + Z.of_nat n <= 2 ^ 32 ->
  (forall j, 0 <= j < Z.of_nat n -> valid (r + j) /\ valid (w + j)) ->
  P s.1 ->
  (forall w', (forall b, view w' b = copied n r w (view s.2) b) -> Q tt (s.1, w')) ->
  wp (stable view) G (copy_loop bus fuel i r w d s) Q.
Proof.
  induction n as [|n IH]; intros [|fuel] i r w d s Q Hfuel Hn Hi H31 Hr0 Hr Hw0 Hw Hv Hreq HQ;
    try lia; cbn [copy_loop]; apply wp_bind; cbn [p_get wp].
  - rewrite wrap_small by lia. destruct (Z.ltb_spec i (data_len s.1)); [lia|].
    destruct s as [h m]. by apply HQ.
  - rewrite wrap_small by lia. destruct (Z.ltb_spec i (data_len s.1)); [|lia].
    destruct (Hv 0 ltac:(lia)) as [Hvr Hvw]. rewrite Z.add_0_r in Hvr, Hvw.
    apply wp_bind, copy_byte_spec; [done..|]. intros w1 Hw1. apply wp_bind.
    unfold int_succ. destruct (Z.ltb_spec i (2 ^ 31 - 1)); [|lia]. cbn [p_lift wp].
    destruct n as [|n].
    + (* the last iteration: the incremented addresses are not used *)
      destruct fuel as [|fuel]; [lia|]. cbn [copy_loop]. apply wp_bind. cbn [p_get wp].
      rewrite wrap_small by lia. cbn [fst]. destruct (Z.ltb_spec (i + 1) (data_len s.1)); [lia|].
      apply HQ. done.
    + rewrite !wrap_small by lia.
      apply IH; cbn [fst snd]; try lia; try done.
      * intros j Hj. replace (r + 1 + j) with (r + (j + 1)) by lia.
        replace (w + 1 + j) with (w + (j + 1)) by lia. apply Hv. lia.
      * intros w2 Hw2. apply HQ. intros b. rewrite Hw2.
        by apply (copied_ext (S n) (r + 1) (w + 1) _ (fun b => if b =? w then _ else _)).
Qed.
End Copy.

Lemma mem_bus_memory : MemoryBus (fun m : Z -> Z => m) (fun _ => True) requesting requested mem_bus.
Proof.
  split; intros a x t s Q _ Hreq HQ; apply wp_bind, wp_wait; try done; intros [h m] [Hh Hm];
    cbn in Hh, Hm; subst h; cbn.
  - rewrite Hm. by apply HQ.
  - apply HQ. intros b. by rewrite Hm.
Qed.
#[export] Existing Instance mem_bus_memory.

(** ** Properties *)

(** One activation of the thread: it sleeps until it is started, raises
    [bus_request], waits for [bus_free], and from the state it then finds, with
    the length below 2^31 and both ranges within 32 bits, it terminates without
    fault, having copied [data_len] bytes as a block move when the destination
    is not above the source or the ranges do not overlap, changing no other
    byte and no register, holding the request at every suspension in between
    and lowering it at the end. *)
Theorem dmac_body_copies {W} (view : W -> Z -> Z) valid bus fuel data (s0 : dmac * W) :
  MemoryBus view valid requesting requested bus ->
  exists k, dmac_body bus fuel data s0 = Wait Wait_static s0 (fun s1 =>
      Wait (Wait_event bus_free_posedge) (set_bus_request true s1.1, s1.2) k) /\
    forall s : dmac * W,
      let src := s.1.(addr_src) in let dst := s.1.(addr_dst) in let len := s.1.(data_len) in
      0 <= src -> 0 <= dst -> 0 <= len < 2 ^ 31 -> (Z.to_nat len < fuel)%nat ->
      src + len <= 2 ^ 32 -> dst + len <= 2 ^ 32 ->
      dst <= src \/ src + len <= dst ->
      (forall j, 0 <= j < len -> valid (src + j) /\ valid (dst + j)) ->
      s.1.(bus_request) = true ->
      wp (stable view) requested (k s) (fun _ s' =>
        s'.1 = set_bus_request false s.1 /\
        forall b, view s'.2 b =
          if (dst <=? b) && (b <? dst + len) then view s.2 (src + (b - dst)) else view s.2 b).
Proof.
  intros HB. eexists. split; [reflexivity|].
  intros s src dst len Hs0 Hd0 Hl Hf Hs Hd Hmove Hv Hreq. subst src dst len. cbn beta.
  apply wp_prog_bind, wp_bind. cbn [p_get wp]. apply wp_bind.
  apply (copy_loop_spec view valid requesting requested bus (Z.to_nat (data_len s.1)));
    try lia; try done; try (intros j Hj; apply Hv; lia).
  intros w' Hw'. cbn. split; [done|]. intros b. rewrite Hw'.
  destruct (Z.leb_spec (addr_dst s.1) b), (Z.ltb_spec b (addr_dst s.1 + data_len s.1)); cbn [andb];
    try (apply copied_out; lia).
  destruct Hmove as [Hm|Hm]; [apply copied_move; lia|].
  replace b with (addr_dst s.1 + (b - addr_dst s.1)) at 1 by lia.
  destruct (decide (addr_src s.1 = addr_dst s.1)); [lia|].
  rewrite copied_repeat by lia. by rewrite Z.mod_small by lia.
Qed.

(** The state of the examples: six bytes from 0x100 on are to go to [dst]. *)
Definition example_state (dst : Z) : dmac * (Z -> Z) :=
  (mk_dmac true 0x100 dst 6, fun a => a mod 256).

Lemma dmac_body_copies_witness :
  exists k, dmac_body mem_bus 7 0 (example_state 0x200) =
      Wait Wait_static (example_state 0x200) (fun s1 =>
        Wait (Wait_event bus_free_posedge) (set_bus_request true s1.1, s1.2) k) /\
    wp (stable (fun m => m)) requested (k (example_state 0xfe)) (fun _ s' =>
      s'.1 = mk_dmac false 0x100 0xfe 6 /\
      forall b, s'.2 b =
        if (0xfe <=? b) && (b <? 0xfe + 6) then (0x100 + (b - 0xfe)) mod 256 else b mod 256).
Proof.
  destruct (dmac_body_copies (fun m : Z -> Z => m) (fun _ => True) mem_bus 7 0 (example_state 0x200)
    mem_bus_memory) as (k & Hk & Hwp).
  exists k. split; [exact Hk|].
  apply (Hwp (example_state 0xfe)); cbn; try lia; done.
Defined.

(** On overlapping ranges with the destination above the source the loop
    does not move the block: byte [i] of the destination gets byte
    [i mod (dst - src)] of the source, the first bytes repeating. *)
Theorem copy_loop_overlap {W} (view : W -> Z -> Z) valid bus fuel data (s : dmac * W) :
  MemoryBus view valid requesting requested bus ->
  let src := s.1.(addr_src) in let dst := s.1.(addr_dst) in let len := s.1.(data_len) in
  0 <= src < dst -> dst + len <= 2 ^ 32 -> 0 <= len < 2 ^ 31 -> (Z.to_nat len < fuel)%nat ->
  (forall j, 0 <= j < len -> valid (src + j) /\ valid (dst + j)) ->
  s.1.(bus_request) = true ->
  wp (stable view) requested (copy_loop bus fuel 0 src dst data s) (fun _ s' =>
    s'.1 = s.1 /\
    forall i, 0 <= i < len -> view s'.2 (dst + i) = view s.2 (src + i mod (dst - src))).
Proof.
  intros HB src dst len Hd He Hl Hf Hv Hreq.
  apply (copy_loop_spec view valid requesting requested bus (Z.to_nat len)); try lia; try done.
  - intros j Hj. apply Hv. lia.
  - intros w' Hw'. split; [done|]. intros i Hi. rewrite Hw'. apply copied_repeat; lia.
Qed.

Lemma copy_loop_overlap_witness :
  wp (stable (fun m => m)) requested (copy_loop mem_bus 7 0 0x100 0x102 0 (example_state 0x102))
    (fun _ s' => s'.1 = (example_state 0x102).1 /\
      forall i, 0 <= i < 6 -> s'.2 (0x102 + i) = (0x100 + i mod 2) mod 256).
Proof.
  apply (copy_loop_overlap (fun m : Z -> Z => m) (fun _ => True) mem_bus 7 0 (example_state 0x102)
    mem_bus_memory); cbn; try lia; done.
Defined.

(** A bus that answers at once and accepts everything. *)
Definition instant_bus {W} (p : payload) (t : sc_time) : proc event (dmac * W) (payload * sc_time) :=
  mret (set_response_status TLM_OK_RESPONSE p, t).

Lemma copy_byte_instant {W} r w d (s : dmac * W) : copy_byte instant_bus r w d s = Ret s d.
Proof. done. Qed.

Lemma copy_loop_runs_into_limit {W} n : forall i r w d (s : dmac * W),
  0 <= i -> i + Z.of_nat n = 2 ^ 31 - 1 -> 2 ^ 31 <= s.1.(data_len) ->
  forall fuel, (n < fuel)%nat -> copy_loop instant_bus fuel i r w d s = Fail Undefined_behaviour.
Proof.
  induction n as [|n IH]; intros i r w d s Hi Hn Hl [|fuel] Hf; try lia; cbn [copy_loop];
    unfold mbind, proc_bind; cbn [p_get prog_bind]; rewrite wrap_small by lia;
    destruct (Z.ltb_spec i (data_len s.1)); try lia;
    rewrite copy_byte_instant; cbn [prog_bind]; unfold int_succ;
    destruct (Z.ltb_spec i (2 ^ 31 - 1)); try lia; cbn [p_lift prog_bind]; [done|].
  apply IH; lia.
Qed.

(** The loop counter is a signed integer but the length register holds any
    32-bit value: a transfer of 2^31 bytes or more overflows the counter, even
    on a bus on which every access succeeds. *)
Theorem copy_loop_overflows {W} r w d (s : dmac * W) fuel :
  2 ^ 31 <= s.1.(data_len) -> (Z.to_nat (2 ^ 31 - 1) < fuel)%nat ->
  copy_loop instant_bus fuel 0 r w d s = Fail Undefined_behaviour.
Proof.
  intros Hl Hf. apply (copy_loop_runs_into_limit (Z.to_nat (2 ^ 31 - 1))); lia.
Qed.

Lemma copy_loop_overflows_witness :
  copy_loop instant_bus (Z.to_nat (2 ^ 31)) 0 0 0 0 (mk_dmac true 0 0 (2 ^ 32 - 1), tt) =
  Fail Undefined_behaviour.
Proof. apply (copy_loop_overflows 0 0 0 (mk_dmac true 0 0 (2 ^ 32 - 1), tt)); cbn [fst data_len]; lia. Defined.

(** C29: a register access is handled exactly when it is a write with at least
    a 32-bit buffer to one of the four registers and, for the control register,
    the low nibble is 1; it updates that register only, a start command
    notifies the thread, every other access fails an assertion.  Only the low
    32 address bits count. *)
Theorem receive_b_transport_spec s p d :
  p.(data) = Some d -> (4 <= length d)%nat ->
  let a := u32 p.(address) in let v := le_decode (take 4 d) in
  receive_b_transport s p =
  if is_write p && handled a v then
    Ok (mk_dmac s.(bus_request) (if a =? 0x4 then v else s.(addr_src))
          (if a =? 0x8 then v else s.(addr_dst)) (if a =? 0xC then v else s.(data_len)), a =? 0x10)
  else Err Assert_failure.
Proof.
  intros Hd Hl a v. unfold receive_b_transport, handled. fold a.
  destruct (is_write p); cbn [cassert andb]; [rewrite bind_Ok|done].
  unfold data_word. rewrite (data_read_Ok p d) by (done || lia). rewrite !bind_Ok.
  change (Z.to_nat (Z.of_nat 4)) with 4%nat. fold v.
  change 0xf with (Z.ones 4). rewrite Z.land_ones by lia. change (2 ^ 4) with 16.
  destruct s. destruct (Z.eqb_spec a 0x4) as [->|]; [done|].
  destruct (Z.eqb_spec a 0x8) as [->|]; [done|].
  destruct (Z.eqb_spec a 0xC) as [->|]; [done|].
  destruct (Z.eqb_spec a 0x10) as [->|]; cbn [orb andb]; [|done].
  by destruct (v mod 16 =? 1).
Qed.

Lemma receive_b_transport_spec_witness :
  let p := mk_payload TLM_WRITE_COMMAND 0x100000010 (Some [1; 0; 0; 0]) 4 4 None 0 false
             TLM_INCOMPLETE_RESPONSE in
  receive_b_transport (mk_dmac false 1 2 3) p = Ok (mk_dmac false 1 2 3, true).
Proof.
  cbv zeta. rewrite (receive_b_transport_spec _ _ [1; 0; 0; 0]); [reflexivity|reflexivity|cbn; lia].
Defined.
