(* ===== verification/CortexMSignals.v ===== *)
(** * Cortex-M signals (examples/cortex-m-signals)

    [signals_peripheral] turns bus writes into pulses on output ports and bus
    reads into samples of input ports; [top] connects each port to a pin of the
    bridge.  An output port is represented by the value last written to it,
    which its readers see from the next delta cycle on.  The thread that turns
    reset requests into pulses is run delta cycle by delta cycle. *)

From S2P Require Import Prelude Tlm Kernel DeltaCycle.
From stdpp Require Import base numbers list.
#[local] Open Scope Z_scope.

(** ** Definitions *)

(** The enumerators of [Signal]. *)
Definition NvicIrqsStart : Z := 0.
Definition NvicIrqsEnd : Z := 479.
Definition NonMaskableInterrupt : Z := 1000.
Definition CoreResetIn : Z := 1001.
Definition CpuWait : Z := 1002.
Definition InitNonSecureVectorTableOffset : Z := 1003.
Definition InitSecureVectorTableOffset : Z := 1004.
Definition PowerOnReset : Z := 1005.
Definition SystemResetRequest : Z := 1006.
Definition Sleeping : Z := 1007.
Definition SleepDeep : Z := 1008.
Definition Lockup : Z := 1009.

Definition vector_table_offset_non_secure : Z := 0x2000a000.
Definition vector_table_offset : Z := 0x2000b000.
Definition memory_offset : Z := 0x20000000.

Record signals_peripheral : Type := mk_signals {
  out_nvic_irqs : list bool;
  out_non_maskable_interrupt : bool;
  out_core_reset_in : bool;
  out_cpu_wait : bool;
  out_power_on_reset : bool;
  out_init_s_vtor : Z;
  out_init_ns_vtor : Z;
  in_system_reset_request : bool;
  in_sleeping : bool;
  in_sleep_deep : bool;
  in_lockup : bool;
}.

Definition write_nvic_irq (i : Z) b (s : signals_peripheral) : signals_peripheral :=
  mk_signals (<[Z.to_nat i := b]> s.(out_nvic_irqs)) s.(out_non_maskable_interrupt)
    s.(out_core_reset_in) s.(out_cpu_wait) s.(out_power_on_reset) s.(out_init_s_vtor)
    s.(out_init_ns_vtor) s.(in_system_reset_request) s.(in_sleeping) s.(in_sleep_deep) s.(in_lockup).
Definition write_nmi b (s : signals_peripheral) : signals_peripheral :=
  mk_signals s.(out_nvic_irqs) b s.(out_core_reset_in) s.(out_cpu_wait) s.(out_power_on_reset)
    s.(out_init_s_vtor) s.(out_init_ns_vtor) s.(in_system_reset_request) s.(in_sleeping)
    s.(in_sleep_deep) s.(in_lockup).
Definition write_core_reset b (s : signals_peripheral) : signals_peripheral :=
  mk_signals s.(out_nvic_irqs) s.(out_non_maskable_interrupt) b s.(out_cpu_wait)
    s.(out_power_on_reset) s.(out_init_s_vtor) s.(out_init_ns_vtor) s.(in_system_reset_request)
    s.(in_sleeping) s.(in_sleep_deep) s.(in_lockup).
Definition write_cpu_wait b (s : signals_peripheral) : signals_peripheral :=
  mk_signals s.(out_nvic_irqs) s.(out_non_maskable_interrupt) s.(out_core_reset_in) b
    s.(out_power_on_reset) s.(out_init_s_vtor) s.(out_init_ns_vtor) s.(in_system_reset_request)
    s.(in_sleeping) s.(in_sleep_deep) s.(in_lockup).
Definition write_power_on_reset b (s : signals_peripheral) : signals_peripheral :=
  mk_signals s.(out_nvic_irqs) s.(out_non_maskable_interrupt) s.(out_core_reset_in)
    s.(out_cpu_wait) b s.(out_init_s_vtor) s.(out_init_ns_vtor) s.(in_system_reset_request)
    s.(in_sleeping) s.(in_sleep_deep) s.(in_lockup).
Definition write_s_vtor v (s : signals_peripheral) : signals_peripheral :=
  mk_signals s.(out_nvic_irqs) s.(out_non_maskable_interrupt) s.(out_core_reset_in)
    s.(out_cpu_wait) s.(out_power_on_reset) v s.(out_init_ns_vtor) s.(in_system_reset_request)
    s.(in_sleeping) s.(in_sleep_deep) s.(in_lockup).
Definition write_ns_vtor v (s : signals_peripheral) : signals_peripheral :=
  mk_signals s.(out_nvic_irqs) s.(out_non_maskable_interrupt) s.(out_core_reset_in)
    s.(out_cpu_wait) s.(out_power_on_reset) s.(out_init_s_vtor) v s.(in_system_reset_request)
    s.(in_sleeping) s.(in_sleep_deep) s.(in_lockup).

(** The constructor: the interrupt ports and the inputs are not initialised
    here; a [bool] signal starts low. *)
Definition new_signals_peripheral : signals_peripheral :=
  mk_signals (replicate 480 false) false false false false memory_offset memory_offset
    false false false false.

(** The module waits for times only. *)
Definition event : Type := Empty_set.

(** [static_cast<Signal>(offset)]: the enumeration has no fixed underlying type,
    its values are those of ten bits, and converting another one is undefined. *)
Definition cast_signal (offset : Z) : res Z :=
  if offset <? 1024 then Ok offset else Err Undefined_behaviour.

Definition handle_read (s : signals_peripheral) (payload : payload) : res Tlm.payload :=
  cassert (is_read payload);;
  signal ← cast_signal payload.(address);
  if signal =? SystemResetRequest then data_write payload [Z.b2z s.(in_system_reset_request)]
  else if signal =? Sleeping then data_write payload [Z.b2z s.(in_sleeping)]
  else if signal =? SleepDeep then data_write payload [Z.b2z s.(in_sleep_deep)]
  else if signal =? Lockup then data_write payload [Z.b2z s.(in_lockup)]
  else Err Abort.

(** The effect of [handle_write] on the ports; the boolean says whether it then
    waits for a delta cycle. *)
Definition write_signal (s : signals_peripheral) (payload : payload) :
  res (signals_peripheral * bool) :=
  cassert (is_write payload);;
  let offset := payload.(address) in
  bs ← data_read payload 1;
  let new_signal_state := negb (le_decode bs =? 0) in
  if (NvicIrqsStart <=? offset) && (offset <=? NvicIrqsEnd) then
    Ok (write_nvic_irq offset new_signal_state s, false)
  else if offset =? NonMaskableInterrupt then Ok (write_nmi new_signal_state s, true)
  else if offset =? CoreResetIn then Ok (write_core_reset new_signal_state s, true)
  else if offset =? CpuWait then Ok (write_cpu_wait new_signal_state s, true)
  else if offset =? PowerOnReset then Ok (write_power_on_reset new_signal_state s, true)
  else if offset =? InitNonSecureVectorTableOffset then
    Ok (write_ns_vtor vector_table_offset_non_secure s, true)
  else if offset =? InitSecureVectorTableOffset then
    Ok (write_s_vtor vector_table_offset s, true)
  else Err Abort.

Definition handle_write (payload : payload) : proc event signals_peripheral unit :=
  commit ← p_step (fun s => write_signal s payload);
  if (commit : bool) then p_wait (Wait_time SC_ZERO_TIME) else mret tt.

Definition receive_b_transport (payload : payload) : proc event signals_peripheral Tlm.payload :=
  p_wait (Wait_time SC_ZERO_TIME);;
  payload ←
    (if is_read payload then
       s ← p_get; p_lift (handle_read s payload)
     else
       handle_write payload;;
       p_wait (Wait_time SC_ZERO_TIME);;
       mret payload);
  mret (set_response_status TLM_OK_RESPONSE payload).

(** One iteration of [while (true)] in [on_system_reset_request]. *)
Definition reset_request_body : proc event signals_peripheral unit :=
  p_modify (write_core_reset true);;
  p_wait (Wait_time SC_ZERO_TIME);;
  p_modify (write_core_reset false);;
  p_wait Wait_static.

(** [top] binds the ports to the pins of the bridge: [gpio_ports_in] towards
    Renode. *)
Definition gpio_ports_in (s : signals_peripheral) (pin : Z) : option bool :=
  if (NvicIrqsStart <=? pin) && (pin <? NvicIrqsStart + 480)
  then s.(out_nvic_irqs) !! Z.to_nat (pin - NvicIrqsStart)
  else if pin =? NonMaskableInterrupt then Some s.(out_non_maskable_interrupt)
  else if pin =? CoreResetIn then Some s.(out_core_reset_in)
  else if pin =? CpuWait then Some s.(out_cpu_wait)
  else if pin =? PowerOnReset then Some s.(out_power_on_reset)
  else None.

(** ... and [gpio_ports_out] from Renode. *)
Definition gpio_ports_out (s : signals_peripheral) (pin : Z) : option bool :=
  if pin =? SystemResetRequest then Some s.(in_system_reset_request)
  else if pin =? Sleeping then Some s.(in_sleeping)
  else if pin =? SleepDeep then Some s.(in_sleep_deep)
  else if pin =? Lockup then Some s.(in_lockup)
  else None.

(** The offsets that name an output pin. *)
Definition is_output_pin (o : Z) : bool :=
  ((0 <=? o) && (o <? 480)) ||
  (o =? NonMaskableInterrupt) || (o =? CoreResetIn) || (o =? CpuWait) || (o =? PowerOnReset).




(** ** Lemmas *)

Lemma data_read_1 p b d : p.(data) = Some (b :: d) -> data_read p 1 = Ok [b].
Proof. intros Hd. by rewrite (data_read_Ok p (b :: d)) by (done || cbn; lia). Qed.

(** A write drives the pin its offset names, and no other. *)
Lemma write_signal_pin s p b d :
  length s.(out_nvic_irqs) = 480%nat -> p.(command) = TLM_WRITE_COMMAND ->
  p.(data) = Some (b :: d) -> is_output_pin p.(address) = true ->
  exists s' c, write_signal s p = Ok (s', c) /\ length s'.(out_nvic_irqs) = 480%nat /\
    (forall pin, gpio_ports_in s' pin =
      if pin =? p.(address) then Some (negb (b =? 0)) else gpio_ports_in s pin) /\
    (forall pin, gpio_ports_out s' pin = gpio_ports_out s pin) /\
    s'.(out_init_s_vtor) = s.(out_init_s_vtor) /\ s'.(out_init_ns_vtor) = s.(out_init_ns_vtor).
Proof.
  intros Hlen Hc Hd Ho. unfold write_signal. rewrite is_write_cmd, Hc. cbn [cassert].
  rewrite bind_Ok, (data_read_1 p b d), bind_Ok by done. cbn [le_decode].
  replace (b + 256 * 0) with b by lia.
  unfold is_output_pin, NonMaskableInterrupt, CoreResetIn, CpuWait, PowerOnReset in Ho.
  unfold NvicIrqsStart, NvicIrqsEnd, NonMaskableInterrupt, CoreResetIn, CpuWait, PowerOnReset.
  destruct (Z.leb_spec 0 (address p)); cbn [andb] in *.
  2: { exfalso. destruct (Z.eqb_spec (address p) 1000), (Z.eqb_spec (address p) 1001),
         (Z.eqb_spec (address p) 1002), (Z.eqb_spec (address p) 1005); cbn in Ho; lia || done. }
  destruct (Z.leb_spec (address p) 479).
  - do 2 eexists. split; [done|]. cbn. split; [by rewrite length_insert|]. split; [|done].
    intros pin. unfold gpio_ports_in, NvicIrqsStart. cbn.
    destruct (Z.eqb_spec pin (address p)) as [->|Hne].
    + replace ((0 <=? address p) && (address p <? 0 + 480)) with true by lia.
      rewrite Z.sub_0_r. apply list_lookup_insert_eq. lia.
    + destruct (Z.leb_spec 0 pin); cbn [andb]; [|done].
      destruct (Z.ltb_spec pin (0 + 480)); [|done]. apply list_lookup_insert_ne. lia.
  - replace (address p <? 480) with false in Ho by lia. cbn [orb] in Ho.
    destruct (Z.eqb_spec (address p) 1000) as [E|]; [|
    destruct (Z.eqb_spec (address p) 1001) as [E|]; [|
    destruct (Z.eqb_spec (address p) 1002) as [E|]; [|
    destruct (Z.eqb_spec (address p) 1005) as [E|]; [|done]]]];
      do 2 eexists; (split; [done|]); cbn; (split; [done|]); (split; [|done]);
      intros pin; rewrite E;
      (match type of E with _ = ?k =>
         destruct (Z.eqb_spec pin k) as [->|Hne]; [done|];
         unfold gpio_ports_in, NonMaskableInterrupt, CoreResetIn, CpuWait, PowerOnReset; cbn;
         by rewrite (proj2 (Z.eqb_neq pin k) Hne) end).
Qed.

(** ** Properties *)


Definition example_write (a b : Z) : payload :=
  mk_payload TLM_WRITE_COMMAND a (Some [b]) 1 1 None 0 false TLM_INCOMPLETE_RESPONSE.


(** A write drives no other pin, input or vector-table port than the one
    its offset names. *)
Theorem write_signal_isolated s p b d s' c :
  length s.(out_nvic_irqs) = 480%nat -> p.(command) = TLM_WRITE_COMMAND ->
  p.(data) = Some (b :: d) -> is_output_pin p.(address) = true ->
  write_signal s p = Ok (s', c) ->
  (forall pin, pin <> p.(address) -> gpio_ports_in s' pin = gpio_ports_in s pin) /\
  (forall pin, gpio_ports_out s' pin = gpio_ports_out s pin) /\
  s'.(out_init_s_vtor) = s.(out_init_s_vtor) /\ s'.(out_init_ns_vtor) = s.(out_init_ns_vtor).
Proof.
  intros Hl Hc Hd Ho Hw.
  destruct (write_signal_pin s p b d Hl Hc Hd Ho) as (s1 & c1 & Hw1 & _ & Hpin & Hrest).
  rewrite Hw in Hw1. injection Hw1 as <- _. split; [|done].
  intros pin Hne. rewrite Hpin. by destruct (Z.eqb_spec pin (address p)).
Qed.

Lemma write_signal_isolated_witness :
  let s' := write_cpu_wait true new_signals_peripheral in
  write_signal new_signals_peripheral (example_write 1002 1) = Ok (s', true) /\
  gpio_ports_in s' 1001 = gpio_ports_in new_signals_peripheral 1001.
Proof.
  cbv zeta. split; [reflexivity|].
  apply (write_signal_isolated new_signals_peripheral (example_write 1002 1) 1 []
    (write_cpu_wait true new_signals_peripheral) true); try reflexivity; done.
Defined.





(** Reading the offset of an input stores in the first byte of the buffer
    the level that the pin of that number has one delta cycle later, and leaves
    the rest of the buffer and the module alone. *)
Theorem receive_b_transport_samples_pin p b d s env i v :
  p.(command) = TLM_READ_COMMAND -> p.(data) = Some (b :: d) ->
  gpio_ports_out (env i s) p.(address) = Some v ->
  run env i (receive_b_transport p s) =
    ([(Wait_time SC_ZERO_TIME, s)],
     Ok (env i s, set_response_status TLM_OK_RESPONSE (set_data (Some (Z.b2z v :: d)) p))).
Proof.
  intros Hc Hd Hv. unfold receive_b_transport, mbind, proc_bind, p_wait.
  cbn [prog_bind run]. rewrite is_read_cmd, Hc. cbn [prog_bind p_get].
  unfold handle_read. rewrite is_read_cmd, Hc. cbn [cassert]. rewrite bind_Ok.
  assert (Hw : forall x, data_write p [x] = Ok (set_data (Some (x :: d)) p)).
  { intros x. rewrite (data_write_Ok p (b :: d)) by (done || cbn; lia). done. }
  unfold gpio_ports_out in Hv. unfold cast_signal.
  assert (Hlt : address p <? 1024 = true).
  { unfold SystemResetRequest, Sleeping, SleepDeep, Lockup in Hv. apply Z.ltb_lt.
    destruct (Z.eqb_spec (address p) 1006); [lia|]. destruct (Z.eqb_spec (address p) 1007); [lia|].
    destruct (Z.eqb_spec (address p) 1008); [lia|]. destruct (Z.eqb_spec (address p) 1009); [lia|].
    done. }
  rewrite Hlt, bind_Ok.
  destruct (address p =? SystemResetRequest); [by injection Hv as <-; rewrite Hw|].
  destruct (address p =? Sleeping); [by injection Hv as <-; rewrite Hw|].
  destruct (address p =? SleepDeep); [by injection Hv as <-; rewrite Hw|].
  destruct (address p =? Lockup); [by injection Hv as <-; rewrite Hw|done].
Qed.

Lemma receive_b_transport_samples_pin_witness :
  let p := set_command TLM_READ_COMMAND (example_write 1009 7) in
  run (fun _ s => s) 0 (receive_b_transport p new_signals_peripheral) =
    ([(Wait_time SC_ZERO_TIME, new_signals_peripheral)],
     Ok (new_signals_peripheral, set_response_status TLM_OK_RESPONSE (set_data (Some [0]) p))).
Proof.
  cbv zeta. apply (receive_b_transport_samples_pin (set_command TLM_READ_COMMAND (example_write 1009 7)) 7 []
    new_signals_peripheral (fun _ s => s) 0%nat false); reflexivity.
Defined.

(** The thread under the delta cycle, with the level that Renode has driven
    on the reset request and that the signal takes in the next update phase.
    The thread is sensitive to the positive edge of the signal, and not run at
    the start. *)
Definition wakes (elapsed : bool) (w : wait_on event) (s : signals_peripheral * bool) : bool :=
  match w with
  | Wait_time t => (t =? SC_ZERO_TIME) || elapsed
  | Wait_event _ => false
  | Wait_static => negb s.1.(in_system_reset_request) && s.2
  end.

(** The body of the thread, in a state that has the driven level beside it. *)
Fixpoint beside {A} (r : bool) (p : prog event signals_peripheral A) :
  prog event (signals_peripheral * bool) A :=
  match p with
  | Ret s a => Ret (s, r) a
  | Fail f => Fail f
  | Wait w s k => Wait w (s, r) (fun s' => beside s'.2 (k s'.1))
  end.
Definition on_system_reset_request : proc event (signals_peripheral * bool) unit :=
  fun s => beside s.2 (reset_request_body s.1).

Definition drive_request (level : bool) (s : signals_peripheral) : signals_peripheral :=
  mk_signals s.(out_nvic_irqs) s.(out_non_maskable_interrupt) s.(out_core_reset_in)
    s.(out_cpu_wait) s.(out_power_on_reset) s.(out_init_s_vtor) s.(out_init_ns_vtor) level
    s.(in_sleeping) s.(in_sleep_deep) s.(in_lockup).
Definition update_signals (s : signals_peripheral * bool) : signals_peripheral * bool :=
  (drive_request s.2 s.1, s.2).

(** Delta cycle by delta cycle: in cycle [n] Renode drives [level n], the
    signals are updated, the rest of the simulation does [others n], and the
    thread runs if the update has made it ready. *)
Fixpoint delta_cycles (level : nat -> bool) (others : nat -> signals_peripheral -> signals_peripheral)
  (s : signals_peripheral) (n : nat) : config event (signals_peripheral * bool) :=
  match n with
  | O => not_initialized on_system_reset_request (s, s.(in_system_reset_request))
  | S n =>
      let c := delta_cycles level others s n in
      let c := notify_phase wakes update_signals true (c.1, (c.2.1, level n)) in
      evaluate on_system_reset_request (c.1, (others n c.2.1, c.2.2))
  end.

(** The rest of the simulation leaves the request and the core reset alone. *)
Definition keeps_reset (f : signals_peripheral -> signals_peripheral) : Prop := forall s,
  (f s).(in_system_reset_request) = s.(in_system_reset_request) /\
  (f s).(out_core_reset_in) = s.(out_core_reset_in).

(** Between two pulses the thread waits for its request, within one for the
    next delta cycle. *)
Definition pulse_state (c : config event (signals_peripheral * bool)) : Prop :=
  match c.1 with
  | Waiting Wait_static k => c.2.1.(out_core_reset_in) = false /\
      forall s, run_on on_system_reset_request (k s) s = run_on on_system_reset_request (on_system_reset_request s) s
  | Waiting (Wait_time t) k => t = SC_ZERO_TIME /\ c.2.1.(out_core_reset_in) = true /\
      forall s, k s = Wait Wait_static (write_core_reset false s.1, s.2) (fun s' => Ret (s'.1, s'.2) tt)
  | _ => False
  end.

Lemma reset_request_runs s :
  on_system_reset_request s = Wait (Wait_time SC_ZERO_TIME) (write_core_reset true s.1, s.2)
    (fun s => Wait Wait_static (write_core_reset false s.1, s.2) (fun s' => Ret (s'.1, s'.2) tt)).
Proof. reflexivity. Qed.

Lemma pulse_step level others s n :
  keeps_reset (others n) -> pulse_state (delta_cycles level others s n) ->
  let c := delta_cycles level others s n in
  let c' := delta_cycles level others s (S n) in
  pulse_state c' /\ c'.2.1.(in_system_reset_request) = level n /\
  c'.2.1.(out_core_reset_in) =
    negb c.2.1.(in_system_reset_request) && level n && negb c.2.1.(out_core_reset_in).
Proof.
  intros Ho Hp. cbn [delta_cycles]. destruct (delta_cycles level others s n) as [th [s0 r]].
  unfold pulse_state in Hp. cbn [fst snd] in *.
  destruct (Ho (drive_request (level n) s0)) as [Hi Hout].
  destruct th as [[t|e|] k|k|f]; try done; unfold notify_phase, evaluate; cbn [fst snd wakes update_signals].
  - destruct Hp as (-> & Hhigh & Hk). cbn. rewrite Hk. cbn. rewrite Hhigh, andb_false_r. done.
  - destruct Hp as [Hlow Hk]. rewrite Hlow, andb_true_r.
    destruct (negb (in_system_reset_request s0) && level n); cbn.
    + rewrite Hk, reset_request_runs. cbn. by rewrite Hi.
    + rewrite Hi, Hout. cbn. done.
Qed.

(** C31: requests become pulses.  Whatever levels Renode drives on the reset
    request, one after the other in successive delta cycles, and whatever the
    rest of the simulation does to the other ports meanwhile: the core-reset
    output is high in a delta cycle exactly when the request has risen in it
    and the output was low in the one before.  So an edge becomes a pulse of
    exactly one delta cycle, a request that stays high makes no second one,
    and an edge that comes during a pulse makes none. *)
Theorem on_system_reset_request_pulses level others s n :
  (forall i, keeps_reset (others i)) -> s.(out_core_reset_in) = false ->
  let now := (delta_cycles level others s n).2.1 in
  let next := (delta_cycles level others s (S n)).2.1 in
  next.(in_system_reset_request) = level n /\
  next.(out_core_reset_in) =
    negb now.(in_system_reset_request) && level n && negb now.(out_core_reset_in).
Proof.
  intros Ho Hs. cbv zeta. apply pulse_step; [done|].
  induction n as [|n IH]; [by split|]. by apply pulse_step.
Qed.

(** A request of one delta cycle while the wait input of the core is driven. *)
Lemma on_system_reset_request_pulses_witness :
  let level n := (n =? 2)%nat in
  let others (n : nat) := write_cpu_wait true in
  let at_cycle n := (delta_cycles level others new_signals_peripheral n).2.1 in
  (map (fun n => (at_cycle n).(out_core_reset_in)) (seq 0 6) = [false; false; false; true; false; false]) /\
  (at_cycle 3%nat).(in_system_reset_request) = level 2%nat /\
  (at_cycle 3%nat).(out_core_reset_in) =
    negb (at_cycle 2%nat).(in_system_reset_request) && level 2%nat &&
    negb (at_cycle 2%nat).(out_core_reset_in).
Proof.
  cbv zeta. split; [vm_compute; reflexivity|].
  apply (on_system_reset_request_pulses (fun n => (n =? 2)%nat)
    (fun _ => write_cpu_wait true) new_signals_peripheral 2); [|reflexivity].
  intros i s. split; reflexivity.
Defined.
