(* ===== verification/Peripheral.v ===== *)
(** * The example peripheral (examples/multiple-peripherals)

    [Peripheral::Impl]: a struct of registers that doubles as the memory a bus
    access touches, a free-running timer without a clock, a thread that streams
    bytes to a FIFO when the timer rolls over, a method that moves bytes
    received from a FIFO to another peripheral by DMA, and an interrupt raised
    when enough memory has been written.

    The registers are one byte array laid out as the compiler lays the struct
    out, since bus accesses copy bytes to and from it; its layout depends on
    the width of the timer only (4 bytes here, 8 in the original system).
    FIFOs, the DMA socket and the bus width belong to the SystemC library and
    are arguments.  Simulated time is a field that a [wait] advances. *)

From S2P Require Import Prelude Tlm Kernel.
From stdpp Require Import base numbers list.
#[local] Open Scope Z_scope.

(** ** Definitions *)

(** *** The register interface (peripheral_register_interface.h) *)
Definition align_up (x a : Z) : Z := (x + a - 1) / a * a.

Section Layout.
Context (timer_size : Z).
Definition cmd_start_timer_offset : Z := 0.
Definition timer_offset : Z := align_up 1 timer_size.
Definition timer_done_offset : Z := timer_offset + timer_size.
Definition irq_ack_offset : Z := timer_done_offset + 1.
Definition memory_offset : Z := irq_ack_offset + 1.
Definition struct_size : Z := align_up (memory_offset + 100) timer_size.
End Layout.

Definition memory_size : Z := 100.

(** *** The state *)
Record impl : Type := mk_impl {
  regs : list Z;
  irq_signal : bool;
  now : sc_time;                        (* sc_time_stamp() *)
  timer_done_at : option sc_time;       (* pending notification of timer_done_event *)
  start_time : sc_time;
  start_time_valid : bool;
  previous_time_stamp : sc_time;
  memory_index : Z;
  memory_written_count : Z;
  live_payloads : Z;                    (* allocated by simple_mm and not released *)
}.

Definition set_regs r (s : impl) : impl :=
  mk_impl r s.(irq_signal) s.(now) s.(timer_done_at) s.(start_time) s.(start_time_valid)
    s.(previous_time_stamp) s.(memory_index) s.(memory_written_count) s.(live_payloads).
Definition set_irq b (s : impl) : impl :=
  mk_impl s.(regs) b s.(now) s.(timer_done_at) s.(start_time) s.(start_time_valid)
    s.(previous_time_stamp) s.(memory_index) s.(memory_written_count) s.(live_payloads).
Definition set_now t (s : impl) : impl :=
  mk_impl s.(regs) s.(irq_signal) t s.(timer_done_at) s.(start_time) s.(start_time_valid)
    s.(previous_time_stamp) s.(memory_index) s.(memory_written_count) s.(live_payloads).
Definition set_done_at d (s : impl) : impl :=
  mk_impl s.(regs) s.(irq_signal) s.(now) d s.(start_time) s.(start_time_valid)
    s.(previous_time_stamp) s.(memory_index) s.(memory_written_count) s.(live_payloads).
Definition set_start_time t (s : impl) : impl :=
  mk_impl s.(regs) s.(irq_signal) s.(now) s.(timer_done_at) t true
    s.(previous_time_stamp) s.(memory_index) s.(memory_written_count) s.(live_payloads).
Definition set_previous t (s : impl) : impl :=
  mk_impl s.(regs) s.(irq_signal) s.(now) s.(timer_done_at) s.(start_time) s.(start_time_valid)
    t s.(memory_index) s.(memory_written_count) s.(live_payloads).
Definition set_index i (s : impl) : impl :=
  mk_impl s.(regs) s.(irq_signal) s.(now) s.(timer_done_at) s.(start_time) s.(start_time_valid)
    s.(previous_time_stamp) i s.(memory_written_count) s.(live_payloads).
Definition set_count n (s : impl) : impl :=
  mk_impl s.(regs) s.(irq_signal) s.(now) s.(timer_done_at) s.(start_time) s.(start_time_valid)
    s.(previous_time_stamp) s.(memory_index) n s.(live_payloads).
Definition set_live n (s : impl) : impl :=
  mk_impl s.(regs) s.(irq_signal) s.(now) s.(timer_done_at) s.(start_time) s.(start_time_valid)
    s.(previous_time_stamp) s.(memory_index) s.(memory_written_count) n.

Definition clock_period : sc_time := sc_ns 1.

(** [SimpleMM]: of the payloads on the heap only their number is kept;
    [release] of the only reference to one frees it. *)
Module SimpleMM.
Definition allocate_payload (s : impl) : impl := set_live (s.(live_payloads) + 1) s.
Definition free (s : impl) : impl := set_live (s.(live_payloads) - 1) s.
End SimpleMM.

(** [REGIF_TARGET_INDEX] and [MEMORY_TARGET_INDEX]. *)
Inductive target_index : Type := REGIF_TARGET_INDEX | MEMORY_TARGET_INDEX.
#[export] Instance target_index_eq_dec : EqDecision target_index.
Proof. solve_decision. Defined.

(** The constructor; the bytes of [memory] and the padding are not initialised
    and are whatever [garbage] holds. *)
Definition new_impl (timer_size : Z) (garbage : list Z) : impl :=
  let r := splice garbage cmd_start_timer_offset [0] in
  let r := splice r (timer_offset timer_size) (replicate (Z.to_nat timer_size) 0) in
  let r := splice r (timer_done_offset timer_size) [0] in
  let r := splice r (irq_ack_offset timer_size) [0] in
  mk_impl r false SC_ZERO_TIME None SC_ZERO_TIME false SC_ZERO_TIME 0 0 0.

(** A [bool] read from a byte that is neither 0 nor 1 is undefined. *)
Definition load_bool (m : list Z) (off : Z) : res bool :=
  b ← get_byte m off;
  if b =? 0 then Ok false else if b =? 1 then Ok true else Err Undefined_behaviour.

(** [notify(t)] keeps the earliest pending notification. *)
Definition event_notify (pending : option sc_time) (at_ : sc_time) : option sc_time :=
  match pending with
  | Some p => Some (Z.min p at_)
  | None => Some at_
  end.

Inductive event : Type := timer_done_event | fifo_event.

Section Impl.
Context {SC : DoubleTimes} (timer_size : Z) {W : Type}.

(** [(double(max) + 1) * clock_period]: exact for the 32-bit timer, beyond the
    range of a time for a 64-bit one. *)
Definition rollover : sc_time := sc_scale (2 ^ (8 * timer_size)) clock_period.

Definition start_timer (delay : sc_time) (s : impl) : impl :=
  let new_start_time := t_add s.(now) delay in
  let s := set_start_time
    (if s.(start_time_valid) then Z.min s.(start_time) new_start_time else new_start_time) s in
  let timer_done_time := t_add s.(start_time) rollover in
  let current_time := s.(now) in
  if current_time <=? timer_done_time then
    set_done_at (event_notify s.(timer_done_at)
      (t_add current_time (t_sub timer_done_time current_time))) s
  else s.

Definition process_command_register_fields (delay : sc_time) (s : impl) : res impl :=
  cmd_start_timer ← load_bool s.(regs) cmd_start_timer_offset;
  if (cmd_start_timer : bool) then
    let s := start_timer delay s in
    r ← store s.(regs) cmd_start_timer_offset [0];
    Ok (set_regs r s)
  else Ok s.

(** [wait(t)]: other processes run, and time has advanced by [t]. *)
Definition p_delay (t : sc_time) : proc event (impl * W) unit := fun s =>
  Wait (Wait_time t) s (fun s' => Ret (set_now (t_add s.1.(now) t) s'.1, s'.2) tt).

(** [timer] gets the quotient of [double]s rounded up, which is exact for times
    below 2^50 only (Tlm.DoubleTimes); converting a value that does not fit the
    register is undefined. *)
Definition update_timer_now (delay : sc_time) (s : impl) : res (impl * sc_time) :=
  if s.(start_time_valid) then
    let timer_time := t_sub s.(now) s.(start_time) in
    let timer := sc_ceil timer_time clock_period in
    if timer <? 2 ^ (8 * timer_size) then
      r ← store s.(regs) (timer_offset timer_size) (le_encode (Z.to_nat timer_size) timer);
      Ok (set_regs r s, t_add delay (sc_ceil_gap timer_time clock_period))
    else Err Undefined_behaviour
  else Ok (s, delay).

Definition on_impl {A} (f : impl -> res (impl * A)) : proc event (impl * W) A :=
  p_step (fun s => '(i, a) ← f s.1; Ok ((i, s.2), a)).

Definition update_timer (delay : sc_time) : proc event (impl * W) sc_time :=
  p_delay delay;;
  on_impl (update_timer_now SC_ZERO_TIME).

Definition update_volatile_register_fields (delay : sc_time) : proc event (impl * W) sc_time :=
  p_delay delay;;
  update_timer SC_ZERO_TIME.

(** *** Bus accesses *)

(** The bytes that a target index addresses: the whole struct, or the array
    inside it. *)
Definition target_base (id : target_index) : Z :=
  match id with REGIF_TARGET_INDEX => 0 | MEMORY_TARGET_INDEX => memory_offset timer_size end.
Definition target_size (id : target_index) : Z :=
  match id with REGIF_TARGET_INDEX => struct_size timer_size | MEMORY_TARGET_INDEX => memory_size end.

(** [memcpy] at [base_ptr + offset]. *)
Definition copy_out (id : target_index) (offset len : Z) (s : impl) : res (list Z) :=
  if offset + len <=? target_size id then load s.(regs) (target_base id + offset) len
  else Err Undefined_behaviour.
Definition copy_in (id : target_index) (offset : Z) (bs : list Z) (s : impl) : res impl :=
  if offset + Z.of_nat (length bs) <=? target_size id then
    r ← store s.(regs) (target_base id + offset) bs; Ok (set_regs r s)
  else Err Undefined_behaviour.

(** [get_bus_width() / 8] of a socket with the default width. *)
Definition bus_width : Z := 4.

Definition transfer_time (data_length : Z) : sc_time :=
  u64 (ceil_div data_length bus_width * clock_period).

(** The write of [b_transport] between its two suspension points; the boolean
    says whether the interrupt is to be raised. *)
Definition write_now (id : target_index) (p : payload) (s : impl) : res (impl * (sc_time * bool)) :=
  let data_length := p.(data_length) in
  bs ← data_read p data_length;
  s ← copy_in id p.(address) bs s;
  let delay := transfer_time data_length in
  s ← process_command_register_fields delay s;
  if decide (id = MEMORY_TARGET_INDEX) then
    _ ← data_read p 1;
    let count := u32 (s.(memory_written_count) + data_length) in
    Ok (set_count count s, (delay, count =? memory_size))
  else Ok (s, (delay, false)).

Definition b_transport (id : target_index) (p : payload) (delay : sc_time) :
  proc event (impl * W) (payload * sc_time) :=
  let p := set_dmi_allowed false p in
  if p.(streaming_width) <? p.(data_length) then
    mret (set_response_status TLM_BURST_ERROR_RESPONSE p, delay)
  else if bool_decide (is_Some p.(byte_enable)) then
    mret (set_response_status TLM_BYTE_ENABLE_ERROR_RESPONSE p, delay)
  else
    let p := set_response_status TLM_OK_RESPONSE p in
    match p.(command) with
    | TLM_READ_COMMAND =>
        delay ← update_volatile_register_fields delay;
        bs ← on_impl (fun s => bs ← copy_out id p.(address) p.(data_length) s; Ok (s, bs));
        p ← p_lift (data_write p bs);
        mret (p, t_add delay (transfer_time p.(data_length)))
    | TLM_WRITE_COMMAND =>
        p_delay delay;;
        '(delay, raise) ← on_impl (write_now id p);
        if (raise : bool) then
          p_delay delay;;
          p_modify (fun s => (set_irq true s.1, s.2));;
          mret (p, SC_ZERO_TIME)
        else mret (p, delay)
    | TLM_IGNORE_COMMAND => mret (p, delay)
    end.

(** *** The stream of bytes after the rollover *)
Context (fifo_write : Z -> proc event (impl * W) unit).

Fixpoint write_all (vs : list Z) : proc event (impl * W) unit :=
  match vs with
  | [] => mret tt
  | v :: vs => fifo_write v;; write_all vs
  end.

Definition timer_done_thread : proc event (impl * W) unit :=
  p_wait Wait_static;;
  on_impl (fun s => r ← store s.(regs) (timer_done_offset timer_size) [1]; Ok (set_regs r s, tt));;
  write_all (seqZ 0 memory_size).

(** *** Bytes received from the FIFO *)

(** [dma->nb_transport_fw]; the call may come back into this module before it
    returns. *)
Context (dma_nb_transport_fw : impl * W -> payload -> tlm_phase -> sc_time ->
  res ((impl * W) * payload * tlm_phase * sc_time * tlm_sync_enum)).

(** One new transfer per clock cycle: the delay of the next transfer. *)
Definition pace (s : impl) : sc_time :=
  let delta := t_sub s.(now) s.(previous_time_stamp) in
  if delta <? clock_period then t_sub clock_period delta else SC_ZERO_TIME.

Definition dma_payload (index value : Z) : payload :=
  mk_payload TLM_WRITE_COMMAND index (Some [value]) 1 1 None 0 false TLM_INCOMPLETE_RESPONSE.

(** The loop body for a byte that was read. *)
Definition transfer_byte (v : Z) (s : impl * W) : res (impl * W) :=
  let value := Z.lxor v 0xFF in
  i ← copy_in MEMORY_TARGET_INDEX s.1.(memory_index) [value] s.1;
  let payload := dma_payload i.(memory_index) value in
  let i := set_index (u32 (i.(memory_index) + 1)) (SimpleMM.allocate_payload i) in
  let delay := pace i in
  let i := set_previous (t_add i.(now) delay) i in
  '(s, payload, phase, delay, return_value) ← dma_nb_transport_fw (i, s.2) payload BEGIN_REQ delay;
  if decide (return_value = TLM_COMPLETED) then
    cassert (is_response_ok payload);;
    Ok (SimpleMM.free s.1, s.2)
  else if decide (phase = BEGIN_RESP) then
    cassert (is_response_ok payload);;
    '(s, payload, _, _, _) ← dma_nb_transport_fw s payload END_RESP delay;
    cassert (is_response_ok payload);;
    Ok (SimpleMM.free s.1, s.2)
  else Ok s.

(** The method runs without suspending, so the bytes that can be read are those
    available when it starts. *)
Fixpoint fifo_data_received_method (available : list Z) (s : impl * W) : res (impl * W) :=
  match available with
  | [] => Ok s
  | v :: available => s ← transfer_byte v s; fifo_data_received_method available s
  end.

Definition nb_transport_bw (s : impl * W) (payload : payload) (phase : tlm_phase) (delay : sc_time) :
  res ((impl * W) * Tlm.payload * tlm_phase * sc_time * tlm_sync_enum) :=
  let payload := set_response_status TLM_OK_RESPONSE payload in
  if decide (phase = END_REQ) then Ok (s, payload, phase, delay, TLM_ACCEPTED)
  else
    cassert (bool_decide (phase = BEGIN_RESP));;
    '(s, payload, phase, delay, _) ← dma_nb_transport_fw s payload END_RESP delay;
    Ok ((SimpleMM.free s.1, s.2), payload, phase, delay, TLM_UPDATED).

(** What [sc_fifo::write] promises while nobody else writes: it returns after
    appending its argument to the bytes written so far. *)
Definition undisturbed (written : W -> list Z) (s s' : impl * W) : Prop :=
  s'.1 = s.1 /\ written s'.2 = written s.2.

Class FifoOut (written : W -> list Z) : Prop := {
  fifo_appends : forall v s (Q : unit -> impl * W -> Prop),
    (forall w', written w' = written s.2 ++ [v] -> Q tt (s.1, w')) ->
    wp (undisturbed written) (fun _ _ => True) (fifo_write v s) Q;
}.
End Impl.

(** The peripheral of the example: a 32-bit timer. *)
Notation renode_timer := 4 (only parsing).

(** ** Lemmas *)

Lemma renode_layout :
  (timer_offset 4, timer_done_offset 4, irq_ack_offset 4, memory_offset 4, struct_size 4) =
  (4, 8, 9, 10, 112).
Proof. reflexivity. Qed.

(** The two widths of the timer register in the repository. *)
Definition timer_width (ts : Z) : Prop := ts = 4 \/ ts = 8.

Lemma width_4 : timer_width 4. Proof. by left. Qed.
Lemma width_8 : timer_width 8. Proof. by right. Qed.

(** The targets of a bus access lie in the struct, the memory behind the
    command register. *)
Lemma target_fits ts id : timer_width ts ->
  0 <= target_base ts id /\ target_base ts id + target_size ts id <= struct_size ts /\
  (id = MEMORY_TARGET_INDEX -> 0 < target_base ts id).
Proof. by intros [-> | ->]; destruct id; vm_compute. Qed.

Lemma copy_in_Ok ts id off bs s : timer_width ts ->
  Z.of_nat (length s.(regs)) = struct_size ts -> 0 <= off ->
  off + Z.of_nat (length bs) <= target_size ts id ->
  copy_in ts id off bs s = Ok (set_regs (splice s.(regs) (target_base ts id + off) bs) s).
Proof.
  intros Hts Hl Hoff Hend. unfold copy_in. destruct (target_fits ts id Hts) as (? & ? & _).
  destruct (Z.leb_spec (off + Z.of_nat (length bs)) (target_size ts id)); [|lia].
  by rewrite store_Ok by lia.
Qed.

Lemma copy_out_Ok ts id off len s : timer_width ts ->
  Z.of_nat (length s.(regs)) = struct_size ts -> 0 <= off -> 0 <= len ->
  off + len <= target_size ts id ->
  copy_out ts id off len s = Ok (slice s.(regs) (target_base ts id + off) len).
Proof.
  intros Hts Hl Hoff Hlen Hend. unfold copy_out. destruct (target_fits ts id Hts) as (? & ? & _).
  destruct (Z.leb_spec (off + len) (target_size ts id)); [|lia]. by rewrite load_Ok by lia.
Qed.

Lemma copy_in_memory s i v :
  length s.(regs) = 112%nat -> 0 <= i < memory_size ->
  copy_in 4 MEMORY_TARGET_INDEX i [v] s = Ok (set_regs (splice s.(regs) (10 + i) [v]) s).
Proof.
  intros Hl Hi. apply (copy_in_Ok 4 MEMORY_TARGET_INDEX); [apply width_4| |lia|cbn].
  - rewrite Hl. reflexivity.
  - unfold memory_size in *. lia.
Qed.

(** The bytes that are stored and sent on when the bytes [vs] are received. *)
Definition received (vs : list Z) : list Z := (fun v => Z.lxor v 0xFF) <$> vs.

Lemma splice_cons m off b bs :
  0 <= off -> off + 1 + Z.of_nat (length bs) <= Z.of_nat (length m) ->
  splice (splice m off [b]) (off + 1) bs = splice m off (b :: bs).
Proof.
  intros Hoff Hlen. apply list_eq. intros i.
  rewrite !lookup_splice by (rewrite ?splice_length; cbn [length]; lia).
  cbn [length]. repeat case_decide; try lia; try done.
  - replace (i - Z.to_nat off)%nat with 0%nat by lia. done.
  - replace (i - Z.to_nat off)%nat with (S (i - Z.to_nat (off + 1)))%nat by lia. done.
Qed.

(** *** Bus accesses while nobody else touches the peripheral *)

(** The environment leaves the peripheral alone. *)
Definition quiet {W} (s s' : impl * W) : Prop := s'.1 = s.1.

Definition only_delays {W} (w : wait_on event) (s : impl * W) : Prop := exists t, w = Wait_time t.

Lemma wp_delay {W} t (s : impl * W) (Q : unit -> impl * W -> Prop) :
  (forall w, Q tt (set_now (t_add s.1.(now) t) s.1, w)) ->
  wp quiet only_delays (p_delay t s) Q.
Proof. intros HQ. split; [by exists t|]. intros [i w] Hq. unfold quiet in Hq.
  cbn [fst] in Hq. subst i. apply HQ. Qed.

Lemma wp_on_impl {W A} (f : impl -> res (impl * A)) (s : impl * W) i a (Q : A -> impl * W -> Prop) :
  f s.1 = Ok (i, a) -> Q a (i, s.2) -> wp quiet only_delays (on_impl f s) Q.
Proof. intros Hf HQ. unfold on_impl. eapply wp_step; [by rewrite Hf|done]. Qed.

(** The environment leaves the clock and the timer alone. *)
Record keeps_timer {W} (s s' : impl * W) : Prop := {
  kt_now : s'.1.(now) = s.1.(now);
  kt_start : s'.1.(start_time) = s.1.(start_time);
  kt_valid : s'.1.(start_time_valid) = s.1.(start_time_valid);
  kt_regs : length s'.1.(regs) = length s.1.(regs);
}.

Lemma load_bool_0 m : m !! 0%nat = Some 0 -> load_bool m 0 = Ok false.
Proof. intros Hm. unfold load_bool. by rewrite (get_byte_Ok m 0 0). Qed.

(** The registers with the timer brought up to date at time [t]. *)
Definition elapsed (s : impl) (t : sc_time) : Z := t - s.(start_time).
Definition timer_at (s : impl) (t : sc_time) : Z := ceil_div (elapsed s t) clock_period.
Definition with_timer (s : impl) (t : sc_time) : list Z :=
  splice s.(regs) 4 (le_encode 4 (timer_at s t)).

Lemma update_timer_now_running {SC : DoubleTimes} s d :
  length s.(regs) = 112%nat -> s.(start_time_valid) = true -> 0 <= d < 2 ^ 64 ->
  0 <= s.(start_time) <= s.(now) -> s.(now) < 2 ^ 63 -> timer_at s s.(now) < 2 ^ 32 ->
  update_timer_now 4 d s = Ok (set_regs (with_timer s s.(now)) s,
    t_add d (timer_at s s.(now) * clock_period - elapsed s s.(now))).
Proof.
  intros Hl Hv Hd Hs Hn Ht. unfold update_timer_now. rewrite Hv.
  unfold t_sub. rewrite (wrap_small 64 (now s - _)) by lia.
  fold (elapsed s s.(now)).
  assert (He : 0 <= elapsed s s.(now) < 2 ^ 50).
  { unfold timer_at in Ht. pose proof (ceil_div_spec (elapsed s s.(now)) clock_period).
    change clock_period with 1000 in *. unfold elapsed in *. lia. }
  rewrite sc_ceil_exact, sc_ceil_gap_exact by done.
  fold (timer_at s s.(now)). change (2 ^ (8 * 4)) with (2 ^ 32).
  destruct (Z.ltb_spec (timer_at s s.(now)) (2 ^ 32)); [|lia].
  change (timer_offset 4) with 4. change (Z.to_nat 4) with 4%nat.
  rewrite store_Ok, bind_Ok by (rewrite ?le_encode_length; lia).
  done.
Qed.

(** A write through either index, when the command register is clear and stays
    clear. *)
Lemma write_now_stores {SC : DoubleTimes} ts id p d s : timer_width ts ->
  has_buffer p d -> 0 <= p.(address) -> 0 <= p.(data_length) ->
  p.(address) + p.(data_length) <= target_size ts id ->
  Z.of_nat (length s.(regs)) = struct_size ts ->
  (id = MEMORY_TARGET_INDEX -> 0 < p.(data_length)) ->
  let r := splice s.(regs) (target_base ts id + p.(address)) (slice d 0 p.(data_length)) in
  r !! 0%nat = Some 0 ->
  write_now ts id p s =
    if decide (id = MEMORY_TARGET_INDEX) then
      let n := u32 (s.(memory_written_count) + p.(data_length)) in
      Ok (set_count n (set_regs r s), (transfer_time p.(data_length), n =? 100))
    else Ok (set_regs r s, (transfer_time p.(data_length), false)).
Proof.
  intros Hts [Hd Hb] Ha Hl Hend Hlen Hpos r Hr. unfold write_now. cbv zeta.
  rewrite (data_read_slice p d (data_length p)), bind_Ok by (done || lia).
  assert (Hsl : Z.of_nat (length (slice d 0 (data_length p))) = data_length p)
    by (rewrite slice_length; lia).
  rewrite (copy_in_Ok ts) by (done || lia). rewrite bind_Ok. fold r.
  unfold process_command_register_fields.
  cbn [set_regs regs]. rewrite load_bool_0, bind_Ok by done.
  case_decide as Hid; [|done]. by rewrite (data_read_slice p d 1), bind_Ok by (specialize (Hpos Hid); done || lia).
Qed.

Lemma write_now_clear {SC : DoubleTimes} id p d s :
  has_buffer p d -> 0 <= p.(address) -> 0 <= p.(data_length) ->
  p.(address) + p.(data_length) <= target_size 4 id -> length s.(regs) = 112%nat ->
  (id = MEMORY_TARGET_INDEX -> 0 < p.(data_length)) ->
  let r := splice s.(regs) (target_base 4 id + p.(address)) (slice d 0 p.(data_length)) in
  r !! 0%nat = Some 0 ->
  write_now 4 id p s =
    if decide (id = MEMORY_TARGET_INDEX) then
      let n := u32 (s.(memory_written_count) + p.(data_length)) in
      Ok (set_count n (set_regs r s), (transfer_time p.(data_length), n =? 100))
    else Ok (set_regs r s, (transfer_time p.(data_length), false)).
Proof.
  intros Hb Ha Hl Hend Hlen Hpos. apply (write_now_stores 4); try done; [apply width_4|].
  by rewrite Hlen.
Qed.

(** ** Properties *)

(** A socket that only records the annotated delay of each transfer, accepting
    it as one that is served by a process of its own. *)
Definition recording_target (s : impl * list sc_time) (p : payload) (ph : tlm_phase) (t : sc_time) :
  res ((impl * list sc_time) * payload * tlm_phase * sc_time * tlm_sync_enum) :=
  Ok ((s.1, s.2 ++ [t]), p, ph, t, TLM_ACCEPTED).

(** The index into the memory is never reset: once a hundred bytes have
    been received, the next one is written outside of the array. *)
Theorem memory_index_overruns {W} dma v vs (s : impl * W) :
  memory_size <= s.1.(memory_index) ->
  fifo_data_received_method 4 dma (v :: vs) s = Err Undefined_behaviour.
Proof.
  intros Hi. cbn [fifo_data_received_method]. unfold transfer_byte, copy_in, target_size.
  cbn [length]. change (Z.of_nat 1) with 1. destruct (Z.leb_spec (memory_index s.1 + 1) memory_size); [lia|done].
Qed.

Lemma memory_index_overruns_witness :
  exists s, fifo_data_received_method 4 recording_target (seqZ 0 100) (new_impl 4 (replicate 112 0), []) = Ok s /\
    fifo_data_received_method 4 recording_target [7] s = Err Undefined_behaviour.
Proof.
  eexists. split; [vm_compute; reflexivity|]. apply memory_index_overruns. cbn. unfold memory_size. lia.
Defined.

Lemma recording_target_eq s p ph t : recording_target s p ph t =
  Ok ((s.1, s.2 ++ [t]), p, ph, t, TLM_ACCEPTED).
Proof. done. Qed.

(** Zero and one clock period, in turn. *)
Fixpoint alternating (n : nat) (b : bool) : list sc_time :=
  match n with
  | O => []
  | S n' => (if b then clock_period else SC_ZERO_TIME) :: alternating n' (negb b)
  end.

Lemma recording_loop vs : forall (b : bool) i w,
  length i.(regs) = 112%nat -> 0 <= i.(memory_index) ->
  i.(memory_index) + Z.of_nat (length vs) <= 100 ->
  0 <= i.(now) -> i.(now) + clock_period < 2 ^ 64 ->
  (if b then i.(previous_time_stamp) = i.(now)
   else clock_period <= t_sub i.(now) i.(previous_time_stamp)) ->
  exists i', fifo_data_received_method 4 recording_target vs (i, w) =
    Ok (i', w ++ alternating (length vs) b).
Proof.
  induction vs as [|v vs IH]; intros b i w Hl Hi Hn Ht0 Ht Hb; cbn [fifo_data_received_method].
  - exists i. cbn. by rewrite app_nil_r.
  - cbn [length] in Hn. unfold transfer_byte.
    rewrite copy_in_memory, bind_Ok by (cbn; unfold memory_size; lia || done).
    cbv zeta. rewrite recording_target_eq, bind_Ok. cbn [fst snd].
    match goal with |- context [pace ?i] => assert (pace i = (if b then clock_period else SC_ZERO_TIME)) as -> end.
    { unfold pace. cbn [now previous_time_stamp set_index SimpleMM.allocate_payload set_live set_regs]. destruct b.
      - rewrite Hb. unfold t_sub. rewrite Z.sub_diag. reflexivity.
      - destruct (Z.ltb_spec (t_sub (now i) (previous_time_stamp i)) clock_period); [lia|done]. }
    rewrite !decide_False, bind_Ok by done. cbn [alternating length].
    edestruct (IH (negb b)) as (i' & Hi').
    7: { exists i'. rewrite Hi'. by rewrite <- app_assoc. }
    all: cbn; try lia; try done.
    + rewrite splice_length by (cbn; lia). done.
    + rewrite wrap_small by lia. lia.
    + rewrite wrap_small by lia. lia.
    + change clock_period with 1000 in *. unfold t_sub, t_add, SC_ZERO_TIME. destruct b; cbn.
      * rewrite (wrap_small 64 (now i + _)) by lia.
        replace (now i - (now i + 1000)) with (-1000) by lia. by vm_compute.
      * rewrite Z.add_0_r. apply wrap_small. lia.
Qed.

(** The transfers of one activation are not paced at one per clock cycle:
    after an idle clock period their annotated delays are 0, 1 ns, 0, 1 ns and
    so on, since the time of the last transfer can lie in the future and the
    unsigned difference to it is then huge. *)
Theorem pacing_alternates vs i w :
  length i.(regs) = 112%nat -> 0 <= i.(memory_index) ->
  i.(memory_index) + Z.of_nat (length vs) <= 100 ->
  0 <= i.(now) -> i.(now) + clock_period < 2 ^ 64 ->
  clock_period <= t_sub i.(now) i.(previous_time_stamp) ->
  exists i', fifo_data_received_method 4 recording_target vs (i, w) =
    Ok (i', w ++ alternating (length vs) false).
Proof. intros. by apply recording_loop. Qed.

Lemma pacing_alternates_witness :
  exists i', fifo_data_received_method 4 recording_target [1; 2; 3; 4]
      (set_now 5000 (new_impl 4 (replicate 112 0)), []) = Ok (i', [0; 1000; 0; 1000]).
Proof.
  apply (pacing_alternates [1; 2; 3; 4] (set_now 5000 (new_impl 4 (replicate 112 0))) []);
    try reflexivity; vm_compute; congruence.
Defined.

(** C32: a bus write in range, with the start command clear, under a quiet
    environment: it consumes the annotated delay, stores the bytes in the
    addressed target, answers OK with the bus time as delay, and on the memory
    target counts the bytes and raises the interrupt, after that time, exactly
    when the total is then a hundred; a total that jumps over a hundred raises
    nothing. *)
Theorem b_transport_write {SC : DoubleTimes} {W} id p d t (s : impl * W) :
  p.(command) = TLM_WRITE_COMMAND -> has_buffer p d -> payload_wf p ->
  p.(byte_enable) = None -> p.(data_length) <= p.(streaming_width) ->
  p.(address) + p.(data_length) <= target_size 4 id -> length s.1.(regs) = 112%nat ->
  (id = MEMORY_TARGET_INDEX -> 0 < p.(data_length)) ->
  let r := splice s.1.(regs) (target_base 4 id + p.(address)) (slice d 0 p.(data_length)) in
  r !! 0%nat = Some 0 ->
  wp quiet only_delays (b_transport 4 id p t s) (fun '(p', t') s' =>
    p' = set_response_status TLM_OK_RESPONSE (set_dmi_allowed false p) /\
    s'.1.(regs) = r /\
    let time := transfer_time p.(data_length) in
    let count := u32 (s.1.(memory_written_count) + p.(data_length)) in
    if decide (id = MEMORY_TARGET_INDEX) then
      s'.1.(memory_written_count) = count /\
      s'.1.(irq_signal) = s.1.(irq_signal) || (count =? 100) /\
      t_add s'.1.(now) t' = t_add (t_add s.1.(now) t) time
    else
      s'.1.(memory_written_count) = s.1.(memory_written_count) /\
      s'.1.(irq_signal) = s.1.(irq_signal) /\
      s'.1.(now) = t_add s.1.(now) t /\ t' = time).
Proof.
  intros Hc Hd [Ha Hl _] Hbe Hsw Hend Hlen Hpos r Hr. unfold b_transport. cbv zeta.
  cbn [set_dmi_allowed streaming_width data_length byte_enable set_response_status command].
  destruct (Z.ltb_spec (streaming_width p) (data_length p)); [lia|].
  rewrite Hbe, bool_decide_false, Hc by (intros [? ?]; done).
  apply wp_bind, wp_delay. intros w. apply wp_bind.
  set (q := set_response_status _ _). fold r. set (j := set_now _ _).
  assert (Hw : write_now 4 id q j = if decide (id = MEMORY_TARGET_INDEX) then
      let n := u32 (s.1.(memory_written_count) + p.(data_length)) in
      Ok (set_count n (set_regs r j), (transfer_time p.(data_length), n =? 100))
    else Ok (set_regs r j, (transfer_time p.(data_length), false))).
  { apply (write_now_clear id q d j); try done; cbn; lia. }
  case_decide as Hid; cbv zeta in *; eapply wp_on_impl; try exact Hw; cbn beta iota.
  - destruct (_ =? 100).
    + apply wp_bind, wp_delay. intros w'. cbn. rewrite orb_true_r. split_and!; try done.
      unfold SC_ZERO_TIME, t_add at 1. rewrite Z.add_0_r. apply wrap_idemp. lia.
    + cbn. by rewrite orb_false_r.
  - done.
Qed.

(** A library whose products wrap around. *)
#[export] Instance wrapping_times : DoubleTimes.
Proof.
  refine {| sc_scale d t := u64 (d * t); sc_ceil := ceil_div; sc_ceil_gap a b := ceil_div a b * b - a |}.
  - intros d t Ht. apply wrap_small. lia.
  - done.
  - intros a a' b Ha _ Hb. apply ceil_div_mono; lia.
  - apply ceil_div_range.
  - done.
Defined.

Definition example_write (a : Z) (d : list Z) : payload :=
  mk_payload TLM_WRITE_COMMAND a (Some d) (Z.of_nat (length d)) (Z.of_nat (length d)) None 0 true
    TLM_INCOMPLETE_RESPONSE.

(** The last byte of a hundred raises the interrupt. *)
Lemma b_transport_write_witness :
  let s := set_count 96 (new_impl 4 (replicate 112 0)) in
  let p := example_write 96 [1; 2; 3; 4] in
  wp quiet only_delays (b_transport 4 MEMORY_TARGET_INDEX p 2000 (s, tt)) (fun '(p', t') s' =>
    p' = set_response_status TLM_OK_RESPONSE (set_dmi_allowed false p) /\
    s'.1.(regs) = splice s.(regs) 106 [1; 2; 3; 4] /\
    s'.1.(memory_written_count) = 100 /\ s'.1.(irq_signal) = true /\
    t_add s'.1.(now) t' = 3000).
Proof.
  cbv zeta.
  apply (b_transport_write MEMORY_TARGET_INDEX (example_write 96 [1; 2; 3; 4]) [1; 2; 3; 4] 2000
    (set_count 96 (new_impl 4 (replicate 112 0)), tt)); try reflexivity; try (vm_compute; congruence).
  - split; [reflexivity|vm_compute; congruence].
  - split; cbn; [lia|lia|]. intros ? [= <-]. solve_bytes.
Defined.

(** A read of any registers, the timer having been started: under an
    environment that keeps the timer, the bytes are those of the struct once the
    timer is brought up to date. *)
Lemma read_registers {SC : DoubleTimes} {W} p d t (s : impl * W) :
  p.(command) = TLM_READ_COMMAND -> 0 <= p.(address) -> 0 <= p.(data_length) ->
  p.(address) + p.(data_length) <= 112 -> has_buffer p d -> p.(byte_enable) = None ->
  p.(data_length) <= p.(streaming_width) ->
  length s.1.(regs) = 112%nat -> s.1.(start_time_valid) = true ->
  0 <= s.1.(start_time) <= s.1.(now) -> 0 <= t -> s.1.(now) + t < 2 ^ 62 ->
  timer_at s.1 (s.1.(now) + t) < 2 ^ 32 ->
  let n := s.1.(now) + t in
  wp keeps_timer only_delays (b_transport 4 REGIF_TARGET_INDEX p t s) (fun '(p', t') s' =>
    let q := set_response_status TLM_OK_RESPONSE (set_dmi_allowed false p) in
    s'.1.(now) = n /\ s'.1.(start_time) = s.1.(start_time) /\ s'.1.(start_time_valid) = true /\
    length s'.1.(regs) = 112%nat /\ slice s'.1.(regs) 4 4 = le_encode 4 (timer_at s.1 n) /\
    data_write q (slice s'.1.(regs) p.(address) p.(data_length)) = Ok p' /\
    t' = t_add (timer_at s.1 n * clock_period - elapsed s.1 n) (transfer_time p.(data_length))).
Proof.
  intros Hc Ha Hl Hend [Hd Hb] Hbe Hsw Hlen Hv Hst Ht Hn Htm n. fold n in Htm. unfold b_transport. cbv zeta.
  cbn [set_dmi_allowed streaming_width data_length byte_enable set_response_status command].
  destruct (Z.ltb_spec (streaming_width p) (data_length p)); [lia|].
  rewrite Hbe, bool_decide_false, Hc by (intros [? ?]; done).
  apply wp_bind. unfold update_volatile_register_fields. apply wp_bind.
  split; [by exists t|]. intros [i1 w1] [Hn1 Hs1 Hv1 Hr1]. cbn [fst] in *.
  unfold update_timer. apply wp_bind. split; [by eexists|]. intros [i2 w2] [Hn2 Hs2 Hv2 Hr2].
  cbn [fst snd set_now now start_time start_time_valid regs] in *.
  assert (Hnow : t_add (t_add (now s.1) t) SC_ZERO_TIME = n).
  { unfold t_add, SC_ZERO_TIME. rewrite Z.add_0_r, wrap_idemp by lia. apply wrap_small. lia. }
  rewrite Hnow. set (j := set_now n i2).
  assert (Hel : elapsed j n = elapsed s.1 n) by (unfold elapsed; cbn; congruence).
  assert (Htj : timer_at j n = timer_at s.1 n) by (unfold timer_at; by rewrite Hel).
  assert (Hj : update_timer_now 4 SC_ZERO_TIME j = Ok (set_regs (with_timer j n) j,
    t_add SC_ZERO_TIME (timer_at j n * clock_period - elapsed j n))).
  { apply (update_timer_now_running j); cbn [j now set_now start_time start_time_valid regs];
      [congruence|congruence|done|rewrite Hs2, Hs1; lia|lia|rewrite <- Htj in Htm; exact Htm]. }
  eapply wp_step; [cbn [fst]; rewrite Hj, bind_Ok; reflexivity|]. cbn [snd]. apply wp_bind.
  pose proof (le_encode_length 4 (timer_at j n)) as Hl4.
  assert (Hrj : length (regs j) = 112%nat) by (cbn; congruence).
  assert (Hlt : length (with_timer j n) = 112%nat).
  { unfold with_timer. rewrite splice_length; rewrite ?Hl4; lia. }
  assert (Hslice : slice (with_timer j n) 4 4 = le_encode 4 (timer_at s.1 n)).
  { rewrite <- Htj. apply slice_splice_full; [lia|by rewrite Hl4|lia]. }
  assert (Hcopy : copy_out 4 REGIF_TARGET_INDEX (address p) (data_length p) (set_regs (with_timer j n) j) =
    Ok (slice (with_timer j n) (address p) (data_length p))).
  { unfold copy_out. change (target_size 4 REGIF_TARGET_INDEX) with 112.
    destruct (Z.leb_spec (address p + data_length p) 112); [|lia]. cbn [set_regs regs].
    apply load_Ok; [done|lia|]. rewrite Hlt. lia. }
  eapply wp_step; [cbn [fst]; cbn [set_response_status set_dmi_allowed address data_length];
    rewrite Hcopy, !bind_Ok; reflexivity|]. cbn [snd fst].
  set (bs := slice (with_timer j n) (address p) (data_length p)).
  assert (Hbs : Z.of_nat (length bs) = data_length p) by (unfold bs; rewrite slice_length; lia).
  apply wp_bind. destruct (data_write _ bs) as [p'|] eqn:Hw.
  2: { unfold data_write in Hw. cbn in Hw. rewrite Hd, store_Ok in Hw; [done|lia|lia]. }
  cbn [p_lift wp mret proc_ret fst snd set_regs now start_time start_time_valid regs j set_now].
  split_and!; [done|congruence|congruence|done|done|exact Hw|].
  assert (Hdl : data_length p' = data_length p) by (apply data_write_inv in Hw; by rewrite Hw).
  rewrite Hdl, Hel, Htj. f_equal. apply t_add_0_l.
  unfold timer_at. pose proof (ceil_div_spec (elapsed s.1 n) clock_period ltac:(done)).
  change clock_period with 1000 in *. lia.
Qed.

(** C33: software reading the running timer, whatever other processes do to the
    other registers meanwhile, gets the elapsed time in clock cycles, rounded
    up, and the delay annotated on the access ends, after the one bus cycle of a
    word, on the clock edge of that value: the time at which the initiator
    continues is [start_time + (timer + 1) * clock_period]. *)
Theorem timer_read_aligned {SC : DoubleTimes} {W} p d t (s : impl * W) :
  p.(command) = TLM_READ_COMMAND -> p.(address) = 4 -> p.(data_length) = 4 -> has_buffer p d ->
  p.(byte_enable) = None -> 4 <= p.(streaming_width) ->
  length s.1.(regs) = 112%nat -> s.1.(start_time_valid) = true ->
  0 <= s.1.(start_time) <= s.1.(now) -> 0 <= t -> s.1.(now) + t < 2 ^ 62 ->
  timer_at s.1 (s.1.(now) + t) < 2 ^ 32 ->
  wp keeps_timer only_delays (b_transport 4 REGIF_TARGET_INDEX p t s) (fun '(p', t') s' =>
    p'.(response_status) = TLM_OK_RESPONSE /\
    data_word 4 p' = Ok (timer_at s.1 (s.1.(now) + t)) /\
    s'.1.(now) + t' = s.1.(start_time) + (timer_at s.1 (s.1.(now) + t) + 1) * clock_period).
Proof.
  intros Hc Ha Hl Hb Hbe Hsw Hlen Hv Hst Ht Hn Htm.
  eapply wp_mono; [|apply (read_registers p d t s); try done; try lia]. cbv zeta.
  intros [p' t'] s' (Hnow & _ & _ & Hlr & Hsl & Hw & ->). rewrite Ha, Hl, Hsl in Hw.
  pose proof (data_word_set 4 _ _ p' Hw) as Hdw. apply data_write_inv in Hw. rewrite Hw at 1.
  split; [done|]. split; [rewrite Hdw; f_equal|]; set (n := now s.1 + t) in *.
  - apply Z.mod_small. assert (0 <= timer_at s.1 n); [|cbn; lia].
    unfold timer_at, ceil_div, elapsed. apply Z.div_pos; change clock_period with 1000; lia.
  - rewrite Hnow, Hl. pose proof (ceil_div_spec (elapsed s.1 n) clock_period ltac:(done)) as Hcd.
    fold (timer_at s.1 n) in Hcd. unfold elapsed in *. change clock_period with 1000 in *.
    change (transfer_time 4) with 1000. unfold t_add. rewrite wrap_small by lia. lia.
Qed.

Lemma timer_read_aligned_witness :
  let s := set_now 10000 (set_start_time 1500 (new_impl 4 (replicate 112 0))) in
  let p := mk_payload TLM_READ_COMMAND 4 (Some [9; 9; 9; 9]) 4 4 None 0 false
             TLM_INCOMPLETE_RESPONSE in
  wp keeps_timer only_delays (b_transport 4 REGIF_TARGET_INDEX p 250 (s, tt)) (fun '(p', t') s' =>
    p'.(response_status) = TLM_OK_RESPONSE /\ data_word 4 p' = Ok 9 /\
    s'.1.(now) + t' = 1500 + 10 * 1000).
Proof.
  cbv zeta. apply (timer_read_aligned
    (mk_payload TLM_READ_COMMAND 4 (Some [9; 9; 9; 9]) 4 4 None 0 false TLM_INCOMPLETE_RESPONSE)
    [9; 9; 9; 9] 250 (set_now 10000 (set_start_time 1500 (new_impl 4 (replicate 112 0))), tt));
    try reflexivity; try (vm_compute; congruence).
  - split; [reflexivity|vm_compute; congruence].
  - split; vm_compute; congruence.
Defined.

Lemma rollover_32 {SC : DoubleTimes} : rollover 4 = 2 ^ 32 * 1000.
Proof. unfold rollover. by rewrite sc_scale_exact by (by vm_compute). Qed.

(** Starting the timer, away from the end of time. *)
Lemma start_timer_spec {SC : DoubleTimes} delay s (start : sc_time) :
  start = (if s.(start_time_valid) then Z.min s.(start_time) (t_add s.(now) delay)
           else t_add s.(now) delay) ->
  0 <= s.(now) <= start + 2 ^ 32 * 1000 -> 0 <= start -> start < 2 ^ 63 ->
  start_timer 4 delay s =
    set_done_at (event_notify s.(timer_done_at) (start + 2 ^ 32 * 1000)) (set_start_time start s).
Proof.
  intros Hs Hn Hs0 Hs1. unfold start_timer. cbv zeta. rewrite <- Hs.
  cbn [set_start_time now start_time timer_done_at]. rewrite rollover_32.
  unfold t_add at 1 2 3, t_sub. rewrite !(wrap_small 64 (start + _)) by lia.
  destruct (Z.leb_spec (now s) (start + 2 ^ 32 * 1000)); [|lia].
  rewrite (wrap_small 64 (_ - _)), wrap_small by lia. do 2 f_equal. lia.
Qed.

(** A write of the start command: it is cleared again at once. *)
Lemma write_now_start {SC : DoubleTimes} p d (j : impl) :
  p.(data_length) = 1 -> p.(address) = 0 -> p.(data) = Some (1 :: d) -> length j.(regs) = 112%nat ->
  write_now 4 REGIF_TARGET_INDEX (set_response_status TLM_OK_RESPONSE (set_dmi_allowed false p)) j =
  Ok (set_regs (splice (splice j.(regs) 0 [1]) 0 [0])
        (start_timer 4 1000 (set_regs (splice j.(regs) 0 [1]) j)), (1000, false)).
Proof.
  intros Hl Ha Hd Hlen. set (q := set_response_status _ _).
  set (j1 := set_regs (splice j.(regs) 0 [1]) j).
  assert (Hr0 : length (splice j.(regs) 0 [1]) = 112%nat) by (rewrite splice_length; cbn; lia).
  unfold write_now. cbv zeta. change (data_length q) with (data_length p). rewrite Hl.
  rewrite (data_read_Ok q (1 :: d)) by (done || cbn; lia). rewrite bind_Ok.
  change (take _ _) with [1]. change (address q) with (address p). rewrite Ha.
  unfold copy_in. change (0 + Z.of_nat (length [1]) <=? target_size 4 REGIF_TARGET_INDEX) with true.
  change (target_base 4 REGIF_TARGET_INDEX + 0) with 0. cbn iota.
  rewrite store_Ok, !bind_Ok by (cbn; lia). fold j1.
  change (transfer_time 1) with 1000. unfold process_command_register_fields, load_bool.
  change (regs j1) with (splice j.(regs) 0 [1]).
  rewrite (get_byte_Ok _ 0 1), !bind_Ok by (by destruct (regs j)). cbn [Z.eqb Pos.eqb]. rewrite bind_Ok.
  assert (Hregs : regs (start_timer 4 1000 j1) = splice j.(regs) 0 [1])
    by (unfold start_timer; by destruct (_ <=? _)).
  cbv beta iota zeta. change cmd_start_timer_offset with 0.
  rewrite Hregs, store_Ok, !bind_Ok by (rewrite ?Hr0; cbn; lia). done.
Qed.

(** Writing the start command starts the timer one bus cycle after the
    annotated time, or leaves the earlier start time of a running timer, clears
    the command, and schedules the timer-done event one rollover (2^32 cycles)
    after the start, keeping an earlier pending notification. *)
Theorem start_command_schedules_rollover {SC : DoubleTimes} {W} p d t (s : impl * W) :
  p.(command) = TLM_WRITE_COMMAND -> p.(address) = 0 -> p.(data_length) = 1 ->
  p.(data) = Some (1 :: d) -> p.(byte_enable) = None -> 1 <= p.(streaming_width) ->
  length s.1.(regs) = 112%nat -> 0 <= s.1.(now) -> 0 <= t -> s.1.(now) + t < 2 ^ 62 ->
  (s.1.(start_time_valid) = true -> 0 <= s.1.(start_time) /\
     s.1.(now) + t <= s.1.(start_time) + 2 ^ 32 * 1000) ->
  let n := s.1.(now) + t in
  let start := if s.1.(start_time_valid) then Z.min s.1.(start_time) (n + 1000) else n + 1000 in
  wp quiet only_delays (b_transport 4 REGIF_TARGET_INDEX p t s) (fun '(p', t') s' =>
    p'.(response_status) = TLM_OK_RESPONSE /\ t' = clock_period /\ s'.1.(now) = n /\
    s'.1.(regs) = splice s.1.(regs) 0 [0] /\
    s'.1.(start_time_valid) = true /\ s'.1.(start_time) = start /\
    s'.1.(timer_done_at) = event_notify s.1.(timer_done_at) (start + 2 ^ 32 * 1000)).
Proof.
  intros Hc Ha Hl Hd Hbe Hsw Hlen Hn0 Ht Hn Hst n start. unfold b_transport. cbv zeta.
  cbn [set_dmi_allowed streaming_width data_length byte_enable set_response_status command].
  destruct (Z.ltb_spec (streaming_width p) (data_length p)); [lia|].
  rewrite Hbe, bool_decide_false, Hc by (intros [? ?]; done).
  apply wp_bind, wp_delay. intros w. apply wp_bind.
  assert (Hnow : t_add (now s.1) t = n) by (apply wrap_small; lia). rewrite Hnow.
  set (j := set_now n s.1). set (j1 := set_regs (splice s.1.(regs) 0 [1]) j).
  pose proof (write_now_start p d j Hl Ha Hd Hlen) as Hw.
  eapply wp_on_impl; [exact Hw|]. cbn beta iota. cbn [wp mret proc_ret fst].
  assert (Hb : n <= start + 2 ^ 32 * 1000 /\ 0 <= start <= n + 1000).
  { subst start. destruct (start_time_valid s.1); [destruct (Hst eq_refl)|]; lia. }
  rewrite (start_timer_spec 1000 j1 start);
    [|cbn; unfold t_add; by rewrite wrap_small by lia|cbn; lia|lia|lia].
  cbn. by split_and!.
Qed.

Lemma start_command_schedules_rollover_witness :
  let s := new_impl 4 (replicate 112 0) in
  wp quiet only_delays (b_transport 4 REGIF_TARGET_INDEX (example_write 0 [1]) 500 (s, tt))
    (fun '(p', t') s' =>
      p'.(response_status) = TLM_OK_RESPONSE /\ t' = clock_period /\ s'.1.(now) = 500 /\
      s'.1.(regs) = splice s.(regs) 0 [0] /\
      s'.1.(start_time_valid) = true /\ s'.1.(start_time) = 1500 /\
      s'.1.(timer_done_at) = Some 4294967297500).
Proof.
  cbv zeta. apply (start_command_schedules_rollover (example_write 0 [1]) [] 500
    (new_impl 4 (replicate 112 0), tt)); try reflexivity; try (vm_compute; congruence).
Defined.

(** The offset of a bus access is not checked: a write or read that leaves
    the register struct, or the memory, is undefined behaviour, whatever the
    environment does. *)
Theorem b_transport_out_of_bounds {SC : DoubleTimes} {W} id p d t (s : impl * W) env i :
  has_buffer p d -> 0 <= p.(data_length) -> p.(byte_enable) = None ->
  p.(data_length) <= p.(streaming_width) -> p.(command) = TLM_WRITE_COMMAND ->
  target_size 4 id < p.(address) + p.(data_length) ->
  run env i (b_transport 4 id p t s) = ([(Wait_time t, s)], Err Undefined_behaviour).
Proof.
  intros [Hd Hb] Hl Hbe Hsw Hc Hend. unfold b_transport. cbv zeta.
  cbn [set_dmi_allowed streaming_width data_length byte_enable set_response_status command].
  destruct (Z.ltb_spec (streaming_width p) (data_length p)); [lia|].
  rewrite Hbe, bool_decide_false, Hc by (intros [? ?]; done).
  unfold mbind, proc_bind, p_delay, on_impl, p_step. cbn [prog_bind run]. unfold write_now. cbv zeta.
  set (q := set_response_status _ _). change (data_length q) with (data_length p).
  rewrite (data_read_slice q d (data_length p)), bind_Ok by (done || lia).
  unfold copy_in. rewrite slice_length by lia. change (address q) with (address p).
  rewrite Z2Nat.id by lia. destruct (Z.leb_spec (address p + data_length p) (target_size 4 id)); [lia|done].
Qed.

Lemma b_transport_out_of_bounds_witness :
  let s := (new_impl 4 (replicate 112 0), tt) in
  run (fun _ s => s) 0 (b_transport 4 MEMORY_TARGET_INDEX (example_write 97 [1; 2; 3; 4]) 0 s) =
    ([(Wait_time 0, s)], Err Undefined_behaviour).
Proof.
  cbv zeta. apply (b_transport_out_of_bounds MEMORY_TARGET_INDEX _ [1; 2; 3; 4]); try reflexivity;
    try (vm_compute; congruence). split; [reflexivity|vm_compute; congruence].
Defined.

(** The timer is said to run freely and to wrap around.  It does not: from one
    rollover after the start on, reading any register converts a count of cycles
    that no longer fits to the 32-bit register, which is undefined. *)
Theorem timer_read_after_rollover {SC : DoubleTimes} {W} p d t (s : impl * W) :
  p.(command) = TLM_READ_COMMAND -> has_buffer p d -> p.(byte_enable) = None ->
  p.(data_length) <= p.(streaming_width) -> s.1.(start_time_valid) = true ->
  0 <= s.1.(start_time) -> 0 <= s.1.(now) -> 0 <= t -> s.1.(now) + t < 2 ^ 62 ->
  s.1.(start_time) + 2 ^ 32 * clock_period <= s.1.(now) + t + clock_period - 1 ->
  exists tr, run (fun _ s => s) 0 (b_transport 4 REGIF_TARGET_INDEX p t s) = (tr, Err Undefined_behaviour).
Proof.
  intros Hc [Hd Hb] Hbe Hsw Hv Hs0 Hn Ht Hmax Hover. unfold b_transport. cbv zeta.
  cbn [set_dmi_allowed streaming_width data_length byte_enable set_response_status command].
  destruct (Z.ltb_spec (streaming_width p) (data_length p)); [lia|].
  rewrite Hbe, bool_decide_false, Hc by (intros [? ?]; done).
  eexists. unfold update_volatile_register_fields, update_timer, mbind, proc_bind, p_delay, on_impl, p_step.
  cbn [prog_bind run fst snd]. set (j := set_now _ (set_now _ s.1)).
  assert (Hnow : now j = now s.1 + t).
  { unfold j. cbn [set_now now]. unfold t_add, SC_ZERO_TIME. rewrite Z.add_0_r, wrap_idemp by lia.
    apply wrap_small. lia. }
  assert (Hu : update_timer_now 4 SC_ZERO_TIME j = Err Undefined_behaviour).
  { unfold update_timer_now. change (start_time_valid j) with (start_time_valid s.1). rewrite Hv, Hnow.
    change (start_time j) with (start_time s.1). cbv zeta. change clock_period with 1000 in *.
    unfold t_sub. rewrite wrap_small by lia. set (e := now s.1 + t - start_time s.1).
    assert (Hc32 : sc_ceil ((2 ^ 32 - 1) * 1000 + 1) 1000 = 2 ^ 32) by (by rewrite sc_ceil_exact).
    pose proof (sc_ceil_monotone ((2 ^ 32 - 1) * 1000 + 1) e 1000 ltac:(lia) ltac:(lia) ltac:(lia)).
    destruct (Z.ltb_spec (sc_ceil e 1000) (2 ^ (8 * 4))); [|done].
    change (2 ^ (8 * 4)) with (2 ^ 32) in *. lia. }
  rewrite Hu. reflexivity.
Qed.

(** Started at 1 ns, read five seconds later. *)
Lemma timer_read_after_rollover_witness :
  exists tr, run (fun _ s => s) 0 (b_transport 4 REGIF_TARGET_INDEX
    (set_command TLM_READ_COMMAND (example_write 4 [0; 0; 0; 0])) 0
    (set_now (sc_sec 5) (set_start_time 1000 (new_impl 4 (replicate 112 0))), tt)) = (tr, Err Undefined_behaviour).
Proof.
  apply (timer_read_after_rollover _ [0; 0; 0; 0]); try reflexivity; try (vm_compute; congruence).
  split; [reflexivity|vm_compute; congruence].
Defined.

(** When the timer-done event wakes the thread, it first sets the
    [timer_done] register and then writes the bytes 0 to 99 to the FIFO in
    order, blocking as the FIFO requires; it then ends. *)
Theorem timer_done_thread_streams {W} (written : W -> list Z) fifo_write (s : impl * W) :
  FifoOut fifo_write written -> length s.1.(regs) = 112%nat ->
  wp (undisturbed written) (fun _ _ => True) (timer_done_thread 4 fifo_write s) (fun _ s' =>
    s'.1 = set_regs (splice s.1.(regs) 8 [1]) s.1 /\
    written s'.2 = written s.2 ++ seqZ 0 100).
Proof.
  intros [HF] Hl. unfold timer_done_thread. apply wp_bind, wp_wait; [done|]. intros [i w] [Hi Hw].
  cbn in Hi, Hw. subst i. apply wp_bind. unfold on_impl. change (timer_done_offset 4) with 8.
  eapply wp_step; [cbn [fst]; rewrite store_Ok, !bind_Ok by (cbn; lia); reflexivity|].
  cbn [fst snd]. rewrite <- Hw. unfold memory_size. generalize (seqZ 0 100). intros vs.
  generalize (set_regs (splice (regs s.1) 8 [1]) s.1). intros i. clear Hw Hl s. revert w.
  induction vs as [|v vs IH]; intros w; cbn [write_all].
  - cbn. by rewrite app_nil_r.
  - apply wp_bind, HF. intros w' Hw'. eapply wp_mono; [|apply IH].
    intros _ s' [-> ->]. split; [done|]. rewrite Hw'. cbn [snd]. by rewrite <- app_assoc.
Qed.

(** A FIFO that makes its writer wait once for every byte. *)
Definition slow_fifo (v : Z) : proc event (impl * list Z) unit :=
  p_wait (Wait_event fifo_event);; p_modify (fun s => (s.1, s.2 ++ [v])).

Lemma slow_fifo_appends : FifoOut slow_fifo (fun w => w).
Proof.
  split. intros v s Q HQ. apply wp_bind, wp_wait; [done|]. intros [i w] [Hi Hw].
  cbn in Hi, Hw. subst. by apply HQ.
Qed.

Lemma timer_done_thread_streams_witness :
  let s := new_impl 4 (replicate 112 0) in
  wp (undisturbed (fun w => w)) (fun _ _ => True) (timer_done_thread 4 slow_fifo (s, [])) (fun _ s' =>
    s'.1 = set_regs (splice s.(regs) 8 [1]) s /\ s'.2 = seqZ 0 100).
Proof.
  cbv zeta. apply (timer_done_thread_streams (fun w : list Z => w) slow_fifo
    (new_impl 4 (replicate 112 0), [])); [exact slow_fifo_appends|reflexivity].
Defined.
