(* ===== verification/Streaming.v ===== *)
(** * The transfers between two peripherals of a ring

    The two systems of examples/multiple-peripherals, the original one in one
    simulation and the one that Renode joins from three, move the same bytes: the
    method of the second peripheral copies what it receives and requests a
    transfer per byte, and processes of their own write the bytes to the third,
    which raises its interrupt with the last one.  What holds of the two
    peripherals, the transfers and the requests in between is one invariant,
    stated here of them alone, with what each step does to it; both widths of the
    timer register are covered. *)

From stdpp Require Import base numbers list.
From S2P Require Import Prelude Tlm Kernel Peripheral.
#[local] Open Scope Z_scope.

(** ** Definitions *)

(** The process that serves a request: its byte not yet stored; stored as the
    last one, the interrupt not yet raised; stored; answered, so that the payload
    is released. *)
Inductive transfer_label : Type := Todo | Raising | Served | Released.
#[export] Instance transfer_label_eq_dec : EqDecision transfer_label.
Proof. solve_decision. Defined.

(** The timer thread of peripheral 0, about to write byte [n]. *)
Inductive timer_label : Type := Armed | Streaming (n : Z) | Drained.

Definition streamed (t : timer_label) : Z :=
  match t with Armed => 0 | Streaming n => n | Drained => 100 end.

(** Its label once [n] bytes are written. *)
Definition stream_label (n : Z) : timer_label := if n <? 100 then Streaming n else Drained.

(** What the transfers store at [a]. *)
Definition inverted (a : Z) : Z := Z.lxor a 0xFF.

Definition stored_count (fl : list transfer_label) : Z :=
  Z.of_nat (length (filter (fun f => f <> Todo) fl)).

Definition released_count (fl : list transfer_label) : Z :=
  Z.of_nat (length (filter (fun f => f = Released) fl)).

(** What the method leaves alone. *)
Definition receives (x y : impl) : Prop :=
  y.(irq_signal) = x.(irq_signal) /\ y.(timer_done_at) = x.(timer_done_at) /\
  y.(start_time) = x.(start_time) /\ y.(start_time_valid) = x.(start_time_valid) /\
  y.(memory_written_count) = x.(memory_written_count).

(** A request of peripheral 1 and the time it is given to begin. *)
Definition request : Type := Z * payload * sc_time.

(** The payload of an access that is carried out. *)
Definition answered (p : payload) : payload :=
  set_response_status TLM_OK_RESPONSE (set_dmi_allowed false p).

(** [b_transport] of a write, from its first suspension to the end. *)
Definition finish_write {SC : DoubleTimes} (ts : Z) {W} (id : target_index) (p : payload) :
  proc Peripheral.event (impl * W) (payload * sc_time) :=
  '(delay, raise) ← on_impl (write_now ts id p);
  if (raise : bool) then
    p_delay delay;;
    p_modify (fun s => (set_irq true s.1, s.2));;
    mret (p, SC_ZERO_TIME)
  else mret (p, delay).

Section Transfers.
(** The width of the timer register decides where the memory begins. *)
Context (ts : Z).

(** Peripheral 1, [b], and peripheral 2, [c], between them the transfers that
    have begun and the requests that have not been taken up. *)
Record transfers_ok (b c : impl) (fl : list transfer_label) (reqs : list request) : Prop := {
  tr_index : 0 <= b.(memory_index) <= 100;
  tr_copied : forall a, 0 <= a < b.(memory_index) ->
    b.(regs) !! Z.to_nat (memory_offset ts + a) = Some (inverted a);
  tr_served : Z.of_nat (length fl) <= b.(memory_index);
  tr_requested : reqs.*1 = (fun a => (1, dma_payload a (inverted a))) <$>
    seqZ (Z.of_nat (length fl)) (b.(memory_index) - Z.of_nat (length fl));
  tr_delays : Forall (fun r => 0 <= r.2 <= clock_period) reqs;
  tr_count : c.(memory_written_count) = stored_count fl;
  tr_stored : forall j f, fl !! j = Some f -> f <> Todo ->
    c.(regs) !! (Z.to_nat (memory_offset ts) + j)%nat = Some (inverted (Z.of_nat j));
  tr_level : c.(irq_signal) = true -> stored_count fl = 100;
  tr_raise : stored_count fl = 100 -> c.(irq_signal) = true \/ Raising ∈ fl;
  tr_raising : Raising ∈ fl -> stored_count fl = 100;
}.

(** Nothing of it changes with the registers before the memory, the clocks and
    the timers. *)
Definition same_source (b b' : impl) : Prop :=
  b'.(memory_index) = b.(memory_index) /\
  forall j, (Z.to_nat (memory_offset ts) <= j)%nat -> b'.(regs) !! j = b.(regs) !! j.

Definition same_sink (c c' : impl) : Prop :=
  c'.(irq_signal) = c.(irq_signal) /\ c'.(memory_written_count) = c.(memory_written_count) /\
  forall j, (Z.to_nat (memory_offset ts) <= j)%nat -> c'.(regs) !! j = c.(regs) !! j.

(** A byte of the stream is stored: by transfer [j]. *)
Definition stored (j : nat) (fl : list transfer_label) (c : impl) : impl :=
  set_count (stored_count fl + 1)
    (set_regs (splice c.(regs) (memory_offset ts + Z.of_nat j) [inverted (Z.of_nat j)]) c).

(** The registers of a peripheral. *)
Definition struct_ok (x : impl) : Prop :=
  Z.of_nat (length x.(regs)) = struct_size ts /\ x.(regs) !! 0%nat = Some 0.
End Transfers.

(** ** Lemmas *)

Lemma streamed_label n : 0 <= n <= 100 -> streamed (stream_label n) = n.
Proof. intros Hn. unfold stream_label. destruct (Z.ltb_spec n 100); cbn; lia. Qed.

(** An access that is carried out, and writes. *)
Lemma b_transport_writing {SC : DoubleTimes} ts {W} id p t (s : impl * W) :
  p.(command) = TLM_WRITE_COMMAND -> p.(byte_enable) = None -> p.(data_length) <= p.(streaming_width) ->
  b_transport ts id p t s = (p_delay t;; finish_write ts id (answered p)) s.
Proof.
  intros Hc Hbe Hsw. unfold b_transport. cbv zeta.
  cbn [set_dmi_allowed streaming_width data_length byte_enable set_response_status command].
  destruct (Z.ltb_spec (streaming_width p) (data_length p)); [lia|].
  by rewrite Hbe, bool_decide_false, Hc by (intros [? ?]; done).
Qed.

(** *** Counting *)

Lemma stored_count_app fl f : stored_count (fl ++ [f]) = stored_count fl + stored_count [f].
Proof. unfold stored_count. rewrite filter_app, length_app. lia. Qed.

Lemma count_nonneg fl : 0 <= stored_count fl.
Proof. apply Zle_0_nat. Qed.

Lemma count_le fl : stored_count fl <= Z.of_nat (length fl).
Proof. unfold stored_count. pose proof (length_filter (fun f => f <> Todo) fl). lia. Qed.

Lemma count_full fl : stored_count fl = Z.of_nat (length fl) -> Forall (fun f => f <> Todo) fl.
Proof.
  induction fl as [|f fl IH]; [done|]. pose proof (count_le fl). unfold stored_count in *.
  rewrite filter_cons. case_decide; cbn [length]; intros Hc; [constructor; [done|apply IH; lia]|lia].
Qed.

Lemma count_middle fl j f g : fl !! j = Some f -> g <> Todo ->
  stored_count (<[j := g]> fl) = stored_count fl + (if decide (f = Todo) then 1 else 0).
Proof.
  intros Hj Hg. unfold stored_count.
  rewrite (insert_take_drop fl) by (by eapply lookup_lt_Some).
  rewrite <- (take_drop_middle fl j f) at 3 by done.
  rewrite !filter_app, !filter_cons, !length_app, (decide_True (P := g <> Todo)) by done.
  cbn [length]. destruct (decide (f = Todo)) as [->|Hf].
  - rewrite decide_False by naive_solver. lia.
  - rewrite decide_True by done. cbn [length]. lia.
Qed.

Lemma count_insert fl j f : fl !! j = Some Todo -> f <> Todo ->
  stored_count (<[j := f]> fl) = stored_count fl + 1.
Proof. intros Hj Hf. by rewrite (count_middle fl j Todo f), decide_True by done. Qed.

Lemma count_replace fl j f g : fl !! j = Some f -> f <> Todo -> g <> Todo ->
  stored_count (<[j := g]> fl) = stored_count fl.
Proof. intros Hj Hf Hg. rewrite (count_middle fl j f g), decide_False by done. lia. Qed.

Lemma all_stored fl : Forall (fun f => f <> Todo) fl -> stored_count fl = Z.of_nat (length fl).
Proof.
  induction 1 as [|f fl Hf _ IH]; [done|]. unfold stored_count in *. rewrite filter_cons, decide_True by done.
  cbn [length]. lia.
Qed.

Lemma released_app fl f : released_count (fl ++ [f]) = released_count fl + released_count [f].
Proof. unfold released_count. rewrite filter_app, length_app. lia. Qed.

Lemma released_insert fl j f g : fl !! j = Some f -> f <> Released ->
  released_count (<[j := g]> fl) = released_count fl + released_count [g].
Proof.
  intros Hj Hf. unfold released_count.
  rewrite (insert_take_drop fl) by (by eapply lookup_lt_Some).
  rewrite <- (take_drop_middle fl j f) at 3 by done.
  rewrite !filter_app, !filter_cons, !length_app, (decide_False (P := f = Released)) by done.
  destruct (decide (g = Released)); cbn [length filter_nil]; cbn; lia.
Qed.

Lemma all_released fl : Forall (fun f => f = Released) fl -> released_count fl = Z.of_nat (length fl).
Proof.
  induction 1 as [|f fl -> _ IH]; [done|]. unfold released_count in *. rewrite filter_cons, decide_True by done.
  cbn [length]. lia.
Qed.

Lemma pace_range x : 0 <= pace x <= clock_period.
Proof.
  unfold pace. cbv zeta. change clock_period with 1000.
  pose proof (wrap_range 64 (now x - previous_time_stamp x) ltac:(lia)) as Hr.
  fold (t_sub (now x) (previous_time_stamp x)) in Hr.
  destruct (Z.ltb_spec (t_sub (now x) (previous_time_stamp x)) 1000).
  - unfold t_sub at 1 3. rewrite wrap_small by lia. lia.
  - unfold SC_ZERO_TIME. lia.
Qed.

(** The head of a stream and what is left of it. *)
Lemma seqZ_app_inv c n vs rest : seqZ c n = vs ++ rest ->
  vs = seqZ c (Z.of_nat (length vs)) /\
  rest = seqZ (c + Z.of_nat (length vs)) (n - Z.of_nat (length vs)) /\
  (Z.of_nat (length vs) <= Z.max 0 n).
Proof.
  intros Hvs. pose proof (f_equal length Hvs) as Hlen. rewrite length_seqZ, length_app in Hlen.
  remember (length vs) as k eqn:Hk. destruct (decide (0 <= n)).
  - assert (Hsplit : seqZ c n = seqZ c (Z.of_nat k) ++ seqZ (c + Z.of_nat k) (n - Z.of_nat k)).
    { rewrite <- seqZ_app by lia. f_equal. lia. }
    rewrite Hsplit in Hvs. apply app_inj_1 in Hvs as [<- <-]; [|rewrite length_seqZ; lia].
    split_and!; [done|done|lia].
  - rewrite seqZ_nil in Hvs by lia. symmetry in Hvs. apply app_eq_nil in Hvs as [-> ->].
    cbn in Hk. subst k. rewrite !seqZ_nil by lia. split_and!; [done|done|lia].
Qed.

Lemma memory_bounds ts : timer_width ts ->
  0 < memory_offset ts /\ memory_offset ts + 100 <= struct_size ts.
Proof. by intros [-> | ->]; vm_compute. Qed.

Section Preservation.
Context {SC : DoubleTimes} (ts : Z) (Hts : timer_width ts).
Notation transfers_ok := (transfers_ok ts).
Notation same_source := (same_source ts).
Notation same_sink := (same_sink ts).
Notation stored := (stored ts).
Notation struct_ok := (struct_ok ts).

#[export] Instance same_source_refl : Reflexive same_source.
Proof. by intros x. Qed.
#[export] Instance same_sink_refl : Reflexive same_sink.
Proof. by intros x. Qed.

Lemma transfers_same b c b' c' fl reqs :
  transfers_ok b c fl reqs -> same_source b b' -> same_sink c c' -> transfers_ok b' c' fl reqs.
Proof.
  intros [] [Hm Hb] (Hi & Hc & Hr). pose proof (memory_bounds ts Hts).
  split; rewrite ?Hm, ?Hc, ?Hi; try done.
  - intros a Ha. rewrite Hb by lia. auto.
  - intros j f Hj Hf. rewrite Hr by lia. eauto.
Qed.

(** A write before the memory. *)
Lemma splice_before x off d j : struct_ok x -> 0 <= off -> off + Z.of_nat (length d) <= memory_offset ts ->
  (Z.to_nat (memory_offset ts) <= j)%nat -> splice x.(regs) off d !! j = x.(regs) !! j.
Proof.
  intros [Hl _] Hoff Hend Hj. pose proof (memory_bounds ts Hts).
  rewrite lookup_splice by lia. repeat case_decide; done || lia.
Qed.

(** *** At power-on *)

Lemma new_registers bytes : Z.of_nat (length bytes) = struct_size ts ->
  struct_ok (new_impl ts bytes) /\
  (new_impl ts bytes).(regs) !! Z.to_nat (timer_done_offset ts) = Some 0 /\
  (new_impl ts bytes).(regs) !! Z.to_nat (irq_ack_offset ts) = Some 0.
Proof.
  intros Hb. unfold new_impl, struct_ok, cmd_start_timer_offset. cbn [regs].
  assert (Hlay : 0 < timer_offset ts /\ 0 < ts /\ timer_offset ts + ts <= timer_done_offset ts /\
    timer_done_offset ts < irq_ack_offset ts /\ irq_ack_offset ts + 1 <= struct_size ts)
    by (by destruct Hts as [-> | ->]; vm_compute).
  set (z := replicate (Z.to_nat ts) 0).
  assert (Hz : Z.of_nat (length z) = ts) by (unfold z; rewrite length_replicate; lia).
  set (r1 := splice bytes 0 [0]). assert (L1 : length r1 = length bytes) by (unfold r1; rewrite splice_length; cbn; lia).
  set (r2 := splice r1 _ z). assert (L2 : length r2 = length bytes) by (unfold r2; rewrite splice_length; lia).
  set (r3 := splice r2 _ [0]). assert (L3 : length r3 = length bytes) by (unfold r3; rewrite splice_length; cbn; lia).
  rewrite splice_length by (cbn; lia).
  split_and!; [lia|..]; rewrite lookup_splice by (cbn; lia); cbn [length].
  - rewrite decide_True by lia. unfold r3. rewrite lookup_splice, decide_True by (cbn; lia).
    unfold r2. rewrite lookup_splice, decide_True by lia. unfold r1.
    by rewrite lookup_splice by (cbn; lia).
  - rewrite decide_True by lia. unfold r3. rewrite lookup_splice, decide_False, decide_True by (cbn; lia).
    by rewrite Nat.sub_diag.
  - rewrite decide_False, decide_True by lia. by rewrite Nat.sub_diag.
Qed.

Lemma transfers_new b c : b.(memory_index) = 0 -> c.(memory_written_count) = 0 ->
  c.(irq_signal) = false -> transfers_ok b c [] [].
Proof.
  intros Hi Hc Hirq. split; rewrite ?Hi, ?Hc, ?Hirq; try done; try lia.
  by intros H%elem_of_nil.
Qed.

(** *** The method of peripheral 1 *)

Section Method.
Context {W : Type}.
Context (dma : impl * W -> payload -> tlm_phase -> sc_time ->
  res ((impl * W) * payload * tlm_phase * sc_time * tlm_sync_enum)).
Context (push : list request -> W -> W).
Context (Hdma : forall s p d, dma s p BEGIN_REQ d =
  Ok ((s.1, push [(1, p, d)] s.2), p, BEGIN_REQ, d, TLM_ACCEPTED)).
Context (push_nil : forall w, push [] w = w).
Context (push_app : forall r r' w, push r' (push r w) = push (r ++ r') w).

Lemma transfer_byte_accepted v x w : struct_ok x -> 0 <= x.(memory_index) < 100 ->
  exists y d, transfer_byte ts dma v (x, w) =
      Ok (y, push [(1, dma_payload x.(memory_index) (Z.lxor v 0xFF), d)] w) /\
    y.(regs) = splice x.(regs) (memory_offset ts + x.(memory_index)) [Z.lxor v 0xFF] /\
    y.(memory_index) = x.(memory_index) + 1 /\ y.(live_payloads) = x.(live_payloads) + 1 /\
    receives x y /\ 0 <= d <= clock_period.
Proof.
  intros [Hl _] Hi. unfold transfer_byte. cbn [fst snd].
  rewrite (copy_in_Ok ts MEMORY_TARGET_INDEX), bind_Ok; [|done|done|lia|cbn; unfold memory_size; lia].
  cbn [set_regs memory_index live_payloads]. cbv zeta. rewrite Hdma, bind_Ok.
  rewrite decide_False, decide_False by done. eexists _, _.
  split; [reflexivity|]. cbn. split_and!; try done; [apply wrap_small; lia|apply pace_range|apply pace_range].
Qed.

Lemma method_accepted vs : forall x w,
  struct_ok x -> 0 <= x.(memory_index) -> x.(memory_index) + Z.of_nat (length vs) <= 100 ->
  exists y rs, fifo_data_received_method ts dma vs (x, w) = Ok (y, push rs w) /\
    y.(regs) = splice x.(regs) (memory_offset ts + x.(memory_index)) (received vs) /\
    y.(memory_index) = x.(memory_index) + Z.of_nat (length vs) /\
    y.(live_payloads) = x.(live_payloads) + Z.of_nat (length vs) /\ receives x y /\
    rs.*1 = imap (fun k v => (1, dma_payload (x.(memory_index) + Z.of_nat k) (Z.lxor v 0xFF))) vs /\
    Forall (fun r => 0 <= r.2 <= clock_period) rs.
Proof.
  pose proof (memory_bounds ts Hts) as Hmo.
  induction vs as [|v vs IH]; intros x w Hx Hi Hn; cbn [fifo_data_received_method].
  - exists x, []. rewrite push_nil, splice_nil. split_and!; try done; cbn; lia.
  - cbn [length] in Hn.
    destruct (transfer_byte_accepted v x w Hx) as (y & d & -> & Hr & Hxi & Hxl & Hrec & Hd); [lia|].
    rewrite bind_Ok. destruct Hx as [Hl H0].
    edestruct (IH y) as (z & rs & -> & Hr' & Hx' & Hl' & Hrec' & Hrs & Hds).
    { split; rewrite Hr; [rewrite splice_length by (cbn; lia); done|].
      rewrite lookup_splice by (cbn; lia). repeat case_decide; done || lia. }
    { lia. } { lia. }
    exists z, ((1, dma_payload (memory_index x) (Z.lxor v 0xFF), d) :: rs).
    rewrite push_app. split; [done|]. cbn [length imap].
    assert (Hlv : length (received vs) = length vs) by apply length_fmap.
    split_and!; try lia.
    + rewrite Hr', Hr, Hxi. change (received (v :: vs)) with (Z.lxor v 0xFF :: received vs).
      rewrite Z.add_assoc. apply splice_cons; lia.
    + destruct Hrec as (?&?&?&?&?), Hrec' as (?&?&?&?&?). split_and!; congruence.
    + cbn. rewrite Z.add_0_r, Hrs, Hxi. f_equal. apply imap_ext. intros k u _. cbn. do 2 f_equal. lia.
    + by constructor.
Qed.

Lemma imap_requests vs c : 0 <= c -> vs = seqZ c (Z.of_nat (length vs)) ->
  imap (fun k v => (1, dma_payload (c + Z.of_nat k) (Z.lxor v 0xFF))) vs =
  (fun a => (1, dma_payload a (inverted a))) <$> seqZ c (Z.of_nat (length vs)).
Proof.
  intros Hc Hvs. rewrite <- Hvs. apply list_eq. intros k. rewrite list_lookup_imap, list_lookup_fmap.
  destruct (vs !! k) as [a|] eqn:Ha; [|done]. rewrite Hvs in Ha. by apply lookup_seqZ in Ha as [-> _].
Qed.

(** An activation on the next bytes of the stream. *)
Lemma transfers_receive b c fl reqs vs t w :
  transfers_ok b c fl reqs -> struct_ok b ->
  vs = seqZ b.(memory_index) (Z.of_nat (length vs)) -> b.(memory_index) + Z.of_nat (length vs) <= 100 ->
  exists b' rs, fifo_data_received_method ts dma vs (set_now t b, w) = Ok (b', push rs w) /\
    transfers_ok b' c fl (reqs ++ rs) /\ struct_ok b' /\ receives b b' /\
    b'.(memory_index) = b.(memory_index) + Z.of_nat (length vs) /\
    b'.(live_payloads) = b.(live_payloads) + Z.of_nat (length vs) /\
    forall j, (j < Z.to_nat (memory_offset ts))%nat -> b'.(regs) !! j = b.(regs) !! j.
Proof.
  intros [] Hb Hvs Hn. pose proof (memory_bounds ts Hts) as Hmo. destruct Hb as [Hl H0].
  destruct (method_accepted vs (set_now t b) w) as (y & rs & Hm & Hr & Hx & Hlive & Hrec & Hrs & Hds);
    [done|cbn; lia|cbn; lia|].
  cbn [set_now regs memory_index] in *. set (i := memory_index b) in *.
  rewrite (imap_requests vs i) in Hrs by (done || lia).
  assert (Hlv : length (received vs) = length vs) by (unfold received; apply length_fmap).
  assert (Hk : forall j, (j < Z.to_nat (memory_offset ts))%nat -> y.(regs) !! j = b.(regs) !! j).
  { intros j Hj. rewrite Hr, lookup_splice by lia. repeat case_decide; done || lia. }
  exists y, rs. split; [done|]. split_and!; [|split|exact Hrec|done|exact Hlive|exact Hk].
  2: { rewrite Hr, splice_length by lia. done. }
  2: { rewrite Hk by lia. done. }
  split; rewrite ?Hx; try done; try lia.
  - intros a Ha. rewrite Hr, lookup_splice by lia.
    destruct (decide (Z.of_nat (Z.to_nat (memory_offset ts + a)) < memory_offset ts + i)); [apply tr_copied0; lia|].
    rewrite decide_True by lia. unfold received. rewrite Hvs, list_lookup_fmap, lookup_seqZ_lt by lia.
    cbn. unfold inverted. do 2 f_equal. lia.
  - rewrite fmap_app, Hrs, tr_requested0, <- fmap_app. f_equal.
    replace i with (Z.of_nat (length fl) + (i - Z.of_nat (length fl))) at 2 by lia.
    rewrite <- seqZ_app by lia. f_equal. lia.
  - by apply Forall_app.
Qed.
End Method.

(** *** The transfers *)

(** A request is taken up. *)
Lemma transfers_serve b c fl i p d rest :
  transfers_ok b c fl ((i, p, d) :: rest) ->
  i = 1 /\ p = dma_payload (Z.of_nat (length fl)) (inverted (Z.of_nat (length fl))) /\
  0 <= d <= clock_period /\ Z.of_nat (length fl) < b.(memory_index) /\
  transfers_ok b c (fl ++ [Todo]) rest.
Proof.
  intros []. set (n := memory_index b) in *. cbn in tr_requested0.
  destruct (decide (0 < n - Z.of_nat (length fl))) as [Hpos|].
  2: { rewrite seqZ_nil in tr_requested0 by lia. done. }
  rewrite seqZ_cons in tr_requested0 by lia. cbn in tr_requested0.
  injection tr_requested0 as -> -> Hrest. apply Forall_cons in tr_delays0 as [Hd Hds]. cbn in Hd.
  split_and!; [done|done|apply Hd|apply Hd|lia|].
  assert (Hl : Z.of_nat (length (fl ++ [Todo])) = Z.of_nat (length fl) + 1) by (rewrite length_app; cbn; lia).
  split; rewrite ?stored_count_app, ?Hl; change (stored_count [Todo]) with 0; rewrite ?Z.add_0_r; fold n; try done.
  - lia.
  - rewrite Hrest. do 2 f_equal; lia.
  - intros j f Hj Hf. apply lookup_app_Some in Hj as [Hj|[_ Hj]]; [by eapply tr_stored0|].
    by apply list_lookup_singleton_Some in Hj as [_ <-].
  - intros H. destruct (tr_raise0 H) as [?|?]; [by left|right; apply elem_of_app; by left].
  - intros [H|H]%elem_of_app; [auto|]. by apply list_elem_of_singleton in H.
Qed.

(** The byte is stored, as the last one exactly if the interrupt is now due. *)
Lemma transfers_store b c fl reqs j f : transfers_ok b c fl reqs -> struct_ok c ->
  fl !! j = Some Todo -> f <> Todo -> (f = Raising <-> stored_count fl + 1 = 100) ->
  transfers_ok b (stored j fl c) (<[j := f]> fl) reqs.
Proof.
  intros [] [Hl H0] Hj Hf Hlast. pose proof (lookup_lt_Some _ _ _ Hj) as Hlt.
  pose proof (memory_bounds ts Hts) as Hmo.
  assert (Hcount : stored_count fl < Z.of_nat (length fl)).
  { pose proof (count_le fl). destruct (decide (stored_count fl = Z.of_nat (length fl))) as [He|]; [|lia].
    apply count_full in He. by eapply Forall_lookup_1 in He; [|exact Hj]. }
  split; rewrite ?length_insert, ?(count_insert fl j f) by done; cbn [stored set_count set_regs irq_signal
    memory_written_count regs]; try done.
  - intros k g Hk Hg. rewrite lookup_splice by (cbn; lia). cbn [length].
    destruct (decide (k = j)) as [->|Hne].
    + rewrite decide_False, decide_True by lia.
      by replace (Z.to_nat (memory_offset ts) + j - Z.to_nat (memory_offset ts + Z.of_nat j))%nat with 0%nat by lia.
    + rewrite list_lookup_insert_ne in Hk by done. repeat case_decide; try lia; eauto.
  - intros Hirq. specialize (tr_level0 Hirq). lia.
  - intros Hc. right. apply Hlast in Hc as ->. apply list_elem_of_lookup. exists j.
    by rewrite list_lookup_insert_eq.
  - intros [k Hk]%list_elem_of_lookup. destruct (decide (k = j)) as [->|Hne].
    + rewrite list_lookup_insert_eq in Hk by done. injection Hk as Hk. by apply Hlast.
    + rewrite list_lookup_insert_ne in Hk by done.
      assert (stored_count fl = 100) by (apply tr_raising0, list_elem_of_lookup; by exists k). lia.
Qed.

(** The interrupt is raised. *)
Lemma transfers_raise b c fl reqs j : transfers_ok b c fl reqs -> fl !! j = Some Raising ->
  transfers_ok b (set_irq true c) (<[j := Served]> fl) reqs.
Proof.
  intros [] Hj.
  assert (Hfull : stored_count fl = 100) by (apply tr_raising0, list_elem_of_lookup; by exists j).
  split; rewrite ?length_insert, ?(count_replace fl j Raising Served) by done;
    cbn [set_irq irq_signal memory_written_count regs]; try done.
  - intros k g Hk Hg. destruct (decide (k = j)) as [->|Hne].
    + by apply (tr_stored0 j Raising).
    + rewrite list_lookup_insert_ne in Hk by done. eauto.
  - by left.
Qed.

(** The requesting peripheral is answered. *)
Lemma transfers_release b c fl reqs j : transfers_ok b c fl reqs -> fl !! j = Some Served ->
  transfers_ok b c (<[j := Released]> fl) reqs.
Proof.
  intros [] Hj. split; rewrite ?length_insert, ?(count_replace fl j Served Released) by done; try done.
  - intros k g Hk Hg. destruct (decide (k = j)) as [->|Hne].
    + by apply (tr_stored0 j Served).
    + rewrite list_lookup_insert_ne in Hk by done. eauto.
  - intros Hc. destruct (tr_raise0 Hc) as [|[k Hk]%list_elem_of_lookup]; [by left|right].
    apply list_elem_of_lookup. exists k. rewrite list_lookup_insert_ne; [done|]. intros ->. congruence.
  - intros [k Hk]%list_elem_of_lookup. apply tr_raising0, list_elem_of_lookup. exists k.
    destruct (decide (k = j)) as [->|Hne].
    + rewrite list_lookup_insert_eq in Hk by (by eapply lookup_lt_Some). done.
    + by rewrite list_lookup_insert_ne in Hk by done.
Qed.

(** Storing keeps the registers before the memory. *)
Lemma stored_struct j fl c : struct_ok c -> (j < 100)%nat -> struct_ok (stored j fl c).
Proof.
  intros [Hl H0] Hj. pose proof (memory_bounds ts Hts). split; cbn [stored set_count set_regs regs].
  - by rewrite splice_length by (cbn; lia).
  - rewrite lookup_splice by (cbn; lia). by rewrite decide_True by lia.
Qed.

Lemma transfer_index b c fl reqs j f : transfers_ok b c fl reqs -> fl !! j = Some f -> (j < 100)%nat.
Proof. intros [] Hj%lookup_lt_Some. lia. Qed.

(** The write of a transfer, with the count that decides on the interrupt. *)
Lemma transfer_write_now b c fl reqs j : transfers_ok b c fl reqs -> struct_ok c -> fl !! j = Some Todo ->
  write_now ts MEMORY_TARGET_INDEX
    (answered (dma_payload (Z.of_nat j) (inverted (Z.of_nat j)))) c =
    Ok (stored j fl c, (1000, stored_count fl + 1 =? 100)).
Proof.
  intros [] [Hl H0] Hj. pose proof (lookup_lt_Some _ _ _ Hj). pose proof (count_le fl).
  pose proof (count_nonneg fl). pose proof (memory_bounds ts Hts).
  rewrite (write_now_stores ts MEMORY_TARGET_INDEX _ [inverted (Z.of_nat j)]); try done.
  - rewrite decide_True, tr_count0, wrap_small by (done || cbn; lia). done.
  - cbn. lia.
  - cbn. unfold memory_size. lia.
  - cbn [target_base]. change (slice _ _ _) with [inverted (Z.of_nat j)]. cbn [address answered dma_payload set_response_status set_dmi_allowed].
    rewrite lookup_splice by (cbn; lia). by rewrite decide_True by lia.
Qed.

(** Once the interrupt is raised the memory is complete, and nothing is on its
    way. *)
Lemma transfers_complete b c fl reqs : transfers_ok b c fl reqs -> struct_ok c -> c.(irq_signal) = true ->
  slice c.(regs) (memory_offset ts) 100 = inverted <$> seqZ 0 100 /\
  b.(memory_index) = 100 /\ length fl = 100%nat /\ reqs = [].
Proof.
  intros [] [Hl _] Hirq. specialize (tr_level0 Hirq). pose proof (count_le fl).
  pose proof (memory_bounds ts Hts). assert (Hlen : length fl = 100%nat) by lia.
  assert (Hfl : Forall (fun f => f <> Todo) fl) by (apply count_full; lia).
  split_and!; [|lia|done|].
  - apply list_eq. intros j. destruct (decide (j < 100)%nat).
    + rewrite lookup_slice, list_lookup_fmap, lookup_seqZ_lt by lia. cbn [fmap option_fmap option_map].
      destruct (lookup_lt_is_Some_2 fl j) as [f Hj]; [lia|].
      by rewrite (tr_stored0 j f Hj) by (by eapply Forall_lookup_1 in Hj; [|exact Hfl]).
    + rewrite !lookup_ge_None_2; [done| |]; [rewrite length_fmap, length_seqZ|rewrite slice_length]; lia.
  - rewrite seqZ_nil in tr_requested0 by lia. by apply fmap_nil_inv in tr_requested0.
Qed.

(** When everything has been stored, by transfers that have all ended, the
    interrupt is raised. *)
Lemma transfers_done b c fl reqs : transfers_ok b c fl reqs -> length fl = 100%nat ->
  Forall (fun f => f <> Todo /\ f <> Raising) fl -> c.(irq_signal) = true.
Proof.
  intros [] Hl Hall. destruct tr_raise0 as [Hr|[j Hr]%list_elem_of_lookup]; [|done|].
  - rewrite all_stored; [lia|]. eapply Forall_impl; [done|]. by intros f [].
  - by eapply Forall_lookup_1 in Hall as [_ []]; [|exact Hr].
Qed.
End Preservation.
