(* ===== verification/SharedMemory.v ===== *)
(** * The memory shared by two cores (examples/multi-core)

    One [Memory] is bound to the initiator sockets of both bridges through a
    multi-socket, so accesses of the cores arrive one after the other in any
    order; the socket index is ignored. *)

From S2P Require Import Prelude Tlm.
From stdpp Require Import base numbers list.
#[local] Open Scope Z_scope.

(** ** Definitions *)

Record Memory : Type := mk_Memory {
  memory : list Z;
  start_address : Z;
  mem_size : Z;
}.

(** The array is zero-initialised. *)
Definition new_Memory (start_addr size : Z) : Memory :=
  mk_Memory (replicate (Z.to_nat size) 0) start_addr size.

(** The memory of [top]. *)
Definition shared_mem : Memory := new_Memory 0x20000000 0x20000.

Definition set_memory m (s : Memory) : Memory := mk_Memory m s.(start_address) s.(mem_size).

(** The offset of a transaction that passes. *)
Definition check_bounds (s : Memory) (trans : payload) : option Z :=
  let addr := trans.(address) in
  let length := trans.(data_length) in
  if (addr <? s.(start_address)) || (u64 (s.(start_address) + s.(mem_size)) <? u64 (addr + length))
  then None
  else Some (u64 (addr - s.(start_address))).

(** The copy both transports make. *)
Definition transfer (s : Memory) (trans : payload) (mem_offset : Z) : res (Memory * payload) :=
  if is_read trans then
    bs ← load s.(memory) mem_offset trans.(data_length);
    trans ← data_write trans bs;
    Ok (s, trans)
  else if is_write trans then
    bs ← data_read trans trans.(data_length);
    m ← store s.(memory) mem_offset bs;
    Ok (set_memory m s, trans)
  else Ok (s, trans).

Definition b_transport (id : Z) : b_transport_t Memory := fun s trans delay =>
  match check_bounds s trans with
  | None => Ok (s, set_response_status TLM_ADDRESS_ERROR_RESPONSE trans, delay)
  | Some mem_offset =>
      '(s, trans) ← transfer s trans mem_offset;
      Ok (s, set_response_status TLM_OK_RESPONSE trans, t_add delay (sc_us 1))
  end.

Definition transport_dbg (id : Z) (s : Memory) (trans : payload) : res (Memory * payload * Z) :=
  match check_bounds s trans with
  | None => Ok (s, trans, 0)
  | Some mem_offset =>
      '(s, trans) ← transfer s trans mem_offset;
      Ok (s, trans, trans.(data_length))
  end.

(** *** The abstract memory: a map from addresses to bytes. *)

(** [m] at the addresses of the module. *)
Definition abstracts (s : Memory) (m : Z -> Z) : Prop :=
  forall i, 0 <= i < s.(mem_size) -> s.(memory) !! Z.to_nat i = Some (m (s.(start_address) + i)).

Record Memory_ok (s : Memory) : Prop := {
  ok_size : Z.of_nat (length s.(memory)) = s.(mem_size);
  ok_start : 0 <= s.(start_address);
  ok_end : s.(start_address) + s.(mem_size) < 2 ^ 64;
}.

(** [n] consecutive bytes of the map, and the map with [bs] written at [a]. *)
Definition map_read (m : Z -> Z) (a n : Z) : list Z := m <$> seqZ a n.
Definition map_write (m : Z -> Z) (a : Z) (bs : list Z) : Z -> Z := fun x =>
  if a <=? x then default (m x) (bs !! Z.to_nat (x - a)) else m x.

(** An access of either core to the map. *)
Definition spec_access (start size : Z) (m : Z -> Z) (p : payload) (d : list Z) :
  (Z -> Z) * payload :=
  if (start <=? p.(address)) && (p.(address) + p.(data_length) <=? start + size) then
    match p.(command) with
    | TLM_READ_COMMAND => (m, set_response_status TLM_OK_RESPONSE
        (set_data (Some (splice d 0 (map_read m p.(address) p.(data_length)))) p))
    | TLM_WRITE_COMMAND => (map_write m p.(address) (slice d 0 p.(data_length)),
        set_response_status TLM_OK_RESPONSE p)
    | TLM_IGNORE_COMMAND => (m, set_response_status TLM_OK_RESPONSE p)
    end
  else (m, set_response_status TLM_ADDRESS_ERROR_RESPONSE p).

(** Accesses of both cores in the order in which they arrive. *)
Fixpoint serve (accesses : list (Z * payload)) (s : Memory) : res (Memory * list payload) :=
  match accesses with
  | [] => Ok (s, [])
  | (id, p) :: rest =>
      '(s, p, _) ← b_transport id s p SC_ZERO_TIME;
      '(s, ps) ← serve rest s;
      Ok (s, p :: ps)
  end.

Fixpoint spec_serve (start size : Z) (accesses : list (payload * list Z)) (m : Z -> Z) :
  (Z -> Z) * list payload :=
  match accesses with
  | [] => (m, [])
  | (p, d) :: rest =>
      let '(m, p) := spec_access start size m p d in
      let '(m, ps) := spec_serve start size rest m in
      (m, p :: ps)
  end.

(** ** Lemmas *)

Lemma map_read_slice s m a n :
  Memory_ok s -> abstracts s m -> s.(start_address) <= a -> 0 <= n ->
  a + n <= s.(start_address) + s.(mem_size) ->
  slice s.(memory) (a - s.(start_address)) n = map_read m a n.
Proof.
  intros [Hsz Hst Hend] Habs Ha Hn He. apply list_eq. intros i. unfold map_read.
  rewrite list_lookup_fmap. destruct (decide (Z.of_nat i < n)).
  - rewrite lookup_slice, lookup_seqZ_lt by lia. cbn.
    replace (Z.to_nat (a - start_address s) + i)%nat
      with (Z.to_nat (a - start_address s + Z.of_nat i)) by lia.
    rewrite Habs by lia. do 2 f_equal. lia.
  - rewrite lookup_seqZ_ge by lia. apply lookup_ge_None_2. rewrite slice_length; lia.
Qed.

Lemma abstracts_write s m a bs :
  Memory_ok s -> abstracts s m -> s.(start_address) <= a ->
  a + Z.of_nat (length bs) <= s.(start_address) + s.(mem_size) ->
  abstracts (set_memory (splice s.(memory) (a - s.(start_address)) bs) s) (map_write m a bs).
Proof.
  intros [Hsz Hst Hend] Habs Ha He i Hi. cbn in *. rewrite lookup_splice by lia.
  unfold map_write. repeat case_decide.
  - destruct (Z.leb_spec a (start_address s + i)); [lia|]. by apply Habs.
  - destruct (Z.leb_spec a (start_address s + i)); [|lia].
    replace (Z.to_nat i - Z.to_nat (a - start_address s))%nat
      with (Z.to_nat (start_address s + i - a)) by lia.
    destruct (lookup_lt_is_Some_2 bs (Z.to_nat (start_address s + i - a))) as [b Hb]; [lia|].
    by rewrite Hb.
  - destruct (Z.leb_spec a (start_address s + i)); [|lia].
    rewrite (lookup_ge_None_2 bs) by lia. by apply Habs.
Qed.

(** One access of either core. *)
Lemma b_transport_refines id s m p d t :
  Memory_ok s -> abstracts s m -> payload_wf p -> has_buffer p d ->
  p.(address) + p.(data_length) < 2 ^ 64 ->
  let '(m', p') := spec_access s.(start_address) s.(mem_size) m p d in
  exists s' t', b_transport id s p t = Ok (s', p', t') /\ Memory_ok s' /\ abstracts s' m' /\
    s'.(start_address) = s.(start_address) /\ s'.(mem_size) = s.(mem_size).
Proof.
  intros Hok Habs [Ha Hl _] [Hd Hb] Hw. pose proof Hok as [Hsz Hst Hend].
  unfold spec_access, b_transport, check_bounds.
  rewrite !(wrap_small 64) by lia.
  destruct (Z.leb_spec (start_address s) (address p)), (Z.ltb_spec (address p) (start_address s));
    cbn [andb orb]; try lia; [|by do 2 eexists].
  destruct (Z.leb_spec (address p + data_length p) (start_address s + mem_size s)),
    (Z.ltb_spec (start_address s + mem_size s) (address p + data_length p));
    try lia; [|by do 2 eexists].
  rewrite ?(wrap_small 64 (address p - _)) by lia.
  unfold transfer. rewrite is_read_cmd, is_write_cmd. destruct (command p).
  - rewrite load_Ok, bind_Ok by lia. rewrite (map_read_slice s m) by (done || lia).
    assert (Hlen : length (map_read m (address p) (data_length p)) = Z.to_nat (data_length p))
      by (unfold map_read; by rewrite length_fmap, length_seqZ).
    rewrite (data_write_splice p d), !bind_Ok by (done || lia). by do 2 eexists.
  - rewrite (data_read_slice p d), bind_Ok by (done || lia).
    assert (Hlen : length (slice d 0 (data_length p)) = Z.to_nat (data_length p))
      by (rewrite slice_length; lia).
    rewrite store_Ok, !bind_Ok by lia. do 2 eexists. split; [done|]. split.
    + split; cbn; [rewrite splice_length; lia|done|done].
    + split; [|done]. apply abstracts_write; done || lia.
  - by do 2 eexists.
Qed.

(** ** Properties *)

(** C19: both cores see one memory: for any interleaving of their accesses (in
    range or not, of any command, below the end of the address space), the
    responses and the data returned are those of a single map from addresses
    to bytes updated in that order. *)
Theorem shared_memory_refines_map accesses s m :
  Memory_ok s -> abstracts s m ->
  Forall (fun '(_, p, d) => payload_wf p /\ has_buffer p d /\
            p.(address) + p.(data_length) < 2 ^ 64) accesses ->
  let spec := spec_serve s.(start_address) s.(mem_size)
                ((fun '(_, p, d) => (p, d)) <$> accesses) m in
  exists s', serve (accesses.*1) s = Ok (s', spec.2) /\ abstracts s' spec.1.
Proof.
  intros Hok Habs Hall. revert s m Hok Habs.
  induction Hall as [|[[id p] d] rest (Hp & Hd & Hw) _ IH]; intros s m Hok Habs; [by exists s|].
  pose proof (b_transport_refines id s m p d SC_ZERO_TIME Hok Habs Hp Hd Hw) as Hstep.
  cbn [fmap list_fmap serve spec_serve fst].
  destruct (spec_access _ _ m p d) as [m1 p1].
  destruct Hstep as (s1 & t1 & -> & Hok1 & Habs1 & Hst & Hsz). rewrite bind_Ok.
  destruct (IH s1 m1 Hok1 Habs1) as (s2 & Hs2 & Habs2). rewrite Hst, Hsz in Hs2, Habs2.
  change (serve (fst <$> rest) s1) with (serve (rest.*1) s1). rewrite Hs2, bind_Ok. cbv zeta.
  destruct (spec_serve _ _ _ m1). by exists s2.
Qed.

Definition example_access (c : tlm_command) (a : Z) (d : list Z) : payload :=
  mk_payload c a (Some d) (Z.of_nat (length d)) (Z.of_nat (length d)) None 0 false
    TLM_INCOMPLETE_RESPONSE.

Lemma shared_memory_refines_map_witness :
  let w := example_access TLM_WRITE_COMMAND 0x2000000c [1; 2; 3; 4] in
  let r := example_access TLM_READ_COMMAND 0x2000000e [9; 9] in
  let bad := example_access TLM_READ_COMMAND 0x2000000f [9; 9] in
  let spec := spec_serve 0x20000000 16 [(w, [1; 2; 3; 4]); (r, [9; 9]); (bad, [9; 9])] (fun _ => 0) in
  exists s', serve [(0, w); (1, r); (1, bad)] (new_Memory 0x20000000 16) = Ok (s', spec.2) /\
    abstracts s' spec.1.
Proof.
  cbv zeta.
  apply (shared_memory_refines_map
    [(0, example_access TLM_WRITE_COMMAND 0x2000000c [1; 2; 3; 4], [1; 2; 3; 4]);
     (1, example_access TLM_READ_COMMAND 0x2000000e [9; 9], [9; 9]);
     (1, example_access TLM_READ_COMMAND 0x2000000f [9; 9], [9; 9])]
    (new_Memory 0x20000000 16) (fun _ => 0)).
  - split; vm_compute; congruence.
  - intros i Hi. cbn in Hi. unfold new_Memory. cbn [memory].
    rewrite lookup_replicate_2 by lia. done.
  - repeat (apply List.Forall_cons; [split; [split; cbn; [lia|lia|intros ? [= <-]; solve_bytes]
      |split; [split; [reflexivity|cbn; lia]|cbn; lia]]|]). apply List.Forall_nil.
Defined.

(** The bounds check adds in 64 bits: an access whose end wraps around passes
    it and leaves the array. *)
Theorem check_bounds_wraps s p :
  Memory_ok s -> 0 < s.(mem_size) -> s.(start_address) + s.(mem_size) <= p.(address) < 2 ^ 64 ->
  0 <= p.(data_length) < 2 ^ 32 ->
  2 ^ 64 <= p.(address) + p.(data_length) -> 2 ^ 32 <= s.(start_address) + s.(mem_size) ->
  p.(command) = TLM_READ_COMMAND ->
  b_transport 0 s p SC_ZERO_TIME = Err Undefined_behaviour.
Proof.
  intros [Hsz Hst Hend] Hpos Ha Hl Hw Hlow Hc. unfold b_transport, check_bounds.
  assert (u64 (address p + data_length p) = address p + data_length p - 2 ^ 64) as ->.
  { unfold wrap. symmetry. apply (Z.mod_unique _ _ 1); lia. }
  rewrite (wrap_small 64 (_ + _)), (wrap_small 64 (_ - _)) by lia.
  destruct (Z.ltb_spec (address p) (start_address s)); [lia|].
  destruct (Z.ltb_spec (start_address s + mem_size s) (address p + data_length p - 2 ^ 64)); [lia|].
  cbn [orb]. unfold transfer. rewrite is_read_cmd, Hc. unfold load.
  destruct (in_block _ _ _) eqn:E; [|done]. apply in_block_iff in E. lia.
Qed.
