(* ===== verification/Interrupts.v ===== *)
(** * Periodic interrupts (examples/interrupts, examples-native/interrupts-native)

    Two modules raise their line periodically; a write from Renode, routed by
    the bus (or by the native bridge's [tlm_route]), lowers the line again. *)

From S2P Require Import Prelude Tlm Kernel.
From stdpp Require Import base numbers list.
#[local] Open Scope Z_scope.

(** ** Definitions *)

Record port_interrupter : Type := mk_interrupter {
  irq_out : bool;
  irq_interval_s : Z;
}.

Definition set_irq b (m : port_interrupter) : port_interrupter := mk_interrupter b m.(irq_interval_s).

Definition new_port_interrupter (irq_interval_s : Z) : port_interrupter :=
  mk_interrupter false irq_interval_s.

Definition event : Type := Empty_set.

(** One iteration of [interrupt_loop]. *)
Definition interrupt_body : proc event port_interrupter unit :=
  p_modify (set_irq true);;
  m ← p_get;
  p_wait (Wait_time (sc_sec m.(irq_interval_s))).

Definition interrupt_loop (n : nat) : proc event port_interrupter unit := p_repeat n interrupt_body.

Definition on_renode_request : b_transport_t port_interrupter := fun m payload delay_time =>
  if decide (payload.(command) = TLM_WRITE_COMMAND) then
    Ok (set_irq false m, set_response_status TLM_OK_RESPONSE payload, delay_time)
  else Ok (m, set_response_status TLM_GENERIC_ERROR_RESPONSE payload, delay_time).

(** *** The bus: [on_renode_request] of [bus], over any two targets. *)
Definition bus_on_renode_request {W} (socket0 socket1 : b_transport_t W) : b_transport_t W :=
  fun w payload delay_time =>
  if decide (payload.(command) = TLM_WRITE_COMMAND) then
    if payload.(address) =? 0 then
      '(w, payload, delay) ← socket0 w payload SC_ZERO_TIME;
      Ok (w, set_response_status TLM_OK_RESPONSE payload, delay)
    else if negb (Z.land payload.(address) 0x100000 =? 0) then
      '(w, payload, delay) ← socket1 w payload SC_ZERO_TIME;
      Ok (w, set_response_status TLM_OK_RESPONSE payload, delay)
    else Ok (w, set_response_status TLM_ADDRESS_ERROR_RESPONSE payload, delay_time)
  else Ok (w, set_response_status TLM_ADDRESS_ERROR_RESPONSE payload, delay_time).

(** [top]: both interrupters; pin [i] of the bridge shows the line of
    interrupter [i]. *)
Record top : Type := mk_top {
  m_port_interrupter0 : port_interrupter;
  m_port_interrupter1 : port_interrupter;
}.

Definition new_top : top := mk_top (new_port_interrupter 1) (new_port_interrupter 3).

Definition socket0 : b_transport_t top := fun s p t =>
  '(m, p, t) ← on_renode_request s.(m_port_interrupter0) p t;
  Ok (mk_top m s.(m_port_interrupter1), p, t).
Definition socket1 : b_transport_t top := fun s p t =>
  '(m, p, t) ← on_renode_request s.(m_port_interrupter1) p t;
  Ok (mk_top s.(m_port_interrupter0) m, p, t).

Definition top_b_transport : b_transport_t top := bus_on_renode_request socket0 socket1.

Definition gpio_ports_in (s : top) : list bool :=
  [s.(m_port_interrupter0).(irq_out); s.(m_port_interrupter1).(irq_out)].

(** *** The native variant *)
Module Native.

Definition new_port_interrupter (irq_interval : Z) : port_interrupter := mk_interrupter false irq_interval.

(** [create_hierarchy]; the constructor of [top] keeps both modules and binds
    their lines. *)
Definition create_hierarchy : top :=
  let interruptor_0 := new_port_interrupter 1 in
  let interruptor_1 := new_port_interrupter 3 in
  mk_top interruptor_0 interruptor_1.

(** Not supported for this design: nothing happens. *)
Definition reset (s : top) : top := s.
Definition gpio_port_write (number : Z) (value : bool) (s : top) : top := s.

(** The interval is a member that the loop does not use. *)
Definition interrupt_body : proc event port_interrupter unit :=
  p_modify (set_irq true);; p_wait (Wait_time (sc_sec 1)).

Definition interrupt_loop (n : nat) : proc event port_interrupter unit := p_repeat n interrupt_body.

Definition b_transport : b_transport_t port_interrupter := fun m payload time =>
  if decide (payload.(command) = TLM_WRITE_COMMAND) then Ok (set_irq false m, payload, time)
  else Ok (m, payload, time).

(** [tlm_route]: the interrupter an offset selects. *)
Definition tlm_route (offset : Z) : Z :=
  if offset =? 0x0 then 0 else if offset =? 0x100000 then 1 else 0.

(** The bridge routes an access by its offset. *)
Definition top_b_transport : b_transport_t top := fun s p t =>
  if tlm_route p.(address) =? 0 then
    '(m, p, t) ← b_transport s.(m_port_interrupter0) p t;
    Ok (mk_top m s.(m_port_interrupter1), p, t)
  else
    '(m, p, t) ← b_transport s.(m_port_interrupter1) p t;
    Ok (mk_top s.(m_port_interrupter0) m, p, t).

(** [gpio_changed] updates both pins of Renode. *)
Definition gpio_changed (s : top) : list (Z * bool) :=
  [(0, s.(m_port_interrupter0).(irq_out)); (1, s.(m_port_interrupter1).(irq_out))].
End Native.

(** The line a bus write addresses. *)
Definition acked (p : payload) : option Z :=
  match p.(command) with
  | TLM_WRITE_COMMAND =>
      if p.(address) =? 0 then Some 0 else if Z.testbit p.(address) 20 then Some 1 else None
  | _ => None
  end.

(** ** Lemmas *)

Lemma land_bit a k : 0 <= k -> (Z.land a (2 ^ k) =? 0) = negb (Z.testbit a k).
Proof.
  intros Hk. destruct (Z.testbit a k) eqn:Hb; cbn [negb].
  - apply Z.eqb_neq. intros H0. apply (f_equal (fun x => Z.testbit x k)) in H0.
    rewrite Z.land_spec, Hb, Z.pow2_bits_true, Z.bits_0 in H0 by lia. done.
  - apply Z.eqb_eq. apply Z.bits_inj'. intros n Hn. rewrite Z.land_spec, Z.bits_0.
    destruct (decide (n = k)) as [->|]; [by rewrite Hb|].
    rewrite Z.pow2_bits_false by lia. apply andb_false_r.
Qed.

(** ** Properties *)

(** An access from Renode lowers exactly the line it addresses: a write to
    address 0 lowers line 0, a write to an address with bit 20 set lowers line
    1, both with an OK response and no delay; every other access is an address
    error that changes neither line. *)
Theorem bus_write_lowers_line s p t :
  top_b_transport s p t = Ok
    match acked p with
    | Some n =>
        (mk_top (if n =? 0 then set_irq false s.(m_port_interrupter0) else s.(m_port_interrupter0))
                (if n =? 0 then s.(m_port_interrupter1) else set_irq false s.(m_port_interrupter1)),
         set_response_status TLM_OK_RESPONSE p, SC_ZERO_TIME)
    | None => (s, set_response_status TLM_ADDRESS_ERROR_RESPONSE p, t)
    end.
Proof.
  unfold top_b_transport, bus_on_renode_request, acked.
  case_decide as Hc; [rewrite Hc|by destruct (command p)].
  destruct (Z.eqb_spec (address p) 0).
  - unfold socket0, on_renode_request. rewrite decide_True by done. rewrite !bind_Ok. done.
  - change 0x100000 with (2 ^ 20). rewrite land_bit, negb_involutive by lia.
    destruct (Z.testbit (address p) 20); [|done].
    unfold socket1, on_renode_request. rewrite decide_True by done. rewrite !bind_Ok. done.
Qed.

(** An interrupter raises its line again once per interval, for ever, whatever
    lowers it in between. *)
Theorem interrupt_loop_periodic n m :
  wp (fun s s' => s'.(irq_interval_s) = s.(irq_interval_s))
     (fun w s => s.(irq_out) = true /\ w = Wait_time (sc_sec m.(irq_interval_s)))
     (interrupt_loop n m) (fun _ _ => True).
Proof.
  assert (Hk : wp (fun s s' => s'.(irq_interval_s) = s.(irq_interval_s))
     (fun w s => s.(irq_out) = true /\ w = Wait_time (sc_sec m.(irq_interval_s)))
     (interrupt_loop n m) (fun _ s => s.(irq_interval_s) = m.(irq_interval_s))).
  { apply (wp_repeat _ _ _ (fun s => s.(irq_interval_s) = m.(irq_interval_s))); [|done].
    intros s Hs. unfold interrupt_body. apply wp_bind. cbn [p_modify wp].
    apply wp_bind. cbn [p_get wp]. apply wp_wait; cbn; rewrite ?Hs; [done|].
    by intros s' ->. }
  eapply wp_mono; [|exact Hk]. done.
Qed.

(** The native loop waits one second whatever interval the module was built
    with. *)
Theorem native_interval_ignored m :
  exists k, Native.interrupt_body m = Wait (Wait_time (sc_sec 1)) (set_irq true m) k.
Proof. eexists. reflexivity. Qed.

(** The native transport leaves the response status as it was. *)
Theorem native_status_unset s p t s' p' t' :
  Native.top_b_transport s p t = Ok (s', p', t') -> p' = p /\ t' = t.
Proof.
  unfold Native.top_b_transport, Native.b_transport.
  destruct (_ =? 0); case_decide; rewrite bind_Ok; by intros [= _ <- <-].
Qed.
