(* ===== verification/DirectConnection.v ===== *)
(** * Direct connections (examples/direct-connection, examples/tlm-non-blocking,
    examples-native/tlm-non-blocking-native)

    A peripheral that keeps a 64-bit value; a bus read fetches the value of the
    peripheral at the other end of a direct connection, through the blocking or
    the non-blocking interface.  The native variant answers non-blocking
    requests itself, through a payload event queue.  What is at the other end
    of a socket, and the event queue, are arguments. *)

From S2P Require Import Prelude Tlm.
From stdpp Require Import base numbers list.
#[local] Open Scope Z_scope.

(** ** Definitions *)

(** The value has no initialiser. *)
Record peripheral : Type := mk_peripheral { value : Z }.

(** The payload of the peripheral's own transfers; every attribute is set. *)
Definition own_payload (c : tlm_command) (a data : Z) : payload :=
  mk_payload c a (Some (le_encode 8 data)) 8 8 None 0 false TLM_INCOMPLETE_RESPONSE.

(** The same in both examples: writes on the direct channel are ignored. *)
Definition receive_direct_connection_b_transport (s : peripheral) (trans : payload) : res payload :=
  if is_read trans then
    trans ← set_data_word 8 s.(value) trans;
    Ok (set_response_status TLM_OK_RESPONSE trans)
  else Ok trans.

Section Sockets.
Context {W : Type}.

(** [direct_connection_initiator_socket->b_transport]; the call may come back
    into this peripheral. *)
Context (direct_b_transport : b_transport_t (peripheral * W)).

Definition receive_bus_b_transport (s : peripheral * W) (trans : payload) :
  res ((peripheral * W) * payload) :=
  if is_write trans then
    v ← data_word 8 trans;
    Ok ((mk_peripheral v, s.2), set_response_status TLM_OK_RESPONSE trans)
  else
    '(s, payload, _) ← direct_b_transport s (own_payload TLM_READ_COMMAND 0 0) SC_ZERO_TIME;
    recv_value ← data_word 8 payload;
    trans ← set_data_word 8 recv_value trans;
    Ok (s, set_response_status TLM_OK_RESPONSE trans).

(** *** The non-blocking example *)
Context (direct_nb_transport_fw bus_nb_transport_fw : peripheral * W -> payload -> tlm_phase ->
  sc_time -> res ((peripheral * W) * payload * tlm_phase * sc_time * tlm_sync_enum)).

Definition nb_receive_bus_b_transport (s : peripheral * W) (trans : payload) :
  res ((peripheral * W) * payload) :=
  if is_write trans then
    if trans.(address) =? 0 then
      v ← data_word 8 trans;
      Ok ((mk_peripheral v, s.2), set_response_status TLM_OK_RESPONSE trans)
    else
      a ← data_word 8 trans;
      '(s, _, _, _, ret_val) ← bus_nb_transport_fw s
        (own_payload TLM_WRITE_COMMAND a s.1.(value)) BEGIN_REQ SC_ZERO_TIME;
      cassert (bool_decide (ret_val = TLM_COMPLETED));;
      Ok (s, trans)
  else
    '(s, payload, _, _, ret_val) ← direct_nb_transport_fw s
      (own_payload TLM_READ_COMMAND 0 0) BEGIN_REQ SC_ZERO_TIME;
    cassert (bool_decide (ret_val = TLM_COMPLETED));;
    recv_value ← data_word 8 payload;
    trans ← set_data_word 8 recv_value trans;
    Ok (s, set_response_status TLM_OK_RESPONSE trans).
End Sockets.

(** *** The native peripheral *)
Module Native.

(** [P] is the state of the payload event queue. *)
Record peripheral (P : Type) : Type := mk_native { m_peq : P; reg_value : Z }.
Arguments mk_native {P}.
Arguments m_peq {P}.
Arguments reg_value {P}.

(** [top::nb_transport_bw]: the phase and result it returns, and whether it
    marks the transfer as done. *)
Definition top_nb_transport_bw (phase : tlm_phase) : tlm_phase * tlm_sync_enum * bool :=
  match phase with
  | END_REQ => (END_REQ, TLM_ACCEPTED, false)
  | BEGIN_RESP => (END_RESP, TLM_UPDATED, true)
  | _ => (phase, TLM_COMPLETED, false)
  end.

Definition b_transport {P} (s : peripheral P) (payload : payload) : res (peripheral P * Tlm.payload) :=
  if is_write payload then
    v ← data_word 4 payload; Ok (mk_native s.(m_peq) v, payload)
  else if is_read payload then
    p ← set_data_word 4 s.(reg_value) payload; Ok (s, p)
  else Ok (s, payload).

Section Peq.
Context {P : Type} (peq_notify : P -> payload -> sc_time -> P).
Context (peq_get_next_transaction : P -> option (payload * P)).

Definition nb_transport_fw (s : peripheral P) (payload : payload) (phase : tlm_phase) (time : sc_time) :
  peripheral P * tlm_phase * tlm_sync_enum :=
  match phase with
  | BEGIN_REQ => (mk_native (peq_notify s.(m_peq) payload time) s.(reg_value), END_REQ, TLM_UPDATED)
  | END_RESP => (s, phase, TLM_COMPLETED)
  | _ => (s, phase, TLM_ACCEPTED)
  end.

(** The body of the inner loop of [peq_thread]: the transaction is answered and
    returned to its initiator in phase [BEGIN_RESP]. *)
Definition serve_transaction (s : peripheral P) (trans : payload) :
  res (peripheral P * (payload * (tlm_phase * tlm_sync_enum * bool))) :=
  cassert (trans.(data_length) =? 4);;
  '(s, trans) ←
    (if is_write trans then
       bs ← data_read trans 4; Ok (mk_native s.(m_peq) (le_decode bs), trans)
     else if is_read trans then
       trans ← data_write trans (le_encode 4 s.(reg_value)); Ok (s, trans)
     else Ok (s, trans));
  let trans := set_response_status TLM_OK_RESPONSE trans in
  Ok (s, (trans, top_nb_transport_bw BEGIN_RESP)).

(** [while (auto *trans = m_peq.get_next_transaction())], with at most [fuel]
    iterations; the answered transactions in order. *)
Fixpoint drain (fuel : nat) (s : peripheral P) : res (peripheral P * list payload) :=
  match fuel with
  | O => Err Out_of_fuel
  | S n =>
      match peq_get_next_transaction s.(m_peq) with
      | None => Ok (s, [])
      | Some (trans, q) =>
          '(s, (trans, _)) ← serve_transaction (mk_native q s.(reg_value)) trans;
          '(s, rest) ← drain n s;
          Ok (s, trans :: rest)
      end
  end.

(** What the queue promises: the transactions that are due come out in the
    order in which it holds them, and notifying with no delay appends. *)
Class Peq (due : P -> list payload) : Prop := {
  peq_empty : forall q, due q = [] -> peq_get_next_transaction q = None;
  peq_next : forall q p ps, due q = p :: ps ->
    exists q', peq_get_next_transaction q = Some (p, q') /\ due q' = ps;
  peq_appends : forall q p, due (peq_notify q p SC_ZERO_TIME) = due q ++ [p];
}.
End Peq.

(** A register served in order. *)
Fixpoint spec_register (v : Z) (ps : list (payload * list Z)) : Z * list payload :=
  match ps with
  | [] => (v, [])
  | (p, d) :: ps =>
      let '(v', p') := match p.(command) with
        | TLM_WRITE_COMMAND => (le_decode (take 4 d), p)
        | TLM_READ_COMMAND => (v, set_data (Some (splice d 0 (le_encode 4 v))) p)
        | TLM_IGNORE_COMMAND => (v, p) end in
      let '(v'', rest) := spec_register v' ps in
      (v'', set_response_status TLM_OK_RESPONSE p' :: rest)
  end.

(** Requests sent one after the other in phase [BEGIN_REQ]. *)
Fixpoint request_all {P} (peq_notify : P -> payload -> sc_time -> P) (s : peripheral P)
  (ps : list payload) : peripheral P :=
  match ps with
  | [] => s
  | p :: ps => request_all peq_notify (nb_transport_fw peq_notify s p BEGIN_REQ SC_ZERO_TIME).1.1 ps
  end.
End Native.

(** ** Lemmas *)

Lemma data_word_Ok n p d :
  p.(data) = Some d -> (n <= length d)%nat -> data_word n p = Ok (le_decode (take n d)).
Proof.
  intros Hd Hl. unfold data_word. rewrite (data_read_Ok p d), bind_Ok by (done || lia).
  by rewrite Nat2Z.id.
Qed.

Lemma set_data_word_Ok n v p d :
  p.(data) = Some d -> (n <= length d)%nat ->
  set_data_word n v p = Ok (set_data (Some (splice d 0 (le_encode n v))) p).
Proof.
  intros Hd Hl. unfold set_data_word. by rewrite (data_write_splice p d) by (rewrite ?le_encode_length; done).
Qed.

(** A direct connection that ends in the peripheral it starts from, as in the
    example's [top] with Renode passing the transaction on. *)
Definition loopback {W} : b_transport_t (peripheral * W) := fun s p t =>
  p ← receive_direct_connection_b_transport s.1 p; Ok (s, p, t).

Lemma loopback_read {W} (s : peripheral * W) t :
  loopback s (own_payload TLM_READ_COMMAND 0 0) t =
  Ok (s, set_response_status TLM_OK_RESPONSE (own_payload TLM_READ_COMMAND 0 s.1.(value)), t).
Proof.
  unfold loopback, receive_direct_connection_b_transport.
  change (is_read (own_payload TLM_READ_COMMAND 0 0)) with true. cbn iota.
  rewrite (set_data_word_Ok 8 _ _ (le_encode 8 0)) by done. rewrite !bind_Ok. done.
Qed.

(** ** Properties *)

(** Through the looped-back direct connection, a bus read returns the value
    of the last bus write: all eight bytes, with an OK response, for the
    blocking peripheral. *)
Theorem write_then_read_through_loopback {W} (s : peripheral * W) pw dw pr dr :
  is_write pw = true -> pw.(data) = Some dw -> is_bytes dw -> (8 <= length dw)%nat ->
  is_write pr = false -> pr.(data) = Some dr -> (8 <= length dr)%nat ->
  exists s' pw', receive_bus_b_transport loopback s pw = Ok (s', pw') /\
    pw'.(response_status) = TLM_OK_RESPONSE /\
    receive_bus_b_transport loopback s' pr =
      Ok (s', set_response_status TLM_OK_RESPONSE (set_data (Some (splice dr 0 (take 8 dw))) pr)).
Proof.
  intros Hw Hdw Hby Hlw Hr Hdr Hlr. unfold receive_bus_b_transport at 1. rewrite Hw.
  rewrite (data_word_Ok 8 pw dw), bind_Ok by done. do 2 eexists. split; [done|]. split; [done|].
  unfold receive_bus_b_transport. rewrite Hr, loopback_read, bind_Ok. cbn [fst value].
  assert (Hlt : length (take 8 dw) = 8%nat) by (rewrite length_take; lia).
  assert (Henc : le_encode 8 (le_decode (take 8 dw)) = take 8 dw).
  { rewrite <- Hlt at 1. apply le_encode_decode. by apply Forall_take. }
  rewrite (data_word_Ok 8 _ (take 8 dw)), bind_Ok by (cbn [data own_payload set_response_status];
    rewrite ?Henc, ?Hlt; done).
  rewrite (set_data_word_Ok 8 _ _ dr), bind_Ok by done. rewrite take_idemp.
  by rewrite Henc.
Qed.

Definition example_payload (c : tlm_command) (a : Z) (d : list Z) : payload :=
  mk_payload c a (Some d) (Z.of_nat (length d)) (Z.of_nat (length d)) None 0 false
    TLM_INCOMPLETE_RESPONSE.

Lemma write_then_read_through_loopback_witness :
  exists s' pw', receive_bus_b_transport loopback (mk_peripheral 0, tt)
      (example_payload TLM_WRITE_COMMAND 0 [1; 2; 3; 4; 5; 6; 7; 8]) = Ok (s', pw') /\
    pw'.(response_status) = TLM_OK_RESPONSE /\
    receive_bus_b_transport loopback s' (example_payload TLM_READ_COMMAND 0 [0; 0; 0; 0; 0; 0; 0; 0; 9]) =
      Ok (s', set_response_status TLM_OK_RESPONSE (set_data (Some (splice [0; 0; 0; 0; 0; 0; 0; 0; 9] 0
        (take 8 [1; 2; 3; 4; 5; 6; 7; 8])))
        (example_payload TLM_READ_COMMAND 0 [0; 0; 0; 0; 0; 0; 0; 0; 9]))).
Proof.
  apply write_then_read_through_loopback; try reflexivity; try (cbn; lia). solve_bytes.
Defined.

(** A bus write to another address of the non-blocking peripheral forwards the
    stored value to the bus address given as data, and leaves the response
    status of the write as it was. *)
Theorem nb_forwards_value {W} direct bus (s s' : peripheral * W) p d q ph t :
  is_write p = true -> p.(address) <> 0 -> p.(data) = Some d -> (8 <= length d)%nat ->
  bus s (own_payload TLM_WRITE_COMMAND (le_decode (take 8 d)) s.1.(value)) BEGIN_REQ SC_ZERO_TIME =
    Ok (s', q, ph, t, TLM_COMPLETED) ->
  nb_receive_bus_b_transport direct bus s p = Ok (s', p).
Proof.
  intros Hw Ha Hd Hl Hb. unfold nb_receive_bus_b_transport. rewrite Hw.
  destruct (Z.eqb_spec (address p) 0); [done|].
  rewrite (data_word_Ok 8 p d), bind_Ok by done. by rewrite Hb, bind_Ok.
Qed.

Section NativeLemmas.
Context {P : Type} (notify : P -> payload -> sc_time -> P) (next : P -> option (payload * P)).
Context (due : P -> list payload) `{HP : !Native.Peq notify next due}.

Lemma request_all_due s ps :
  due (Native.m_peq (Native.request_all notify s ps)) = due (Native.m_peq s) ++ ps /\
  Native.reg_value (Native.request_all notify s ps) = Native.reg_value s.
Proof.
  revert s; induction ps as [|p ps IH]; intros s; cbn [Native.request_all].
  - by rewrite app_nil_r.
  - destruct (IH ((Native.nb_transport_fw notify s p BEGIN_REQ SC_ZERO_TIME).1.1)) as [-> ->].
    cbn. rewrite (Native.peq_appends notify next). by rewrite <- app_assoc.
Qed.

Lemma drain_spec ps : forall s fuel,
  due (Native.m_peq s) = ps.*1 -> (length ps < fuel)%nat ->
  Forall (fun '(p, d) => p.(data) = Some d /\ (4 <= length d)%nat /\ p.(data_length) = 4) ps ->
  exists q, due q = [] /\ Native.drain next fuel s =
    let '(v, rs) := Native.spec_register (Native.reg_value s) ps in Ok (Native.mk_native q v, rs).
Proof.
  induction ps as [|[p d] ps IH]; intros s [|fuel] Hdue Hf Hall; cbn [length] in Hf; try lia;
    cbn [Native.drain].
  - rewrite (Native.peq_empty notify next _ Hdue). exists (Native.m_peq s). split; [done|]. by destruct s.
  - apply List.Forall_cons_iff in Hall as [(Hd & Hl & Hlen) Hall].
    destruct (Native.peq_next notify next _ p ps.*1 Hdue) as (q & -> & Hq).
    unfold Native.serve_transaction. rewrite Hlen. cbn [Z.eqb Pos.eqb cassert]. rewrite bind_Ok.
    rewrite is_write_cmd, is_read_cmd. cbn [Native.spec_register].
    destruct (command p).
    + rewrite (data_write_splice p d), !bind_Ok by (rewrite ?le_encode_length; done).
      destruct (IH (Native.mk_native q (Native.reg_value s)) fuel Hq ltac:(lia) Hall) as (q' & Hq' & ->).
      exists q'. split; [done|]. cbn [Native.reg_value].
      destruct (Native.spec_register _ ps) as [v rs]. by rewrite bind_Ok.
    + rewrite (data_read_Ok p d), !bind_Ok by (done || lia). change (Z.to_nat 4) with 4%nat.
      cbn [Native.m_peq].
      destruct (IH (Native.mk_native q (le_decode (take 4 d))) fuel Hq ltac:(lia) Hall) as (q' & Hq' & ->).
      exists q'. split; [done|]. cbn [Native.reg_value].
      destruct (Native.spec_register _ ps) as [v rs]. by rewrite bind_Ok.
    + rewrite !bind_Ok.
      destruct (IH (Native.mk_native q (Native.reg_value s)) fuel Hq ltac:(lia) Hall) as (q' & Hq' & ->).
      exists q'. split; [done|]. cbn [Native.reg_value].
      destruct (Native.spec_register _ ps) as [v rs]. by rewrite bind_Ok.
Qed.
End NativeLemmas.

(** C37: the native peripheral serves non-blocking requests in the order in which
    they begin: after any number of 4-byte requests, one activation of the
    thread answers all of them with OK, each read returning the value of the
    latest write before it, and leaves the queue empty. *)
Theorem native_serves_in_order {P} notify next (due : P -> list payload) s ps :
  Native.Peq notify next due -> due (Native.m_peq s) = [] ->
  Forall (fun '(p, d) => p.(data) = Some d /\ (4 <= length d)%nat /\ p.(data_length) = 4) ps ->
  exists q, due q = [] /\
    Native.drain next (S (length ps)) (Native.request_all notify s ps.*1) =
    let '(v, rs) := Native.spec_register (Native.reg_value s) ps in Ok (Native.mk_native q v, rs).
Proof.
  intros HP Hs Hall. destruct (request_all_due notify next due s ps.*1) as [Hdue Hreg].
  rewrite <- Hreg. eapply drain_spec; [done| |lia|done]. by rewrite Hdue, Hs.
Qed.

(** A queue that is a list. *)
Lemma list_peq : Native.Peq (fun q p (_ : sc_time) => q ++ [p])
  (fun q => match q with [] => None | p :: q => Some (p, q) end) (fun q => q).
Proof. split; [by intros q ->|intros q p ps ->; eauto|done]. Qed.

Lemma native_serves_in_order_witness :
  let ps := [(example_payload TLM_WRITE_COMMAND 0 [1; 0; 0; 0], [1; 0; 0; 0]);
             (example_payload TLM_READ_COMMAND 0 [0; 0; 0; 0], [0; 0; 0; 0])] in
  exists q : list payload, q = [] /\
    Native.drain (fun q => match q with [] => None | p :: q => Some (p, q) end) 3
      (Native.request_all (fun q p (_ : sc_time) => q ++ [p]) (Native.mk_native [] 5) ps.*1) =
    let '(v, rs) := Native.spec_register 5 ps in Ok (Native.mk_native q v, rs).
Proof.
  cbv zeta. apply (native_serves_in_order _ _ (fun q => q) (Native.mk_native [] 5)
    [(example_payload TLM_WRITE_COMMAND 0 [1; 0; 0; 0], [1; 0; 0; 0]);
     (example_payload TLM_READ_COMMAND 0 [0; 0; 0; 0], [0; 0; 0; 0])] list_peq); [reflexivity|].
  repeat (apply List.Forall_cons; [split; [reflexivity|split; [cbn; lia|reflexivity]]|]).
  apply List.Forall_nil.
Defined.
