(* ===== verification/DirectSystem.v ===== *)
(** * Two peripherals and a direct connection (examples/direct-connection,
    examples/tlm-non-blocking)

    Renode runs two SystemC processes, each the [top] of the example, and
    connects their direct-connection sockets to each other: a bus read of one
    peripheral returns the value of the other.  In tlm-non-blocking a bus write
    to an address other than 0 makes the peripheral write its value to Renode's
    memory.  Both systems refine one specification: two registers and a
    memory.

    What Renode's side of a socket does with a transaction is an interface for
    each kind of call, [CarriesReads] and [CompletesAtOnce].  A comment in the
    blocking example says of its call that it never returns, although the test
    of the example reads through it; so whether it does is left open. *)

From stdpp Require Import base numbers list.
From S2P Require Import Prelude Tlm SharedMemory DirectConnection.
#[local] Open Scope Z_scope.

(** ** Definitions *)

(** The two SystemC processes. *)
Inductive side : Type := Peripheral0 | Peripheral1.
#[export] Instance side_eq_dec : EqDecision side.
Proof. solve_decision. Defined.
Definition peer (i : side) : side := match i with Peripheral0 => Peripheral1 | Peripheral1 => Peripheral0 end.

(** The peripherals and the memory on Renode's bus. *)
Record platform : Type := mk_platform {
  top0 : peripheral;
  top1 : peripheral;
  sysbus : Z -> Z;
}.

Definition top_of (i : side) (s : platform) : peripheral :=
  match i with Peripheral0 => s.(top0) | Peripheral1 => s.(top1) end.
Definition set_top (i : side) (x : peripheral) (s : platform) : platform :=
  match i with
  | Peripheral0 => mk_platform x s.(top1) s.(sysbus)
  | Peripheral1 => mk_platform s.(top0) x s.(sysbus)
  end.
Definition set_sysbus (m : Z -> Z) (s : platform) : platform := mk_platform s.(top0) s.(top1) m.

(** A peripheral next to the platform it belongs to. *)
Definition enter (i : side) (s : platform) : peripheral * platform := (top_of i s, s).
Definition leave (i : side) (s : peripheral * platform) : platform := set_top i s.1 s.2.

(** [direct_connection_initiators[0]]: what Renode does with a transaction of
    the other peripheral. *)
Definition direct_connection_initiators (i : side) (s : platform) (p : payload) : res payload :=
  receive_direct_connection_b_transport (top_of i s) p.

Section Blocking.
(** [b_transport] of the bridge's [direct_connection_targets[0]]. *)
Context (direct_connection_targets : side -> b_transport_t (peripheral * platform)).

(** The [initiator_socket] of the bridge: an access of Renode. *)
Definition bus_access_blocking (i : side) (p : payload) (s : platform) : res (platform * payload) :=
  '(s, p) ← receive_bus_b_transport (direct_connection_targets i) (enter i s) p; Ok (leave i s, p).

(** What the README says of the direct connection, as far as a call returns: a
    read of one peripheral is a transaction with its peer. *)
Class CarriesReads : Prop := {
  direct_carries : forall i s a delay, let p := own_payload TLM_READ_COMMAND a 0 in
    direct_connection_targets i s p delay = Err No_return \/
    exists p' t, direct_connection_initiators (peer i) s.2 p = Ok p' /\
      direct_connection_targets i s p delay = Ok (s, p', t);
}.
End Blocking.

Section NonBlocking.
(** [nb_transport_fw] of the bridge's [direct_connection_targets[0]] and
    [target_socket]. *)
Context (direct_nb bus_nb : side -> peripheral * platform -> payload -> tlm_phase -> sc_time ->
  res ((peripheral * platform) * payload * tlm_phase * sc_time * tlm_sync_enum)).

Definition bus_access_non_blocking (i : side) (p : payload) (s : platform) : res (platform * payload) :=
  '(s, p) ← nb_receive_bus_b_transport (direct_nb i) (bus_nb i) (enter i s) p; Ok (leave i s, p).

(** What the example asserts of Renode: a non-blocking request is completed at
    once, a read on the direct connection by the peer, a write on the bus by
    the memory. *)
Class CompletesAtOnce : Prop := {
  direct_completes : forall i s p p' delay, is_read p = true ->
    direct_connection_initiators (peer i) s.2 p = Ok p' ->
    exists ph t, direct_nb i s p BEGIN_REQ delay = Ok (s, p', ph, t, TLM_COMPLETED);
  bus_completes : forall i s a v delay, exists q ph t,
    bus_nb i s (own_payload TLM_WRITE_COMMAND a v) BEGIN_REQ delay =
      Ok (s.1, set_sysbus (map_write s.2.(sysbus) a (le_encode 8 v)) s.2, q, ph, t, TLM_COMPLETED);
}.
End NonBlocking.

Section Run.
Context (bus_access : side -> payload -> platform -> res (platform * payload)).

(** Accesses of Renode to either peripheral, one after the other. *)
Fixpoint run (accesses : list (side * payload)) (s : platform) : res (platform * list payload) :=
  match accesses with
  | [] => Ok (s, [])
  | (i, p) :: accesses =>
      '(s, p) ← bus_access i p s;
      '(s, ps) ← run accesses s;
      Ok (s, p :: ps)
  end.
End Run.

(** *** The specification *)

Record contents : Type := mk_contents { register : side -> Z; mem : Z -> Z }.

Definition set_register (i : side) (v : Z) (c : contents) : contents :=
  mk_contents (fun j => if decide (j = i) then v else c.(register) j) c.(mem).

(** [d] is the buffer of the payload; [forwards] in the non-blocking example. *)
Definition spec_access (forwards : bool) (i : side) (p : payload) (d : list Z) (c : contents) :
  contents * payload :=
  if is_write p then
    if forwards && negb (p.(address) =? 0) then
      (mk_contents c.(register) (map_write c.(mem) (le_decode (take 8 d)) (le_encode 8 (c.(register) i))), p)
    else (set_register i (le_decode (take 8 d)) c, set_response_status TLM_OK_RESPONSE p)
  else
    (c, set_response_status TLM_OK_RESPONSE
          (set_data (Some (splice d 0 (le_encode 8 (c.(register) (peer i))))) p)).

Fixpoint spec_run (forwards : bool) (accesses : list (side * payload)) (c : contents) :
  contents * list payload :=
  match accesses with
  | [] => (c, [])
  | (i, p) :: accesses =>
      let '(c, p) := spec_access forwards i p (default [] p.(data)) c in
      let '(c, ps) := spec_run forwards accesses c in
      (c, p :: ps)
  end.

(** What the platform holds. *)
Definition implements (s : platform) (c : contents) : Prop :=
  (forall i, (top_of i s).(value) = c.(register) i /\ 0 <= c.(register) i < 2 ^ 64) /\
  forall a, s.(sysbus) a = c.(mem) a.

(** Renode's payloads have a buffer of at least eight bytes. *)
Definition full_buffer (a : side * payload) : Prop :=
  exists d, a.2.(data) = Some d /\ is_bytes d /\ (8 <= length d)%nat.

(** ** Lemmas *)

Lemma top_of_set i j x s : top_of j (set_top i x s) = if decide (j = i) then x else top_of j s.
Proof. by destruct i, j. Qed.

Lemma set_top_enter i s : leave i (enter i s) = s.
Proof. by destruct i, s. Qed.

Lemma le_decode_8 d : is_bytes d -> (8 <= length d)%nat -> 0 <= le_decode (take 8 d) < 2 ^ 64.
Proof.
  intros Hb Hl. pose proof (le_decode_range (take 8 d) (Forall_take _ _ _ Hb)) as H.
  by rewrite length_take, min_l in H by lia.
Qed.

(** A read on the direct connection fetches the register of the peer. *)
Lemma direct_read j s a0 : 0 <= (top_of j s).(value) < 2 ^ 64 ->
  exists p, direct_connection_initiators j s (own_payload TLM_READ_COMMAND a0 0) = Ok p /\
    data_word 8 p = Ok (top_of j s).(value).
Proof.
  intros Hv. unfold direct_connection_initiators, receive_direct_connection_b_transport.
  change (is_read (own_payload TLM_READ_COMMAND a0 0)) with true. cbn iota.
  destruct (set_data_word 8 (value (top_of j s)) (own_payload TLM_READ_COMMAND a0 0)) as [p|f] eqn:Hp.
  2: { rewrite (set_data_word_Ok 8 _ _ (le_encode 8 0)) in Hp by done. discriminate. }
  rewrite bind_Ok. eexists. split; [done|]. pose proof (data_word_set 8 _ _ p Hp) as H.
  unfold data_word, data_read in *. cbn [data set_response_status]. rewrite H. f_equal. by apply Z.mod_small.
Qed.

Lemma implements_write i v s c : implements s c -> 0 <= v < 2 ^ 64 ->
  implements (set_top i (mk_peripheral v) s) (set_register i v c).
Proof.
  intros [Hr Hm] Hv. split.
  - intros j. rewrite top_of_set. cbn. destruct (decide (j = i)); [by split|apply Hr].
  - intros a. cbn [mem set_register]. rewrite <- Hm. by destruct i.
Qed.

Lemma map_write_ext m m' a bs : (forall x, m x = m' x) -> forall x, map_write m a bs x = map_write m' a bs x.
Proof. intros Hm x. unfold map_write. by rewrite Hm. Qed.

(** Each access does what the specification says, or is a read that does not
    return. *)
Definition refines (bus_access : side -> payload -> platform -> res (platform * payload))
  (forwards hangs : bool) : Prop :=
  forall i p d s c, p.(data) = Some d -> is_bytes d -> (8 <= length d)%nat -> implements s c ->
  (exists s', bus_access i p s = Ok (s', (spec_access forwards i p d c).2) /\
     implements s' (spec_access forwards i p d c).1) \/
  (hangs = true /\ is_write p = false /\ bus_access i p s = Err No_return).

Lemma blocking_refines direct_b : CarriesReads direct_b -> refines (bus_access_blocking direct_b) false true.
Proof.
  intros HC i p d s c Hd Hb Hl Hi. unfold bus_access_blocking, receive_bus_b_transport, spec_access.
  cbn [andb]. destruct (is_write p) eqn:Hw.
  - left. rewrite (data_word_Ok 8 p d), !bind_Ok by done. eexists. split; [done|].
    apply implements_write; [done|]. by apply le_decode_8.
  - destruct (direct_carries direct_b i (enter i s) 0 SC_ZERO_TIME)
      as [Hn|(q & t & Hq & Hcall)].
    { right. by rewrite Hn. }
    left. destruct (proj1 Hi (peer i)) as [Hv Hrange]. rewrite <- Hv in Hrange.
    destruct (direct_read (peer i) s 0 Hrange) as (q' & Hq' & Hword).
    cbn [enter snd] in Hq. rewrite Hq' in Hq. injection Hq as ->. rewrite Hcall, !bind_Ok, Hword, bind_Ok.
    rewrite (set_data_word_Ok 8 _ p d), !bind_Ok by done. rewrite Hv. eexists. split; [done|].
    by rewrite set_top_enter.
Qed.

Lemma non_blocking_refines direct_nb bus_nb : CompletesAtOnce direct_nb bus_nb ->
  refines (bus_access_non_blocking direct_nb bus_nb) true false.
Proof.
  intros HC i p d s c Hd Hb Hl Hi. left. unfold bus_access_non_blocking, nb_receive_bus_b_transport, spec_access.
  cbn [andb]. destruct (is_write p) eqn:Hw; [destruct (Z.eqb_spec (address p) 0)|]; cbn [negb].
  - rewrite (data_word_Ok 8 p d), !bind_Ok by done. eexists. split; [done|].
    apply implements_write; [done|]. by apply le_decode_8.
  - rewrite (data_word_Ok 8 p d), bind_Ok by done.
    destruct (bus_completes _ _ i (enter i s) (le_decode (take 8 d)) (value (enter i s).1) SC_ZERO_TIME)
      as (q & ph & t & ->). rewrite bind_Ok, bool_decide_true by done. cbn [cassert]. rewrite !bind_Ok. eexists. split; [done|]. destruct Hi as [Hr Hm]. split.
    + intros j. destruct (Hr j) as [Hj ?]. split; [cbn [register fst]; rewrite <- Hj; by destruct i, j|done].
    + intros a. cbn [enter fst]. destruct (Hr i) as [<- _]. cbn [mem].
      transitivity (map_write (sysbus s) (le_decode (take 8 d)) (le_encode 8 (value (top_of i s))) a); [by destruct i|].
      by apply map_write_ext.
  - destruct (proj1 Hi (peer i)) as [Hv Hrange]. rewrite <- Hv in Hrange.
    destruct (direct_read (peer i) s 0 Hrange) as (q & Hq & Hword).
    destruct (direct_completes _ _ i (enter i s) (own_payload TLM_READ_COMMAND 0 0) q SC_ZERO_TIME
      eq_refl Hq) as (ph & t & ->).
    rewrite bind_Ok. rewrite bool_decide_true by done. cbn [cassert]. rewrite !bind_Ok, Hword, bind_Ok.
    rewrite (set_data_word_Ok 8 _ p d), !bind_Ok by done. rewrite Hv. eexists. split; [done|].
    by rewrite set_top_enter.
Qed.

(** A session is carried out as specified, up to a first read that does not
    return, if there is one. *)
Definition carried_out bus_access (forwards hangs : bool) accesses s c : Prop :=
  (exists s', run bus_access accesses s = Ok (s', (spec_run forwards accesses c).2) /\
     implements s' (spec_run forwards accesses c).1) \/
  (hangs = true /\ exists before i p after s', accesses = before ++ (i, p) :: after /\
     run bus_access before s = Ok (s', (spec_run forwards before c).2) /\
     implements s' (spec_run forwards before c).1 /\
     is_write p = false /\ bus_access i p s' = Err No_return /\
     run bus_access accesses s = Err No_return).

Lemma run_refines bus_access forwards hangs : refines bus_access forwards hangs ->
  forall accesses s c, Forall full_buffer accesses -> implements s c ->
  carried_out bus_access forwards hangs accesses s c.
Proof.
  intros Href. induction accesses as [|[i p] accesses IH]; intros s c Hf Hi.
  - left. by exists s.
  - apply Forall_cons in Hf as [(d & Hd & Hb & Hl) Hf]. cbn [snd] in Hd.
    destruct (Href i p d s c Hd Hb Hl Hi) as [(s1 & H1 & Hi1)|(Hh & Hw & Hn)].
    2: { right. split; [done|]. exists [], i, p, accesses, s. split_and!; try done. cbn [run]. by rewrite Hn. }
    unfold carried_out. cbn [run spec_run]. rewrite Hd. change (default [] (Some d)) with d.
    destruct (spec_access forwards i p d c) as [c1 p1] eqn:Hspec. cbn [fst snd] in *. rewrite H1, bind_Ok.
    destruct (IH s1 c1 Hf Hi1) as [(s2 & H2 & Hi2)|(Hh & before & j & q & after & s2 & -> & H2 & Hi2 & Hw & Hn & Hr)].
    + left. rewrite H2, bind_Ok. exists s2. clear H2. by destruct (spec_run forwards accesses c1) as [c2 ps].
    + right. split; [done|]. exists ((i, p) :: before), j, q, after, s2. rewrite Hr.
      cbn [run spec_run]. rewrite Hd. change (default [] (Some d)) with d. rewrite H1, Hspec, bind_Ok, H2, bind_Ok.
      clear H2 Hr. by destruct (spec_run forwards before c1) as [c2 ps].
Qed.

(** ** Properties *)

(** C12: whatever accesses Renode makes to the two connected peripherals, with
    buffers of at least eight bytes and in whatever order, both examples behave
    like two registers of 64 bits: a write of the bus sets a peripheral's own
    register, a read returns the register of the other one, and in the
    non-blocking example a write to an address other than 0 puts the register
    into Renode's memory, at the address written.  No access fails.  In the
    blocking example a read may not return, and then everything before it has
    been carried out; a write returns always. *)
Theorem direct_connection_refines direct_b direct_nb bus_nb accesses s c :
  CarriesReads direct_b -> CompletesAtOnce direct_nb bus_nb ->
  Forall full_buffer accesses -> implements s c ->
  ((exists s', run (bus_access_blocking direct_b) accesses s = Ok (s', (spec_run false accesses c).2) /\
      implements s' (spec_run false accesses c).1) \/
   (exists before i p after s', accesses = before ++ (i, p) :: after /\
      run (bus_access_blocking direct_b) before s = Ok (s', (spec_run false before c).2) /\
      implements s' (spec_run false before c).1 /\
      is_write p = false /\ bus_access_blocking direct_b i p s' = Err No_return /\
      run (bus_access_blocking direct_b) accesses s = Err No_return)) /\
  (exists s', run (bus_access_non_blocking direct_nb bus_nb) accesses s =
       Ok (s', (spec_run true accesses c).2) /\
     implements s' (spec_run true accesses c).1).
Proof.
  intros HB HC Hf Hi. split.
  - destruct (run_refines _ _ _ (blocking_refines _ HB) accesses s c Hf Hi) as [H|[_ H]]; auto.
  - by destruct (run_refines _ _ _ (non_blocking_refines _ _ HC) accesses s c Hf Hi) as [H|[? _]].
Qed.

(** The peripherals use eight bytes of the buffer whatever the length of the
    access: a shorter write, as of the double words of the test, leaves it. *)
Theorem short_write_overruns direct_b i p d s :
  is_write p = true -> p.(data) = Some d -> (length d < 8)%nat ->
  bus_access_blocking direct_b i p s = Err Undefined_behaviour.
Proof.
  intros Hw Hd Hl. unfold bus_access_blocking, receive_bus_b_transport. rewrite Hw.
  unfold data_word, data_read. rewrite Hd. unfold load, in_block.
  destruct (Z.leb_spec (0 + Z.of_nat 8) (Z.of_nat (length d))); [lia|]. by rewrite andb_false_r.
Qed.

(** A double word of the test. *)
Lemma short_write_overruns_witness :
  let p := mk_payload TLM_WRITE_COMMAND 0 (Some (le_encode 4 42)) 4 4 None 0 false TLM_INCOMPLETE_RESPONSE in
  forall direct_b s, bus_access_blocking direct_b Peripheral0 p s = Err Undefined_behaviour.
Proof. intros p direct_b s. apply (short_write_overruns _ _ p (le_encode 4 42)); [done|done|cbn; lia]. Defined.

(** *** A bridge that calls the peer, or the memory, and completes; and one
    whose blocking call never returns *)

Definition direct_through (i : side) : b_transport_t (peripheral * platform) := fun s p delay =>
  p ← direct_connection_initiators (peer i) s.2 p; Ok (s, p, delay).

Definition direct_never (i : side) : b_transport_t (peripheral * platform) := fun _ _ _ => Err No_return.

#[export] Instance through_carries : CarriesReads direct_through.
Proof.
  split. intros i s a delay p. right. unfold direct_through, direct_connection_initiators,
    receive_direct_connection_b_transport. change (is_read p) with true. cbn iota.
  rewrite (set_data_word_Ok 8 _ p (le_encode 8 0)), !bind_Ok by done. by do 2 eexists.
Qed.

#[export] Instance never_carries : CarriesReads direct_never.
Proof. split. intros. by left. Qed.

Definition direct_now (i : side) (s : peripheral * platform) (p : payload) (phase : tlm_phase)
  (delay : sc_time) : res ((peripheral * platform) * payload * tlm_phase * sc_time * tlm_sync_enum) :=
  p ← direct_connection_initiators (peer i) s.2 p; Ok (s, p, phase, delay, TLM_COMPLETED).

Definition bus_now (i : side) (s : peripheral * platform) (p : payload) (phase : tlm_phase)
  (delay : sc_time) : res ((peripheral * platform) * payload * tlm_phase * sc_time * tlm_sync_enum) :=
  Ok ((s.1, set_sysbus (map_write s.2.(sysbus) p.(address) (default [] p.(data))) s.2), p, phase, delay,
      TLM_COMPLETED).

#[export] Instance now_completes : CompletesAtOnce direct_now bus_now.
Proof.
  split.
  - intros i s p p' delay _ Hp. unfold direct_now. rewrite Hp, bind_Ok. by do 2 eexists.
  - intros i s a v delay. by do 3 eexists.
Qed.

(** The sequence of the test: both registers are set, and each peripheral
    returns the other's value. *)
Definition robot_accesses : list (side * payload) :=
  [(Peripheral0, own_payload TLM_WRITE_COMMAND 0 42); (Peripheral1, own_payload TLM_WRITE_COMMAND 0 43);
   (Peripheral0, own_payload TLM_WRITE_COMMAND 0x10 0x20000000);
   (Peripheral0, own_payload TLM_READ_COMMAND 0 0); (Peripheral1, own_payload TLM_READ_COMMAND 0 0)].

Definition robot_start : platform := mk_platform (mk_peripheral 1) (mk_peripheral 2) (fun _ => 0).
Definition robot_contents : contents :=
  mk_contents (fun i => match i with Peripheral0 => 1 | Peripheral1 => 2 end) (fun _ => 0).

(** With a bridge that returns the session of the test is carried out; with one
    that does not it stops at its first read. *)
Lemma direct_connection_refines_witness :
  (exists s', run (bus_access_blocking direct_through) robot_accesses robot_start =
       Ok (s', (spec_run false robot_accesses robot_contents).2) /\
     implements s' (spec_run false robot_accesses robot_contents).1) /\
  (exists s', run (bus_access_non_blocking direct_now bus_now) robot_accesses robot_start =
       Ok (s', (spec_run true robot_accesses robot_contents).2) /\
     implements s' (spec_run true robot_accesses robot_contents).1) /\
  (spec_run true robot_accesses robot_contents).1.(mem) 0x20000000 = 42 /\
  run (bus_access_blocking direct_never) robot_accesses robot_start = Err No_return.
Proof.
  assert (Hf : Forall full_buffer robot_accesses).
  { unfold robot_accesses. repeat (apply List.Forall_cons; [eexists; split; [reflexivity|split; [apply le_encode_bytes|cbn; lia]]|]).
    apply List.Forall_nil. }
  assert (Hi : implements robot_start robot_contents) by (split; [intros []; cbn; lia|done]).
  destruct (direct_connection_refines direct_through direct_now bus_now robot_accesses robot_start robot_contents
    through_carries now_completes Hf Hi) as [[Hb|(? & ? & ? & ? & ? & _ & _ & _ & _ & _ & Hb)] Hn];
    [|by vm_compute in Hb].
  destruct (direct_connection_refines direct_never direct_now bus_now robot_accesses robot_start robot_contents
    never_carries now_completes Hf Hi) as [[(? & Hb' & _)|(? & ? & ? & ? & ? & _ & _ & _ & _ & _ & Hb')] _];
    [by vm_compute in Hb'|].
  split; [exact Hb|]. split; [exact Hn|]. split; [reflexivity|exact Hb'].
Defined.
