(* ===== verification/SimpleTargets.v ===== *)
(** * Small modules

    The GPIO peripherals (examples/gpio-connection and its native variant), the
    timekeepers (examples/timesync, examples/transaction-delay and the native
    variant), the writer of tests/test-synchronization, the target of
    benchmarks/systemc-integration and the FIFO adapter of
    examples/multiple-peripherals.  One Module each. *)

From S2P Require Import Prelude Tlm Kernel.
From stdpp Require Import base numbers list.
#[local] Open Scope Z_scope.

(** ** Definitions *)

(** *** examples/gpio-connection: the flag latches the first change of the pin. *)
Module Gpio.
Record gpio_peripheral : Type := mk_gpio { gpio_received : bool }.
Definition new_gpio_peripheral : gpio_peripheral := mk_gpio false.
Definition on_gpio_in (s : gpio_peripheral) : gpio_peripheral := mk_gpio true.
Definition receive_b_transport : b_transport_t gpio_peripheral := fun s trans delay =>
  cassert (is_read trans);;
  trans ← set_data_word 4 (if s.(gpio_received) then 1 else 0) trans;
  Ok (s, set_response_status TLM_OK_RESPONSE trans, delay).
End Gpio.

(** *** examples-native/gpio-connection-native: the current level of the pin. *)
Module GpioNative.
Definition b_transport (gpio_in : bool) (p : payload) : res payload :=
  if negb (is_read p) then Ok p else data_write p [Z.b2z gpio_in].

(** The top: Renode's pins all drive the one signal the module is bound to, and
    [tlm_route] sends every access to the module. *)
Record top : Type := mk_top { gpio_port : bool }.
Definition new_top : top := mk_top false.
Definition gpio_port_write (number : Z) (value : bool) (s : top) : top := mk_top value.
Definition tlm_route (offset : Z) : payload -> top -> res payload :=
  fun p s => b_transport s.(gpio_port) p.
End GpioNative.

(** *** The timekeepers *)
Module Timekeeper.
Section Time.
(** The integer part of [sc_time::to_seconds()]. *)
Context (to_seconds : sc_time -> Z).

(** A conversion of a [double] to an unsigned integer of [w] bits. *)
Definition double_to_uint (w x : Z) : res Z :=
  if (0 <=? x) && (x <? 2 ^ w) then Ok x else Err Undefined_behaviour.

(** examples/timesync *)
Definition custom_b_transport (now : sc_time) (p : payload) (delay_time : sc_time) :
  res (payload * sc_time) :=
  if is_read p then
    cassert (p.(data_length) =? 4);;
    v ← double_to_uint 32 (to_seconds now);
    p ← set_data_word 4 v (set_response_status TLM_OK_RESPONSE p);
    Ok (p, delay_time)
  else Ok (set_response_status TLM_GENERIC_ERROR_RESPONSE p, delay_time).

(** examples/transaction-delay: each read also takes a second. *)
Definition delayed_b_transport (now : sc_time) (p : payload) (delay_time : sc_time) :
  res (payload * sc_time) :=
  if is_read p then
    v ← double_to_uint 64 (to_seconds now);
    p ← set_data_word 8 v (set_response_status TLM_OK_RESPONSE p);
    Ok (p, sc_sec 1)
  else Ok (set_response_status TLM_GENERIC_ERROR_RESPONSE p, delay_time).

(** examples-native/timesync-native *)
Definition native_b_transport (now : sc_time) (p : payload) : res payload :=
  if negb (is_read p) then Ok p
  else
    cassert (p.(data_length) =? 4);;
    v ← double_to_uint 32 (to_seconds now);
    set_data_word 4 v p.
End Time.
End Timekeeper.

(** *** tests/test-synchronization: one write per second. *)
Module Writer.
Definition event : Type := Empty_set.
Definition reset_payload : payload :=
  mk_payload TLM_IGNORE_COMMAND 0 None 1 1 None 0 false TLM_INCOMPLETE_RESPONSE.
Section Writer.
Context {W : Type} (bus_b_transport : payload -> sc_time -> proc event W (payload * sc_time)).
Definition write_body (write_address : Z) : proc event W unit :=
  p_wait (Wait_time (sc_sec 1));;
  '(payload, _) ← bus_b_transport (set_data (Some [0xab]) (set_address write_address
    (set_command TLM_WRITE_COMMAND reset_payload))) SC_ZERO_TIME;
  p_lift (cassert (bool_decide (payload.(response_status) = TLM_OK_RESPONSE))).
Definition write_loop (write_address : Z) (n : nat) : proc event W unit :=
  p_repeat n (write_body write_address).
End Writer.
End Writer.

(** *** benchmarks/systemc-integration *)
Module TrivialTarget.
Definition Size : Z := 0x4000.
Definition CompletionOffset : Z := Size - 4.
Record trivial_target : Type := mk_trivial { workload_failed : bool; stopped : bool (* sc_stop() *) }.
Definition new_trivial_target : trivial_target := mk_trivial false false.
Definition b_transport (s : trivial_target) (p : payload) : res (trivial_target * payload) :=
  let p := set_dmi_allowed false p in
  if negb (p.(data_length) =? 4) || (Size <=? p.(address)) then
    Ok (s, set_response_status TLM_ADDRESS_ERROR_RESPONSE p)
  else if is_read p then
    p ← data_write p (le_encode 4 0);
    Ok (s, set_response_status TLM_OK_RESPONSE p)
  else if is_write p then
    if p.(address) =? CompletionOffset then
      bs ← data_read p 4;
      Ok (mk_trivial (negb (le_decode bs =? 0)) true, set_response_status TLM_OK_RESPONSE p)
    else Ok (s, set_response_status TLM_OK_RESPONSE p)
  else Ok (s, set_response_status TLM_COMMAND_ERROR_RESPONSE p).
(** The exit status of [sc_main] once the simulation has run. *)
Definition exit_status (s : trivial_target) : Z := if s.(workload_failed) then 1 else 0.
End TrivialTarget.

(** *** The FIFO adapter of examples/multiple-peripherals *)
Module FifoAdapter.
Section Adapter.
Context {W : Type} (fifo_b_transport : b_transport_t W) (fifo_write : W -> Z -> res W).

Definition byte_payload (data : Z) : payload :=
  mk_payload TLM_WRITE_COMMAND 0 (Some [data]) 1 1 None 0 false TLM_INCOMPLETE_RESPONSE.

(** [while (fifo_in.nb_read(data))]: the bytes that can be read. *)
Fixpoint forward_fifo (available : list Z) (w : W) : res W :=
  match available with
  | [] => Ok w
  | data :: available =>
      '(w, _, _) ← fifo_b_transport w (byte_payload data) SC_ZERO_TIME;
      forward_fifo available w
  end.

Definition on_fifo_in : b_transport_t W := fun w payload delay_time =>
  value ← data_word 1 payload;
  w ← fifo_write w value;
  Ok (w, set_response_status TLM_OK_RESPONSE payload, delay_time).
End Adapter.
End FifoAdapter.

(** ** Lemmas *)

Lemma data_write_length p bs d :
  p.(data) = Some d -> (length bs <= length d)%nat ->
  exists d', data_write p bs = Ok (set_data (Some d') p) /\ length d' = length d.
Proof.
  intros Hd Hl. rewrite (data_write_splice p d) by done. eexists. split; [done|].
  rewrite splice_length; lia.
Qed.

(** Through an adapter at each end of a direct connection, a FIFO is a FIFO:
    the bytes come out in the order in which they went in. *)
Theorem adapters_preserve_stream vs (w : list Z) :
  is_bytes vs ->
  FifoAdapter.forward_fifo (FifoAdapter.on_fifo_in (fun w v => Ok (w ++ [v]))) vs w = Ok (w ++ vs).
Proof.
  intros Hvs. revert w. induction Hvs as [|v vs Hv _ IH]; intros w; cbn [FifoAdapter.forward_fifo].
  - by rewrite app_nil_r.
  - assert (Hv1 : FifoAdapter.on_fifo_in (fun w v => Ok (w ++ [v])) w (FifoAdapter.byte_payload v)
      SC_ZERO_TIME = Ok (w ++ [v], set_response_status TLM_OK_RESPONSE (FifoAdapter.byte_payload v),
      SC_ZERO_TIME)).
    { unfold FifoAdapter.on_fifo_in, data_word.
      rewrite (data_read_Ok _ [v]) by (done || cbn; lia). rewrite !bind_Ok.
      change (le_decode (take (Z.to_nat (Z.of_nat 1)) [v])) with (v + 0). by rewrite Z.add_0_r. }
    rewrite Hv1, bind_Ok, IH, <- app_assoc. done.
Qed.

(** Once the pin has changed, reads return 1 for ever. *)
Theorem gpio_latches s p d t :
  p.(command) = TLM_READ_COMMAND -> p.(data) = Some d -> (4 <= length d)%nat ->
  Gpio.receive_b_transport (Gpio.on_gpio_in s) p t =
    Ok (Gpio.mk_gpio true, set_response_status TLM_OK_RESPONSE
      (set_data (Some (splice d 0 [1; 0; 0; 0])) p), t).
Proof.
  intros Hc Hd Hl. unfold Gpio.receive_b_transport. rewrite is_read_cmd, Hc. cbn [cassert].
  rewrite bind_Ok. unfold set_data_word. cbn [Gpio.on_gpio_in Gpio.gpio_received].
  rewrite (data_write_splice p d), bind_Ok by done. done.
Qed.

(** What an access does to the benchmark's target. *)
Lemma trivial_target_access s p d :
  p.(data) = Some d -> (4 <= length d)%nat -> payload_wf p ->
  exists s' p', TrivialTarget.b_transport s p = Ok (s', p') /\
    s' = if is_write p && (p.(data_length) =? 4) && (p.(address) =? 0x3ffc)
         then TrivialTarget.mk_trivial (negb (le_decode (take 4 d) =? 0)) true else s.
Proof.
  intros Hd Hl [Ha _ _]. unfold TrivialTarget.b_transport. cbv zeta.
  set (q := set_dmi_allowed false p). rewrite (is_read_cmd q), (is_write_cmd q), (is_write_cmd p).
  change (command q) with (command p). change (data_length q) with (data_length p).
  change (address q) with (address p). change TrivialTarget.CompletionOffset with 0x3ffc.
  unfold TrivialTarget.Size. destruct (Z.eqb_spec (data_length p) 4); cbn [negb orb andb].
  2: { do 2 eexists. split; [done|]. by rewrite andb_false_r. }
  destruct (Z.leb_spec 0x4000 (address p)).
  { do 2 eexists. split; [done|]. destruct (Z.eqb_spec (address p) 0x3ffc); [lia|].
    by rewrite andb_false_r. }
  destruct (command p); cbn [andb].
  - destruct (data_write_length q (le_encode 4 0) d Hd) as (d' & -> & _); [done|].
    rewrite bind_Ok. by do 2 eexists.
  - destruct (address p =? 0x3ffc); [|by do 2 eexists].
    rewrite (data_read_Ok q d), bind_Ok by (done || lia). by do 2 eexists.
  - by do 2 eexists.
Qed.

(** The benchmark ends with the first write of a word to the completion
    register, and fails exactly when that word is not zero; no other access
    changes its outcome. *)
Theorem trivial_target_completion s p d :
  p.(data) = Some d -> (4 <= length d)%nat -> payload_wf p ->
  exists s' p', TrivialTarget.b_transport s p = Ok (s', p') /\
    s' = if is_write p && (p.(data_length) =? 4) && (p.(address) =? 0x3ffc)
         then TrivialTarget.mk_trivial (negb (le_decode (take 4 d) =? 0)) true else s.
Proof. apply trivial_target_access. Qed.

(** At a whole second, every timekeeper reports that second, for a library that
    converts whole seconds exactly. *)
Theorem timekeeper_reports_seconds to_seconds k p d t :
  (forall k, 0 <= k < 2 ^ 24 -> to_seconds (sc_sec k) = k) -> 0 <= k < 2 ^ 24 ->
  p.(command) = TLM_READ_COMMAND -> p.(data) = Some d -> p.(data_length) = 4 ->
  (4 <= length d)%nat ->
  exists p', Timekeeper.custom_b_transport to_seconds (sc_sec k) p t = Ok (p', t) /\
    p'.(response_status) = TLM_OK_RESPONSE /\ data_word 4 p' = Ok k.
Proof.
  intros Hs Hk Hc Hd Hl Hlen. unfold Timekeeper.custom_b_transport. rewrite is_read_cmd, Hc, Hl.
  cbn [Z.eqb Pos.eqb cassert]. rewrite bind_Ok, Hs by done. unfold Timekeeper.double_to_uint.
  destruct (Z.leb_spec 0 k), (Z.ltb_spec k (2 ^ 32)); try lia. cbn [andb]. rewrite bind_Ok.
  destruct (set_data_word 4 k (set_response_status TLM_OK_RESPONSE p)) as [p'|] eqn:Hw.
  - exists p'. rewrite bind_Ok. split; [done|]. pose proof (data_word_set 4 _ _ p' Hw) as ->.
    unfold set_data_word in Hw. apply data_write_inv in Hw. rewrite Hw. split; [done|].
    f_equal. apply Z.mod_small. cbn. lia.
  - unfold set_data_word in Hw. rewrite (data_write_splice _ d) in Hw by done. done.
Qed.

(** The writer waits a second, writes, and fails its assertion at the first
    write that is refused. *)
Theorem writer_stops_on_error {W} (bus : payload -> sc_time -> proc Writer.event W (payload * sc_time))
  a n s env i s' p t :
  (forall q d s0, q.(data) = Some [0xab] -> q.(address) = a -> bus q d s0 = Ret s' (p, t)) ->
  p.(response_status) <> TLM_OK_RESPONSE ->
  run env i (Writer.write_loop bus a (S n) s) = ([(Wait_time (sc_sec 1), s)], Err Assert_failure).
Proof.
  intros Hbus Hp. unfold Writer.write_loop. cbn [p_repeat]. unfold Writer.write_body.
  unfold mbind, proc_bind, p_wait. cbn [prog_bind run]. rewrite Hbus by done. cbn [prog_bind].
  unfold p_lift, cassert. by rewrite bool_decide_false by done.
Qed.

(** The native peripheral shows the level that Renode wrote last, to any pin. *)
Theorem gpio_native_level writes number value offset p b d :
  p.(command) = TLM_READ_COMMAND -> p.(data) = Some (b :: d) ->
  GpioNative.tlm_route offset p
    (GpioNative.gpio_port_write number value
      (foldl (fun s w => GpioNative.gpio_port_write w.1 w.2 s) GpioNative.new_top writes)) =
  Ok (set_data (Some (Z.b2z value :: d)) p).
Proof.
  intros Hc Hd. unfold GpioNative.tlm_route, GpioNative.b_transport. rewrite is_read_cmd, Hc.
  cbn [negb]. by rewrite (data_write_splice p (b :: d)) by (done || cbn; lia).
Qed.
