(* ===== verification/Benchmark.v ===== *)
(** * The benchmark program (benchmarks/systemc-integration)

    [sc_main] configures a Renode of its own by commands, runs the simulation
    until the workload writes the completion register of the target, and turns
    the word into an exit status.  The calls of librenode and the accesses that
    the workload makes are arguments; the target is [SimpleTargets.TrivialTarget]. *)

From stdpp Require Import base numbers list strings.
From S2P Require Import Prelude Tlm SimpleTargets.
#[local] Open Scope Z_scope.

(** ** Definitions *)

Section Benchmark.
Context {R : Type} (RENODE_SUCCESS : Z).
Context (renode_init : R -> R * Z) (renode_exec_command : string -> R -> R * Z).
(** The accesses that reach the target while the simulation runs. *)
Context (workload : R -> list payload).

(** [renode_command], without its messages. *)
Definition renode_command (command : string) (r : R) : R * bool :=
  let '(r, status) := renode_exec_command command r in (r, status =? RENODE_SUCCESS).

(** Commands joined by [||]: the first that fails is the last. *)
Fixpoint renode_commands (commands : list string) (r : R) : R * bool :=
  match commands with
  | [] => (r, true)
  | command :: commands =>
      let '(r, ok) := renode_command command r in
      if ok then renode_commands commands r else (r, false)
  end.

(** [sc_start()]: the simulation runs until [sc_stop()]; a workload that ends
    without it leaves the simulation running. *)
Fixpoint sc_start (accesses : list payload) (target : TrivialTarget.trivial_target) :
  res TrivialTarget.trivial_target :=
  if target.(TrivialTarget.stopped) then Ok target else
  match accesses with
  | [] => Err Out_of_fuel
  | p :: accesses => '(target, _) ← TrivialTarget.b_transport target p; sc_start accesses target
  end.

(** [sc_main]: what is left of Renode, and the exit status. *)
Definition sc_main (argv : list string) (r : R) : R * res Z :=
  match argv with
  | [_; resc; iterations; peripherals] =>
      let '(r, status) := renode_init r in
      if negb (status =? RENODE_SUCCESS) then (r, Ok 2) else
      let '(r, ok) := renode_commands ["$iterations=" +:+ iterations;
        "$peripherals=" +:+ peripherals; "include @" +:+ resc] r in
      if negb ok then (r, Ok 2) else
      let '(r, ok) := renode_command "start" r in
      if negb ok then (r, Ok 2) else
      match sc_start (workload r) TrivialTarget.new_trivial_target with
      | Ok target =>
          let '(r, _) := renode_exec_command "quit" r in (r, Ok (TrivialTarget.exit_status target))
      | Err f => (r, Err f)
      end
  | _ => (r, Ok 2)
  end.
End Benchmark.

(** A word written to the completion register, and any other access with a
    buffer. *)
Definition is_completion (p : payload) : bool :=
  is_write p && (p.(data_length) =? 4) && (p.(address) =? 0x3ffc).

Definition access_ok (p : payload) : Prop :=
  payload_wf p /\ exists d, p.(data) = Some d /\ (4 <= length d)%nat.

(** ** Lemmas *)

Lemma sc_start_completes pre w post target d :
  Forall access_ok pre -> Forall (fun p => is_completion p = false) pre ->
  payload_wf w -> w.(data) = Some d -> (4 <= length d)%nat -> is_completion w = true ->
  target.(TrivialTarget.stopped) = false ->
  sc_start (pre ++ w :: post) target = Ok (TrivialTarget.mk_trivial (negb (le_decode (take 4 d) =? 0)) true).
Proof.
  intros Hpre Hnot Hw Hd Hl Hc. revert target.
  induction Hpre as [|p pre [Hp (dp & Hdp & Hlp)] _ IH]; intros target Ht; cbn [sc_start app]; rewrite Ht.
  - destruct (trivial_target_access target w d Hd Hl Hw) as (s' & p' & -> & ->).
    fold (is_completion w). rewrite Hc, bind_Ok. by destruct post.
  - inversion_clear Hnot as [|? ? Hn Hrest].
    destruct (trivial_target_access target p dp Hdp Hlp Hp) as (s' & p' & -> & ->).
    fold (is_completion p). rewrite Hn, bind_Ok. by apply IH.
Qed.

(** ** Properties *)

(** C38: the exit status of the benchmark.  When Renode starts and accepts its
    four commands, the program runs until the workload first writes the
    completion register, whatever else it accesses before and asks for after,
    and exits with 0 when that word is zero and with 1 otherwise, after telling
    Renode to quit. *)
Theorem benchmark_exit_status {R} SUCCESS init exec (workload : R -> list payload) a0 a1 a2 a3 r
  r1 r2 pre w post d :
  init r = (r1, SUCCESS) ->
  renode_commands SUCCESS exec ["$iterations=" +:+ a2; "$peripherals=" +:+ a3; "include @" +:+ a1; "start"] r1
    = (r2, true) ->
  workload r2 = pre ++ w :: post ->
  Forall access_ok pre -> Forall (fun p => is_completion p = false) pre ->
  payload_wf w -> w.(data) = Some d -> (4 <= length d)%nat -> is_completion w = true ->
  sc_main SUCCESS init exec workload [a0; a1; a2; a3] r =
    ((exec "quit" r2).1, Ok (if le_decode (take 4 d) =? 0 then 0 else 1)).
Proof.
  intros Hi Hcmds Hw Hpre Hnot Hwf Hd Hl Hc. unfold sc_main. rewrite Hi, Z.eqb_refl. cbn [negb].
  cbn [renode_commands] in *.
  destruct (renode_command _ _ ("$iterations=" +:+ a2) r1) as [r3 []]; [|done].
  destruct (renode_command _ _ ("$peripherals=" +:+ a3) r3) as [r4 []]; [|done].
  destruct (renode_command _ _ ("include @" +:+ a1) r4) as [r5 []]; [|done]. cbn [negb].
  destruct (renode_command _ _ "start" r5) as [r6 []]; [|done]. cbn [negb].
  injection Hcmds as ->. rewrite Hw, (sc_start_completes pre w post _ d) by done.
  destruct (exec "quit" r2) as [r7 q]. unfold TrivialTarget.exit_status.
  by destruct (le_decode (take 4 d) =? 0).
Qed.

(** A Renode that accepts everything and remembers its commands. *)
Definition logging_exec (command : string) (log : list string) : list string * Z := (log ++ [command], 0).
Definition example_workload (log : list string) : list payload :=
  [mk_payload TLM_WRITE_COMMAND 0 (Some [1; 2; 3; 4]) 4 4 None 0 false TLM_INCOMPLETE_RESPONSE;
   mk_payload TLM_WRITE_COMMAND 0x3ffc (Some [0; 0; 1; 0]) 4 4 None 0 false TLM_INCOMPLETE_RESPONSE].

Lemma benchmark_exit_status_witness :
  sc_main 0 (fun r => (r, 0)) logging_exec example_workload ["systemc_trivial"; "x.resc"; "5"; "1"] [] =
    (["$iterations=5"; "$peripherals=1"; "include @x.resc"; "start"; "quit"], Ok 1).
Proof.
  apply (benchmark_exit_status 0 (fun r => (r, 0)) logging_exec example_workload "systemc_trivial" "x.resc"
    "5" "1" [] [] ["$iterations=5"; "$peripherals=1"; "include @x.resc"; "start"]
    [mk_payload TLM_WRITE_COMMAND 0 (Some [1; 2; 3; 4]) 4 4 None 0 false TLM_INCOMPLETE_RESPONSE]
    (mk_payload TLM_WRITE_COMMAND 0x3ffc (Some [0; 0; 1; 0]) 4 4 None 0 false TLM_INCOMPLETE_RESPONSE)
    [] [0; 0; 1; 0]); try reflexivity.
  - apply List.Forall_cons; [|apply List.Forall_nil]. split.
    + split; cbn; [lia|lia|]. intros ? [= <-]. solve_bytes.
    + eexists. split; [reflexivity|cbn; lia].
  - apply List.Forall_cons; [reflexivity|apply List.Forall_nil].
  - split; cbn; [lia|lia|]. intros ? [= <-]. solve_bytes.
Defined.

(** Nothing is run, and the status is 2, unless there are three arguments; a
    command that fails is the last one. *)
Theorem benchmark_refuses {R} SUCCESS init exec (workload : R -> list payload) argv r :
  length argv <> 4%nat -> sc_main SUCCESS init exec workload argv r = (r, Ok 2).
Proof. by destruct argv as [|? [|? [|? [|? [|? ?]]]]]. Qed.
