(* ===== verification/Firmware.v ===== *)
(** * Firmware (examples/interrupts, examples-native/interrupts-native,
    examples/timesync, examples/transaction-delay,
    examples/multiple-peripherals)

    The programs that the simulated CPU runs against the SystemC modules, over
    the bus that Renode puts between them.  Zephyr's calls are arguments or, for
    the interrupt controller, the two calls the programs make.  The platform
    files give the base of the modules' window on the bus and the interrupt that
    each pin raises. *)

From stdpp Require Import base numbers list.
From S2P Require Import Prelude Tlm Kernel Peripheral Interrupts SimpleTargets.
#[local] Open Scope Z_scope.

(** ** Definitions *)

(** A 32-bit store of the CPU, as the payload that reaches the module: its
    address is relative to the window. *)
Definition store_word (offset word : Z) : payload :=
  mk_payload TLM_WRITE_COMMAND offset (Some (le_encode 4 word)) 4 4 None 0 false
    TLM_INCOMPLETE_RESPONSE.

Definition load_word (offset : Z) : payload :=
  mk_payload TLM_READ_COMMAND offset (Some (replicate 4 0)) 4 4 None 0 false
    TLM_INCOMPLETE_RESPONSE.

(** *** The interrupt handlers; both examples run the same program. *)
Module InterruptHandlers.

Definition IRQ_SOCKET_INTERRUPTER : Z := 55.
Definition IRQ_PORT_INTERRUPTER : Z := 56.
Definition SYSTEMC_INTERRUPTER0 : Z := 0x9000000.
Definition SYSTEMC_INTERRUPTER1 : Z := 0x9100000.

Section Program.
(** [*address = value] for a volatile word. *)
Context {W : Type} (write_word : Z -> Z -> W -> res W).

Definition interrupt_handler_socket (w : W) : res W := write_word SYSTEMC_INTERRUPTER0 1 w.
Definition interrupt_handler_port (w : W) : res W := write_word SYSTEMC_INTERRUPTER1 1 w.

(** The interrupt controller: the connected handlers and the enabled lines. *)
Record nvic : Type := mk_nvic { connected : list (Z * (W -> res W)); enabled : list Z }.
Definition IRQ_CONNECT (irq : Z) (h : W -> res W) (c : nvic) : nvic :=
  mk_nvic ((irq, h) :: c.(connected)) c.(enabled).
Definition irq_enable (irq : Z) (c : nvic) : nvic := mk_nvic c.(connected) (irq :: c.(enabled)).

(** [main] up to its loop, which only sleeps. *)
Definition main_setup : nvic :=
  let c := mk_nvic [] [] in
  let c := IRQ_CONNECT IRQ_SOCKET_INTERRUPTER interrupt_handler_socket c in
  let c := IRQ_CONNECT IRQ_PORT_INTERRUPTER interrupt_handler_port c in
  let c := irq_enable IRQ_SOCKET_INTERRUPTER c in
  irq_enable IRQ_PORT_INTERRUPTER c.

(** An interrupt taken by the CPU. *)
Definition dispatch (c : nvic) (irq : Z) (w : W) : res W :=
  if bool_decide (irq ∈ c.(enabled)) then
    match List.find (fun e => e.1 =? irq) c.(connected) with
    | Some (_, h) => h w
    | None => Ok w
    end
  else Ok w.
End Program.

(** The platform: the window of the modules starts at 0x9000000, pin [i] raises
    interrupt [55 + i].  Only the response OK, or none, lets the CPU go on. *)
Definition irq_of_pin (pin : Z) : Z := 55 + pin.
Definition write_window (transport : b_transport_t top) (a v : Z) (s : top) : res top :=
  '(s, p, _) ← transport s (store_word (a - 0x9000000) v) SC_ZERO_TIME;
  cassert (negb (bool_decide (p.(response_status) = TLM_ADDRESS_ERROR_RESPONSE)));;
  Ok s.

(** The CPU takes the interrupts of the pins, in the given order. *)
Fixpoint serve (transport : b_transport_t top) (pins : list Z) (s : top) : res top :=
  match pins with
  | [] => Ok s
  | pin :: pins =>
      s ← dispatch (main_setup (write_window transport)) (irq_of_pin pin) s;
      serve transport pins s
  end.
End InterruptHandlers.

(** *** Reading the time: [main] of timesync prints a word and sleeps. *)
Module Clock.
Section Program.
Context {W : Type} (read_word : W -> res Z) (k_msleep : Z -> W -> W).

(** [n] iterations of the loop; the result is what they print. *)
Fixpoint main (n : nat) (w : W) : res (W * list Z) :=
  match n with
  | O => Ok (w, [])
  | S n =>
      v ← read_word w;
      let w := k_msleep 1000 w in
      '(w, vs) ← main n w;
      Ok (w, v :: vs)
  end.
End Program.

(** The SystemC side of timesync: simulated time follows the CPU's. *)
Definition read_timekeeper (to_seconds : sc_time -> Z) (now : sc_time) : res Z :=
  '(p, _) ← Timekeeper.custom_b_transport to_seconds now (load_word 0) SC_ZERO_TIME;
  data_word 4 p.
Definition sleep (ms : Z) (now : sc_time) : sc_time := t_add now (u64 (ms * 1000000000)).
End Clock.

(** *** [PeripheralCSR] of examples/multiple-peripherals: the struct through
    which the firmware reads the registers, as the C compiler lays it out. *)
Module Csr.
(** The offset of each field, given sizes and alignments. *)
Fixpoint field_offsets (off : Z) (fields : list (Z * Z)) : list Z :=
  match fields with
  | [] => []
  | (size, align) :: fields =>
      let o := align_up off align in o :: field_offsets (o + size) fields
  end.

(** [cmd_start_timer], [timer], [timer_done], [irq_ack], [memory] *)
Definition PeripheralCSR : list (Z * Z) := [(1, 1); (4, 4); (1, 1); (1, 1); (100, 1)].
(** The offset of field number [i]. *)
Definition field (i : nat) : Z := nth i (field_offsets 0 PeripheralCSR) 0.
End Csr.

(** *** [main] of examples/multiple-peripherals: starts the timer of peripheral A
    and prints two of its registers every second, until the interrupt handler
    has set [example_done]. *)
Module PeripheralProgram.

Definition store_byte (offset byte : Z) : payload :=
  mk_payload TLM_WRITE_COMMAND offset (Some [byte]) 1 1 None 0 false TLM_INCOMPLETE_RESPONSE.

Definition load_bytes (n : nat) (offset : Z) : payload :=
  mk_payload TLM_READ_COMMAND offset (Some (replicate n 0)) (Z.of_nat n) (Z.of_nat n) None 0 false
    TLM_INCOMPLETE_RESPONSE.

Section Program.
Context {E S : Type} (register_if : payload -> sc_time -> proc E S (payload * sc_time)).
Context (k_msleep : Z -> proc E S unit) (example_done : S -> bool).

Definition read_field (n : nat) (offset : Z) : proc E S Z :=
  '(p, _) ← register_if (load_bytes n offset) SC_ZERO_TIME;
  p_lift (data_word n p).

(** The loop; the result is what it prints. *)
Fixpoint poll (fuel : nat) : proc E S (list (Z * Z)) :=
  match fuel with
  | O => fun _ => Fail Out_of_fuel
  | Datatypes.S fuel =>
      s ← p_get;
      if example_done s then mret []
      else
        timer ← read_field 4 (Csr.field 1);
        timer_done ← read_field 1 (Csr.field 2);
        k_msleep 1000;;
        lines ← poll fuel;
        mret ((timer, timer_done) :: lines)
  end.

Definition main (fuel : nat) : proc E S (list (Z * Z)) :=
  register_if (store_byte (Csr.field 0) 1) SC_ZERO_TIME;;
  k_msleep 1000;;
  poll fuel.
End Program.

(** The program against peripheral A: time is the module's, accesses take
    none of it, and the handler has run from the time [d] on. *)
Section Peripheral.
Context {SC : DoubleTimes} {W : Type}.

Definition register_if : payload -> sc_time -> proc Peripheral.event (impl * W) (payload * sc_time) :=
  Peripheral.b_transport renode_timer REGIF_TARGET_INDEX.

Definition k_msleep (ms : Z) : proc Peripheral.event (impl * W) unit :=
  p_delay (u64 (ms * 1000000000)).

Definition handled_at (d : sc_time) (s : impl * W) : bool := d <=? s.1.(now).

Definition run_main (d : sc_time) (fuel : nat) : proc Peripheral.event (impl * W) (list (Z * Z)) :=
  main register_if k_msleep (handled_at d) fuel.
End Peripheral.
End PeripheralProgram.

(** ** Properties *)

Lemma serve_one (native : bool) pin s :
  pin = 0 \/ pin = 1 ->
  InterruptHandlers.dispatch (InterruptHandlers.main_setup (InterruptHandlers.write_window
    (if native then Native.top_b_transport else top_b_transport))) (InterruptHandlers.irq_of_pin pin) s =
  Ok (mk_top (if pin =? 0 then set_irq false s.(m_port_interrupter0) else s.(m_port_interrupter0))
             (if pin =? 0 then s.(m_port_interrupter1) else set_irq false s.(m_port_interrupter1))).
Proof. by destruct native; intros [-> | ->]. Qed.

Lemma served_cons (b : bool) (i pin : Z) pins :
  (if pin =? i then false else b) && negb (bool_decide (i ∈ pins)) =
  b && negb (bool_decide (i ∈ pin :: pins)).
Proof.
  destruct (Z.eqb_spec pin i) as [->|Hne].
  - rewrite (bool_decide_true (i ∈ i :: pins)) by constructor. by rewrite andb_false_r.
  - do 2 f_equal. apply bool_decide_ext. rewrite elem_of_cons.
    split; [by right | intros [Hi|Hi]; [by destruct Hne|done]].
Qed.

(** C36: the firmware acknowledges the interrupter that interrupted it, in both
    variants of the example: whatever the lines are when the CPU takes the
    interrupts of some pins, in any order and with repetitions, afterwards
    exactly the lines of the pins served are low and the others as they were;
    the two variants end in the same state. *)
Theorem firmware_acknowledges pins s :
  Forall (fun pin => pin = 0 \/ pin = 1) pins ->
  exists s', InterruptHandlers.serve top_b_transport pins s = Ok s' /\
    InterruptHandlers.serve Native.top_b_transport pins s = Ok s' /\
    gpio_ports_in s' =
      [s.(m_port_interrupter0).(irq_out) && negb (bool_decide (0 ∈ pins));
       s.(m_port_interrupter1).(irq_out) && negb (bool_decide (1 ∈ pins))].
Proof.
  intros Hpins. revert s. induction Hpins as [|pin pins Hpin _ IH]; intros s.
  - exists s. split; [done|]. split; [done|]. unfold gpio_ports_in.
    by rewrite !bool_decide_false, !andb_true_r by apply not_elem_of_nil.
  - pose proof (serve_one false pin s Hpin) as E1. pose proof (serve_one true pin s Hpin) as E2.
    cbv iota in E1, E2.
    destruct (IH (mk_top (if pin =? 0 then set_irq false s.(m_port_interrupter0) else s.(m_port_interrupter0))
      (if pin =? 0 then s.(m_port_interrupter1) else set_irq false s.(m_port_interrupter1))))
      as (s' & H1 & H2 & H3).
    exists s'. cbn [InterruptHandlers.serve]. rewrite E1, E2, !bind_Ok. split; [exact H1|].
    split; [exact H2|]. rewrite H3. f_equal; [|f_equal].
    + rewrite <- (served_cons _ 0). by destruct Hpin as [-> | ->].
    + rewrite <- (served_cons _ 1). by destruct Hpin as [-> | ->].
Qed.

Lemma firmware_acknowledges_witness :
  exists s', InterruptHandlers.serve top_b_transport [1] (mk_top (mk_interrupter true 1) (mk_interrupter true 3)) = Ok s' /\
    InterruptHandlers.serve Native.top_b_transport [1] (mk_top (mk_interrupter true 1) (mk_interrupter true 3)) = Ok s' /\
    gpio_ports_in s' = [true; false].
Proof.
  apply (firmware_acknowledges [1] (mk_top (mk_interrupter true 1) (mk_interrupter true 3))).
  apply List.Forall_cons; [by right|apply List.Forall_nil].
Defined.

(** Elsewhere in the window the variants differ: the bus tests one bit of the
    address, the native top compares all of it. *)
Theorem variants_disagree s :
  s.(m_port_interrupter0).(irq_out) = true -> s.(m_port_interrupter1).(irq_out) = true ->
  (s' ← InterruptHandlers.write_window top_b_transport 0x9100004 1 s; Ok (gpio_ports_in s')) = Ok [true; false] /\
  (s' ← InterruptHandlers.write_window Native.top_b_transport 0x9100004 1 s; Ok (gpio_ports_in s')) = Ok [false; true].
Proof. destruct s as [[b0 i0] [b1 i1]]. cbn. intros -> ->. by split. Qed.

(** Started at a whole second, the firmware prints consecutive seconds. *)
Theorem clock_prints_seconds to_seconds n k :
  (forall k, 0 <= k < 2 ^ 24 -> to_seconds (sc_sec k) = k) ->
  0 <= k -> k + Z.of_nat n <= 2 ^ 24 - 1 ->
  Clock.main (Clock.read_timekeeper to_seconds) Clock.sleep n (sc_sec k) =
    Ok (sc_sec (k + Z.of_nat n), seqZ k (Z.of_nat n)).
Proof.
  intros Hs. revert k. induction n as [|n IH]; intros k Hk Hn.
  - by rewrite Z.add_0_r.
  - assert (Hr : Clock.read_timekeeper to_seconds (sc_sec k) = Ok k).
    { unfold Clock.read_timekeeper, Timekeeper.custom_b_transport. change (is_read _) with true.
      cbv iota. change (cassert _) with (Ok tt). rewrite bind_Ok, Hs by lia.
      unfold Timekeeper.double_to_uint.
      destruct (Z.leb_spec 0 k), (Z.ltb_spec k (2 ^ 32)); try lia. cbn [andb]. rewrite bind_Ok.
      unfold set_data_word. rewrite (data_write_splice _ (replicate 4 0)) by done. rewrite !bind_Ok.
      change (splice (replicate 4 0) 0 (le_encode 4 k)) with (le_encode 4 k).
      unfold data_word. rewrite (data_read_slice _ (le_encode 4 k)) by done. rewrite bind_Ok.
      change (slice (le_encode 4 k) 0 (Z.of_nat 4)) with (le_encode 4 k). rewrite le_decode_encode.
      f_equal. apply Z.mod_small. cbn. lia. }
    assert (Hsl : Clock.sleep 1000 (sc_sec k) = sc_sec (k + 1)).
    { unfold Clock.sleep, sc_sec, t_add. rewrite (wrap_small _ (k * 1000000000000)), (wrap_small _ (1000 * 1000000000)), !wrap_small; lia. }
    cbn [Clock.main]. rewrite Hr, bind_Ok. cbv zeta. rewrite Hsl, IH, bind_Ok by lia.
    rewrite (seqZ_cons k) by lia. do 3 f_equal; [|do 2 f_equal]; lia.
Qed.

(** The program of transaction-delay is the same and reads a word too, but its
    module stores eight bytes whatever the length of the transfer. *)
Theorem delayed_read_overruns to_seconds now t :
  0 <= to_seconds now < 2 ^ 64 ->
  Timekeeper.delayed_b_transport to_seconds now (load_word 0) t = Err Undefined_behaviour.
Proof.
  intros Ht. unfold Timekeeper.delayed_b_transport, Timekeeper.double_to_uint. change (is_read _) with true.
  destruct (Z.leb_spec 0 (to_seconds now)), (Z.ltb_spec (to_seconds now) (2 ^ 64)); try lia. done.
Qed.

Lemma delayed_read_overruns_witness :
  Timekeeper.delayed_b_transport (fun t => t / sc_sec 1) (sc_sec 2) (load_word 0) SC_ZERO_TIME =
  Err Undefined_behaviour.
Proof. apply (delayed_read_overruns (fun t => t / sc_sec 1)). vm_compute. split; congruence. Defined.

(** The firmware's struct and the peripheral's have the same offsets. *)
Theorem csr_layout_matches :
  Csr.field_offsets 0 Csr.PeripheralCSR =
    [cmd_start_timer_offset; timer_offset renode_timer; timer_done_offset renode_timer;
     irq_ack_offset renode_timer; memory_offset renode_timer].
Proof. reflexivity. Qed.

(** *** The loop of examples/multiple-peripherals *)
Section PeripheralLoop.
Context {SC : DoubleTimes} {W : Type}.
Import PeripheralProgram.

(** Peripheral A at second [k], its timer started at 1 ns. *)
Record running (k : Z) (s : impl * W) : Prop := {
  ru_now : s.1.(now) = sc_sec k;
  ru_start : s.1.(start_time) = 1000;
  ru_valid : s.1.(start_time_valid) = true;
  ru_regs : length s.1.(regs) = 112%nat;
}.

Definition cycles (k : Z) : Z := k * 1000000000 - 1.

Lemma running_timer k s : running k s -> 1 <= k <= 4 -> timer_at s.1 s.1.(now) = cycles k.
Proof.
  intros [Hn Hs _ _] Hk. unfold timer_at, elapsed, ceil_div, cycles. rewrite Hn, Hs.
  unfold sc_sec. rewrite wrap_small by lia. change clock_period with 1000.
  symmetry. apply (Z.div_unique _ _ _ 999); lia.
Qed.

Lemma read_field_ok n off k s (Q : Z -> impl * W -> Prop) :
  running k s -> 1 <= k <= 4 -> 0 <= off -> off + Z.of_nat n <= 112 ->
  (forall v s', running k s' -> (n = 4%nat -> off = 4 -> v = cycles k) -> Q v s') ->
  wp keeps_timer only_delays (read_field register_if n off s) Q.
Proof.
  intros Hr Hk Ho He HQ. pose proof (running_timer k s Hr Hk) as Ht. destruct Hr as [Hn Hs Hv Hl].
  unfold read_field. apply wp_bind. eapply wp_mono;
    [|apply (read_registers (load_bytes n off) (replicate n 0) 0 s); cbn; try done; try lia].
  2: { split; [done|]. cbn. rewrite length_replicate. lia. }
  2-3: rewrite Hn, ?Hs; unfold sc_sec; rewrite wrap_small; lia.
  2: { rewrite Z.add_0_r, Ht. unfold cycles. lia. }
  cbv zeta. rewrite Z.add_0_r. intros [p' t'] s' (Hn' & Hs' & Hv' & Hl' & Hsl & Hw & _).
  change (address (load_bytes n off)) with off in Hw. change (data_length (load_bytes n off)) with (Z.of_nat n) in Hw.
  assert (Hbs : length (slice (regs s'.1) off (Z.of_nat n)) = n) by (apply Nat2Z.inj; rewrite slice_length; lia).
  assert (Hread : data_word n p' = Ok (le_decode (slice (regs s'.1) off (Z.of_nat n)))).
  { set (bs := slice (regs s'.1) off (Z.of_nat n)) in *. pose proof (length_replicate n 0) as Hrl.
    rewrite (data_write_splice _ (replicate n 0)) in Hw by (done || lia). injection Hw as <-.
    unfold data_word. rewrite (data_read_slice _ (splice (replicate n 0) 0 bs)) by (done || rewrite splice_length; lia).
    by rewrite bind_Ok, slice_splice_full by lia. }
  eapply wp_lift; [exact Hread|]. apply HQ; [split; congruence|]. intros -> ->.
  change (Z.of_nat 4) with 4. rewrite Hsl, le_decode_encode, Ht. apply Z.mod_small. unfold cycles. cbn. lia.
Qed.

Lemma sleep_ok k s (Q : unit -> impl * W -> Prop) :
  running k s -> 0 <= k <= 4 -> (forall s', running (k + 1) s' -> Q tt s') ->
  wp keeps_timer only_delays (k_msleep 1000 s) Q.
Proof.
  intros [Hn Hs Hv Hl] Hk HQ. split; [by eexists|]. intros s' [Hn' Hs' Hv' Hl']. apply HQ.
  split; cbn; [|congruence..]. rewrite Hn. unfold t_add, sc_sec.
  rewrite (wrap_small _ (k * 1000000000000)), (wrap_small _ (1000 * 1000000000)), !wrap_small; lia.
Qed.

(** How many seconds end before the handler has run. *)
Definition waited (d : sc_time) : Z := (d - 1) / sc_sec 1.

Lemma poll_ok d fuel : 0 < d <= sc_sec 5 -> forall k s, running k s -> 1 <= k <= 5 -> 5 < k + Z.of_nat fuel ->
  wp keeps_timer only_delays (poll register_if k_msleep (handled_at d) fuel s)
    (fun lines _ => lines.*1 = cycles <$> seqZ k (waited d + 1 - k)).
Proof.
  intros Hd. unfold waited. change (sc_sec 1) with 1000000000000.
  pose proof (Z.div_mod (d - 1) 1000000000000 ltac:(lia)) as Hdm.
  pose proof (Z.mod_pos_bound (d - 1) 1000000000000 ltac:(lia)) as Hmod.
  set (m := (d - 1) / 1000000000000) in *. change (sc_sec 5) with 5000000000000 in Hd.
  induction fuel as [|fuel IH]; intros k s Hr Hk Hf; [lia|]. cbn [poll]. apply wp_bind. cbn [p_get wp].
  unfold handled_at at 1. rewrite (ru_now _ _ Hr). assert (Hsec : sc_sec k = k * 1000000000000) by (apply wrap_small; lia).
  rewrite Hsec. destruct (Z.leb_spec d (k * 1000000000000)).
  - cbn. by rewrite seqZ_nil by lia.
  - apply wp_bind, (read_field_ok _ _ k); [done|lia|done|done|]. intros v s1 Hr1 Hv.
    apply wp_bind, (read_field_ok _ _ k); [done|lia|done|done|]. intros b s2 Hr2 _.
    apply wp_bind, (sleep_ok k); [done|lia|]. intros s3 Hr3. apply wp_bind.
    eapply wp_mono; [|apply (IH (k + 1)); [done|lia|lia]]. cbn beta. intros lines s4 Hlines.
    cbn. rewrite (seqZ_cons k) by lia. cbn. rewrite Hv by done. f_equal.
    replace (Z.succ k) with (k + 1) by lia. replace (Z.pred (m + 1 - k)) with (m + 1 - (k + 1)) by lia. exact Hlines.
Qed.

Lemma start_timer_ok (s : impl * W) (Q : payload * sc_time -> impl * W -> Prop) :
  s.1.(now) = 0 -> s.1.(start_time_valid) = false -> length s.1.(regs) = 112%nat ->
  (forall p s', running 0 s' -> Q p s') ->
  wp keeps_timer only_delays (register_if (store_byte (Csr.field 0) 1) SC_ZERO_TIME s) Q.
Proof.
  intros Hn Hv Hl HQ. unfold register_if, Peripheral.b_transport. cbn -[wp update_volatile_register_fields].
  apply wp_bind. split; [by eexists|]. intros [i w] [Hn' Hs' Hv' Hl']. cbn [fst snd] in *.
  apply wp_bind. rewrite Hn. set (j := set_now _ i).
  pose proof (write_now_start (store_byte (Csr.field 0) 1) [] j eq_refl eq_refl eq_refl) as Hw.
  assert (Hlj : length (regs j) = 112%nat) by (cbn; congruence). specialize (Hw Hlj).
  apply (f_equal (fun r => '(x, a) ← r; Ok ((x, w), a))) in Hw. eapply wp_step; [exact Hw|].
  cbn [snd fst]. apply HQ.
  set (j1 := set_regs (splice (regs j) 0 [1]) j).
  assert (Hj1 : start_timer 4 1000 j1 = set_done_at (event_notify j1.(timer_done_at) (1000 + 2 ^ 32 * 1000)) (set_start_time 1000 j1)).
  { apply start_timer_spec; try lia; cbn; rewrite ?Hv', ?Hv; done. }
  rewrite Hj1. split; cbn; try done. rewrite !splice_length; cbn; rewrite ?splice_length; cbn in *; lia.
Qed.
End PeripheralLoop.

(** The firmware of the multiple-peripherals example, started with the
    peripheral's clock at zero: if the handler has run by the end of the fifth
    second (the transfer starts 4.3 s after the start), [main] ends without a
    fault whatever the other processes do to the registers, having printed for
    every second that it has waited the timer as it was then. *)
Theorem firmware_prints_timer {SC : DoubleTimes} {W} d fuel (s : impl * W) :
  0 < d <= sc_sec 5 -> (5 <= fuel)%nat ->
  s.1.(now) = 0 -> s.1.(start_time_valid) = false -> length s.1.(regs) = 112%nat ->
  wp keeps_timer only_delays (PeripheralProgram.run_main d fuel s)
    (fun lines _ => lines.*1 = cycles <$> seqZ 1 (waited d)).
Proof.
  intros Hd Hf Hn Hv Hl. unfold PeripheralProgram.run_main, PeripheralProgram.main.
  apply wp_bind, start_timer_ok; [done..|]. intros p s1 Hr1. apply wp_bind, (sleep_ok 0); [done|lia|].
  intros s2 Hr2. eapply wp_mono; [|apply (poll_ok d fuel Hd 1); [exact Hr2|lia|lia]]. cbn beta.
  intros lines _ ->. do 2 f_equal. lia.
Qed.

(** The handler runs at the rollover: four lines. *)
Lemma firmware_prints_timer_witness :
  wp keeps_timer only_delays
    (PeripheralProgram.run_main (1000 + 2 ^ 32 * 1000) 5 (new_impl 4 (replicate 112 0), tt))
    (fun lines _ => lines.*1 = [999999999; 1999999999; 2999999999; 3999999999]).
Proof.
  apply (firmware_prints_timer (1000 + 2 ^ 32 * 1000) 5 (new_impl 4 (replicate 112 0), tt));
    try reflexivity. vm_compute. split; congruence.
Defined.
