(* ===== verification/DmaSystem.v ===== *)
(** * The DMA example as a whole (examples/dma)

    The controller between Renode's system bus and two pins: pin 1 carries
    [bus_request] to Renode, pin 2 carries [bus_free] back.  The thread of the
    controller is a process of a pool (Scheduler); both pins are signals, which
    take a new value only when no process may run; Renode sets up the
    transfers one after the other with the actions of the example's test:
    three registers and the start command, pin 2 high, and waiting until pin 1
    has gone high and low again.  The test makes one transfer; here pin 2 is
    lowered before the next one.

    What is assumed of Renode: its memory does what it is told ([RamBus]), in
    any time; the thread of the controller waits for its first start before the
    first access arrives; and pin 2 is not written again before it has
    changed.  Accesses otherwise come at any moment, in particular before the
    thread has run that the previous access has started. *)

From stdpp Require Import base numbers list relations.
From S2P Require Import Prelude Tlm Kernel Scheduler Dmac Firmware.
#[local] Open Scope Z_scope.

(** ** Definitions *)

Record transfer : Type := mk_transfer { t_src : Z; t_dst : Z; t_len : Z }.

(** What Renode does: an access of the registers, a level of pin 2, or waiting
    until pin 1 has gone high and low once more. *)
Inductive action : Type :=
| Write_double_word (offset value : Z)
| On_gpio_2 (level : bool)
| Await_transfer.

(** The sequence of the test. *)
Definition commands_of (t : transfer) : list action :=
  [Write_double_word 0x4 t.(t_src); Write_double_word 0x8 t.(t_dst);
   Write_double_word 0xC t.(t_len); Write_double_word 0x10 1;
   On_gpio_2 true; Await_transfer].

(** The test ends there, with the bus still free; before another transfer, which
    waits for a rising edge of pin 2, the bus has to be taken back. *)
Definition turn_of (t : transfer) : list action := commands_of t ++ [On_gpio_2 false].

Definition script_of (ts : list transfer) : list action := mjoin (turn_of <$> ts).

(** The signals [dma_bus_request] and [dma_bus_free]: the levels everyone sees,
    and the level written to the latter last (that of the former is a member of
    the controller).  An event is how often it has happened: starts, rising
    edges of [bus_free], falling edges of [bus_request]. *)
Record wires : Type := mk_wires {
  dma_bus_request : bool;
  dma_bus_free : bool;
  bus_free_next : bool;
  starts : nat;
  grants : nat;
  falls : nat;
}.

Record system (W : Type) : Type := mk_system {
  time : sc_time;
  m_dmac : dmac;
  ram : W;
  pins : wires;
  awaited : nat;
  script : list action;
}.
Arguments mk_system {W} time m_dmac ram pins awaited script.
Arguments time {W} _.
Arguments m_dmac {W} _.
Arguments ram {W} _.
Arguments pins {W} _.
Arguments awaited {W} _.
Arguments script {W} _.

Definition new_wires : wires := mk_wires false false false 0 0 0.

Definition notify_start (start : bool) (x : wires) : wires :=
  mk_wires x.(dma_bus_request) x.(dma_bus_free) x.(bus_free_next)
    (if start then S x.(starts) else x.(starts)) x.(grants) x.(falls).

Definition write_bus_free (b : bool) (x : wires) : wires :=
  mk_wires x.(dma_bus_request) x.(dma_bus_free) b x.(starts) x.(grants) x.(falls).

(** The update phase: [request] is the level the controller has written. *)
Definition update_wires (request : bool) (x : wires) : wires :=
  mk_wires request x.(bus_free_next) x.(bus_free_next) x.(starts)
    (if x.(bus_free_next) && negb x.(dma_bus_free) then S x.(grants) else x.(grants))
    (if x.(dma_bus_request) && negb request then S x.(falls) else x.(falls)).

(** How many signals have a new value. *)
Definition unsettled (request : bool) (x : wires) : nat :=
  (if eqb request x.(dma_bus_request) then 0 else 1) +
  (if eqb x.(bus_free_next) x.(dma_bus_free) then 0 else 1).

(** What Renode may do now. *)
Definition enabled {W} (c : action) (s : system W) : bool :=
  match c with
  | Write_double_word _ _ => true
  | On_gpio_2 _ => eqb s.(pins).(bus_free_next) s.(pins).(dma_bus_free)
  | Await_transfer => (s.(awaited) <? s.(pins).(falls))%nat
  end.

Definition exec {W} (c : action) (rest : list action) (s : system W) : res (system W) :=
  match c with
  | Write_double_word offset value =>
      '(d, start) ← receive_b_transport s.(m_dmac) (store_word offset value);
      Ok (mk_system s.(time) d s.(ram) (notify_start start s.(pins)) s.(awaited) rest)
  | On_gpio_2 b =>
      Ok (mk_system s.(time) s.(m_dmac) s.(ram) (write_bus_free b s.(pins)) s.(awaited) rest)
  | Await_transfer =>
      Ok (mk_system s.(time) s.(m_dmac) s.(ram) s.(pins) (S s.(awaited)) rest)
  end.

Definition update {W} (s : system W) : system W :=
  mk_system s.(time) s.(m_dmac) s.(ram) (update_wires s.(m_dmac).(bus_request) s.(pins))
    s.(awaited) s.(script).

Definition elapsed {W} (t : sc_time) (s : system W) : system W :=
  mk_system t s.(m_dmac) s.(ram) s.(pins) s.(awaited) s.(script).

(** *** Renode's memory *)

(** The memory is left alone while an access is suspended. *)
Definition same_view {W} (view : W -> Z -> Z) (w w' : W) : Prop := forall a, view w' a = view w a.

(** An access takes time. *)
Definition timed {W} (x : wait_on event) (w : W) : Prop := exists d, x = Wait_time d /\ 0 <= d.

(** [target_socket] of the bridge, for the one-byte accesses of the controller
    at the addresses that are memory. *)
Class RamBus {W} (view : W -> Z -> Z) (valid : Z -> Prop)
  (bus : payload -> sc_time -> proc event W (payload * sc_time)) : Prop := {
  ram_read : forall a x t w (Q : payload * sc_time -> W -> Prop), valid a ->
    (forall w' t', same_view view w w' ->
      Q (set_response_status TLM_OK_RESPONSE (byte_payload TLM_READ_COMMAND a (view w a)), t') w') ->
    wp (same_view view) timed (bus (byte_payload TLM_READ_COMMAND a x) t w) Q;
  ram_write : forall a x t w (Q : payload * sc_time -> W -> Prop), valid a ->
    (forall w' t', (forall b, view w' b = if b =? a then x else view w b) ->
      Q (set_response_status TLM_OK_RESPONSE (byte_payload TLM_WRITE_COMMAND a x), t') w') ->
    wp (same_view view) timed (bus (byte_payload TLM_WRITE_COMMAND a x) t w) Q;
}.

Definition put_ram {W} (w : W) (s : dmac * W) : dmac * W := (s.1, w).

(** The bus as the controller sees it: nothing outside the controller reaches
    its members. *)
Definition dmac_bus {W} (bus : payload -> sc_time -> proc event W (payload * sc_time))
  (p : payload) (t : sc_time) : proc event (dmac * W) (payload * sc_time) :=
  within snd put_ram (bus p t).

(** What the transfers, one after the other, do to the memory. *)
Fixpoint transferred (ts : list transfer) (m : Z -> Z) : Z -> Z :=
  match ts with
  | [] => m
  | t :: ts => transferred ts (copied (Z.to_nat t.(t_len)) t.(t_src) t.(t_dst) m)
  end.

(** *** The system *)

Section System.
Context {W : Type} (view : W -> Z -> Z) (valid : Z -> Prop).
Context (bus : payload -> sc_time -> proc event W (payload * sc_time)).

(** Iterations of the copy loop, and what the local variable holds first. *)
Context (fuel : nat) (data : Z).

Definition get_dmac (s : system W) : dmac * W := (s.(m_dmac), s.(ram)).
Definition put_dmac (x : dmac * W) (s : system W) : system W :=
  mk_system s.(time) x.1 x.2 s.(pins) s.(awaited) s.(script).

(** [n] iterations of the thread. *)
Definition dmac_thread (n : nat) : proc event (system W) unit :=
  within get_dmac put_dmac (dmac_loop (dmac_bus bus) fuel data n).

Definition config : Type := pool event (system W).

(** The initialisation phase is over: the thread has run up to its first wait.
    [d] holds the registers, which have no initial value. *)
Definition new_system (d : dmac) (w : W) (cmds : list action) (n : nat) : config :=
  let s := mk_system SC_ZERO_TIME (set_bus_request false d) w new_wires 0 cmds in
  mk_pool s [dmac_thread n s].

Definition ready (n : nat) (x : wait_on event) (s0 s : system W) : Prop :=
  match x with
  | Wait_time t => s.(time) = s0.(time) + t
  | Wait_event start_event | Wait_static => (s0.(pins).(starts) < s.(pins).(starts))%nat
  | Wait_event bus_free_posedge => (s0.(pins).(grants) < s.(pins).(grants))%nat
  end.

Inductive step (c : config) : res config -> Prop :=
| step_resume n r : resume ready c n r -> step c r
| step_renode x rest :
    c.(shared).(script) = x :: rest -> enabled x c.(shared) = true ->
    step c (s ← exec x rest c.(shared); Ok (mk_pool s c.(threads)))
| step_update :
    (forall n, ~ is_ready ready c n) ->
    (0 < unsettled c.(shared).(m_dmac).(bus_request) c.(shared).(pins))%nat ->
    step c (Ok (mk_pool (update c.(shared)) c.(threads)))
| step_elapse t :
    (forall n, ~ is_ready ready c n) ->
    unsettled c.(shared).(m_dmac).(bus_request) c.(shared).(pins) = 0%nat ->
    c.(shared).(time) < t -> due time c t -> (forall t', due time c t' -> t <= t') ->
    step c (Ok (mk_pool (elapsed t c.(shared)) c.(threads))).

Definition rstep : res config -> res config -> Prop := steps_to step.

(** *** The invariant

    Renode is about to do action [i] of transfer [k]; the thread waits for its
    start [k + 1], has requested the bus for transfer [k], or copies. *)

Context (ts : list transfer) (m0 : Z -> Z).

Inductive label : Type :=
| Waiting (k : nat)
| Requesting (k : nat)
| Copying (k : nat) (d : dmac) (m : Z -> Z).

Definition script_at (k i : nat) : list action := drop i (script_of (drop k ts)).
Definition memory_after (k : nat) : Z -> Z := transferred (take k ts) m0.
Definition holds (m : Z -> Z) (w : W) : Prop := forall a, view w a = m a.

(** The registers after [i] actions. *)
Definition registers_ok (i : nat) (t : transfer) (d : dmac) : Prop :=
  ((0 < i)%nat -> d.(addr_src) = t.(t_src)) /\ ((1 < i)%nat -> d.(addr_dst) = t.(t_dst)) /\
  ((2 < i)%nat -> d.(data_len) = t.(t_len)).

Definition b2n (b : bool) : nat := if b then 1 else 0.

Record renode_ok (k i : nat) (s : system W) : Prop := {
  rn_script : s.(script) = script_at k i;
  rn_index : (k < length ts /\ i < 7 \/ k = length ts /\ i = 0)%nat;
  rn_starts : s.(pins).(starts) = (k + b2n (3 <? i))%nat;
  rn_awaited : s.(awaited) = (k + b2n (5 <? i))%nat;
  rn_free : s.(pins).(bus_free_next) = (4 <? i)%nat;
  rn_registers : forall t, ts !! k = Some t -> registers_ok i t s.(m_dmac);
}.

Definition thread_at (k i : nat) (l : label) (s : system W) : Prop :=
  let x := s.(pins) in
  match l with
  | Waiting j =>
      s.(m_dmac).(bus_request) = false /\ holds (memory_after j) s.(ram) /\
      ((j = k /\ (i < 6)%nat /\ x.(dma_bus_request) = false /\ x.(falls) = k /\ x.(grants) = k /\
        (i = 5%nat -> x.(dma_bus_free) = false)) \/
       (j = S k /\ (4 < i)%nat /\ x.(dma_bus_free) = true /\ x.(grants) = S k /\
        x.(falls) = (k + b2n (negb x.(dma_bus_request)))%nat /\
        (i = 6%nat -> x.(dma_bus_request) = false)))
  | Requesting j =>
      j = k /\ (i = 4 \/ i = 5)%nat /\ s.(m_dmac).(bus_request) = true /\
      holds (memory_after k) s.(ram) /\ x.(falls) = k /\
      (if x.(dma_bus_free) && (i =? 5)%nat then x.(grants) = S k /\ x.(dma_bus_request) = true
       else x.(grants) = k)
  | Copying j d m =>
      j = k /\ i = 5%nat /\ s.(m_dmac) = d /\ d.(bus_request) = true /\ holds m s.(ram) /\
      x.(falls) = k /\ x.(dma_bus_free) = true /\ x.(grants) = S k /\ x.(dma_bus_request) = true
  end.

Definition Inv (ls : list label) (s : system W) : Prop :=
  exists l k i, ls = [l] /\ renode_ok k i s /\ thread_at k i l s.

(** The bus is the controller's. *)
Definition granted (s : system W) : Prop :=
  s.(pins).(dma_bus_request) = true /\ s.(pins).(dma_bus_free) = true.

Record guar (s s' : system W) : Prop := {
  gu_time : s'.(time) = s.(time);
  gu_memory : granted s \/ same_view view s.(ram) s'.(ram);
}.

Definition waits (l : label) (x : wait_on event) (s : system W) : Prop :=
  match l with
  | Waiting j => x = Wait_static /\ s.(pins).(starts) = j
  | Requesting j => x = Wait_event bus_free_posedge /\ s.(pins).(grants) = j
  | Copying _ _ _ => exists d, x = Wait_time d /\ 0 <= d
  end.

(** The thread never ends. *)
Definition final (_ : label) : Prop := False.

(** The copy loop may handle the transfer. *)
Record transfer_ok (t : transfer) : Prop := {
  to_src : 0 <= t.(t_src) < 2 ^ 32 /\ t.(t_src) + t.(t_len) <= 2 ^ 32;
  to_dst : 0 <= t.(t_dst) < 2 ^ 32 /\ t.(t_dst) + t.(t_len) <= 2 ^ 32;
  to_len : 0 <= t.(t_len) < 2 ^ 31;
  to_fuel : (Z.to_nat t.(t_len) < fuel)%nat;
  to_valid : forall j, 0 <= j < t.(t_len) -> valid (t.(t_src) + j) /\ valid (t.(t_dst) + j);
}.

(** Enough for every run: the thread goes round once per transfer and then
    waits. *)
Definition example (d : dmac) (w : W) : config := new_system d w (script_of ts) (S (length ts)).

Definition reaches (d : dmac) (w : W) (r : res config) : Prop := rtc rstep (Ok (example d w)) r.
End System.

(** ** Lemmas *)

(** *** The bus *)

(** During a transfer the registers stay as they are. *)
Definition copying {W} (h : dmac) (x : wait_on event) (s : dmac * W) : Prop :=
  s.1 = h /\ timed x s.2.

Lemma within_wp {W A} (view : W -> Z -> Z) h (p : prog event W A) (Q : A -> W -> Prop) : forall w0,
  wp (same_view view) timed p Q ->
  wp (stable view) (copying h) (within_prog snd put_ram (h, w0) p) (fun a s => s.1 = h /\ Q a s.2).
Proof.
  induction p as [w a|f|x w k IH]; cbn; intros w0; [done|done|]. intros [Hx Hk].
  split; [done|]. intros [h' w'] [Hh Hw]. cbn in Hh, Hw. subst h'. by apply IH, Hk.
Qed.

Lemma dmac_bus_wp {W} (view : W -> Z -> Z) bus h p t w (Q : payload * sc_time -> dmac * W -> Prop) :
  wp (same_view view) timed (bus p t w) (fun r w' => Q r (h, w')) ->
  wp (stable view) (copying h) (dmac_bus bus p t (h, w)) Q.
Proof.
  intros Hp. eapply wp_mono; [|exact (within_wp view h _ _ w Hp)].
  intros r [h' w'] [Hh HQ]. cbn in Hh, HQ. by subst h'.
Qed.

#[export] Instance dmac_bus_memory {W} (view : W -> Z -> Z) valid bus h :
  RamBus view valid bus -> MemoryBus view valid (eq h) (copying h) (dmac_bus bus).
Proof.
  intros HB. split; intros a x t [h' w] Q Ha Hh HQ; cbn in Hh; subst h'; apply dmac_bus_wp.
  - apply ram_read; [done|]. intros w' t' Hw'. by apply HQ.
  - apply ram_write; [done|]. intros w' t' Hw'. by apply HQ.
Qed.

(** *** The registers *)

Lemma data_word_store o v : 0 <= v < 2 ^ 32 -> data_word 4 (store_word o v) = Ok v.
Proof.
  intros Hv. unfold data_word. erewrite data_read_Ok; [|reflexivity|rewrite le_encode_length; lia].
  rewrite bind_Ok. f_equal. rewrite take_ge by (rewrite le_encode_length; lia).
  rewrite le_decode_encode. apply Z.mod_small. lia.
Qed.

Lemma store_src d v : 0 <= v < 2 ^ 32 ->
  receive_b_transport d (store_word 0x4 v) = Ok (set_addr_src v d, false).
Proof. intros Hv. unfold receive_b_transport. cbn [is_write store_word]. rewrite data_word_store by done. done. Qed.

Lemma store_dst d v : 0 <= v < 2 ^ 32 ->
  receive_b_transport d (store_word 0x8 v) = Ok (set_addr_dst v d, false).
Proof. intros Hv. unfold receive_b_transport. rewrite data_word_store by done. done. Qed.

Lemma store_len d v : 0 <= v < 2 ^ 32 ->
  receive_b_transport d (store_word 0xC v) = Ok (set_data_len v d, false).
Proof. intros Hv. unfold receive_b_transport. rewrite data_word_store by done. done. Qed.

Lemma store_start d : receive_b_transport d (store_word 0x10 1) = Ok (d, true).
Proof. done. Qed.

(** *** The transfers *)

Lemma transferred_app ts1 ts2 m : transferred (ts1 ++ ts2) m = transferred ts2 (transferred ts1 m).
Proof. revert m; induction ts1 as [|t ts1 IH]; cbn; intros m; [done|]. apply IH. Qed.

Lemma script_of_cons t ts : script_of (t :: ts) = turn_of t ++ script_of ts.
Proof. done. Qed.

Section Proofs.
Context {W : Type} (view : W -> Z -> Z) (valid : Z -> Prop).
Context (bus : payload -> sc_time -> proc event W (payload * sc_time)).
Context `{HB : !RamBus view valid bus}.
Context (fuel : nat) (data : Z) (ts : list transfer) (m0 : Z -> Z).
Context (Hts : Forall (transfer_ok valid fuel) ts).

Notation script_at := (script_at ts).
Notation memory_after := (memory_after ts m0).
Notation renode_ok := (renode_ok (W := W) ts).
Notation thread_at := (thread_at view ts m0).
Notation Inv := (Inv view ts m0).
Notation guar := (guar view).
Notation holds := (holds view).
Notation pool_inv := (pool_inv ready Inv guar waits final).
Notation thread_ok := (thread_ok ready Inv guar waits final 0).
Notation wtwp := (wtwp get_dmac put_dmac ready Inv guar waits 0).
Notation put_dmac := (put_dmac (W := W)).

Lemma memory_after_S k t : ts !! k = Some t ->
  memory_after (S k) = copied (Z.to_nat t.(t_len)) t.(t_src) t.(t_dst) (memory_after k).
Proof. intros Ht. unfold DmaSystem.memory_after. rewrite (take_S_r _ _ _ Ht), transferred_app. done. Qed.

Lemma script_at_lt k i t : ts !! k = Some t -> (i < 7)%nat ->
  script_at k i = drop i (turn_of t) ++ script_of (drop (S k) ts).
Proof.
  intros Ht Hi. unfold DmaSystem.script_at. rewrite (drop_S _ _ _ Ht), script_of_cons.
  apply drop_app_le. cbn. lia.
Qed.

Lemma script_at_end k : (length ts <= k)%nat -> script_at k 0 = [].
Proof. intros Hk. unfold DmaSystem.script_at. by rewrite (drop_ge ts k). Qed.

Lemma the_transfer k : (k < length ts)%nat -> exists t, ts !! k = Some t /\ transfer_ok valid fuel t.
Proof.
  intros Hk. destruct (lookup_lt_is_Some_2 ts k Hk) as [t Ht]. exists t. split; [done|].
  rewrite Forall_lookup in Hts. by eapply Hts.
Qed.

(** *** Renode's steps *)

(** After its last action Renode is about to start the next transfer. *)
Lemma renode_ok_next k s : (k < length ts)%nat -> s.(script) = script_at k 7 ->
  s.(pins).(starts) = S k -> s.(awaited) = S k -> s.(pins).(bus_free_next) = false ->
  renode_ok (S k) 0 s.
Proof.
  intros Hk Hs Hst Ha Hf. destruct (the_transfer k Hk) as (t & Ht & _). split; cbn.
  - rewrite Hs. unfold DmaSystem.script_at. by rewrite (drop_S _ _ _ Ht), script_of_cons.
  - lia.
  - by rewrite Nat.add_0_r.
  - by rewrite Nat.add_0_r.
  - done.
  - intros t' _. repeat split; lia.
Qed.

(** An action that keeps Renode at this transfer. *)
Lemma renode_ok_here k i s s' : renode_ok k i s -> (i < 6)%nat -> (k < length ts)%nat ->
  s'.(script) = script_at k (S i) ->
  s'.(pins).(starts) = (s.(pins).(starts) + b2n (i =? 3))%nat ->
  s'.(awaited) = (s.(awaited) + b2n (i =? 5))%nat ->
  s'.(pins).(bus_free_next) = (4 <? S i)%nat ->
  (forall t, ts !! k = Some t -> registers_ok (S i) t s'.(m_dmac)) ->
  renode_ok k (S i) s'.
Proof.
  intros [] Hi Hk Hs Hst Ha Hf Hr. split; [done|lia| | |done|done].
  - rewrite Hst, rn_starts0. destruct i as [|[|[|[|[|[|]]]]]]; cbn; lia.
  - rewrite Ha, rn_awaited0. destruct i as [|[|[|[|[|[|]]]]]]; cbn; lia.
Qed.

(** A register access, while the thread waits. *)
Lemma thread_at_write k i l s s' : thread_at k i l s -> (i < 4)%nat ->
  s'.(m_dmac).(bus_request) = s.(m_dmac).(bus_request) -> s'.(ram) = s.(ram) ->
  s'.(pins).(dma_bus_request) = s.(pins).(dma_bus_request) ->
  s'.(pins).(falls) = s.(pins).(falls) -> s'.(pins).(grants) = s.(pins).(grants) ->
  thread_at k (S i) l s'.
Proof.
  intros Hl Hi Hd Hw Hr Hf Hg. destruct l as [j|j|j d m]; cbn in *.
  - rewrite Hd, Hw, Hr, Hf, Hg. destruct Hl as (H1 & H2 & [(H3 & H4 & H5 & H6 & H7 & H8)|(_ & H3 & _)]); [|lia].
    split_and!; [done|done|]. left. split_and!; [done|lia|done|done|done|lia].
  - lia.
  - lia.
Qed.

(** What an action changes of the state that the next phase depends on. *)
Definition stirs (s s' : system W) : Prop :=
  s'.(time) = s.(time) /\
  (unsettled s'.(m_dmac).(bus_request) s'.(pins) <= S (unsettled s.(m_dmac).(bus_request) s.(pins)))%nat.

Definition acted (ls : list label) (x : action) (rest : list action) (s : system W) : Prop :=
  exists s', exec x rest s = Ok s' /\ Inv ls s' /\ s'.(script) = rest /\ stirs s s'.

(** From the start command on all registers are set. *)
Lemma registers_late k i j s : renode_ok k i s -> (2 < i)%nat ->
  forall t, ts !! k = Some t -> registers_ok j t s.(m_dmac).
Proof.
  intros Hk Hi t Ht. destruct (rn_registers _ _ _ _ Hk t Ht) as (H1 & H2 & H3).
  split; [|split]; intros _; [apply H1|apply H2|apply H3]; lia.
Qed.

(** A register write or the start command. *)
Lemma write_ok k i l o v d b rest s : renode_ok k i s -> thread_at k i l s -> (i < 4)%nat ->
  (k < length ts)%nat -> rest = script_at k (S i) ->
  receive_b_transport s.(m_dmac) (store_word o v) = Ok (d, b) -> b = (i =? 3)%nat ->
  d.(bus_request) = s.(m_dmac).(bus_request) ->
  (forall t, ts !! k = Some t -> registers_ok (S i) t d) ->
  acted [l] (Write_double_word o v) rest s.
Proof.
  intros Hk Hl Hi Hlt -> Hd -> Hreq Hregs. unfold acted, exec. rewrite Hd, bind_Ok.
  eexists. split; [done|]. split; [|split; [done|]].
  - exists l, k, (S i). split; [done|]. split.
    + apply (renode_ok_here k i s); cbn; try done; try lia.
      * destruct (Nat.eqb_spec i 3); cbn; lia.
      * destruct (Nat.eqb_spec i 5); cbn; lia.
      * rewrite (rn_free _ _ _ _ Hk). by destruct i as [|[|[|[|]]]]; try lia.
    + by apply (thread_at_write k i l s).
  - split; [done|]. cbn. rewrite Hreq. unfold unsettled. cbn. lia.
Qed.

Lemma stirs_free s s' : s'.(time) = s.(time) -> s'.(m_dmac) = s.(m_dmac) ->
  s'.(pins).(dma_bus_request) = s.(pins).(dma_bus_request) -> stirs s s'.
Proof.
  intros Ht Hd Hr. split; [done|]. unfold unsettled. rewrite Hd, Hr.
  destruct (eqb _ _), (eqb _ _), (eqb _ _); lia.
Qed.

Lemma gpio_up_ok k l rest s : renode_ok k 4 s -> thread_at k 4 l s -> (k < length ts)%nat ->
  rest = script_at k 5 -> enabled (On_gpio_2 true) s = true -> acted [l] (On_gpio_2 true) rest s.
Proof.
  intros Hk Hl Hlt -> He. cbn in He. rewrite (rn_free _ _ _ _ Hk) in He. cbn in He.
  assert (Hfree : dma_bus_free (pins s) = false) by (by destruct (dma_bus_free (pins s))).
  eexists. split; [done|]. split; [|split; [done|by apply stirs_free]].
  exists l, k, 5%nat. split; [done|]. split.
  - apply (renode_ok_here k 4 s); cbn; try done; try lia. apply (registers_late _ _ _ _ Hk). lia.
  - destruct l as [j|j|j d m]; cbn in *; rewrite Hfree in *; cbn in *; [| |lia].
    2: { destruct Hl as (H1 & _ & H3 & H4 & H5 & H6). split_and!; [done|by right|done..]. }
    destruct Hl as (H1 & H2 & [(H3 & H4 & H5 & H6 & H7 & H8)|(_ & H3 & _)]); [|lia].
    split_and!; [done|done|]. left. split_and!; [done|lia|done..].
Qed.

Lemma await_ok k l rest s : renode_ok k 5 s -> thread_at k 5 l s -> (k < length ts)%nat ->
  rest = script_at k 6 -> enabled Await_transfer s = true -> acted [l] Await_transfer rest s.
Proof.
  intros Hk Hl Hlt -> He. cbn in He. apply Nat.ltb_lt in He. rewrite (rn_awaited _ _ _ _ Hk) in He. cbn in He.
  eexists. split; [done|]. split; [|split; [done|by apply stirs_free]].
  exists l, k, 6%nat. split; [done|]. split.
  - apply (renode_ok_here k 5 s); cbn; try done; try lia.
    + by rewrite (rn_free _ _ _ _ Hk).
    + apply (registers_late _ _ _ _ Hk). lia.
  - destruct l as [j|j|j d m]; cbn in *; [|lia..].
    destruct Hl as (H1 & H2 & [(_ & _ & _ & H3 & _)|(H3 & H4 & H5 & H6 & H7 & H8)]); [lia|].
    split_and!; [done|done|]. right. split_and!; [done|lia|done|done|done|]. intros _.
    destruct (dma_bus_request (pins s)); [|done]. cbn in H7. lia.
Qed.

Lemma gpio_down_ok k l rest s : renode_ok k 6 s -> thread_at k 6 l s -> (k < length ts)%nat ->
  rest = script_at k 7 -> acted [l] (On_gpio_2 false) rest s.
Proof.
  intros Hk Hl Hlt ->. eexists. split; [done|]. split; [|split; [done|by apply stirs_free]].
  pose proof (rn_starts _ _ _ _ Hk) as Hst. pose proof (rn_awaited _ _ _ _ Hk) as Ha. cbn in Hst, Ha.
  exists l, (S k), 0%nat. split; [done|]. split.
  - apply renode_ok_next; cbn; try done; lia.
  - destruct l as [j|j|j d m]; cbn in *; [|lia..].
    destruct Hl as (H1 & H2 & [(_ & H3 & _)|(H3 & H4 & H5 & H6 & H7 & H8)]); [lia|].
    rewrite H8 in * by done. cbn in H7. split_and!; [done|done|]. left.
    split_and!; [done|lia|done|lia|done|lia].
Qed.

Lemma exec_ok ls s x rest : Inv ls s -> s.(script) = x :: rest -> enabled x s = true ->
  acted ls x rest s.
Proof.
  intros (l & k & i & -> & Hk & Hl) Hs He. pose proof (rn_script _ _ _ _ Hk) as Hsc. rewrite Hs in Hsc.
  destruct (rn_index _ _ _ _ Hk) as [[Hlt Hi]|[-> ->]]; [|by rewrite script_at_end in Hsc].
  destruct (the_transfer k Hlt) as (t & Ht & Hok). destruct Hok as [Hsrc Hdst Hlen _ _].
  assert (Hrest : rest = script_at k (S i)).
  { unfold DmaSystem.script_at in *. change (S i) with (1 + i)%nat. rewrite Nat.add_comm, <- drop_drop, <- Hsc. done. }
  rewrite (script_at_lt k i t Ht Hi) in Hsc.
  assert (Hregs := rn_registers _ _ _ _ Hk t Ht).
  assert (Hsame : forall d, registers_ok (S i) t d -> forall t', ts !! k = Some t' -> registers_ok (S i) t' d).
  { intros d Hd t' Ht'. by simplify_eq. }
  destruct i as [|[|[|[|[|[|[|]]]]]]]; [..|lia]; cbn in Hsc; injection Hsc as -> _.
  - apply (write_ok k 0 _ _ _ (set_addr_src (t_src t) (m_dmac s)) false); try done; try lia; [apply store_src; lia|].
    apply Hsame. split; [done|]. split; lia.
  - apply (write_ok k 1 _ _ _ (set_addr_dst (t_dst t) (m_dmac s)) false); try done; try lia; [apply store_dst; lia|].
    apply Hsame. destruct Hregs as (R1 & _). split; cbn; [intros _; apply R1; lia|]. split; [done|lia].
  - apply (write_ok k 2 _ _ _ (set_data_len (t_len t) (m_dmac s)) false); try done; try lia; [apply store_len; lia|].
    apply Hsame. destruct Hregs as (R1 & R2 & _). split; cbn; [intros _; apply R1; lia|].
    split; [intros _; apply R2; lia|done].
  - apply (write_ok k 3 _ _ _ (m_dmac s) true); try done; try lia. apply (registers_late _ _ _ _ Hk). lia.
  - by eapply gpio_up_ok.
  - by eapply await_ok.
  - by eapply gpio_down_ok.
Qed.

(** The thread has nothing to do until a signal changes. *)
Definition idle (l : label) (s : system W) : Prop :=
  match l with
  | Waiting j => (s.(pins).(starts) <= j)%nat
  | Requesting j => (s.(pins).(grants) <= j)%nat
  | Copying _ _ _ => True
  end.

Lemma renode_ok_same k i s s' : renode_ok k i s -> s'.(script) = s.(script) ->
  s'.(pins).(starts) = s.(pins).(starts) -> s'.(awaited) = s.(awaited) ->
  s'.(pins).(bus_free_next) = s.(pins).(bus_free_next) ->
  (forall t, registers_ok i t s.(m_dmac) -> registers_ok i t s'.(m_dmac)) -> renode_ok k i s'.
Proof.
  intros [] Hs Hst Ha Hf Hr. split; [congruence|done|congruence|congruence|congruence|]. auto.
Qed.

Lemma update_ok l s : Inv [l] s -> idle l s -> Inv [l] (update s).
Proof.
  intros (l' & k & i & [= <-] & Hk & Hl) Hidle. exists l, k, i. split; [done|].
  split; [by apply (renode_ok_same k i s)|].
  pose proof (rn_starts _ _ _ _ Hk) as Hst. pose proof (rn_free _ _ _ _ Hk) as Hfree.
  destruct l as [j|j|j d m]; cbn in *; rewrite Hfree.
  - destruct Hl as (H1 & H2 & [(H3 & H4 & H5 & H6 & H7 & H8)|(H3 & H4 & H5 & H6 & H7 & H8)]); rewrite H1.
    + split_and!; [done|done|]. left. destruct i as [|[|[|[|i]]]]; cbn in *; rewrite H5; cbn;
        [split_and!; (done || lia)..|lia].
    + split_and!; [done|done|]. right. rewrite H5, andb_false_r. destruct i as [|[|[|[|[|i]]]]]; try lia.
      cbn. split_and!; [done|lia|done|done| |done]. destruct (dma_bus_request (pins s)); cbn in *; lia.
  - destruct Hl as (H1 & H2 & H3 & H4 & H5 & H6). rewrite H3, andb_false_r. split_and!; [done|done|done|done|done|].
    destruct H2 as [-> | ->]; cbn in *; [by rewrite andb_false_r in H6|].
    rewrite andb_true_r in H6. destruct (dma_bus_free (pins s)); cbn; [lia|]. split; [congruence|done].
  - destruct Hl as (H1 & -> & H2 & H3 & H4 & H5 & H6 & H7 & H8). subst d. rewrite H3, H6, andb_false_r.
    split_and!; done.
Qed.

Lemma elapsed_ok ls t s : Inv ls s -> Inv ls (elapsed t s).
Proof. intros (l & k & i & -> & Hk & Hl). exists l, k, i. split; [done|]. split; [by apply (renode_ok_same k i s)|done]. Qed.

(** *** The thread *)

(** A start: which transfer it is for. *)
Lemma Inv_started ls s j : Inv ls s -> ls !! 0%nat = Some (Waiting j) -> (j < s.(pins).(starts))%nat ->
  ls = [Waiting j] /\ (j < length ts)%nat /\
  exists i, (i = 4 \/ i = 5)%nat /\ renode_ok j i s /\ thread_at j i (Waiting j) s.
Proof.
  intros (l & k & i & -> & Hk & Hl) [= ->] Hst. rewrite (rn_starts _ _ _ _ Hk) in Hst.
  pose proof Hl as (_ & _ & [(-> & Hi & _)|(-> & _)]); [|destruct (3 <? i)%nat; cbn in Hst; lia].
  destruct (Nat.ltb_spec 3 i); cbn in Hst; [|lia].
  split; [done|]. split; [destruct (rn_index _ _ _ _ Hk); lia|]. exists i. split; [lia|done].
Qed.

(** The thread requests the bus. *)
Lemma request_ok ls s j x : Inv ls s -> ls !! 0%nat = Some (Waiting j) -> (j < s.(pins).(starts))%nat ->
  x = (set_bus_request true s.(m_dmac), s.(ram)) ->
  publish Inv guar 0 ls s (Requesting j) (put_dmac x s) /\
  waits (Requesting j) (Wait_event bus_free_posedge) (put_dmac x s).
Proof.
  intros HI Hls Hst ->. destruct (Inv_started _ _ _ HI Hls Hst) as (-> & Hj & i & Hi & Hk & Hl).
  destruct Hl as (H1 & H2 & [(_ & H4 & H5 & H6 & H7 & H8)|(H3 & _)]); [|lia].
  split; [|by split]. split; [split; [done|by right]|]. exists (Requesting j), j, i. split; [done|]. split.
  - by apply (renode_ok_same j i s).
  - cbn. split_and!; try done. destruct Hi as [-> | ->]; cbn; [rewrite andb_false_r|rewrite H8 by done]; exact H7.
Qed.

(** What the thread knows while the bus is its own. *)
Definition in_copy (j : nat) (d : dmac) (s : system W) : Prop :=
  s.(m_dmac) = d /\ (forall ls, length ls = 1%nat -> Inv (<[0%nat := Copying j d (view s.(ram))]> ls) s).

Lemma in_copy_granted j d s : in_copy j d s -> granted s.
Proof.
  intros [_ HI]. destruct (HI [Waiting 0] eq_refl) as (l & k & i & [= <-] & _ & Hl). split; apply Hl.
Qed.

Lemma in_copy_ram j d s w : in_copy j d s -> in_copy j d (put_dmac (d, w) s).
Proof.
  intros [Hd HI]. split; [done|]. intros ls Hls. destruct ls as [|l0 [|]]; try done.
  destruct (HI [l0] eq_refl) as (l & k & i & [= <-] & Hk & Hl).
  eexists _, k, i. split; [done|]. split; [apply (renode_ok_same k i s); try done; by rewrite Hd|].
  cbn in *. destruct Hl as (H1 & H2 & H3 & H4 & H5 & H6 & H7 & H8 & H9). by split_and!.
Qed.

Lemma copying_in_copy ls s j d m : Inv ls s -> ls !! 0%nat = Some (Copying j d m) ->
  in_copy j d s /\ holds m s.(ram) /\ length ls = 1%nat.
Proof.
  intros (l & k & i & -> & Hk & Hl) [= ->]. pose proof Hl as (H1 & H2 & H3 & H4 & H5 & H6 & H7 & H8 & H9).
  split_and!; [|done|done]. split; [done|]. intros [|? [|]] Hls; try done.
  eexists _, k, i. split; [done|]. by split_and!.
Qed.

(** The registers are those of the transfer. *)
Lemma in_copy_registers j d s t : in_copy j d s -> ts !! j = Some t ->
  d.(addr_src) = t.(t_src) /\ d.(addr_dst) = t.(t_dst) /\ d.(data_len) = t.(t_len).
Proof.
  intros [<- HI] Ht. destruct (HI [Waiting 0] eq_refl) as (l & k & i & [= <-] & Hk & <- & -> & _).
  destruct (registers_late _ _ 3 _ Hk ltac:(lia) t Ht) as (R1 & R2 & R3).
  split; [apply R1; lia|]. split; [apply R2; lia|apply R3; lia].
Qed.

(** The bus is granted. *)
Lemma granted_in_copy ls s j : Inv ls s -> ls !! 0%nat = Some (Requesting j) ->
  (j < s.(pins).(grants))%nat ->
  in_copy j s.(m_dmac) s /\ holds (memory_after j) s.(ram) /\ length ls = 1%nat.
Proof.
  intros (l & k & i & -> & Hk & Hl) [= ->] Hg. destruct Hl as (-> & Hi & H3 & H4 & H5 & H6).
  destruct (dma_bus_free (pins s)) eqn:Hf, (Nat.eqb_spec i 5); cbn in H6; try lia. destruct H6 as [H6 H7].
  split_and!; [|done|done]. split; [done|]. intros [|? [|]] Hls; try done.
  eexists _, k, i. split; [done|]. split; [done|]. cbn. by split_and!.
Qed.

(** What is proved of the copy loop by itself holds of it in the system. *)
Lemma wp_in_copy {A} j d (p : prog event (dmac * W) A) (Q : A -> dmac * W -> Prop)
    (Q' : list label -> system W -> A -> dmac * W -> Prop) :
  (forall ls s0 a x, length ls = 1%nat -> in_copy j d s0 -> Q a x -> Q' ls s0 a x) ->
  forall ls s0, length ls = 1%nat -> in_copy j d s0 -> wp (stable view) (copying d) p Q ->
  wtwp ls s0 p Q'.
Proof.
  intros HQ. induction p as [x a|f|w x k IH]; cbn; intros ls s0 Hls Hin; [by apply HQ|done|].
  intros [[Hd Hw] Hk]. destruct x as [d' v]. cbn in Hd. subst d'. exists (Copying j d (view v)). split_and!.
  - split; [split; [done|left; by eapply in_copy_granted]|]. by apply (in_copy_ram j d s0 v Hin).
  - exact Hw.
  - intros ls' s' Hl HI _. destruct (copying_in_copy _ _ _ _ _ HI Hl) as (Hin' & Hv & Hls').
    apply IH; [done|done|]. apply Hk. split; cbn; [by apply Hin'|exact Hv].
Qed.

(** The copy is over. *)
Lemma release_ok ls s0 j d w : length ls = 1%nat -> in_copy j d s0 -> holds (memory_after (S j)) w ->
  publish Inv guar 0 ls s0 (Waiting (S j)) (put_dmac (set_bus_request false d, w) s0) /\
  waits (Waiting (S j)) Wait_static (put_dmac (set_bus_request false d, w) s0).
Proof.
  intros Hls Hin Hw. pose proof (in_copy_granted _ _ _ Hin) as Hg. destruct Hin as [Hd HI].
  destruct ls as [|l0 [|]]; try done. destruct (HI [l0] eq_refl) as (l & k & i & [= <-] & Hk & Hl).
  destruct Hl as (<- & -> & H2 & H3 & H4 & H5 & H6 & H7 & H8). pose proof (rn_starts _ _ _ _ Hk) as Hst.
  cbn in Hst. split; [|split; cbn; [done|lia]]. split; [split; [done|by left]|].
  eexists _, j, 5%nat. split; [done|]. split.
  - apply (renode_ok_same j 5 s0); try done. by rewrite Hd.
  - cbn. split_and!; [done|exact Hw|]. right. split_and!; [done|lia|done|done| |done]. rewrite H8, H5. cbn. lia.
Qed.

(** One round of the thread, from one wait for a start to the next. *)
Lemma body_ok j ls s0 x (K : list label -> system W -> unit -> dmac * W -> Prop) :
  publish Inv guar 0 ls s0 (Waiting j) (put_dmac x s0) -> waits (Waiting j) Wait_static (put_dmac x s0) ->
  (forall ls s0 x, (j < length ts)%nat -> publish Inv guar 0 ls s0 (Waiting (S j)) (put_dmac x s0) ->
     waits (Waiting (S j)) Wait_static (put_dmac x s0) -> K ls s0 tt x) ->
  wtwp ls s0 (dmac_body (dmac_bus bus) fuel data x) K.
Proof.
  intros Hp Hw HK. exists (Waiting j). split; [done|]. split; [done|]. intros ls1 s1 Hl1 HI1 Hr1.
  destruct Hw as [_ Hst]. change ((pins (put_dmac x s0)).(starts) < (pins s1).(starts))%nat in Hr1. rewrite Hst in Hr1.
  destruct (Inv_started _ _ _ HI1 Hl1 Hr1) as (_ & Hj & _).
  exists (Requesting j). destruct (request_ok _ _ _ _ HI1 Hl1 Hr1 eq_refl) as [Hp1 Hw1].
  split; [exact Hp1|]. split; [exact Hw1|]. intros ls2 s2 Hl2 HI2 Hr2.
  destruct Hw1 as [_ Hg]. change ((pins s1).(grants) < (pins s2).(grants))%nat in Hr2.
  change ((pins s1).(grants) = j) in Hg. rewrite Hg in Hr2.
  destruct (granted_in_copy _ _ _ HI2 Hl2 Hr2) as (Hin & Hm & Hls).
  destruct (the_transfer j Hj) as (t & Ht & [Hsrc Hdst Hlen Hf Hv]).
  destruct (in_copy_registers _ _ _ _ Hin Ht) as (R1 & R2 & R3).
  set (d := m_dmac s2) in *.
  assert (Hcopy : wp (stable view) (copying d)
    (copy_loop (dmac_bus bus) fuel 0 (addr_src d) (addr_dst d) data (d, ram s2))
    (fun _ x => x.1 = d /\ holds (memory_after (S j)) x.2)).
  { apply (copy_loop_spec view valid (eq d) (copying d) (dmac_bus bus) (Z.to_nat (t_len t)));
      cbn [fst snd]; rewrite ?R1, ?R2, ?R3; try lia; try done.
    - intros i Hi. apply Hv. lia.
    - intros w Hw. split; [done|]. intros b. cbn [snd]. rewrite Hw, (memory_after_S j t Ht). by apply copied_ext. }
  apply (wtwp_bind _ _ _ _ _ _ _ (copy_loop (dmac_bus bus) fuel 0 (addr_src d) (addr_dst d) data)
    (fun _ => p_modify (fun s => (set_bus_request false s.1, s.2)))).
  apply (wp_in_copy j d _ (fun _ x => x.1 = d /\ holds (memory_after (S j)) x.2));
    [|exact Hls|exact Hin|exact Hcopy].
  intros ls3 s3 [] [d3 w3] Hls3 Hin3 [Hd3 Hm3]. cbn in Hd3. subst d3.
  destruct (release_ok _ _ _ _ _ Hls3 Hin3 Hm3) as [Hp3 Hw3]. by apply HK.
Qed.

Lemma dma_loop_ok m : forall j ls s0 x, (j + m = length ts)%nat ->
  publish Inv guar 0 ls s0 (Waiting j) (put_dmac x s0) -> waits (Waiting j) Wait_static (put_dmac x s0) ->
  wtwp ls s0 (dmac_loop (dmac_bus bus) fuel data (S m) x)
    (fun ls s0 a x => finished Inv guar final 0 ls s0 a (put_dmac x s0)).
Proof.
  induction m as [|m IH]; intros j ls s0 x Hm Hp Hw; unfold dmac_loop; cbn [p_repeat]; apply wtwp_bind;
    apply (body_ok j _ _ _ _ Hp Hw); intros ls1 s1 x1 Hj Hp1 Hw1; [lia|].
  apply (IH (S j)); [lia|done|done].
Qed.

(** *** Steps *)

Record good (ls : list label) (c : pool event (system W)) : Prop := {
  g_pool : pool_inv ls c;
  g_timely : forall t, due time c t -> c.(shared).(time) <= t;
}.

Lemma dma_waits_nonneg l d s : waits (W := W) l (Wait_time d) s -> 0 <= d.
Proof. destruct l; cbn; [by intros [? _]..|]. by intros (d' & [= ->] & ?). Qed.

Lemma dma_new_system_good d w : holds m0 w -> exists ls, good ls (example bus fuel data ts d w).
Proof.
  intros Hw. set (s := mk_system SC_ZERO_TIME (set_bus_request false d) w new_wires 0 (script_of ts)).
  assert (HI : Inv [Waiting 0] s).
  { exists (Waiting 0), 0%nat, 0%nat. split; [done|]. split.
    - split; cbn; try done; try lia. intros t _. split; [lia|]. split; lia.
    - cbn. split_and!; [done|exact Hw|]. left. split_and!; (done || lia). }
  assert (Ht : twp ready Inv guar waits 0 [Waiting 0] s (dmac_thread bus fuel data (S (length ts)) s)
                 (finished Inv guar final 0)).
  { apply wtwp_within. apply (dma_loop_ok (length ts) 0); [done| |by split].
    split; [by split; [|right]|]. exact HI. }
  destruct (twp_stops _ _ _ _ _ _ _ _ _ Ht) as [(f & _ & Hf)|(l & s' & [= <-] & [_ HI'] & Hok)];
    [destruct Hf|]. cbn in HI'.
  exists [l]. split.
  - split; [exact HI'|done|]. intros [|n] l' p; cbn; [|done]. by intros [= <-] [= <-].
  - intros t (n & e & s0 & k & Hn & _). destruct n as [|n]; cbn in Hn; done.
Qed.

Definition step_safe (c : pool event (system W)) (r : res (pool event (system W))) : Prop :=
  exists ls' c', r = Ok c' /\ good ls' c' /\
    (granted c.(shared) \/ same_view view c.(shared).(ram) c'.(shared).(ram)).

Lemma exec_ram x rest (s s' : system W) : exec x rest s = Ok s' -> s'.(ram) = s.(ram).
Proof.
  destruct x as [o v|b|]; cbn; [|by intros [= <-]..].
  intros H. apply bind_Ok_inv in H as ([d b] & _ & [= <-]). done.
Qed.

(** The thread of a pool that keeps the invariant. *)
Lemma the_thread ls c : good ls c -> exists l p, ls = [l] /\ c.(threads) = [p] /\ thread_ok l p.
Proof.
  intros [[(l & k & i & -> & _) Hlen Hok] _]. destruct (threads c) as [|p [|]] eqn:Hc; try done.
  exists l, p. split_and!; [done|done|]. apply (Hok 0%nat); by rewrite ?Hc.
Qed.

Lemma not_ready_idle l c : good [l] c -> (forall n, ~ is_ready ready c n) -> idle l c.(shared).
Proof.
  intros Hg Hn. destruct (the_thread _ _ Hg) as (l' & p & [= <-] & Hc & Hok).
  destruct p as [| |x s0 k]; [done|done|]. destruct Hok as [Hw _].
  assert (Hnr : ~ ready 0 x s0 c.(shared)).
  { intros Hr. apply (Hn 0%nat). exists x, s0, k. by rewrite Hc. }
  destruct l as [j|j|j d m]; cbn in Hw |- *; [destruct Hw as [-> <-]; cbn in Hnr; lia..|done].
Qed.

(** A step that leaves the threads alone. *)
Lemma kernel_step_good ls c s : good ls c -> Inv ls s ->
  (forall t, due time c t -> s.(time) <= t) -> good ls (mk_pool s c.(threads)).
Proof. intros [Hp _] HI Ht. split; [by apply (pool_inv_kernel _ _ _ _ _ _ _ _ Hp)|exact Ht]. Qed.

Lemma dma_step_good ls c r : good ls c -> step c r -> step_safe c r.
Proof.
  intros Hg Hs. pose proof Hg as [Hpool Htimely]. pose proof (pool_state _ _ _ _ _ _ _ Hpool) as HI.
  destruct Hs as [n r' Hres|x rest Hx He|Hn Hu|t Hn Hu Ht Hd Hmin].
  - destruct (resume_timely _ time _ _ _ _ _ _ _ _ dma_waits_nonneg (gu_time view) Hpool Htimely Hres)
      as (l & c' & -> & Hpool' & Hguar & Hdue). exists (<[n := l]> ls), c'. split; [done|]. split; [done|].
    apply (gu_memory _ _ _ Hguar).
  - destruct (exec_ok _ _ _ _ HI Hx He) as (s & Hs & HI' & _ & [Ht _]). rewrite Hs, bind_Ok.
    exists ls. eexists. split; [done|]. split; [|right; intros a; cbn; by rewrite (exec_ram _ _ _ _ Hs)].
    apply kernel_step_good; [done|done|]. by rewrite Ht.
  - destruct (the_thread _ _ Hg) as (l & p & -> & _). exists [l]. eexists. split; [done|]. split; [|by right].
    apply kernel_step_good; [done| |done]. apply update_ok; [done|]. by apply not_ready_idle.
  - exists ls. eexists. split; [done|]. split; [|by right]. apply kernel_step_good; [done| |done].
    by apply elapsed_ok.
Qed.

Lemma dma_reachable_good d w r : holds m0 w -> reaches bus fuel data ts d w r ->
  exists c, r = Ok c /\ exists ls, good ls c.
Proof.
  intros Hw. apply steps_keep.
  - intros c r' (ls & Hg) Hs. destruct (dma_step_good _ _ _ Hg Hs) as (ls' & c' & -> & Hg' & _). eauto.
  - eexists. split; [done|]. by apply dma_new_system_good.
Qed.

(** What can be seen while pin 1 is low. *)
Lemma low_holds ls s : Inv ls s -> s.(pins).(dma_bus_request) = false ->
  holds (memory_after s.(pins).(falls)) s.(ram).
Proof.
  intros (l & k & i & -> & _ & Hl) Hlow. destruct l as [j|j|j d m]; cbn in Hl.
  - destruct Hl as (_ & Hm & [(-> & _ & _ & -> & _)|(-> & _ & _ & _ & -> & _)]); [done|].
    rewrite Hlow. cbn. by rewrite Nat.add_1_r.
  - by destruct Hl as (-> & _ & _ & Hm & -> & _).
  - destruct Hl as (_ & _ & _ & _ & _ & _ & _ & _ & H). congruence.
Qed.

(** *** Termination *)

Definition pending (c : pool event (system W)) : nat :=
  2 * length c.(shared).(script) + unsettled c.(shared).(m_dmac).(bus_request) c.(shared).(pins) +
  Z.to_nat (horizon time c - c.(shared).(time)).

Lemma step_closer ls c c' : good ls c -> step c (Ok c') -> closer pending c' c.
Proof.
  intros Hg Hs. pose proof (pool_state _ _ _ _ _ _ _ (g_pool _ _ Hg)) as HI.
  remember (Ok c') as r eqn:Hr. destruct Hs as [n r' Hres|x rest Hx He|Hn Hu|t Hn Hu Ht Hd Hmin].
  - subst r'. left. by eapply resume_continues.
  - destruct (exec_ok _ _ _ _ HI Hx He) as (s & Hs & _ & Hsc & [Ht Hu]). rewrite Hs, bind_Ok in Hr.
    injection Hr as <-. right. split; [done|]. unfold pending, horizon. cbn [shared threads].
    rewrite Ht, Hsc, Hx. cbn [length]. lia.
  - injection Hr as <-. right. split; [done|]. unfold pending, horizon, unsettled in *. cbn.
    rewrite !eqb_reflx. lia.
  - injection Hr as <-. right. split; [done|]. pose proof (horizon_due time _ _ Hd).
    unfold pending, horizon in *. cbn [shared threads time elapsed m_dmac pins script] in *. lia.
Qed.

Lemma dma_good_terminates ls c : good ls c -> sn rstep (Ok c).
Proof.
  revert ls. induction (closer_wf pending c) as [c _ IH]. intros ls Hg. constructor.
  intros r (c0 & [= <-] & Hs). destruct (dma_step_good _ _ _ Hg Hs) as (ls' & c' & -> & Hg' & _).
  eapply IH; [|done]. by eapply step_closer.
Qed.

(** *** Where a run ends *)

Section Stuck.
Context (ls : list label) (c : pool event (system W)) (Hg : good ls c).
Context (Hstuck : forall r, ~ step c r).

Lemma stuck_not_ready n : ~ is_ready ready c n.
Proof. intros (x & s0 & k & Hn & Hr). eapply Hstuck, step_resume. by econstructor. Qed.

Lemma stuck_settled : unsettled c.(shared).(m_dmac).(bus_request) c.(shared).(pins) = 0%nat.
Proof.
  destruct (unsettled _ _) eqn:Hu; [done|]. exfalso. eapply Hstuck, step_update; [apply stuck_not_ready|].
  rewrite Hu. lia.
Qed.

Lemma stuck_not_due t : ~ due time c t.
Proof.
  intros Ht. destruct (due_minimum _ _ _ Ht) as (m & Hm & Hmin).
  pose proof (g_timely _ _ Hg m Hm) as Hle. destruct (Z.eq_dec (time (shared c)) m) as [He|Hne].
  - destruct Hm as (n & d & s0 & k & Hn & ->). apply (stuck_not_ready n). by exists (Wait_time d), s0, k.
  - eapply Hstuck, (step_elapse _ m); [apply stuck_not_ready|apply stuck_settled|lia|done|done].
Qed.

Lemma stuck_disabled x rest : c.(shared).(script) = x :: rest -> enabled x c.(shared) = false.
Proof.
  intros Hx. destruct (enabled x (shared c)) eqn:He; [|done]. exfalso. by eapply Hstuck, step_renode.
Qed.

Lemma settled_pins request (x : wires) : unsettled request x = 0%nat ->
  x.(dma_bus_request) = request /\ x.(dma_bus_free) = x.(bus_free_next).
Proof. unfold unsettled. destruct request, (dma_bus_request x), (bus_free_next x), (dma_bus_free x); done. Qed.

(** Every transfer has been awaited. *)
Lemma stuck_done : exists j, ls = [Waiting j] /\ renode_ok (length ts) 0 c.(shared) /\
  thread_at (length ts) 0 (Waiting j) c.(shared).
Proof.
  pose proof stuck_not_due as Hdue. destruct (the_thread _ _ Hg) as (l & p & -> & Hc & Hok).
  pose proof (not_ready_idle _ _ Hg stuck_not_ready) as Hidle.
  destruct (pool_state _ _ _ _ _ _ _ (g_pool _ _ Hg)) as (l' & k & i & [= <-] & Hk & Hl).
  destruct (settled_pins _ _ stuck_settled) as [Hreq Hfree]. rewrite (rn_free _ _ _ _ Hk) in Hfree.
  pose proof (rn_starts _ _ _ _ Hk) as Hst. pose proof (rn_awaited _ _ _ _ Hk) as Ha.
  pose proof (rn_script _ _ _ _ Hk) as Hsc. pose proof (rn_free _ _ _ _ Hk) as Hnext.
  assert (Hact : forall t x, ts !! k = Some t -> (i < 7)%nat -> head (drop i (turn_of t)) = Some x ->
    enabled x c.(shared) = false).
  { intros t x Ht Hi Hx. rewrite (script_at_lt k i t Ht Hi) in Hsc.
    destruct (drop i (turn_of t)) as [|y l0]; [done|]. injection Hx as ->. by eapply stuck_disabled. }
  destruct l as [j|j|j d m].
  - destruct (rn_index _ _ _ _ Hk) as [[Hlt Hi]|[-> ->]]; [|by exists j].
    destruct (the_transfer k Hlt) as (t & Ht & _). specialize (Hact t).
    destruct Hl as (H1 & _ & [(-> & H4 & _)|(-> & H4 & _ & _ & H7 & _)]); cbn in Hidle.
    + destruct i as [|[|[|[|i]]]]; try (by specialize (Hact _ Ht Hi eq_refl)). cbn in Hst. lia.
    + destruct i as [|[|[|[|[|[|[|i]]]]]]]; try lia; specialize (Hact _ Ht Hi eq_refl); cbn in Hact.
      * apply Nat.ltb_ge in Hact. rewrite Hreq, H1 in H7. cbn in *. lia.
      * rewrite Hnext, Hfree in Hact. done.
  - exfalso. destruct Hl as (-> & Hi & H3 & _ & _ & H6). cbn in Hidle.
    destruct (rn_index _ _ _ _ Hk) as [[Hlt _]|[-> ->]]; [|lia].
    destruct (the_transfer k Hlt) as (t & Ht & _). destruct Hi as [-> | ->].
    + specialize (Hact t _ Ht ltac:(lia) eq_refl). cbn in Hact. by rewrite Hnext, Hfree in Hact.
    + rewrite Hfree in H6. cbn in H6. lia.
  - exfalso. destruct p as [| |x s0 f]; [done|done|]. destruct Hok as [(e & -> & _) _].
    apply (Hdue (time s0 + e)). exists 0%nat, e, s0, f. by rewrite Hc.
Qed.
End Stuck.
End Proofs.

(** ** Properties *)

(** C9: in every reachable state of the DMA example with any list of transfers
    in the range of the copy loop, over any memory of Renode and whatever the
    order in which the thread, the signals, Renode's accesses and time advance,
    nothing has failed; whenever pin 1 is low, memory is what the transfers
    finished so far make of it; and a step changes memory only if pin 1
    (request) and pin 2 (grant) are both high. *)
Theorem dma_transfers_safe {W} (view : W -> Z -> Z) valid bus fuel data ts d w r :
  RamBus view valid bus -> Forall (transfer_ok valid fuel) ts ->
  reaches bus fuel data ts d w r ->
  exists c, r = Ok c /\
    (c.(shared).(pins).(dma_bus_request) = false -> forall a,
       view c.(shared).(ram) a = transferred (take c.(shared).(pins).(falls) ts) (view w) a) /\
    forall c', step c (Ok c') ->
      granted c.(shared) \/ same_view view c.(shared).(ram) c'.(shared).(ram).
Proof.
  intros HB Hts Hr. destruct (dma_reachable_good view valid bus fuel data ts (view w) Hts d w r) as (c & -> & ls & Hg);
    [done..|]. exists c. split; [done|]. split.
  - intros Hlow. eapply low_holds; [|done]. apply (pool_state _ _ _ _ _ _ _ (g_pool _ _ _ _ _ Hg)).
  - intros c' Hs. destruct (dma_step_good view valid fuel ts (view w) Hts ls c _ Hg Hs) as (ls' & c0 & [= <-] & _ & H).
    exact H.
Qed.

(** C10: every run of the DMA example ends: there is no infinite sequence of
    steps, and where no further step is possible Renode has seen every transfer
    begin and end, memory is what all of them in order make of it, and both pins
    are low. *)
Theorem dma_transfers_complete {W} (view : W -> Z -> Z) valid bus fuel data ts d w :
  RamBus view valid bus -> Forall (transfer_ok valid fuel) ts ->
  sn rstep (Ok (example bus fuel data ts d w)) /\
  forall r, reaches bus fuel data ts d w r -> nf rstep r ->
    exists c, r = Ok c /\ c.(shared).(script) = [] /\ c.(shared).(pins).(falls) = length ts /\
      c.(shared).(pins).(dma_bus_request) = false /\ c.(shared).(pins).(dma_bus_free) = false /\
      forall a, view c.(shared).(ram) a = transferred ts (view w) a.
Proof.
  intros HB Hts. split.
  - destruct (dma_new_system_good view valid bus fuel data ts (view w) Hts d w) as [ls Hg]; [done|].
    by eapply dma_good_terminates.
  - intros r Hr Hnf. destruct (dma_reachable_good view valid bus fuel data ts (view w) Hts d w r) as (c & -> & ls & Hg);
      [done..|]. exists c. split; [done|]. pose proof (steps_stuck _ _ Hnf) as Hstuck.
    destruct (stuck_done view valid fuel ts (view w) Hts ls c Hg Hstuck) as (j & -> & Hk & Hl).
    destruct (settled_pins _ _ (stuck_settled c Hstuck)) as [Hreq Hfree].
    destruct Hl as (H1 & Hm & [(-> & _ & _ & Hf & _)|(_ & H & _)]); [|lia].
    split; [rewrite (rn_script _ _ _ _ Hk); by apply script_at_end|]. split; [done|].
    split; [by rewrite Hreq|]. split; [by rewrite Hfree, (rn_free _ _ _ _ Hk)|].
    intros a. rewrite (Hm a). unfold memory_after. by rewrite take_ge.
Qed.

(** *** The transfer of the example's test, with a memory of Renode *)

(** A memory that takes a nanosecond per access. *)
Definition slow_ram (p : payload) (t : sc_time) : proc event (Z -> Z) (payload * sc_time) :=
  p_wait (Wait_time (sc_ns 1));;
  p_step (fun m => Ok
    match p.(command) with
    | TLM_READ_COMMAND => (m, (set_response_status TLM_OK_RESPONSE (set_data (Some [m p.(address)]) p), t))
    | _ => (fun b => if b =? p.(address) then data_of p else m b, (set_response_status TLM_OK_RESPONSE p, t))
    end).

Definition mapped (a : Z) : Prop := 0x20000000 <= a < 0x21000000.

#[export] Instance slow_ram_ok : RamBus (fun m : Z -> Z => m) mapped slow_ram.
Proof.
  split; intros a x t m Q _ HQ; apply wp_bind, wp_wait; try (by exists (sc_ns 1)); intros m' Hm; cbn.
  - rewrite Hm. by apply HQ.
  - apply HQ. intros b. by rewrite Hm.
Qed.

Definition hello : list Z := [0x48; 0x65; 0x6c; 0x6c; 0x6f].
Definition hello_ram (a : Z) : Z := nth (Z.to_nat (a - 0x20000000)) hello 0.
Definition test_transfer : transfer := mk_transfer 0x20000000 0x20000010 5.
Definition test_dmac : dmac := mk_dmac true 1 2 3.

Lemma test_transfer_ok : Forall (transfer_ok mapped 6) [test_transfer].
Proof. constructor; [|done]. split; cbn; unfold mapped; lia. Qed.

(** After the first register access. *)
Definition first_access : res (config (W := Z -> Z)) :=
  let c := example slow_ram 6 0 [test_transfer] test_dmac hello_ram in
  s ← exec (Write_double_word 0x4 0x20000000) (drop 1 (turn_of test_transfer)) c.(shared);
  Ok (mk_pool s c.(threads)).

Lemma dma_transfers_safe_witness :
  exists c, first_access = Ok c /\
    (c.(shared).(pins).(dma_bus_request) = false -> forall a,
       c.(shared).(ram) a = transferred (take c.(shared).(pins).(falls) [test_transfer]) hello_ram a) /\
    forall c', step c (Ok c') ->
      granted c.(shared) \/ same_view (fun m : Z -> Z => m) c.(shared).(ram) c'.(shared).(ram).
Proof.
  apply (dma_transfers_safe (fun m : Z -> Z => m) mapped slow_ram 6 0 [test_transfer] test_dmac hello_ram
    first_access slow_ram_ok test_transfer_ok).
  apply rtc_once. eexists. split; [reflexivity|]. by eapply step_renode.
Defined.

Lemma dma_transfers_complete_witness :
  sn rstep (Ok (example slow_ram 6 0 [test_transfer] test_dmac hello_ram)) /\
  forall r, reaches slow_ram 6 0 [test_transfer] test_dmac hello_ram r -> nf rstep r ->
    exists c, r = Ok c /\ (fun a => c.(shared).(ram) a) <$> seqZ 0x20000010 5 = hello.
Proof.
  destruct (dma_transfers_complete (fun m : Z -> Z => m) mapped slow_ram 6 0 [test_transfer] test_dmac hello_ram
    slow_ram_ok test_transfer_ok) as [Hsn Hend].
  split; [exact Hsn|]. intros r Hr Hnf. destruct (Hend r Hr Hnf) as (c & Hc & _ & _ & _ & _ & Hm).
  exists c. split; [exact Hc|].
  rewrite (list_fmap_ext _ (transferred [test_transfer] hello_ram)) by (intros i a _; apply Hm).
  vm_compute. reflexivity.
Defined.

(** *** Where pin 2 stays high

    The thread waits for [bus_free] to rise, not for it to be high: where
    Renode does not lower pin 2 between two transfers, the second one never
    begins. *)

Definition impatient : list action :=
  [Write_double_word 0x10 1; On_gpio_2 true; Await_transfer; Write_double_word 0x10 1].

Definition impatient_system : config (W := Z -> Z) :=
  new_system slow_ram 1 0 (mk_dmac false 0 0 0) hello_ram impatient 2.

Lemma idle_pool {W} (c : pool event (system W)) x s0 k :
  c.(threads) = [Wait x s0 k] -> ~ ready 0 x s0 c.(shared) -> forall n, ~ is_ready ready c n.
Proof.
  intros Hc Hn [|n] (x' & s' & k' & Ht & Hr); rewrite Hc in Ht; cbn in Ht; [|done].
  injection Ht as <- <- _. done.
Qed.

Lemma renode_l {W} (c : pool event (system W)) x rest s r :
  c.(shared).(script) = x :: rest -> enabled x c.(shared) = true -> exec x rest c.(shared) = Ok s ->
  rtc rstep (Ok (mk_pool s c.(threads))) r -> rtc rstep (Ok c) r.
Proof.
  intros Hx He Hs Hr. eapply rtc_l; [|exact Hr]. exists c. split; [done|].
  pose proof (step_renode c x rest Hx He) as H. by rewrite Hs in H.
Qed.

Lemma thread_l {W} (c : pool event (system W)) x s0 k s r :
  c.(threads) = [Wait x s0 k] -> ready 0 x s0 c.(shared) -> state_of (k c.(shared)) = Ok s ->
  rtc rstep (Ok (mk_pool s [k c.(shared)])) r -> rtc rstep (Ok c) r.
Proof.
  intros Hc Hx Hs Hr. eapply rtc_l; [|exact Hr]. exists c. split; [done|]. apply (step_resume c 0).
  assert (H : resume ready c 0 (after 0 (k c.(shared)) c)) by (eapply resume_intro; [by rewrite Hc|done]).
  unfold after in H. by rewrite Hs, Hc in H.
Qed.

Lemma signals_l {W} (c : pool event (system W)) x s0 k r :
  c.(threads) = [Wait x s0 k] -> ~ ready 0 x s0 c.(shared) ->
  (0 < unsettled c.(shared).(m_dmac).(bus_request) c.(shared).(pins))%nat ->
  rtc rstep (Ok (mk_pool (update c.(shared)) c.(threads))) r -> rtc rstep (Ok c) r.
Proof.
  intros Hc Hx Hu Hr. eapply rtc_l; [|exact Hr]. exists c. split; [done|].
  apply step_update; [by eapply idle_pool|done].
Qed.

#[local] Ltac renode := eapply renode_l; [reflexivity|reflexivity|reflexivity|cbn].
#[local] Ltac thread := eapply thread_l; [reflexivity|cbn; lia|reflexivity|cbn].
#[local] Ltac signals := eapply signals_l; [reflexivity|cbn; lia|cbn; lia|cbn].

(** Here the second request is up, the bus is free, and nothing can happen. *)
Theorem grant_left_high : exists c, rtc rstep (Ok impatient_system) (Ok c) /\ nf rstep (Ok c) /\
  c.(shared).(script) = [] /\ granted c.(shared) /\ c.(shared).(pins).(falls) = 1%nat.
Proof.
  eexists. split.
  - unfold impatient_system, impatient. renode. thread. renode. signals. thread. signals. renode. renode. thread. signals.
    apply rtc_refl.
  - cbn. split; [|done]. intros [r (c & [= <-] & Hs)]. inversion Hs as [n r' Hr|x rest Hx|Hn Hu|t Hn Hu Ht Hd]; subst.
    + inversion Hr as [x s0 k Hn Hx]. destruct n; cbn in Hn; [|done]. injection Hn as <- <- _. cbn in Hx. lia.
    + done.
    + cbn in Hu. lia.
    + destruct Hd as (n & d & s0 & k & Hn' & _). by destruct n.
Qed.
