(* ===== verification/InterruptSystem.v ===== *)
(** * The interrupt example as a whole (examples/interrupts,
    examples-native/interrupts-native)

    The two interrupting threads, the bus or the native top, the pins and the
    firmware that acknowledges them, in both variants: the threads form a pool
    (Scheduler) over the state of both interrupters and what the interrupt
    handlers have printed; a step resumes a thread, lets the CPU take the
    interrupt of a pin that is high, or advances time.

    What the steps assume of Renode: the CPU takes the interrupt of a high pin
    some time before the interrupter is due to raise it again (otherwise no
    edge would follow), however long that takes and whatever the order.  Time is
    not bounded here; the 64-bit clock of the kernel lasts 213 days. *)

From stdpp Require Import base numbers list relations.
From S2P Require Import Prelude Tlm Kernel Scheduler Interrupts Firmware.
#[local] Open Scope Z_scope.

(** ** Definitions *)

Inductive pin : Type := Pin0 | Pin1.
#[export] Instance pin_eq_dec : EqDecision pin.
Proof. solve_decision. Defined.
Definition pin_number (i : pin) : Z := match i with Pin0 => 0 | Pin1 => 1 end.

(** Both interrupters, the time, and the lines that the handlers have printed,
    the last first, with the time at which they ran. *)
Record system : Type := mk_system {
  time : sc_time;
  m_top : top;
  uart : list (pin * Z);
}.

Definition interrupter (i : pin) (s : top) : port_interrupter :=
  match i with Pin0 => s.(m_port_interrupter0) | Pin1 => s.(m_port_interrupter1) end.
Definition set_interrupter (i : pin) (m : port_interrupter) (s : top) : top :=
  match i with
  | Pin0 => mk_top m s.(m_port_interrupter1)
  | Pin1 => mk_top s.(m_port_interrupter0) m
  end.

Definition get_interrupter (i : pin) (s : system) : port_interrupter := interrupter i s.(m_top).
Definition put_interrupter (i : pin) (m : port_interrupter) (s : system) : system :=
  mk_system s.(time) (set_interrupter i m s.(m_top)) s.(uart).

Section Variant.
(** The variant of the example, and how often each thread goes round. *)
Context (native : bool) (rounds : pin -> nat).

Definition interrupt_thread (i : pin) : proc event system unit :=
  within (get_interrupter i) (put_interrupter i)
    (if native then Native.interrupt_loop (rounds i) else interrupt_loop (rounds i)).

Definition transport : b_transport_t top :=
  if native then Native.top_b_transport else top_b_transport.

(** The levels Renode sees. *)
Definition levels (s : top) : list bool :=
  if native then (Native.gpio_changed s).*2 else gpio_ports_in s.

(** The CPU takes the interrupt of a pin: its handler prints a line and
    acknowledges. *)
Definition take_interrupt (i : pin) (s : system) : res system :=
  t ← InterruptHandlers.dispatch
        (InterruptHandlers.main_setup (InterruptHandlers.write_window transport))
        (InterruptHandlers.irq_of_pin (pin_number i)) s.(m_top);
  Ok (mk_system s.(time) t ((i, s.(time)) :: s.(uart))).

Definition config : Type := pool event system.

Definition new_system : config :=
  let s := mk_system SC_ZERO_TIME (if native then Native.create_hierarchy else new_top) [] in
  mk_pool s [boot (interrupt_thread Pin0) s; boot (interrupt_thread Pin1) s].

Definition pin_thread (i : pin) : nat := match i with Pin0 => 0 | Pin1 => 1 end.

Definition ready (n : nat) (w : wait_on event) (s0 s : system) : Prop :=
  match w with
  | Wait_time t => s.(time) = s0.(time) + t
  | Wait_event e => match e with end
  | Wait_static => False
  end.

(** Thread [n] resumes at [t]. *)
Definition due_at (c : config) (n : nat) (t : Z) : Prop :=
  exists d s0 k, c.(threads) !! n = Some (Wait (Wait_time d) s0 k) /\ t = s0.(time) + d.

Inductive step (c : config) : res config -> Prop :=
| step_resume n r : resume ready c n r -> step c r
| step_interrupt i :
    levels c.(shared).(m_top) !! pin_thread i = Some true ->
    step c (s ← take_interrupt i c.(shared); Ok (mk_pool s c.(threads)))
| step_elapse t t' :
    c.(shared).(time) < t -> due time c t' -> (forall t', due time c t' -> t <= t') ->
    (forall i, due_at c (pin_thread i) t -> levels c.(shared).(m_top) !! pin_thread i = Some false) ->
    step c (Ok (mk_pool (mk_system t c.(shared).(m_top) c.(shared).(uart)) c.(threads))).

Definition rstep : res config -> res config -> Prop := steps_to step.
Definition reaches (r : res config) : Prop := rtc rstep (Ok new_system) r.

(** *** What is promised *)

(** The interval between two interrupts of a pin. *)
Definition interval (i : pin) : Z :=
  if native then 1 else match i with Pin0 => 1 | Pin1 => 3 end.
Definition period (i : pin) : sc_time := sc_sec (interval i).

(** When the handler of a pin ran, the first time first. *)
Definition handled (i : pin) (s : system) : list Z :=
  reverse ((filter (fun e => e.1 = i) s.(uart)).*2).

(** The [j]-th time is in the [j]-th period. *)
Definition on_schedule (p : Z) (l : list Z) : Prop :=
  forall (j : nat) t, l !! j = Some t -> Z.of_nat j * p <= t < (Z.of_nat j + 1) * p.

(** *** The invariant *)

(** An interrupter that has raised its line [k] times and waits, or has ended. *)
Inductive label : Type := Ticking (i : pin) (k : nat) | Ended (i : pin).

Definition line (i : pin) (s : system) : bool := (interrupter i s.(m_top)).(irq_out).

Definition progress_ok (i : pin) (l : label) (s : system) : Prop :=
  match l with
  | Ticking j 0 => j = i /\ s.(time) = 0 /\ line i s = false /\ handled i s = []
  | Ticking j (S k) =>
      j = i /\ (S k <= rounds i)%nat /\
      Z.of_nat k * period i <= s.(time) <= (Z.of_nat k + 1) * period i /\
      (if line i s then length (handled i s) = k /\ s.(time) < (Z.of_nat k + 1) * period i
       else length (handled i s) = S k)
  | Ended j => j = i /\ line i s = false /\ length (handled i s) = rounds i
  end.

Record pin_ok (i : pin) (l : label) (s : system) : Prop := {
  pin_progress : progress_ok i l s;
  pin_schedule : on_schedule (period i) (handled i s);
  pin_interval : (interrupter i s.(m_top)).(irq_interval_s) = match i with Pin0 => 1 | Pin1 => 3 end;
}.

Definition Inv (ls : list label) (s : system) : Prop :=
  length ls = 2%nat /\ 0 <= s.(time) /\ forall i, exists l, ls !! pin_thread i = Some l /\ pin_ok i l s.

Definition guar (s s' : system) : Prop := s'.(time) = s.(time).

Definition waits (l : label) (w : wait_on event) (s : system) : Prop :=
  match l with
  | Ticking i k => exists d, w = Wait_time d /\ 0 <= d /\ s.(time) + d = Z.of_nat k * period i
  | Ended _ => False
  end.

Definition final (l : label) : Prop := match l with Ended _ => True | Ticking _ _ => False end.

(** ** Lemmas *)

Lemma period_pos i : 0 < period i.
Proof. unfold period, interval, sc_sec. by destruct native, i. Qed.

Lemma levels_line i s : levels s.(m_top) !! pin_thread i = Some (line i s).
Proof. unfold levels. by destruct native, i. Qed.

Lemma interrupter_set i m s : interrupter i (set_interrupter i m s) = m.
Proof. by destruct i. Qed.

Lemma interrupter_set_ne i j m s : i <> j -> interrupter j (set_interrupter i m s) = interrupter j s.
Proof. by destruct i, j. Qed.

Lemma pin_thread_ne i j : i <> j -> pin_thread i <> pin_thread j.
Proof. by destruct i, j. Qed.

(** What a pin promises depends on its own interrupter, what was printed, and
    the time. *)
Lemma pin_ok_same i l s s' :
  s'.(time) = s.(time) -> handled i s' = handled i s ->
  interrupter i s'.(m_top) = interrupter i s.(m_top) -> pin_ok i l s -> pin_ok i l s'.
Proof.
  intros Ht Hh Hm [Hp Hs Hi]. split; [|by rewrite Hh|by rewrite Hm].
  unfold progress_ok, line in *. by rewrite Ht, Hh, Hm.
Qed.

(** The CPU takes an interrupt. *)
Lemma take_interrupt_Ok i s : take_interrupt i s =
  Ok (mk_system s.(time) (set_interrupter i (set_irq false (interrupter i s.(m_top))) s.(m_top))
        ((i, s.(time)) :: s.(uart))).
Proof.
  unfold take_interrupt, transport. pose proof (serve_one native (pin_number i) (m_top s)) as H.
  destruct native; rewrite H by (destruct i; auto); rewrite bind_Ok; by destruct i.
Qed.

Lemma handled_cons i j t tm tp u :
  handled i (mk_system tm tp ((j, t) :: u)) =
  if decide (j = i) then handled i (mk_system tm tp u) ++ [t] else handled i (mk_system tm tp u).
Proof.
  unfold handled. cbn [uart]. rewrite filter_cons. cbn [fst].
  destruct (decide (j = i)); [|done]. by rewrite fmap_cons, reverse_cons.
Qed.

Lemma on_schedule_snoc p l t : on_schedule p l ->
  Z.of_nat (length l) * p <= t < (Z.of_nat (length l) + 1) * p -> on_schedule p (l ++ [t]).
Proof.
  intros Hl Ht j u [Hj|[Hj Hu]]%lookup_app_Some; [by apply Hl|].
  apply list_lookup_singleton_Some in Hu as [Hj' <-].
  assert (j = length l) as -> by lia. exact Ht.
Qed.

Lemma Inv_interrupt i ls s : Inv ls s -> line i s = true ->
  Inv ls (mk_system s.(time) (set_interrupter i (set_irq false (interrupter i s.(m_top))) s.(m_top))
        ((i, s.(time)) :: s.(uart))).
Proof.
  intros (Hl & Ht & HI) Hline. split; [done|]. split; [done|]. intros j. destruct (HI j) as (l & Hj & Hok).
  exists l. split; [done|]. set (s' := mk_system _ _ _).
  assert (Hh : handled j s' = if decide (i = j) then handled j s ++ [time s] else handled j s).
  { subst s'. rewrite handled_cons. by destruct s. }
  destruct (decide (i = j)) as [<-|Hne].
  - destruct Hok as [Hp Hs Hi]. unfold progress_ok, line in *.
    assert (Hm : interrupter i (m_top s') = set_irq false (interrupter i (m_top s))) by apply interrupter_set.
    split; [|rewrite Hh|by rewrite Hm].
    + unfold progress_ok, line. rewrite Hm, Hh. cbn [irq_out set_irq time s'].
      destruct l as [p [|k]|p]; rewrite Hline in Hp; [by destruct Hp as (_ & _ & ? & _)| |by destruct Hp as (_ & ? & _)].
      destruct Hp as (-> & Hk & Hb & Hlen & Hlt). split; [done|]. split; [done|]. split; [done|].
      rewrite length_app. cbn. lia.
    + apply on_schedule_snoc; [done|].
      destruct l as [p [|k]|p]; rewrite Hline in Hp; [by destruct Hp as (_ & _ & ? & _)| |by destruct Hp as (_ & ? & _)].
      destruct Hp as (-> & Hk & Hb & Hlen & Hlt). rewrite Hlen. lia.
  - eapply pin_ok_same; [..|exact Hok]; [done|done|]. by apply interrupter_set_ne.
Qed.
(** *** The threads *)

Notation pool_inv := (pool_inv ready Inv guar waits final).
Notation thread_ok := (thread_ok ready Inv guar waits final).
Notation wtwp i := (wtwp (get_interrupter i) (put_interrupter i) ready Inv guar waits (pin_thread i)).

Lemma int_inv_label ls s i l s' :
  Inv ls s -> s'.(time) = s.(time) ->
  (forall j, i <> j -> handled j s' = handled j s /\ interrupter j s'.(m_top) = interrupter j s.(m_top)) ->
  pin_ok i l s' -> Inv (<[pin_thread i := l]> ls) s'.
Proof.
  intros (Hl & Ht & HI) Ht' Hother Hok. split; [by rewrite length_insert|]. split; [by rewrite Ht'|].
  intros j. destruct (decide (i = j)) as [<-|Hne].
  - exists l. split; [|done]. apply list_lookup_insert_eq. rewrite Hl. destruct i; cbn; lia.
  - destruct (HI j) as (lj & Hj & Hokj), (Hother j Hne) as [Hh Hm]. exists lj.
    rewrite list_lookup_insert_ne by (by apply pin_thread_ne). split; [done|]. by eapply pin_ok_same.
Qed.

(** The label of a thread, and what it says when the thread is resumed. *)
Lemma Inv_ticking ls s i k : Inv ls s -> ls !! pin_thread i = Some (Ticking i k) ->
  s.(time) = Z.of_nat k * period i ->
  pin_ok i (Ticking i k) s /\ line i s = false /\ length (handled i s) = k /\ (k <= rounds i)%nat.
Proof.
  intros (_ & _ & HI) Hl Ht. destruct (HI i) as (l & Hl' & Hok). rewrite Hl in Hl'. injection Hl' as <-.
  split; [done|]. destruct Hok as [Hp _ _]. destruct k as [|k]; cbn in Hp.
  - destruct Hp as (_ & _ & -> & ->). cbn. split_and!; [done|done|lia].
  - destruct Hp as (_ & Hk & Hb & Hline). destruct (line i s); [lia|]. done.
Qed.

(** A thread raises its line, *)
Lemma raise_ok ls s i k : Inv ls s -> ls !! pin_thread i = Some (Ticking i k) ->
  s.(time) = Z.of_nat k * period i -> (k < rounds i)%nat ->
  Inv (<[pin_thread i := Ticking i (S k)]> ls) (put_interrupter i (set_irq true (get_interrupter i s)) s).
Proof.
  intros HI Hl Ht Hk. destruct (Inv_ticking _ _ _ _ HI Hl Ht) as ([_ Hs Hi] & Hline & Hlen & _).
  set (s' := put_interrupter _ _ _). assert (Hm : interrupter i (m_top s') = set_irq true (interrupter i (m_top s)))
    by apply interrupter_set.
  apply (int_inv_label _ s); [done|done| |].
  - intros j Hne. split; [done|]. by apply interrupter_set_ne.
  - split; [|done|by rewrite Hm].
    cbn [progress_ok]. unfold line. rewrite Hm. pose proof (period_pos i). change (time s') with (time s).
    cbn [irq_out set_irq]. change (handled i s') with (handled i s). rewrite Ht.
    split; [done|]. split; [lia|]. split; [lia|]. split; [done|lia].
Qed.

(** or ends. *)
Lemma end_ok ls s i k : Inv ls s -> ls !! pin_thread i = Some (Ticking i k) ->
  s.(time) = Z.of_nat k * period i -> k = rounds i -> Inv (<[pin_thread i := Ended i]> ls) s.
Proof.
  intros HI Hl Ht ->. destruct (Inv_ticking _ _ _ _ HI Hl Ht) as ([_ Hs Hi] & Hline & Hlen & _).
  eapply int_inv_label; done.
Qed.

Lemma put_get i s : put_interrupter i (get_interrupter i s) s = s.
Proof. by destruct i, s as [? [] ?]. Qed.

(** What one round does, in either variant. *)
Lemma interrupt_body_eq i s ls : Inv ls s ->
  (if native then Native.interrupt_body else interrupt_body) (get_interrupter i s) =
  Wait (Wait_time (period i)) (set_irq true (get_interrupter i s)) (fun s' => Ret s' tt).
Proof.
  intros (_ & _ & HI). destruct (HI i) as (l & _ & [_ _ Hi]). unfold period, interval. destruct native.
  - reflexivity.
  - unfold interrupt_body, mbind, proc_bind, p_modify, p_get, p_wait. cbn [prog_bind].
    change (irq_interval_s (set_irq true (get_interrupter i s))) with (irq_interval_s (interrupter i (m_top s))).
    by rewrite Hi.
Qed.

Lemma loop_ok i : forall m k ls s, (m + k = rounds i)%nat -> Inv ls s ->
  ls !! pin_thread i = Some (Ticking i k) -> s.(time) = Z.of_nat k * period i ->
  wtwp i ls s (p_repeat m (if native then Native.interrupt_body else interrupt_body) (get_interrupter i s))
    (fun ls s0 a x => finished Inv guar final (pin_thread i) ls s0 a (put_interrupter i x s0)).
Proof.
  induction m as [|m IH]; intros k ls s Hm HI Hl Ht; cbn [p_repeat].
  - exists (Ended i). split; [|done]. rewrite put_get. split; [done|]. eapply end_ok; [done|done|done|lia].
  - apply wtwp_bind. rewrite (interrupt_body_eq i s ls HI). exists (Ticking i (S k)). split; [split; [done|]|split].
    + apply raise_ok; [done|done|done|lia].
    + exists (period i). pose proof (period_pos i). split; [done|]. split; [lia|]. cbn [time put_interrupter].
      rewrite Ht. lia.
    + intros ls' s' Hl' HI' Hr. apply (IH (S k)); [lia|done|done|]. cbn in Hr. rewrite Hr, Ht. lia.
Qed.

Lemma interrupt_thread_ok i s : s.(time) = 0 ->
  thread_ok (pin_thread i) (Ticking i 0) (boot (interrupt_thread i) s).
Proof.
  intros Ht. split; [exists 0; by rewrite Ht|]. intros ls s' Hl HI Hr. cbn in Hr.
  apply wtwp_within. pose proof (loop_ok i (rounds i) 0 ls s' ltac:(lia) HI Hl) as Hloop.
  rewrite Ht in Hr. specialize (Hloop Hr). unfold Native.interrupt_loop, interrupt_loop.
  by destruct native.
Qed.

(** *** Steps *)

Record good (ls : list label) (c : config) : Prop := {
  g_pool : pool_inv ls c;
  g_timely : forall t, due time c t -> c.(shared).(time) <= t;
}.

Lemma new_system_good : good [Ticking Pin0 0; Ticking Pin1 0] new_system.
Proof.
  split.
  - split; [|done|].
    + split; [done|]. split; [done|]. intros i. exists (Ticking i 0). split; [by destruct i|].
      unfold new_system; clear; split; [by destruct i, native|intros j t Hj; by destruct j|by destruct i, native].
    + intros n l p Hl Hp. destruct n as [|[|n]]; cbn in Hl, Hp; [injection Hl as <-; injection Hp as <-..|done].
      * by apply (interrupt_thread_ok Pin0).
      * by apply (interrupt_thread_ok Pin1).
  - intros t (n & d & s0 & k & Hn & ->). destruct n as [|[|n]]; cbn in Hn; try done; injection Hn as <- <- _; done.
Qed.

Lemma int_waits_nonneg l d s : waits l (Wait_time d) s -> 0 <= d.
Proof. destruct l; cbn; [|done]. by intros (d' & [= ->] & ? & _). Qed.

(** When a thread that has raised its line [k] times resumes. *)
Lemma ticking_due ls c i k : pool_inv ls c -> ls !! pin_thread i = Some (Ticking i k) ->
  due_at c (pin_thread i) (Z.of_nat k * period i).
Proof.
  intros Hpool Hl. destruct (pool_thread _ _ _ _ _ _ _ _ _ Hpool Hl) as (p & Hp & Hok).
  destruct p as [| |w s0 f]; [done|done|]. destruct Hok as [(d & -> & _ & Hd) _].
  by exists d, s0, f.
Qed.

Lemma due_at_due c n t : due_at c n t -> due time c t.
Proof. intros (d & s0 & k & Hn & ->). by exists n, d, s0, k. Qed.

Lemma elapse_ok ls c t : good ls c -> c.(shared).(time) < t ->
  (forall t', due time c t' -> t <= t') ->
  (forall i, due_at c (pin_thread i) t -> levels c.(shared).(m_top) !! pin_thread i = Some false) ->
  Inv ls (mk_system t c.(shared).(m_top) c.(shared).(uart)).
Proof.
  intros [Hpool _] Ht Hmin Hlow. destruct (pool_state _ _ _ _ _ _ _ Hpool) as (Hl & Ht0 & HI).
  split; [done|]. split; [cbn; lia|]. intros i. destruct (HI i) as (l & Hi & [Hp Hs Hint]). exists l.
  split; [done|]. split; [|done|done]. set (s := shared c) in *. fold s in Hp.
  change (handled i (mk_system t (m_top s) (uart s))) with (handled i s).
  assert (Hline : line i (mk_system t (m_top s) (uart s)) = line i s) by done.
  destruct l as [j [|k]|j]; cbn [progress_ok] in *; rewrite Hline; change (handled i (mk_system t (m_top s) (uart s))) with (handled i s).
  - exfalso. destruct Hp as (-> & H0 & _). pose proof (ticking_due _ _ _ _ Hpool Hi) as Hd.
    apply due_at_due, Hmin in Hd. cbn in Hd. lia.
  - destruct Hp as (-> & Hk & Hb & Hh). pose proof (ticking_due _ _ _ _ Hpool Hi) as Hd.
    pose proof (Hmin _ (due_at_due _ _ _ Hd)) as Hle. cbn [time].
    split; [done|]. split; [done|]. split; [lia|]. destruct (line i s) eqn:Hls; [|done].
    split; [by destruct Hh|]. destruct (Z.eq_dec t (Z.of_nat (S k) * period i)) as [->|Hne]; [|lia].
    specialize (Hlow i Hd). fold s in Hlow. rewrite levels_line, Hls in Hlow. done.
  - done.
Qed.

Lemma int_step_good ls c r : good ls c -> step c r -> exists ls' c', r = Ok c' /\ good ls' c'.
Proof.
  intros Hg Hs. pose proof Hg as [Hpool Htimely]. destruct Hs as [n r' Hres|i Hi|t t' Ht Hd Hmin Hlow].
  - destruct (resume_timely _ time _ _ _ _ _ _ _ _ int_waits_nonneg (fun s s' (H : guar s s') => H) Hpool Htimely Hres)
      as (l & c' & -> & Hpool' & _ & Hdue). by exists (<[n := l]> ls), c'.
  - rewrite levels_line in Hi. injection Hi as Hi. rewrite take_interrupt_Ok, bind_Ok.
    exists ls. eexists. split; [done|]. split; [|done].
    apply (pool_inv_kernel _ _ _ _ _ _ _ _ Hpool), Inv_interrupt; [apply Hpool|done].
  - exists ls. eexists. split; [done|]. split; [|exact Hmin].
    apply (pool_inv_kernel _ _ _ _ _ _ _ _ Hpool). by apply elapse_ok.
Qed.

Lemma int_reachable_good r : reaches r -> exists c, r = Ok c /\ exists ls, good ls c.
Proof.
  apply steps_keep.
  - intros c r' (ls & Hg) Hs. destruct (int_step_good _ _ _ Hg Hs) as (ls' & c' & -> & Hg'). eauto.
  - eexists. split; [done|]. eexists. apply new_system_good.
Qed.

(** *** Termination *)

(** The lines that are high, and the time up to the last time for which a
    thread waits. *)
Definition high_lines (s : system) : nat :=
  (if line Pin0 s then 1 else 0) + (if line Pin1 s then 1 else 0).
Definition remaining (c : config) : nat :=
  high_lines c.(shared) + Z.to_nat (horizon time c - c.(shared).(time)).

Lemma int_step_closer ls c c' : good ls c -> step c (Ok c') -> closer remaining c' c.
Proof.
  intros Hg Hs. remember (Ok c') as r eqn:Hr. destruct Hs as [n r' Hres|i Hi|t t' Ht Hd Hmin Hlow].
  - subst r'. left. by eapply resume_continues.
  - rewrite levels_line in Hi. injection Hi as Hi. rewrite take_interrupt_Ok, bind_Ok in Hr. injection Hr as <-.
    right. split; [done|]. unfold remaining, high_lines, line, horizon in *. cbn [shared threads m_top time].
    destruct i; cbn [set_interrupter interrupter m_port_interrupter0 m_port_interrupter1 set_irq irq_out] in *; rewrite Hi; lia.
  - injection Hr as <-. right. split; [done|]. pose proof (horizon_due time _ _ Hd). specialize (Hmin _ Hd).
    unfold remaining, horizon in *. cbn [shared threads time] in *.
    change (high_lines (mk_system _ _ _)) with (high_lines (shared c)). lia.
Qed.

Lemma int_good_terminates ls c : good ls c -> sn rstep (Ok c).
Proof.
  revert ls. induction (closer_wf remaining c) as [c _ IH]. intros ls Hg. constructor.
  intros r (c0 & [= <-] & Hs). destruct (int_step_good _ _ _ Hg Hs) as (ls' & c' & -> & Hg').
  eapply IH; [|done]. by eapply int_step_closer.
Qed.

(** *** Where a run ends *)

Section Stuck.
Context (ls : list label) (c : config) (Hg : good ls c) (Hstuck : forall r, ~ step c r).

Lemma int_stuck_low i : line i c.(shared) = false.
Proof.
  destruct (line i (shared c)) eqn:Hl; [|done]. exfalso. eapply Hstuck, (step_interrupt _ i). by rewrite levels_line, Hl.
Qed.

Lemma int_stuck_time t : ~ due time c t.
Proof.
  intros Ht. destruct (due_minimum _ _ _ Ht) as (m & Hm & Hmin).
  pose proof (g_timely _ _ Hg m Hm) as Hle. destruct (Z.eq_dec (time (shared c)) m) as [He|Hne].
  - destruct Hm as (n & d & s0 & k & Hn & ->). eapply Hstuck, step_resume. by econstructor.
  - eapply Hstuck, (step_elapse _ m m); [lia|done|done|]. intros i _. by rewrite levels_line, int_stuck_low.
Qed.

Lemma stuck_ended i : (exists s, c.(threads) !! pin_thread i = Some (Ret s tt)) /\
  length (handled i c.(shared)) = rounds i.
Proof.
  pose proof (g_pool _ _ Hg) as Hpool. destruct (pool_state _ _ _ _ _ _ _ Hpool) as (_ & _ & HI).
  destruct (HI i) as (l & Hl & [Hp _ _]). destruct l as [j k|j].
  - assert (j = i) as -> by (destruct k; by destruct Hp).
    exfalso. by eapply int_stuck_time, due_at_due, ticking_due.
  - destruct Hp as (-> & _ & Hlen). split; [|done].
    destruct (pool_thread _ _ _ _ _ _ _ _ _ Hpool Hl) as (p & Hp & Hok).
    destruct p as [s []|f|w s k]; [by exists s|done|by destruct Hok].
Qed.
End Stuck.

(** What the handler of a pin has done by now: it has run in every period that
    is over, once, and not more often than the thread goes round. *)
Record on_time (i : pin) (s : system) : Prop := {
  ot_schedule : on_schedule (period i) (handled i s);
  ot_bounded : (length (handled i s) <= rounds i)%nat;
  ot_none_lost : forall j : nat, (j < rounds i)%nat -> (Z.of_nat j + 1) * period i <= s.(time) ->
    (j < length (handled i s))%nat;
}.

Lemma pin_on_time i l s : pin_ok i l s -> on_time i s.
Proof.
  intros [Hp Hs _]. pose proof (period_pos i) as Hpos. split; [done|..].
  - destruct l as [j [|k]|j]; cbn in Hp.
    + destruct Hp as (_ & _ & _ & ->). cbn. lia.
    + destruct Hp as (_ & Hk & _ & Hl). destruct (line i s); lia.
    + lia.
  - intros n Hn Hover. destruct l as [j [|k]|j]; cbn in Hp.
    + destruct Hp as (_ & H0 & _). nia.
    + destruct Hp as (_ & Hk & Hb & Hl). destruct (line i s); [destruct Hl as [Hl Hlt]|]; rewrite Hl; nia.
    + lia.
Qed.
End Variant.

(** ** Properties *)

(** C7: in every reachable state of either variant of the interrupt example,
    whatever the order in which threads resume, interrupts are taken and time
    advances, nothing has failed and each pin is served on time: the [j]-th run
    of its handler was in the [j]-th period of its interrupter, no period that
    is over lacks its run, and there are no further runs. *)
Theorem interrupts_on_time native rounds r :
  reaches native rounds r ->
  exists c, r = Ok c /\ forall i, on_time native rounds i c.(shared).
Proof.
  intros Hr. destruct (int_reachable_good _ _ _ Hr) as (c & -> & ls & [Hpool _]). exists c. split; [done|].
  intros i. destruct (pool_state _ _ _ _ _ _ _ Hpool) as (_ & _ & HI). destruct (HI i) as (l & _ & Hok).
  by eapply pin_on_time.
Qed.

(** C8: every run of either variant of the interrupt example with bounded
    loops ends: there is no infinite sequence of steps, and where no further
    step is possible both threads have gone all their rounds, both lines are
    low, and each handler has run exactly once per round. *)
Theorem interrupts_all_served native rounds :
  sn (rstep native) (Ok (new_system native rounds)) /\
  forall r, reaches native rounds r -> nf (rstep native) r ->
    exists c, r = Ok c /\ forall i,
      (exists s, c.(threads) !! pin_thread i = Some (Ret s tt)) /\
      line i c.(shared) = false /\ length (handled i c.(shared)) = rounds i.
Proof.
  split; [eapply int_good_terminates, new_system_good|].
  intros r Hr Hnf. destruct (int_reachable_good _ _ _ Hr) as (c & -> & ls & Hg). exists c. split; [done|].
  pose proof (steps_stuck _ _ Hnf) as Hstuck. intros i.
  destruct (stuck_ended _ _ _ _ Hg Hstuck i) as [Hret Hlen]. split; [done|]. split; [|done].
  by eapply int_stuck_low.
Qed.

(** *** The first interrupt of the first interrupter *)

Definition one_round (_ : pin) : nat := 1.

Definition first_raised : res config :=
  after 0 (interrupt_thread false one_round Pin0 (new_system false one_round).(shared))
    (new_system false one_round).

Definition first_served : res config :=
  c ← first_raised; s ← take_interrupt false Pin0 c.(shared); Ok (mk_pool s c.(threads)).

Lemma first_served_reached : reaches false one_round first_served.
Proof.
  eapply rtc_l; [|eapply rtc_once].
  - exists (new_system false one_round). split; [done|]. eapply (step_resume false _ 0).
    by eapply (resume_intro ready _ 0%nat (Wait_time 0)).
  - eexists. split; [reflexivity|]. by apply (step_interrupt false _ Pin0).
Qed.

Lemma interrupts_on_time_witness :
  exists c, first_served = Ok c /\ handled Pin0 c.(shared) = [0] /\
    forall i, on_time false one_round i c.(shared).
Proof.
  destruct (interrupts_on_time false one_round first_served first_served_reached) as (c & Hc & H).
  exists c. split; [exact Hc|]. split; [|exact H].
  assert (He : (c ← first_served; Ok (handled Pin0 c.(shared))) = Ok [0]) by (vm_compute; reflexivity).
  rewrite Hc in He. by injection He.
Defined.

Lemma interrupts_all_served_witness :
  sn (rstep true) (Ok (new_system true one_round)) /\
  forall r, reaches true one_round r -> nf (rstep true) r ->
    exists c, r = Ok c /\ forall i,
      (exists s, c.(threads) !! pin_thread i = Some (Ret s tt)) /\
      line i c.(shared) = false /\ length (handled i c.(shared)) = 1%nat.
Proof. exact (interrupts_all_served true one_round). Defined.
