(* ===== verification/Variants.v ===== *)
(** * What Renode sees: sessions with an example and with its native variant

    Renode drives an example through a bridge, or a native variant through the
    interface [IRenodeBridge] that its top implements: it accesses the bus,
    drives pins and lets time pass.  A [design] is what answers.  Here are the
    designs of examples/gpio-connection and examples/timesync, whose tops bind
    the modules of SimpleTargets to a bridge, and of their native variants; a
    simulation (related states answer a request alike and stay related) gives
    the agreement of whole sessions. *)

From stdpp Require Import base numbers list.
From S2P Require Import Prelude Tlm SimpleTargets.
From S2P Require Interrupts DirectConnection.
#[local] Open Scope Z_scope.

(** ** Definitions *)

Record design (S : Type) : Type := mk_design {
  start : S;
  bus_access : b_transport_t S;            (* an access of Renode's CPU or monitor *)
  drive_pin : Z -> bool -> S -> S;         (* a pin of Renode changes *)
  elapse : sc_time -> S -> S;
}.
Arguments mk_design {S}.
Arguments start {S}.
Arguments bus_access {S}.
Arguments drive_pin {S}.
Arguments elapse {S}.

Inductive request : Type :=
| Access (p : payload) (delay : sc_time)
| Drive (pin : Z) (level : bool)
| Elapse (t : sc_time).

(** The answer to an access is its payload. *)
Definition serve {S} (d : design S) (r : request) (s : S) : res (S * option payload) :=
  match r with
  | Access p delay => '(s, p, _) ← d.(bus_access) s p delay; Ok (s, Some p)
  | Drive pin level => Ok (d.(drive_pin) pin level s, None)
  | Elapse t => Ok (d.(elapse) t s, None)
  end.

Fixpoint session {S} (d : design S) (rs : list request) (s : S) : res (S * list (option payload)) :=
  match rs with
  | [] => Ok (s, [])
  | r :: rs =>
      '(s, a) ← serve d r s;
      '(s, as_) ← session d rs s;
      Ok (s, a :: as_)
  end.

(** *** The native interfaces *)

(** [tlm_fw_transport_if]: beyond [b_transport], whether a DMI pointer is
    granted, the result of a non-blocking call, and how many bytes a debug
    access transfers. *)
Record tlm_fw_transport_if (S : Type) : Type := mk_fw {
  b_transport : b_transport_t S;
  get_direct_mem_ptr : S -> payload -> S * bool;
  nb_transport_fw : S -> payload -> tlm_phase -> sc_time -> S * tlm_phase * tlm_sync_enum;
  transport_dbg : S -> payload -> S * Z;
}.
Arguments mk_fw {S}.
Arguments b_transport {S}.

Record IRenodeBridge (S : Type) : Type := mk_bridge {
  reset : S -> S;
  tlm_route : Z -> tlm_fw_transport_if S;
  gpio_port_write : Z -> bool -> S -> S;
}.
Arguments mk_bridge {S}.
Arguments tlm_route {S}.
Arguments gpio_port_write {S}.

(** A module that implements [b_transport] only. *)
Definition blocking_only {S} (b_transport : b_transport_t S) : tlm_fw_transport_if S :=
  mk_fw b_transport (fun s _ => (s, false)) (fun s _ phase _ => (s, phase, TLM_COMPLETED)) (fun s _ => (s, 0)).

(** Renode routes an access by its offset. *)
Definition native_design {S} (start : S) (elapse : sc_time -> S -> S) (b : IRenodeBridge S) : design S :=
  mk_design start (fun s p delay => (b.(tlm_route) p.(address)).(b_transport) s p delay)
    b.(gpio_port_write) elapse.

(** *** examples/gpio-connection *)
Module GpioTop.

Record top : Type := mk_top { m_gpio_in_signal : bool; m_gpio_peripheral : Gpio.gpio_peripheral }.

Definition new_top : top := mk_top false Gpio.new_gpio_peripheral.

(** Pin 2 of the bridge writes the signal; a change of it activates
    [on_gpio_in]. *)
Definition gpio_ports_out (pin : Z) (level : bool) (s : top) : top :=
  if pin =? 2 then
    if bool_decide (level = s.(m_gpio_in_signal)) then s
    else mk_top level (Gpio.on_gpio_in s.(m_gpio_peripheral))
  else s.

Definition initiator_socket : b_transport_t top := fun s p delay =>
  '(m, p, delay) ← Gpio.receive_b_transport s.(m_gpio_peripheral) p delay;
  Ok (mk_top s.(m_gpio_in_signal) m, p, delay).

Definition gpio_example : design top :=
  mk_design new_top initiator_socket gpio_ports_out (fun _ s => s).
End GpioTop.

(** *** examples-native/gpio-connection-native *)
Module GpioNativeTop.

Definition gpio_peripheral : tlm_fw_transport_if GpioNative.top :=
  blocking_only (fun s p delay => p ← GpioNative.b_transport s.(GpioNative.gpio_port) p; Ok (s, p, delay)).

Definition top_bridge : IRenodeBridge GpioNative.top :=
  mk_bridge (fun s => s) (fun _ => gpio_peripheral) GpioNative.gpio_port_write.

Definition create_hierarchy : design GpioNative.top :=
  native_design GpioNative.new_top (fun _ s => s) top_bridge.
End GpioNativeTop.

(** *** examples/timesync and examples-native/timesync-native: the state is the
    simulated time. *)
Module TimesyncTop.
Section Time.
Context (to_seconds : sc_time -> Z).

Definition initiator_socket : b_transport_t sc_time := fun now p delay =>
  '(p, delay) ← Timekeeper.custom_b_transport to_seconds now p delay; Ok (now, p, delay).

(** No pin is bound. *)
Definition timesync_example : design sc_time :=
  mk_design SC_ZERO_TIME initiator_socket (fun _ _ s => s) (fun t now => t_add now t).
End Time.
End TimesyncTop.

Module TimesyncNativeTop.
Section Time.
Context (to_seconds : sc_time -> Z).

Definition timekeeper : tlm_fw_transport_if sc_time :=
  blocking_only (fun now p delay => p ← Timekeeper.native_b_transport to_seconds now p; Ok (now, p, delay)).

Definition top_bridge : IRenodeBridge sc_time :=
  mk_bridge (fun s => s) (fun _ => timekeeper) (fun _ _ s => s).

Definition create_hierarchy : design sc_time :=
  native_design SC_ZERO_TIME (fun t now => t_add now t) top_bridge.
End Time.
End TimesyncNativeTop.

(** *** examples-native/interrupts-native and
    examples-native/tlm-non-blocking-native: which module an offset selects, and
    what the modules answer. *)
Module InterruptsNativeTop.
Import Interrupts.

Definition port_interrupter0 : tlm_fw_transport_if top :=
  blocking_only (fun s p t =>
    '(m, p, t) ← Native.b_transport s.(m_port_interrupter0) p t; Ok (mk_top m s.(m_port_interrupter1), p, t)).
Definition port_interrupter1 : tlm_fw_transport_if top :=
  blocking_only (fun s p t =>
    '(m, p, t) ← Native.b_transport s.(m_port_interrupter1) p t; Ok (mk_top s.(m_port_interrupter0) m, p, t)).

Definition top_bridge : IRenodeBridge top :=
  mk_bridge Native.reset
    (fun offset => if Native.tlm_route offset =? 0 then port_interrupter0 else port_interrupter1)
    Native.gpio_port_write.
End InterruptsNativeTop.

Module NonBlockingNativeTop.
Section Peq.
Context {P : Type} (peq_notify : P -> payload -> sc_time -> P).

Definition peripheral : tlm_fw_transport_if (DirectConnection.Native.peripheral P) :=
  mk_fw (fun s p delay => '(s, p) ← DirectConnection.Native.b_transport s p; Ok (s, p, delay))
    (fun s _ => (s, false)) (DirectConnection.Native.nb_transport_fw peq_notify) (fun s _ => (s, 0)).

Definition top_bridge : IRenodeBridge (DirectConnection.Native.peripheral P) :=
  mk_bridge (fun s => s) (fun _ => peripheral) (fun _ _ s => s).
End Peq.
End NonBlockingNativeTop.

(** *** Simulations *)

Section Simulation.
Context {S1 S2 : Type} (d1 : design S1) (d2 : design S2) (R : S1 -> S2 -> Prop).
(** The requests that are compared, and the answers that are alike. *)
Context (may : request -> S1 -> Prop) (alike : request -> option payload -> option payload -> Prop).

Class Simulates : Prop := {
  sim_start : R d1.(start) d2.(start);
  sim_serve : forall r s1 s2, R s1 s2 -> may r s1 ->
    exists s1' a1 s2' a2, serve d1 r s1 = Ok (s1', a1) /\ serve d2 r s2 = Ok (s2', a2) /\
      R s1' s2' /\ alike r a1 a2;
}.

(** Every request of a session is compared when its turn comes. *)
Fixpoint permitted (rs : list request) (s : S1) : Prop :=
  match rs with
  | [] => True
  | r :: rs => may r s /\ forall s' a, serve d1 r s = Ok (s', a) -> permitted rs s'
  end.

(** Both designs answer every request of the session, and alike. *)
Definition agree (rs : list request) : Prop :=
  exists s1 as1 s2 as2, session d1 rs d1.(start) = Ok (s1, as1) /\
    session d2 rs d2.(start) = Ok (s2, as2) /\ Forall3 alike rs as1 as2.

Lemma session_simulated `{HS : !Simulates} rs : forall s1 s2, R s1 s2 -> permitted rs s1 ->
  exists s1' as1 s2' as2, session d1 rs s1 = Ok (s1', as1) /\ session d2 rs s2 = Ok (s2', as2) /\
    R s1' s2' /\ Forall3 alike rs as1 as2.
Proof.
  induction rs as [|r rs IH]; cbn [session]; intros s1 s2 HR Hp.
  - exists s1, [], s2, []. split_and!; [done..|constructor].
  - destruct Hp as [Hm Hp]. destruct (sim_serve r s1 s2 HR Hm) as (s1' & a1 & s2' & a2 & H1 & H2 & HR' & Ha).
    destruct (IH s1' s2' HR' (Hp _ _ H1)) as (s1'' & as1 & s2'' & as2 & H1' & H2' & HR'' & Has).
    rewrite H1, H2, !bind_Ok, H1', H2', !bind_Ok. exists s1'', (a1 :: as1), s2'', (a2 :: as2).
    split_and!; [done..|by constructor].
Qed.

Lemma sessions_agree `{HS : !Simulates} rs : permitted rs d1.(start) -> agree rs.
Proof.
  intros Hp. destruct (session_simulated rs _ _ sim_start Hp) as (s1 & as1 & s2 & as2 & H1 & H2 & _ & H).
  by exists s1, as1, s2, as2.
Qed.
End Simulation.

(** The bridged peripheral latches the first change of pin 2, the native one
    shows the level that was driven last, on whatever pin.  Compared are reads,
    of four bytes at least, while every drive is of the level at which pin 2 has
    changed so far, or has not. *)
Definition gpio_may (r : request) (s : GpioTop.top) : Prop :=
  match r with
  | Access p _ => is_read p = true /\ exists d, p.(data) = Some d /\ (4 <= length d)%nat
  | Drive pin level =>
      level = s.(GpioTop.m_gpio_peripheral).(Gpio.gpio_received) ||
              ((pin =? 2) && xorb level s.(GpioTop.m_gpio_in_signal))
  | Elapse _ => True
  end.

(** The same bit: the example stores it as a word and reports success, the native
    variant stores it as one byte and leaves the other bytes and the status. *)
Definition gpio_alike (r : request) (a1 a2 : option payload) : Prop :=
  match r, a1, a2 with
  | Access p _, Some p1, Some p2 => exists (b : bool) d, p.(data) = Some d /\
      p1 = set_response_status TLM_OK_RESPONSE (set_data (Some (splice d 0 [Z.b2z b; 0; 0; 0])) p) /\
      p2 = set_data (Some (splice d 0 [Z.b2z b])) p
  | Drive _ _, None, None | Elapse _, None, None => True
  | _, _, _ => False
  end.

(** Reads of the time are of four bytes. *)
Definition time_may (r : request) (now : sc_time) : Prop :=
  match r with
  | Access p _ => is_read p = true ->
      p.(data_length) = 4 /\ exists d, p.(data) = Some d /\ (4 <= length d)%nat
  | _ => True
  end.

(** The same data; only the bridged timekeeper sets a status. *)
Definition time_alike (r : request) (a1 a2 : option payload) : Prop :=
  match a1, a2 with
  | Some p1, Some p2 => p1.(data) = p2.(data) /\
      forall p t, r = Access p t ->
        p1.(response_status) = (if is_read p then TLM_OK_RESPONSE else TLM_GENERIC_ERROR_RESPONSE) /\
        p2.(response_status) = p.(response_status)
  | None, None => True
  | _, _ => False
  end.

(** ** Lemmas *)

Definition gpio_related (s1 : GpioTop.top) (s2 : GpioNative.top) : Prop :=
  s2.(GpioNative.gpio_port) = s1.(GpioTop.m_gpio_peripheral).(Gpio.gpio_received).

(** What a read of either gives. *)
Lemma gpio_example_read s p t d : is_read p = true -> p.(data) = Some d -> (4 <= length d)%nat ->
  serve GpioTop.gpio_example (Access p t) s =
    Ok (s, Some (set_response_status TLM_OK_RESPONSE (set_data (Some
      (splice d 0 [Z.b2z s.(GpioTop.m_gpio_peripheral).(Gpio.gpio_received); 0; 0; 0])) p))).
Proof.
  intros Hr Hd Hl. cbn [serve bus_access GpioTop.gpio_example].
  unfold GpioTop.initiator_socket, Gpio.receive_b_transport. rewrite Hr. cbn [cassert]. unfold set_data_word.
  rewrite (data_write_splice p d) by (rewrite ?le_encode_length; done || lia). rewrite !bind_Ok.
  by destruct s as [sig [[]]].
Qed.

Lemma gpio_native_read s p t d : is_read p = true -> p.(data) = Some d -> (4 <= length d)%nat ->
  serve GpioNativeTop.create_hierarchy (Access p t) s =
    Ok (s, Some (set_data (Some (splice d 0 [Z.b2z s.(GpioNative.gpio_port)])) p)).
Proof.
  intros Hr Hd Hl. cbn [serve bus_access GpioNativeTop.create_hierarchy native_design
    GpioNativeTop.top_bridge tlm_route GpioNativeTop.gpio_peripheral blocking_only b_transport].
  unfold GpioNative.b_transport. rewrite Hr. cbn [negb].
  by rewrite (data_write_splice p d), !bind_Ok by (done || cbn; lia).
Qed.

Lemma gpio_ports_out_received pin level s :
  (GpioTop.gpio_ports_out pin level s).(GpioTop.m_gpio_peripheral).(Gpio.gpio_received) =
  s.(GpioTop.m_gpio_peripheral).(Gpio.gpio_received) || ((pin =? 2) && xorb level s.(GpioTop.m_gpio_in_signal)).
Proof.
  unfold GpioTop.gpio_ports_out. destruct s as [sig [rec]]. destruct (pin =? 2); cbn; [|by rewrite orb_false_r].
  by destruct sig, level, rec.
Qed.

#[export] Instance gpio_simulates :
  Simulates GpioTop.gpio_example GpioNativeTop.create_hierarchy gpio_related gpio_may gpio_alike.
Proof.
  split; [done|]. intros [p t|pin level|t] s1 s2 Hrel Hm.
  - destruct Hm as [Hr (d & Hd & Hl)]. do 4 eexists. split; [by apply (gpio_example_read s1 p t d)|].
    split; [by apply (gpio_native_read s2 p t d)|]. split; [done|]. rewrite Hrel. by do 2 eexists.
  - do 4 eexists. split; [reflexivity|]. split; [reflexivity|]. split; [|done].
    unfold gpio_related. cbn [gpio_port_write drive_pin GpioTop.gpio_example]. rewrite gpio_ports_out_received. exact Hm.
  - do 4 eexists. by split_and!.
Qed.

Lemma session_app {S} (d : design S) rs rs' s s1 as1 : session d rs s = Ok (s1, as1) ->
  session d (rs ++ rs') s = ('(s', as') ← session d rs' s1; Ok (s', as1 ++ as')).
Proof.
  revert s as1. induction rs as [|r rs IH]; intros s as1; cbn [session app].
  - intros [= -> <-]. by destruct (session d rs' s1) as [[]|].
  - destruct (serve d r s) as [[s0 a]|]; [|done]. rewrite !bind_Ok.
    destruct (session d rs s0) as [[s2 as2]|] eqn:Hrs; [|done]. rewrite bind_Ok. intros [= -> <-].
    rewrite (IH _ _ Hrs). by destruct (session d rs' s1) as [[]|].
Qed.

(** A drive that is not compared shows in the next read. *)
Lemma gpio_drive_shows rs pin level p t s1 as1 :
  permitted GpioTop.gpio_example gpio_may rs GpioTop.new_top ->
  session GpioTop.gpio_example rs GpioTop.new_top = Ok (s1, as1) ->
  ~ gpio_may (Drive pin level) s1 -> gpio_may (Access p t) s1 ->
  exists s1' s2' as2 p1 p2 b d1 d2,
    session GpioTop.gpio_example (rs ++ [Drive pin level; Access p t]) GpioTop.new_top =
      Ok (s1', as1 ++ [None; Some p1]) /\
    session GpioNativeTop.create_hierarchy (rs ++ [Drive pin level; Access p t]) GpioNative.new_top =
      Ok (s2', as2 ++ [None; Some p2]) /\
    p1.(data) = Some (Z.b2z b :: d1) /\ p2.(data) = Some (Z.b2z (negb b) :: d2).
Proof.
  intros Hp Hs Hd [Hr (d & Hdata & Hl)].
  assert (Hstart : gpio_related GpioTop.new_top GpioNative.new_top) by done.
  destruct (session_simulated GpioTop.gpio_example GpioNativeTop.create_hierarchy gpio_related gpio_may gpio_alike
    rs _ _ Hstart Hp) as (s1' & as1' & s2 & as2 & H1 & H2 & Hrel & _).
  rewrite Hs in H1. injection H1 as <- <-.
  set (s1' := GpioTop.gpio_ports_out pin level s1). set (s2' := GpioNative.gpio_port_write pin level s2).
  pose proof (gpio_example_read s1' p t d Hr Hdata Hl) as Ha1. pose proof (gpio_native_read s2' p t d Hr Hdata Hl) as Ha2.
  rewrite (session_app _ _ _ _ _ _ Hs), (session_app _ _ _ _ _ _ H2). cbn [session].
  change (serve GpioTop.gpio_example (Drive pin level) s1) with (Ok (s1', @None payload)).
  change (serve GpioNativeTop.create_hierarchy (Drive pin level) s2) with (Ok (s2', @None payload)).
  rewrite !bind_Ok, Ha1, Ha2, !bind_Ok.
  exists s1', s2', as2. do 2 eexists. exists (negb level). do 2 eexists.
  split; [reflexivity|]. split; [reflexivity|].
  assert (Hrec : (GpioTop.m_gpio_peripheral s1').(Gpio.gpio_received) = negb level).
  { unfold s1'. rewrite gpio_ports_out_received. cbn in Hd.
    by destruct level, (_ || _) eqn:E; cbn in *; rewrite ?E in Hd. }
  rewrite Hrec, negb_involutive. by destruct d as [|b0 d]; [cbn in Hl; lia|].
Qed.

Section Time.
Context (to_seconds : sc_time -> Z) (Hrange : forall t, 0 <= t < 2 ^ 64 -> 0 <= to_seconds t < 2 ^ 32).

Definition time_related (t1 t2 : sc_time) : Prop := t1 = t2 /\ 0 <= t1 < 2 ^ 64.

Lemma time_simulates :
  Simulates (TimesyncTop.timesync_example to_seconds) (TimesyncNativeTop.create_hierarchy to_seconds)
    time_related time_may time_alike.
Proof.
  split; [done|]. intros [p t|pin level|t] now ? [<- Hnow] Hm.
  - cbn [serve bus_access TimesyncTop.timesync_example TimesyncNativeTop.create_hierarchy native_design
      TimesyncNativeTop.top_bridge tlm_route TimesyncNativeTop.timekeeper blocking_only b_transport].
    unfold TimesyncTop.initiator_socket, Timekeeper.custom_b_transport, Timekeeper.native_b_transport.
    cbn in Hm. destruct (is_read p) eqn:Hr; cbn [negb].
    + destruct (Hm eq_refl) as (Hl & d & Hd & Hlen). rewrite Hl. cbn [Z.eqb Pos.eqb cassert].
      unfold Timekeeper.double_to_uint. specialize (Hrange now Hnow).
      destruct (Z.leb_spec 0 (to_seconds now)), (Z.ltb_spec (to_seconds now) (2 ^ 32)); try lia. cbn [andb].
      unfold set_data_word. rewrite !bind_Ok.
      rewrite (data_write_splice p d), (data_write_splice (set_response_status _ p) d) by (rewrite ?le_encode_length; done || cbn; lia).
      rewrite !bind_Ok. do 4 eexists. split; [reflexivity|]. split; [reflexivity|]. split; [done|].
      split; [done|]. intros q u [= <- <-]. by rewrite Hr.
    + rewrite !bind_Ok. do 4 eexists. split; [reflexivity|]. split; [reflexivity|]. split; [done|].
      split; [done|]. intros q u [= <- <-]. by rewrite Hr.
  - do 4 eexists. by split_and!.
  - do 4 eexists. split; [reflexivity|]. split; [reflexivity|]. split; [|done].
    split; [done|]. apply t_add_range.
Qed.
End Time.

(** The two writes of Interrupts and the bridge's routing are the same. *)
Lemma interrupts_native_routed s p t :
  ((InterruptsNativeTop.top_bridge.(tlm_route) p.(address)).(b_transport) s p t) =
  Interrupts.Native.top_b_transport s p t.
Proof.
  unfold Interrupts.Native.top_b_transport. cbn [tlm_route InterruptsNativeTop.top_bridge].
  by destruct (_ =? 0).
Qed.

(** ** Properties *)

(** C13: how far the native variants answer Renode as the examples do, in
    sessions of any length.  A read of the GPIO peripheral gives the same bit in
    both, in the example as a word with a status, in the native variant as one
    byte with the rest of the buffer and the status as they were, as long as
    every drive, of any pin, is of the level that says whether pin 2 has changed
    by then; and only as long: after the first other drive a read gives the bit
    in one and its complement in the other.  Every access to the timekeeper, a
    word if it is a read, leaves the same data in both, at all times, and only
    the example sets a response status. *)
Theorem native_variants_agree to_seconds :
  (forall t, 0 <= t < 2 ^ 64 -> 0 <= to_seconds t < 2 ^ 32) ->
  (forall rs, permitted GpioTop.gpio_example gpio_may rs GpioTop.new_top ->
     agree GpioTop.gpio_example GpioNativeTop.create_hierarchy gpio_alike rs) /\
  (forall rs pin level p t s1 as1, permitted GpioTop.gpio_example gpio_may rs GpioTop.new_top ->
     session GpioTop.gpio_example rs GpioTop.new_top = Ok (s1, as1) ->
     ~ gpio_may (Drive pin level) s1 -> gpio_may (Access p t) s1 ->
     exists s1' s2' as2 p1 p2 b d1 d2,
       session GpioTop.gpio_example (rs ++ [Drive pin level; Access p t]) GpioTop.new_top =
         Ok (s1', as1 ++ [None; Some p1]) /\
       session GpioNativeTop.create_hierarchy (rs ++ [Drive pin level; Access p t]) GpioNative.new_top =
         Ok (s2', as2 ++ [None; Some p2]) /\
       p1.(data) = Some (Z.b2z b :: d1) /\ p2.(data) = Some (Z.b2z (negb b) :: d2)) /\
  (forall rs, permitted (TimesyncTop.timesync_example to_seconds) time_may rs SC_ZERO_TIME ->
     agree (TimesyncTop.timesync_example to_seconds) (TimesyncNativeTop.create_hierarchy to_seconds)
       time_alike rs).
Proof.
  intros Hrange. split_and!; intros rs.
  - intros Hp. eapply (sessions_agree _ _ gpio_related gpio_may); [apply _|exact Hp].
  - apply gpio_drive_shows.
  - intros Hp. eapply (sessions_agree _ _ time_related time_may); [by apply time_simulates|exact Hp].
Qed.

Definition word_read : payload :=
  mk_payload TLM_READ_COMMAND 0 (Some [0; 0; 0; 0]) 4 4 None 0 false TLM_INCOMPLETE_RESPONSE.

Lemma native_variants_agree_witness :
  agree GpioTop.gpio_example GpioNativeTop.create_hierarchy gpio_alike
    [Access word_read 0; Drive 2 true; Drive 5 true; Access word_read 0] /\
  (exists s1' s2' as2 p1 p2 b d1 d2,
    session GpioTop.gpio_example ([Access word_read 0] ++ [Drive 5 true; Access word_read 0]) GpioTop.new_top =
      Ok (s1', [Some (set_response_status TLM_OK_RESPONSE word_read)] ++ [None; Some p1]) /\
    session GpioNativeTop.create_hierarchy ([Access word_read 0] ++ [Drive 5 true; Access word_read 0])
      GpioNative.new_top = Ok (s2', as2 ++ [None; Some p2]) /\
    p1.(data) = Some (Z.b2z b :: d1) /\ p2.(data) = Some (Z.b2z (negb b) :: d2)) /\
  agree (TimesyncTop.timesync_example (fun t => t / 10 ^ 12))
    (TimesyncNativeTop.create_hierarchy (fun t => t / 10 ^ 12)) time_alike
    [Elapse (sc_sec 3); Access word_read 0].
Proof.
  destruct (native_variants_agree (fun t => t / 10 ^ 12)) as (Hg & Hdiff & Ht).
  { intros t Ht. split; [apply Z.div_pos; lia|]. apply Z.div_lt_upper_bound; lia. }
  split_and!.
  - apply Hg. cbn. split_and!; [done|by eexists|]. intros s' a [= <- <-]. split; [done|].
    intros s' a [= <- <-]. split; [done|]. intros s' a [= <- <-]. split; [|done]. split; [done|by eexists].
  - apply (Hdiff [Access word_read 0] 5 true word_read 0 GpioTop.new_top); [|reflexivity|done|by split; [|eexists]].
    split; [|done]. split; [done|by eexists].
  - apply Ht. split; [done|]. intros s' a [= <- <-]. split; [|done]. split; [done|by eexists].
Defined.

(** The example stores a word whatever the length of the access: into the buffer
    of a byte read, as the test of the example makes, it does not fit. *)
Theorem gpio_byte_read_overruns s p t d :
  is_read p = true -> p.(data) = Some d -> (length d < 4)%nat ->
  Gpio.receive_b_transport s p t = Err Undefined_behaviour.
Proof.
  intros Hr Hd Hl. unfold Gpio.receive_b_transport. rewrite Hr. cbn [cassert].
  unfold set_data_word, data_write. rewrite Hd. unfold store, in_block. rewrite le_encode_length.
  destruct (Z.leb_spec (0 + Z.of_nat 4) (Z.of_nat (length d))); [lia|]. by rewrite andb_false_r.
Qed.

Lemma gpio_byte_read_overruns_witness :
  Gpio.receive_b_transport Gpio.new_gpio_peripheral
    (mk_payload TLM_READ_COMMAND 0 (Some [0]) 1 1 None 0 false TLM_INCOMPLETE_RESPONSE) 0 = Err Undefined_behaviour.
Proof. apply (gpio_byte_read_overruns _ _ _ [0]); [done|done|cbn; lia]. Defined.

(** Once the pin has fallen again the variants differ: the example still reads
    1, the native variant 0. *)
Theorem gpio_variants_differ :
  let rs := [Drive 2 true; Drive 2 false; Access word_read 0] in
  (exists s p, session GpioTop.gpio_example rs GpioTop.new_top = Ok (s, [None; None; Some p]) /\
     p.(data) = Some [1; 0; 0; 0]) /\
  (exists s p, session GpioNativeTop.create_hierarchy rs GpioNative.new_top = Ok (s, [None; None; Some p]) /\
     p.(data) = Some [0; 0; 0; 0]).
Proof. cbv zeta. split; do 2 eexists; by split. Qed.

(** The native variant takes every pin of Renode for its own. *)
Theorem native_pin_ignored :
  let rs := [Drive 5 true; Access word_read 0] in
  (exists s p, session GpioTop.gpio_example rs GpioTop.new_top = Ok (s, [None; Some p]) /\
     p.(data) = Some [0; 0; 0; 0]) /\
  (exists s p, session GpioNativeTop.create_hierarchy rs GpioNative.new_top = Ok (s, [None; Some p]) /\
     p.(data) = Some [1; 0; 0; 0]).
Proof. cbv zeta. split; do 2 eexists; by split. Qed.
