(* ===== verification/VirtualPlatform.v ===== *)
(** * The original system of the peripheral example
    (multiple-peripherals/systemc/original-system)

    A CPU model that turns [memcpy]s of the test software into bus transfers,
    decoding addresses itself, the field accessors of the platform API, and the
    test software: a main thread that starts a timer, polls, sleeps until the
    interrupt and polls again, and an interrupt handler that checks the memory
    of the last peripheral. *)

From S2P Require Import Prelude Tlm Kernel Peripheral.
From stdpp Require Import base numbers list.
#[local] Open Scope Z_scope.

(** ** Definitions *)

(** The table the constructor of [Cpu] fills. *)
Definition peripheral_ranges : list (Z * Z) :=
  [(0x0000, 0x0FFF); (0x1000, 0x1FFF); (0x2000, 0x2FFF)].

(** The decoding loop: the index reached and the address, rebased when a range
    contains it ([mapped] is assigned there and not read afterwards). *)
Fixpoint decode_from (ranges : list (Z * Z)) (target_index address : Z) : Z * Z :=
  match ranges with
  | [] => (target_index, address)
  | (first, second) :: ranges =>
      let target_index := target_index + 1 in
      if (first <=? address) && (address <=? second)
      then (target_index, u64 (address - first))
      else decode_from ranges target_index address
  end.

Definition decode (address : Z) : Z * Z := decode_from peripheral_ranges (-1) address.

(** The CPU waits for times and for its interrupt, the peripherals for their
    own events. *)
Inductive event : Type := irq_posedge | peripheral_event (i : Z) (e : Peripheral.event).

(** The fields of [PeripheralRegisterInterface] in the original system: their
    offsets, with the 64-bit timer, and sizes. *)
Inductive field : Type := cmd_start_timer | timer | timer_done | irq_ack | memory.

Definition original_timer : Z := 8.
Definition field_offset (f : field) : Z :=
  match f with
  | cmd_start_timer => cmd_start_timer_offset
  | timer => timer_offset original_timer
  | timer_done => timer_done_offset original_timer
  | irq_ack => irq_ack_offset original_timer
  | memory => memory_offset original_timer
  end.
Definition field_size (f : field) : Z :=
  match f with timer => original_timer | memory => 100 | _ => 1 end.

Section Cpu.
(** [W]: the rest of the platform; [irq] is the level of the interrupt input. *)
Context {W : Type} (irq : W -> bool).
(** [systembus[i]->b_transport]. *)
Context (systembus : Z -> payload -> sc_time -> proc event W (payload * sc_time)).

(** The transfer returns the buffer it was given. *)
Definition systembus_transfer (command : tlm_command) (address : Z) (buffer : list Z) :
  proc event W (list Z) :=
  let count := u32 (Z.of_nat (length buffer)) in
  let '(target_index, address) := decode address in
  '(payload, delay) ← systembus target_index
    (mk_payload command address (Some buffer) count count None 0 false TLM_INCOMPLETE_RESPONSE)
    SC_ZERO_TIME;
  p_lift (cassert (is_response_ok payload));;
  p_wait (Wait_time delay);;
  mret (default [] payload.(data)).

Definition systembus_memcpy_write (dest : Z) (src : list Z) : proc event W unit :=
  systembus_transfer TLM_WRITE_COMMAND dest src;; mret tt.

Definition systembus_memcpy_read (dest : list Z) (src : Z) : proc event W (list Z) :=
  systembus_transfer TLM_READ_COMMAND src dest.

Definition wfi : proc event W unit :=
  s ← p_get; if irq s then mret tt else p_wait (Wait_event irq_posedge).

(** [peripheral_ranges[index].first]. *)
Definition get_peripheral_address (index : Z) : res Z :=
  match peripheral_ranges !! Z.to_nat index with
  | Some r => cassert (r.1 mod original_timer =? 0);; Ok r.1
  | None => Err Undefined_behaviour
  end.

(** *** platform_sw_api.hpp *)

(** The local variable is not initialised before a read: [garbage]. *)
Definition write_peripheral_field (index : Z) (f : field) (value : list Z) : proc event W unit :=
  base ← p_lift (get_peripheral_address index);
  systembus_memcpy_write (u64 (base + field_offset f)) value.

Definition read_peripheral_field (garbage : list Z) (index : Z) (f : field) : proc event W (list Z) :=
  base ← p_lift (get_peripheral_address index);
  systembus_memcpy_read garbage (u64 (base + field_offset f)).

(** *** testcase.cpp *)

(** [garbage f]: the uninitialised buffer of a read of field [f]. *)
Context (garbage : field -> list Z).

Definition read_bool (index : Z) (f : field) : proc event W bool :=
  bs ← read_peripheral_field (garbage f) index f; p_lift (load_bool bs 0).

(** [while ((timer_value = READ(0, timer)) < 1000) assert(not READ(0, timer_done));] *)
Fixpoint poll_timer (fuel : nat) : proc event W unit :=
  match fuel with
  | O => fun _ => Fail Out_of_fuel
  | S n =>
      bs ← read_peripheral_field (garbage timer) 0 timer;
      if le_decode bs <? 1000 then
        timer_done ← read_bool 0 timer_done;
        p_lift (cassert (negb timer_done));;
        poll_timer n
      else mret tt
  end.

(** [while (not READ(2, irq_ack));] *)
Fixpoint poll_irq_ack (fuel : nat) : proc event W unit :=
  match fuel with
  | O => fun _ => Fail Out_of_fuel
  | S n =>
      acked ← read_bool 2 irq_ack;
      if (acked : bool) then mret tt else poll_irq_ack n
  end.

Definition testcase (fuel : nat) : proc event W unit :=
  write_peripheral_field 0 cmd_start_timer [1];;
  poll_timer fuel;;
  wfi;;
  timer_done ← read_bool 0 timer_done;
  p_lift (cassert timer_done);;
  poll_irq_ack fuel.

(** The loop of [irq_handler]: [value == (i ^ 0xFF)] for every byte. *)
Fixpoint check_memory (i : Z) (bs : list Z) : res unit :=
  match bs with
  | [] => Ok tt
  | value :: bs => cassert (value =? Z.lxor i 0xFF);; check_memory (i + 1) bs
  end.

Definition irq_handler : proc event W unit :=
  read_memory ← read_peripheral_field (garbage memory) 2 memory;
  p_lift (check_memory 0 read_memory);;
  write_peripheral_field 2 irq_ack [1].

(** *** The threads of the CPU *)

(** [irq.posedge()], and the effect of [sc_stop()]. *)
Context (posedge : W -> bool) (sc_stop : W -> W).

Definition stop : proc event W unit := p_modify sc_stop.

Definition main_thread (fuel : nat) : proc event W unit := testcase fuel;; stop.

(** Sensitive to the rising edge and not initialised; it runs once. *)
Definition irq_handler_thread : proc event W unit :=
  p_wait Wait_static;;
  s ← p_get;
  p_lift (cassert (posedge s));;
  irq_handler.
End Cpu.

(** [end_of_elaboration]: [systembus.bind_count()] targets are bound. *)
Definition end_of_elaboration (bind_count : Z) : res unit :=
  cassert (bind_count =? Z.of_nat (length peripheral_ranges)).

(** [sc_main] after [sc_start] returned with this status; an error report is
    thrown. *)
Inductive sc_status : Type := SC_PAUSED | SC_STOPPED | SC_OTHER.

Definition sc_main (status : sc_status) : res Z :=
  match status with
  | SC_PAUSED => Err Fatal_report
  | SC_STOPPED => Ok 0
  | SC_OTHER => Err Assert_failure
  end.

(** [Top] connects the peripherals in a ring: the DMA socket and the FIFO
    output of peripheral [i] go to the next one. *)
Definition num_peripherals : Z := 3.
Definition dma_target (i : Z) : Z := (i + 1) mod num_peripherals.
Definition fifo_target (i : Z) : Z := (i + 1) mod num_peripherals.
Definition irq_source : Z := 2.

(** ** Lemmas *)

Lemma decode_mapped i off : 0 <= i < 3 -> 0 <= off < 0x1000 -> decode (i * 0x1000 + off) = (i, off).
Proof.
  intros Hi Ho. unfold decode, peripheral_ranges. cbn [decode_from].
  assert (i = 0 \/ i = 1 \/ i = 2) as [-> | [-> | ->]] by lia.
  - destruct (Z.leb_spec 0 (0 * 4096 + off)), (Z.leb_spec (0 * 4096 + off) 4095); try lia.
    cbn [andb]. rewrite wrap_small by lia. f_equal; lia.
  - destruct (Z.leb_spec 0 (1 * 4096 + off)), (Z.leb_spec (1 * 4096 + off) 4095); try lia.
    destruct (Z.leb_spec 4096 (1 * 4096 + off)), (Z.leb_spec (1 * 4096 + off) 8191); try lia.
    cbn [andb]. rewrite wrap_small by lia. f_equal; lia.
  - destruct (Z.leb_spec 0 (2 * 4096 + off)), (Z.leb_spec (2 * 4096 + off) 4095); try lia.
    destruct (Z.leb_spec 4096 (2 * 4096 + off)), (Z.leb_spec (2 * 4096 + off) 8191); try lia.
    destruct (Z.leb_spec 8192 (2 * 4096 + off)), (Z.leb_spec (2 * 4096 + off) 12287); try lia.
    cbn [andb]. rewrite wrap_small by lia. f_equal; lia.
Qed.

(** Outside of the table the last target gets the address as it is. *)
Lemma decode_unmapped a : 0x3000 <= a -> decode a = (2, a).
Proof.
  intros Ha. unfold decode, peripheral_ranges. cbn [decode_from].
  destruct (Z.leb_spec a 4095); [lia|]. destruct (Z.leb_spec a 8191); [lia|].
  destruct (Z.leb_spec a 12287); [lia|]. by rewrite !andb_false_r.
Qed.

Lemma peripheral_address i : 0 <= i < 3 -> get_peripheral_address i = Ok (i * 0x1000).
Proof. intros Hi. assert (i = 0 \/ i = 1 \/ i = 2) as [-> | [-> | ->]] by lia; reflexivity. Qed.

Lemma field_fits f : 0 <= field_offset f /\ 0 < field_size f /\
  field_offset f + field_size f <= struct_size original_timer < 0x1000.
Proof. destruct f; by vm_compute. Qed.

(** The bus promises what a peripheral's register interface does: a transfer
    within the struct is answered with OK and, for a read, the registers'
    bytes; the command register is excepted, since it clears itself.  [regs w i] are the registers of peripheral [i]; other processes may
    run while the transfer is suspended, as [R] allows. *)
Section Access.
Context {W : Type} (regs : W -> Z -> list Z) (R : W -> W -> Prop).
Context (systembus : Z -> payload -> sc_time -> proc event W (payload * sc_time)).

Class RegisterBus : Prop := {
  bus_reads : forall i off d w (Q : payload * sc_time -> W -> Prop),
    0 <= i < 3 -> 0 <= off -> off + Z.of_nat (length d) <= struct_size original_timer ->
    (forall w' t, R w w' -> Q (mk_payload TLM_READ_COMMAND off
        (Some (slice (regs w' i) off (Z.of_nat (length d)))) (Z.of_nat (length d))
        (Z.of_nat (length d)) None 0 false TLM_OK_RESPONSE, t) w') ->
    wp R (fun _ _ => True) (systembus i (mk_payload TLM_READ_COMMAND off (Some d)
      (Z.of_nat (length d)) (Z.of_nat (length d)) None 0 false TLM_INCOMPLETE_RESPONSE)
      SC_ZERO_TIME w) Q;
  bus_writes : forall i off d w (Q : payload * sc_time -> W -> Prop),
    0 <= i < 3 -> cmd_start_timer_offset < off -> off + Z.of_nat (length d) <= struct_size original_timer ->
    (forall w' t, slice (regs w' i) off (Z.of_nat (length d)) = d ->
      Q (mk_payload TLM_WRITE_COMMAND off (Some d) (Z.of_nat (length d))
        (Z.of_nat (length d)) None 0 false TLM_OK_RESPONSE, t) w') ->
    wp R (fun _ _ => True) (systembus i (mk_payload TLM_WRITE_COMMAND off (Some d)
      (Z.of_nat (length d)) (Z.of_nat (length d)) None 0 false TLM_INCOMPLETE_RESPONSE)
      SC_ZERO_TIME w) Q;
}.
End Access.

(** A field access is one transfer to the peripheral it names, at the offset of
    the field. *)
Lemma write_field_transfer {W} (systembus : Z -> payload -> sc_time -> proc event W (payload * sc_time))
  i f v w :
  0 <= i < 3 -> Z.of_nat (length v) < 2 ^ 32 ->
  write_peripheral_field systembus i f v w =
  (('(p, delay) ← systembus i (mk_payload TLM_WRITE_COMMAND (field_offset f) (Some v)
      (Z.of_nat (length v)) (Z.of_nat (length v)) None 0 false TLM_INCOMPLETE_RESPONSE) SC_ZERO_TIME;
    p_lift (cassert (is_response_ok p));;
    p_wait (Wait_time delay);;
    mret (default [] p.(data)));; mret tt) w.
Proof.
  intros Hi Hv. unfold write_peripheral_field, systembus_memcpy_write, systembus_transfer.
  rewrite peripheral_address by done. unfold mbind at 1, proc_bind at 1. cbn [p_lift prog_bind].
  pose proof (field_fits f). rewrite (wrap_small 64), decode_mapped, wrap_small by lia. done.
Qed.

Lemma read_field_transfer {W} (systembus : Z -> payload -> sc_time -> proc event W (payload * sc_time))
  i f d w :
  0 <= i < 3 -> Z.of_nat (length d) < 2 ^ 32 ->
  read_peripheral_field systembus d i f w =
  ('(p, delay) ← systembus i (mk_payload TLM_READ_COMMAND (field_offset f) (Some d)
      (Z.of_nat (length d)) (Z.of_nat (length d)) None 0 false TLM_INCOMPLETE_RESPONSE) SC_ZERO_TIME;
    p_lift (cassert (is_response_ok p));;
    p_wait (Wait_time delay);;
    mret (default [] p.(data))) w.
Proof.
  intros Hi Hv. unfold read_peripheral_field, systembus_memcpy_read, systembus_transfer.
  rewrite peripheral_address by done. unfold mbind at 1, proc_bind at 1. cbn [p_lift prog_bind].
  pose proof (field_fits f). rewrite (wrap_small 64), decode_mapped, wrap_small by lia. done.
Qed.

Lemma check_memory_inverted n : forall i, 0 <= i -> 
  check_memory i ((fun x => Z.lxor x 0xFF) <$> seqZ i (Z.of_nat n)) = Ok tt.
Proof.
  induction n as [|n IH]; intros i Hi; [done|].
  rewrite seqZ_cons by lia. cbn [fmap list_fmap check_memory]. rewrite Z.eqb_refl. cbn [cassert].
  rewrite bind_Ok. replace (Z.pred (Z.of_nat (S n))) with (Z.of_nat n) by lia. apply IH. lia.
Qed.

Lemma check_memory_fails bs : forall i, check_memory i bs = Ok tt ->
  bs = (fun x => Z.lxor x 0xFF) <$> seqZ i (Z.of_nat (length bs)).
Proof.
  induction bs as [|b bs IH]; intros i H; [done|]. cbn [check_memory] in H.
  destruct (Z.eqb_spec b (Z.lxor i 0xFF)); cbn [cassert] in H; [|done]. rewrite bind_Ok in H.
  cbn [length]. rewrite seqZ_cons by lia. cbn [fmap list_fmap]. f_equal; [done|].
  rewrite (IH _ H) at 1. do 3 f_equal; lia.
Qed.

(** ** Properties *)

(** An access of the test software to any field of any of the three
    peripherals is decoded to that peripheral, at the offset of the field, and
    an address beyond the table is sent to the last peripheral as it is,
    instead of being refused. *)
Theorem systembus_decode a :
  0 <= a < 2 ^ 64 ->
  decode a = if a <? 0x3000 then (a / 0x1000, a mod 0x1000) else (2, a).
Proof.
  intros Ha. destruct (Z.ltb_spec a 0x3000); [|by apply decode_unmapped].
  rewrite (Z.div_mod a 0x1000) at 1 by lia. rewrite Z.mul_comm. apply decode_mapped.
  - split; [apply Z.div_pos; lia|apply Z.div_lt_upper_bound; lia].
  - apply Z.mod_pos_bound. lia.
Qed.

Lemma systembus_decode_witness : decode 0x2012 = (2, 0x12) /\ decode 0x3012 = (2, 0x3012).
Proof.
  split; [rewrite (systembus_decode 0x2012) by lia; reflexivity
         |rewrite (systembus_decode 0x3012) by lia; reflexivity].
Defined.

(** Over any bus that serves register accesses, while other processes leave
    the memory of peripheral 2 alone, the interrupt handler terminates without
    a failed assertion when that memory holds [i ^ 0xFF] at [i], and it has
    then set the acknowledge register the main thread polls. *)
Theorem irq_handler_accepts {W} (regs : W -> Z -> list Z) R systembus garbage w :
  RegisterBus regs R systembus ->
  (forall w w', R w w' -> slice (regs w' 2) (field_offset memory) 100 =
                          slice (regs w 2) (field_offset memory) 100) ->
  length (garbage memory) = 100%nat ->
  slice (regs w 2) (field_offset memory) 100 = (fun i => Z.lxor i 0xFF) <$> seqZ 0 100 ->
  wp R (fun _ _ => True) (irq_handler systembus garbage w) (fun _ w' =>
    exists w1, slice (regs w1 2) (field_offset irq_ack) 1 = [1] /\ R w1 w').
Proof.
  intros [Hread Hwrite] Hstable Hg Hmem. unfold irq_handler. apply wp_bind.
  rewrite read_field_transfer by (rewrite ?Hg; lia). apply wp_bind.
  apply Hread; [lia|apply (field_fits memory)|rewrite Hg; apply (field_fits memory)|].
  intros w1 t Hw1. cbn beta iota. apply wp_bind. cbn [is_response_ok].
  change (p_lift (cassert (is_response_ok _))) with (p_lift (E := event) (S := W) (Ok tt)).
  cbn [p_lift wp]. apply wp_bind, wp_wait; [done|]. intros w2 Hw2.
  cbn [wp mret proc_ret data]. apply wp_bind.
  change (default [] (Some ?d)) with d.
  assert (Hd : slice (regs w1 2) (field_offset memory) (Z.of_nat (length (garbage memory))) =
    (fun i => Z.lxor i 0xFF) <$> seqZ 0 (Z.of_nat 100)).
  { rewrite Hg. change (Z.of_nat 100) with 100. by rewrite (Hstable w w1 Hw1), Hmem. }
  cbn [data default]. rewrite Hd, check_memory_inverted by lia. cbn [p_lift wp].
  rewrite write_field_transfer by (cbn; lia). apply wp_bind, wp_bind.
  apply Hwrite; [lia|by vm_compute|by vm_compute|].
  intros w3 t3 Hw3. cbn beta iota. apply wp_bind.
  change (p_lift (cassert (is_response_ok _))) with (p_lift (E := event) (S := W) (Ok tt)).
  cbn [p_lift wp]. apply wp_bind, wp_wait; [done|]. intros w4 Hw4. cbn. by exists w3.
Qed.

(** A bus of total register maps, which answers at once. *)
Definition map_regs (w : Z -> Z -> Z) (i : Z) : list Z := w i <$> seqZ 0 120.

Definition map_bus (i : Z) (p : payload) (t : sc_time) : proc event (Z -> Z -> Z) (payload * sc_time) :=
  fun w =>
  match p.(command) with
  | TLM_READ_COMMAND =>
      Ret w (set_response_status TLM_OK_RESPONSE
        (set_data (Some (slice (map_regs w i) p.(address) p.(data_length))) p), t)
  | _ =>
      Ret (fun j b => if j =? i then default (w j b)
             (if p.(address) <=? b then default [] p.(data) !! Z.to_nat (b - p.(address)) else None)
           else w j b) (set_response_status TLM_OK_RESPONSE p, t)
  end.

Lemma map_bus_registers : RegisterBus map_regs eq map_bus.
Proof.
  split; intros i off d w Q Hi Ho Hend HQ; cbn.
  - by apply HQ.
  - unfold cmd_start_timer_offset in Ho. apply HQ. apply list_eq. intros k. unfold map_regs.
    change (struct_size original_timer) with 120 in Hend.
    destruct (decide (k < length d)%nat) as [Hk|].
    + rewrite lookup_slice, list_lookup_fmap, lookup_seqZ_lt by lia. cbn.
      rewrite Z.eqb_refl. destruct (Z.leb_spec off (0 + Z.of_nat (Z.to_nat off + k))); [|lia].
      replace (Z.to_nat (0 + Z.of_nat (Z.to_nat off + k) - off)) with k by lia.
      by destruct (lookup_lt_is_Some_2 d k Hk) as [b ->].
    + rewrite !lookup_ge_None_2; [done|lia|]. rewrite slice_length; [lia|lia|lia|].
      rewrite length_fmap, length_seqZ. lia.
Qed.

Lemma irq_handler_accepts_witness :
  wp eq (fun _ _ => True)
    (irq_handler map_bus (fun _ => replicate 100 7) (fun _ b => Z.lxor (b - 18) 0xFF)) (fun _ w' =>
      exists w1, slice (map_regs w1 2) (field_offset irq_ack) 1 = [1] /\ w1 = w').
Proof.
  apply (irq_handler_accepts map_regs eq map_bus (fun _ => replicate 100 7)
    (fun _ b => Z.lxor (b - 18) 0xFF) map_bus_registers).
  - by intros w w' ->.
  - reflexivity.
  - vm_compute. reflexivity.
Defined.
