(* ===== verification/OriginalSystem.v ===== *)
(** * The original system, composed (multiple-peripherals/systemc/original-system)

    [Top]: the CPU of VirtualPlatform, with its main thread and its interrupt
    thread, over three peripherals of Peripheral with a 64-bit timer, connected
    in a ring by FIFOs and DMA sockets.  Every process of the platform is the
    code of those files, focused on the module it belongs to; the processes
    form a pool (Scheduler), and [step] is the simulation: it resumes any
    process that may run, activates the method of a peripheral whose FIFO holds
    bytes, starts the process that serves a requested DMA transfer, lets an
    event happen, or, when no process may run, advances time.

    What the steps assume of SystemC: a FIFO delivers in order and blocks its
    writer when full; a socket with a blocking transport only serves a
    non-blocking request by a process of its own, which consumes the delay
    partly itself and partly through the blocking call, and then sends the
    response; time does not advance while a process can run, nor past what a
    process waits for.  Nothing is assumed of the order of what may happen at
    one time, nor of how many bytes an activation of the method finds. *)

From stdpp Require Import base numbers list relations.
From S2P Require Import Prelude Tlm Kernel Scheduler Peripheral VirtualPlatform.
#[local] Open Scope Z_scope.

(** ** Definitions *)

Record platform : Type := mk_platform {
  time : sc_time;                             (* sc_time_stamp() *)
  peripheral : Z -> impl;
  fifo : Z -> list Z;                         (* written by peripheral i and not read *)
  fired : Z -> bool;                          (* timer_done_event of i has happened *)
  requested : list (Z * payload * sc_time);   (* DMA requests of i to be served *)
  stopped : bool;                             (* sc_stop() was called *)
}.

Definition upd {A} (i : Z) (x : A) (f : Z -> A) : Z -> A := fun j => if j =? i then x else f j.

Definition set_time t (s : platform) : platform :=
  mk_platform t s.(peripheral) s.(fifo) s.(fired) s.(requested) s.(stopped).
Definition set_peripheral i x (s : platform) : platform :=
  mk_platform s.(time) (upd i x s.(peripheral)) s.(fifo) s.(fired) s.(requested) s.(stopped).
Definition set_fifo i vs (s : platform) : platform :=
  mk_platform s.(time) s.(peripheral) (upd i vs s.(fifo)) s.(fired) s.(requested) s.(stopped).
Definition set_fired i (s : platform) : platform :=
  mk_platform s.(time) s.(peripheral) s.(fifo) (upd i true s.(fired)) s.(requested) s.(stopped).
Definition set_requested r (s : platform) : platform :=
  mk_platform s.(time) s.(peripheral) s.(fifo) s.(fired) r s.(stopped).
Definition set_stopped (s : platform) : platform :=
  mk_platform s.(time) s.(peripheral) s.(fifo) s.(fired) s.(requested) true.

(** original-system/peripheral.cpp is src/peripheral.cpp over the register
    struct with the 64-bit timer. *)
Module Original.
Section Original.
Context {SC : DoubleTimes} {W : Type}.
Definition new_impl : list Z -> impl := Peripheral.new_impl original_timer.
Definition rollover : sc_time := Peripheral.rollover original_timer.
Definition start_timer : sc_time -> impl -> impl := Peripheral.start_timer original_timer.
Definition process_command_register_fields : sc_time -> impl -> res impl :=
  Peripheral.process_command_register_fields original_timer.
Definition update_timer : sc_time -> proc Peripheral.event (impl * W) sc_time :=
  Peripheral.update_timer original_timer.
Definition update_volatile_register_fields : sc_time -> proc Peripheral.event (impl * W) sc_time :=
  Peripheral.update_volatile_register_fields original_timer.
Definition b_transport : target_index -> payload -> sc_time ->
  proc Peripheral.event (impl * W) (payload * sc_time) := Peripheral.b_transport original_timer.
Definition timer_done_thread : (Z -> proc Peripheral.event (impl * W) unit) ->
  proc Peripheral.event (impl * W) unit := Peripheral.timer_done_thread original_timer.
End Original.
End Original.

(** A peripheral and the rest of the platform; its clock is the platform's. *)
Definition enter (i : Z) (s : platform) : impl * platform :=
  (set_now s.(time) (s.(peripheral) i), s).
Definition leave (i : Z) (s : impl * platform) : platform := set_peripheral i s.1 s.2.

Definition tag (i : Z) (w : wait_on Peripheral.event) : wait_on event :=
  match w with
  | Wait_time t => Wait_time t
  | Wait_event e => Wait_event (peripheral_event i e)
  | Wait_static => Wait_static
  end.

Definition on_peripheral {A} (i : Z) (m : proc Peripheral.event (impl * platform) A) :
  proc event platform A := focus (tag i) (enter i) (leave i) m.

(** A run of a peripheral's code that cannot suspend. *)
Definition in_peripheral (i : Z) (f : impl * platform -> res (impl * platform)) (s : platform) :
  res platform := s' ← f (enter i s); Ok (leave i s').

(** The level of the interrupt line. *)
Definition irq_level (s : platform) : bool := (s.(peripheral) irq_source).(irq_signal).

Section System.
Context {SC : DoubleTimes}.
(** The capacity of a FIFO; the part of a request's delay that its blocking
    call gets; the fuel of the polling loops; the uninitialised bytes. *)
Context (capacity : Z) (annotated : sc_time -> sc_time) (fuel : nat) (garbage : field -> list Z).

(** *** Module boundaries *)

(** [fifo.write(v)] of peripheral [i]. *)
Definition fifo_write (i : Z) (v : Z) : proc Peripheral.event (impl * platform) unit :=
  p_wait (Wait_event fifo_event);;
  p_modify (fun s => (s.1, set_fifo i (s.2.(fifo) i ++ [v]) s.2)).

(** [dma->nb_transport_fw] of peripheral [i]: a request is accepted and served
    later; the only other phase sent is [END_RESP]. *)
Definition nb_transport_fw (i : Z) (s : impl * platform) (p : payload) (phase : tlm_phase)
  (delay : sc_time) : res ((impl * platform) * payload * tlm_phase * sc_time * tlm_sync_enum) :=
  if decide (phase = BEGIN_REQ) then
    Ok ((s.1, set_requested (s.2.(requested) ++ [(i, p, delay)]) s.2), p, phase, delay, TLM_ACCEPTED)
  else Ok (s, p, phase, delay, TLM_COMPLETED).

(** [memory_if] and [register_if] of peripheral [i]. *)
Definition memory_if (i : Z) (p : payload) (delay : sc_time) : proc event platform (payload * sc_time) :=
  on_peripheral i (Original.b_transport MEMORY_TARGET_INDEX p delay).
Definition register_if (i : Z) (p : payload) (delay : sc_time) : proc event platform (payload * sc_time) :=
  on_peripheral i (Original.b_transport REGIF_TARGET_INDEX p delay).

(** [nb_transport_bw] of peripheral [i], called with [BEGIN_RESP]. *)
Definition begin_resp (i : Z) (p : payload) (delay : sc_time) : proc event platform unit :=
  p_step (fun s =>
    s ← in_peripheral i (fun s =>
      '(s, _, _, _, _) ← nb_transport_bw (nb_transport_fw i) s p BEGIN_RESP delay; Ok s) s;
    Ok (s, tt)).

(** *** The processes *)

(** Serves a request of peripheral [i] at the target its socket is bound to. *)
Definition serve_request (i : Z) (p : payload) (delay : sc_time) : proc event platform unit :=
  p_wait (Wait_time (delay - annotated delay));;
  '(p, delay) ← memory_if (dma_target i) p (annotated delay);
  p_wait (Wait_time delay);;
  begin_resp i p SC_ZERO_TIME.

Definition timer_thread (i : Z) : proc event platform unit :=
  on_peripheral i (Original.timer_done_thread (fifo_write i)).

Definition cpu_main : proc event platform unit :=
  main_thread irq_level register_if garbage set_stopped fuel.

(** A process that the rising edge resumes finds the line high. *)
Definition cpu_irq : proc event platform unit :=
  irq_handler_thread register_if garbage irq_level.

(** [fifo_data_received_method] of the peripheral behind the FIFO of [i], on
    the bytes [vs]. *)
Definition receive (i : Z) (vs rest : list Z) (s : platform) : res platform :=
  in_peripheral (fifo_target i)
    (fifo_data_received_method original_timer (nb_transport_fw (fifo_target i)) vs)
    (set_fifo i rest s).

(** *** The simulation *)

Definition config : Type := pool event platform.

(** [Top]: three peripherals, whose uninitialised bytes are [bytes]. *)
Definition new_platform (bytes : Z -> list Z) : platform :=
  mk_platform SC_ZERO_TIME (fun i => Original.new_impl (bytes i)) (fun _ => [])
    (fun _ => false) [] false.

Definition new_top (bytes : Z -> list Z) : config :=
  let s := new_platform bytes in
  mk_pool s [boot cpu_main s; cpu_irq s; timer_thread 0 s; timer_thread 1 s; timer_thread 2 s].

(** What resumes process [n]: the elapsed time, its static sensitivity (the
    interrupt for process 1, its peripheral's timer event for 2 to 4), the
    interrupt, or room in the FIFO. *)
Definition ready (n : nat) (w : wait_on event) (s0 s : platform) : Prop :=
  match w with
  | Wait_time t => s.(time) = s0.(time) + t
  | Wait_static =>
      match n with
      | 1%nat => irq_level s = true
      | _ => s.(fired) (Z.of_nat n - 2) = true
      end
  | Wait_event irq_posedge => irq_level s = true
  | Wait_event (peripheral_event i fifo_event) => Z.of_nat (length (s.(fifo) i)) < capacity
  | Wait_event (peripheral_event _ timer_done_event) => False
  end.

(** The times at which something is due. *)
Definition deadline (c : config) (t : Z) : Prop :=
  due time c t \/
  (exists i, 0 <= i < num_peripherals /\ (c.(shared).(peripheral) i).(timer_done_at) = Some t).

Inductive step (c : config) : res config -> Prop :=
| step_resume n r :
    c.(shared).(stopped) = false -> resume ready c n r -> step c r
| step_receive i vs rest :
    c.(shared).(stopped) = false -> 0 <= i < num_peripherals ->
    c.(shared).(fifo) i = vs ++ rest -> vs <> [] ->
    step c (s ← receive i vs rest c.(shared); Ok (mk_pool s c.(threads)))
| step_serve i p t rest :
    c.(shared).(stopped) = false -> c.(shared).(requested) = (i, p, t) :: rest ->
    let s := set_requested rest c.(shared) in
    step c (Ok (mk_pool s (c.(threads) ++ [boot (serve_request i p t) s])))
| step_fire i :
    c.(shared).(stopped) = false -> 0 <= i < num_peripherals ->
    (c.(shared).(peripheral) i).(timer_done_at) = Some c.(shared).(time) ->
    step c (Ok (mk_pool (set_fired i (set_peripheral i
      (set_done_at None (c.(shared).(peripheral) i)) c.(shared))) c.(threads)))
| step_elapse t :
    c.(shared).(stopped) = false -> c.(shared).(time) < t ->
    (forall n, ~ is_ready ready c n) -> deadline c t -> (forall t', deadline c t' -> t <= t') ->
    step c (Ok (mk_pool (set_time t c.(shared)) c.(threads))).

Definition rstep : res config -> res config -> Prop := steps_to step.
End System.
