(* ===== verification/OriginalInvariant.v ===== *)
(** * The invariant of the original system

    Labels for the processes of OriginalSystem, the invariant that ties them to
    the state of the platform (who has written what, how far the stream, the
    requests and the transfers are, what each side of the interrupt may still
    do), and its preservation by everything but the processes themselves. *)

From stdpp Require Import base numbers list relations.
From S2P Require Import Prelude Tlm Kernel Scheduler Peripheral Streaming VirtualPlatform OriginalSystem.
#[local] Open Scope Z_scope.

(** ** Definitions *)

(** The main thread: before the start command, polling the timer, in [wfi],
    polling the acknowledge register (which is set by time [b]), done. *)
Inductive main_label : Type := At_boot | Polling | Sleeping | Acking (b : Z) | Ended.
(** The interrupt thread: not started, reading the memory (until time [d]),
    done with its accesses. *)
Inductive irq_label : Type := Idle | Checking (d : Z) | Acked.
Inductive label : Type :=
| Main (m : main_label) | Irq (h : irq_label) | Timer (t : timer_label) | Unused
| Transfer (f : transfer_label).

#[export] Instance main_label_eq_dec : EqDecision main_label.
Proof. solve_decision. Defined.
(** How long a read of the hundred bytes takes. *)
Definition check_time : Z := 25000.

Section Invariant.
Context {SC : DoubleTimes}.

(** When the timer event of peripheral 0 is notified: its timer is started at
    1 ns, and a time is 64 bits wide.  The rollover of a 64-bit timer is beyond
    the range of a time, so where this is is up to the library. *)
Definition timer_due : Z := u64 (1000 + Original.rollover).

(** When the test software reads the timer-done register for the last time
    before the timer has passed a thousand cycles, and expects it clear. *)
Definition last_poll : Z := 1002000.

(** So that expectation fails if the timer event is notified by then. *)
#[export] Instance early_rollover : Tolerated :=
  fun f => f = Assert_failure /\ timer_due <= last_poll.

Definition main_fact (m : main_label) (h : irq_label) (t : timer_label) (s : platform) : Prop :=
  match m with
  | At_boot =>
      s.(time) = 0 /\ (s.(peripheral) 0).(start_time_valid) = false /\
      (s.(peripheral) 0).(timer_done_at) = None /\ s.(fired) 0 = false /\ t = Armed
  | _ =>
      (s.(peripheral) 0).(start_time_valid) = true /\ (s.(peripheral) 0).(start_time) = 1000 /\
      (((s.(peripheral) 0).(timer_done_at) = Some timer_due /\ s.(fired) 0 = false /\
        t = Armed /\ s.(time) <= timer_due) \/
       ((s.(peripheral) 0).(timer_done_at) = None /\ s.(fired) 0 = true /\ timer_due <= s.(time) /\
        (t = Armed -> s.(time) = timer_due)))
  end /\
  match m with
  | Acking b => irq_level s = true /\ (h = Idle -> s.(time) + check_time <= b) /\
      (forall d, h = Checking d -> d <= b)
  | Ended => irq_level s = true /\ last_poll <= timer_due
  | _ => True
  end.

Definition irq_fact (h : irq_label) (s : platform) : Prop :=
  (s.(peripheral) 2).(regs) !! 17%nat = Some (match h with Acked => 1 | _ => 0 end) /\
  match h with
  | Idle => True
  | Checking d => irq_level s = true /\ s.(time) <= d <= s.(time) + check_time
  | Acked => irq_level s = true
  end.

Definition timer_fact (t : timer_label) (s : platform) : Prop :=
  (s.(peripheral) 0).(regs) !! 16%nat = Some (match t with Armed => 0 | _ => 1 end).

Record facts (m : main_label) (h : irq_label) (t : timer_label) (fl : list transfer_label)
  (s : platform) : Prop := {
  f_time : 0 <= s.(time);
  f_regs : forall i, length (s.(peripheral) i).(regs) = 120%nat /\
                     (s.(peripheral) i).(regs) !! 0%nat = Some 0;
  f_others : forall i, i <> 0 -> (s.(peripheral) i).(timer_done_at) = None /\
    (s.(peripheral) i).(start_time_valid) = false /\ s.(fired) i = false /\ s.(fifo) i = [];
  f_stopped : s.(stopped) = bool_decide (m = Ended);
  f_main : main_fact m h t s;
  f_irq : irq_fact h s;
  f_timer : timer_fact t s;
  (* the stream, up to the method of peripheral 1 *)
  f_index : (s.(peripheral) 1).(memory_index) <= streamed t <= 100;
  f_fifo : s.(fifo) 0 = seqZ (s.(peripheral) 1).(memory_index)
                             (streamed t - (s.(peripheral) 1).(memory_index));
  (* its requests and the transfers to peripheral 2 *)
  f_transfers : transfers_ok original_timer (s.(peripheral) 1) (s.(peripheral) 2) fl s.(requested);
}.

Definition Inv (ls : list label) (s : platform) : Prop :=
  exists m h t fl, ls = Main m :: Irq h :: Timer t :: Unused :: Unused :: (Transfer <$> fl) /\
    facts m h t fl s.

(** What a process with a label waits for. *)
Definition waits_time (w : wait_on event) (P : Z -> Prop) : Prop :=
  exists t, w = Wait_time t /\ 0 <= t /\ P t.

Definition waits (l : label) (w : wait_on event) (s : platform) : Prop :=
  match l with
  | Main At_boot => waits_time w (fun t => s.(time) + t <= 0)
  | Main Sleeping => w = Wait_event irq_posedge
  | Main Ended => False
  | Irq Idle => w = Wait_static
  | Irq (Checking d) => waits_time w (fun t => s.(time) + t <= d)
  | Timer Armed => w = Wait_static
  | Timer (Streaming _) => w = Wait_event (peripheral_event 0 fifo_event)
  | Timer Drained => False
  | Unused => w = Wait_static
  | _ => waits_time w (fun _ => True)
  end.

Definition final (l : label) : Prop :=
  match l with
  | Main Ended | Irq Acked | Timer Drained | Transfer Served => True
  | _ => False
  end.

(** What one run of a process leaves alone. *)
Definition guar (s s' : platform) : Prop :=
  s'.(time) = s.(time) /\ s'.(requested) = s.(requested) /\
  (s'.(peripheral) 1).(memory_index) = (s.(peripheral) 1).(memory_index) /\
  (length (s.(fifo) 0) <= length (s'.(fifo) 0))%nat.
End Invariant.

(** Nothing that the invariant or another process looks at has changed: the
    clocks of the modules, the timer registers and the payload counts may. *)
Definition same_device (x y : impl) : Prop :=
  y.(irq_signal) = x.(irq_signal) /\ y.(timer_done_at) = x.(timer_done_at) /\
  y.(start_time) = x.(start_time) /\ y.(start_time_valid) = x.(start_time_valid) /\
  y.(memory_index) = x.(memory_index) /\ y.(memory_written_count) = x.(memory_written_count) /\
  length y.(regs) = length x.(regs) /\
  (forall j, (j < 8 \/ 16 <= j)%nat -> y.(regs) !! j = x.(regs) !! j).

Record touched (s s' : platform) : Prop := {
  t_time : s'.(time) = s.(time);
  t_fifo : s'.(fifo) = s.(fifo);
  t_fired : s'.(fired) = s.(fired);
  t_requested : s'.(requested) = s.(requested);
  t_stopped : s'.(stopped) = s.(stopped);
  t_device : forall i, same_device (s.(peripheral) i) (s'.(peripheral) i);
}.

(** ** Lemmas *)

#[export] Instance same_device_refl : Reflexive same_device.
Proof. intros x. by split_and!. Qed.
#[export] Instance same_device_trans : Transitive same_device.
Proof.
  intros x y z (?&?&?&?&?&?&?&Hxy) (?&?&?&?&?&?&?&Hyz). split_and!; try congruence.
  intros j Hj. by rewrite Hyz, Hxy.
Qed.
#[export] Instance touched_preorder : PreOrder touched.
Proof.
  split.
  - intros s. by split.
  - intros s1 s2 s3 [] []. split; try congruence. intros i. etrans; eauto.
Qed.

Lemma same_now t x : same_device x (set_now t x).
Proof. by split_and!. Qed.

Lemma upd_same {A} i (x : A) f : upd i x f i = x.
Proof. unfold upd. by rewrite Z.eqb_refl. Qed.
Lemma upd_other {A} i j (x : A) f : i <> j -> upd i x f j = f j.
Proof. intros. unfold upd. by rewrite (proj2 (Z.eqb_neq j i)). Qed.

(** Lookups at known peripherals. *)
Ltac simp_upd := rewrite ?upd_same, ?upd_other by done.

(** The fields of [facts] that a step leaves as they are. *)
Ltac same_facts := try done; try (cbn; simp_upd; done).

Lemma touched_set i x s : same_device (s.(peripheral) i) x -> touched s (set_peripheral i x s).
Proof.
  intros Hx. split; try done. intros j. cbn. unfold upd.
  destruct (Z.eqb_spec j i) as [->|]; [done|reflexivity].
Qed.

Lemma touched_enter_leave i t s : touched s (leave i (set_now t (enter i s).1, s)).
Proof. by apply touched_set. Qed.

Section Preservation.
Context {SC : DoubleTimes}.

Lemma facts_touched m h t fl s s' : facts m h t fl s -> touched s s' -> facts m h t fl s'.
Proof.
  intros [] [Et Ef Ed Er Es Hd].
  assert (Hirq : irq_level s' = irq_level s) by apply (Hd irq_source).
  destruct (Hd 0) as (_ & D0 & S0 & V0 & _ & _ & L0 & R0).
  destruct (Hd 1) as (_ & _ & _ & _ & M1 & _ & L1 & R1).
  destruct (Hd 2) as (_ & _ & _ & _ & _ & C2 & L2 & R2).
  split; rewrite ?Et, ?Ef, ?Ed, ?Er, ?Es, ?M1, ?C2, ?Hirq; try done.
  - intros i. destruct (Hd i) as (_ & _ & _ & _ & _ & _ & -> & Hr). rewrite Hr by lia. auto.
  - intros i Hi. destruct (Hd i) as (_ & -> & _ & -> & _). auto.
  - revert f_main0. unfold main_fact. by rewrite Et, Ed, D0, V0, S0, Hirq.
  - revert f_irq0. unfold irq_fact. by rewrite Et, Hirq, R2 by lia.
  - revert f_timer0. unfold timer_fact. by rewrite R0 by lia.
  - eapply (transfers_same original_timer width_8); [done| |].
    + split; [done|]. intros j Hj. apply R1. right. change (18 <= j)%nat in Hj. lia.
    + split_and!; [exact Hirq|done|]. intros j Hj. apply R2. right. change (18 <= j)%nat in Hj. lia.
Qed.

Lemma Inv_touched ls s s' : Inv ls s -> touched s s' -> Inv ls s'.
Proof.
  intros (m & h & t & fl & -> & Hf) Ht. exists m, h, t, fl. split; [done|].
  by eapply facts_touched.
Qed.

Lemma guar_touched s s' : touched s s' -> guar s s'.
Proof.
  intros [Et Ef Ed Er Es Hd]. split_and!; [done|done|apply (Hd 1)|by rewrite Ef].
Qed.

#[export] Instance guar_preorder : PreOrder guar.
Proof.
  split; [by intros s; split_and!|]. intros s1 s2 s3 (?&?&?&?) (?&?&?&?).
  split_and!; [congruence..|lia].
Qed.

(** The registers, as the transfers see them. *)
Lemma f_struct m h t fl s i : facts m h t fl s -> struct_ok original_timer (s.(peripheral) i).
Proof. intros []. destruct (f_regs0 i) as [Hl H0]. split; [by rewrite Hl|done]. Qed.
End Preservation.

(** *** The method of peripheral 1 *)

Definition push_requests (rs : list request) (s : platform) : platform :=
  set_requested (s.(requested) ++ rs) s.

Lemma nb_transport_fw_begin (s : impl * platform) p d : nb_transport_fw 1 s p BEGIN_REQ d =
  Ok ((s.1, push_requests [(1, p, d)] s.2), p, BEGIN_REQ, d, TLM_ACCEPTED).
Proof. by destruct s. Qed.

Section Kernel_steps.
Context {SC : DoubleTimes}.

Lemma receive_facts m h t fl s vs rest :
  facts m h t fl s -> s.(fifo) 0 = vs ++ rest ->
  exists s', receive 0 vs rest s = Ok s' /\ facts m h t fl s' /\ s'.(fifo) 0 = rest /\
    s'.(time) = s.(time) /\
    (s'.(peripheral) 1).(memory_index) = (s.(peripheral) 1).(memory_index) + Z.of_nat (length vs) /\
    forall i, (s'.(peripheral) i).(timer_done_at) = (s.(peripheral) i).(timer_done_at).
Proof.
  intros Hf Hvs. pose proof (f_struct _ _ _ _ _ 1 Hf) as Hst1. destruct Hf.
  rewrite f_fifo0 in Hvs. set (c := (s.(peripheral) 1).(memory_index)) in *.
  apply seqZ_app_inv in Hvs as (Hv1 & Hv2 & Hlen).
  destruct (transfers_receive original_timer width_8 (nb_transport_fw 1) push_requests nb_transport_fw_begin
    (fun w => ltac:(destruct w; cbn; unfold push_requests; cbn; by rewrite app_nil_r))
    (fun r r' w => ltac:(unfold push_requests; cbn; by rewrite app_assoc))
    _ _ _ _ vs s.(time) (set_fifo 0 rest s) f_transfers0 Hst1 Hv1 ltac:(fold c; lia))
    as (y & rs & Hm & Htr & Hst & (I & D & S0 & V & C) & Hx & _ & Hk).
  unfold receive, in_peripheral, enter. change (fifo_target 0) with 1.
  change (time (set_fifo 0 _ s)) with (time s).
  change (peripheral (set_fifo 0 _ s) 1) with (peripheral s 1).
  rewrite Hm, bind_Ok. eexists. split; [reflexivity|]. fold c in Hx.
  unfold leave, set_peripheral, push_requests, set_requested, set_fifo.
  cbn [fst snd time peripheral fifo fired requested stopped].
  split_and!; cbn [time peripheral fifo]; simp_upd; [|done|done|done|].
  2: { intros i. unfold upd. destruct (Z.eqb_spec i 1) as [->|]; [by rewrite D|done]. }
  split; cbn [time peripheral fifo requested stopped fired]; simp_upd; rewrite ?Hx; try done.
  - intros i. unfold upd. destruct (Z.eqb_spec i 1) as [->|]; [|done].
    destruct Hst as [Hl Hz]. change (struct_size original_timer) with 120 in Hl. split; [lia|done].
  - intros i Hi. destruct (f_others0 i Hi) as (Ha & Hb & Hc' & Hd). rewrite (upd_other 0) by lia.
    unfold upd. destruct (Z.eqb_spec i 1) as [->|]; [|done]. by rewrite D, V.
  - lia.
  - rewrite Hv2. f_equal. lia.
Qed.

Lemma serve_facts m h t fl s i p d rest :
  facts m h t fl s -> s.(requested) = (i, p, d) :: rest ->
  i = 1 /\ p = dma_payload (Z.of_nat (length fl)) (inverted (Z.of_nat (length fl))) /\
  0 <= d <= clock_period /\ facts m h t (fl ++ [Todo]) (set_requested rest s).
Proof.
  intros [] Hreq. rewrite Hreq in f_transfers0.
  destruct (transfers_serve _ _ _ _ _ _ _ _ f_transfers0) as (-> & -> & Hd & _ & Htr).
  split_and!; [done|done|apply Hd|apply Hd|]. by split.
Qed.

Lemma fire_facts m h t fl s i :
  facts m h t fl s -> (s.(peripheral) i).(timer_done_at) = Some s.(time) ->
  i = 0 /\ s.(time) = timer_due /\
  facts m h t fl (set_fired i (set_peripheral i (set_done_at None (s.(peripheral) i)) s)).
Proof.
  intros [] Hi. destruct (decide (i = 0)) as [->|Hne].
  2: { destruct (f_others0 i Hne) as [H _]. congruence. }
  assert (Hdue : s.(time) = timer_due /\ main_fact m h t
    (set_fired 0 (set_peripheral 0 (set_done_at None (s.(peripheral) 0)) s))).
  { destruct f_main0 as [Hm Hack]. unfold main_fact. destruct m;
      [destruct Hm as (_ & _ & H & _); congruence|..];
      destruct Hm as (Hv & Hst & [(Hd & Hf & -> & Hle)|(Hd & _)]); try congruence;
      rewrite Hd in Hi; injection Hi as Hi; split; try done; split; try done;
      split_and!; try done; right; split_and!; try done; cbn; lia. }
  destruct Hdue as [Hdue Hm]. split_and!; [done|done|].
  split; cbn [set_fired set_peripheral time peripheral fifo fired requested stopped]; simp_upd; try done.
  - intros i. unfold upd. destruct (Z.eqb_spec i 0) as [->|]; [apply (f_regs0 0)|done].
  - intros i Hne. rewrite !upd_other by done. auto.
Qed.

Lemma elapse_facts m h t fl s t' :
  facts m h t fl s -> s.(time) < t' -> m <> At_boot ->
  (forall d, (s.(peripheral) 0).(timer_done_at) = Some d -> t' <= d) ->
  (forall d, h = Checking d -> t' <= d) -> (h = Idle -> irq_level s = false) ->
  (t = Armed -> s.(fired) 0 = false) ->
  facts m h t fl (set_time t' s).
Proof.
  intros [] Ht Hm Hdue Hcheck Hidle Harmed. split; try done; cbn [set_time time].
  - lia.
  - destruct f_main0 as [Hf Hack]. split.
    + assert (Hk : forall P, (P \/ (s.(peripheral) 0).(timer_done_at) = None /\ s.(fired) 0 = true /\
          timer_due <= s.(time) /\ (t = Armed -> s.(time) = timer_due)) ->
        (P -> (s.(peripheral) 0).(timer_done_at) = Some timer_due /\ s.(fired) 0 = false /\ t = Armed /\ s.(time) <= timer_due) ->
        ((s.(peripheral) 0).(timer_done_at) = Some timer_due /\ s.(fired) 0 = false /\ t = Armed /\ t' <= timer_due) \/
        ((s.(peripheral) 0).(timer_done_at) = None /\ s.(fired) 0 = true /\ timer_due <= t' /\
         (t = Armed -> t' = timer_due))).
      { intros P [HP|(? & Hf1 & ? & ?)] Himp; [left|right; split_and!; [done|done|lia|intros ->]].
        2: { rewrite Harmed in Hf1 by done. done. }
        destruct (Himp HP) as (? & ? & ? & _). split_and!; try done. by apply Hdue. }
      destruct m; [done|..]; destruct Hf as (Hv & Hs & Hp); split_and!; try done; by eapply Hk.
    + destruct m; try done. destruct Hack as (Hirq & Hi & Hc). split_and!; [done| |done].
      intros ->. rewrite Hidle in Hirq by done. done.
  - destruct f_irq0 as [Hr Hf]. split; [done|]. destruct h; try done. destruct Hf as (? & ? & ?).
    split; [done|]. cbn. specialize (Hcheck d eq_refl). lia.
Qed.

Definition garbage_bytes (bytes : Z -> list Z) : Prop := forall i, length (bytes i) = 120%nat.

Lemma new_facts bytes : garbage_bytes bytes -> facts At_boot Idle Armed [] (new_platform bytes).
Proof.
  intros Hb. pose proof (fun i => new_registers original_timer width_8 (bytes i) (f_equal Z.of_nat (Hb i))) as Hr.
  split; try done; cbn [new_platform time peripheral fifo fired requested stopped].
  - intros i. destruct (Hr i) as ([Hl H0] & _). split; [apply Nat2Z.inj; exact Hl|exact H0].
  - split; [|done]. apply (Hr 2).
  - apply (Hr 0).
  - by apply transfers_new.
Qed.
End Kernel_steps.
