(* ===== verification/OriginalThreads.v ===== *)
(** * The processes of the original system, verified

    Each process of OriginalSystem in the logic of Scheduler, against the
    invariant of OriginalInvariant: the processes that serve the DMA requests,
    the timer thread, and the two threads of the CPU with their register
    accesses. *)

From stdpp Require Import base numbers list relations.
From S2P Require Import Prelude Tlm Kernel Scheduler Peripheral Streaming VirtualPlatform OriginalSystem OriginalInvariant.
#[local] Open Scope Z_scope.

(** ** Definitions *)

(** What the theorems ask of the surroundings: FIFOs hold something, a served
    request waits no longer than it was asked to, uninitialised buffers have
    the size of their field, and the polling loops may go on for as long as the
    timer and the interrupt handler take. *)
Class Surroundings (capacity : Z) (annotated : sc_time -> sc_time) (fuel : nat)
  (garbage : field -> list Z) : Prop := {
  some_capacity : 0 < capacity;
  annotated_part : forall t, 0 <= t <= clock_period -> 0 <= annotated t <= t;
  enough_fuel : (335 <= fuel)%nat;
  garbage_sizes : forall f, Z.of_nat (length (garbage f)) = field_size f;
}.

(** The time an access to [len] bytes of a peripheral takes at time [now]: up
    to the edge of its timer's clock, if that runs, and the bus cycles. *)
Section Times.
Context {SC : DoubleTimes}.
Definition timer_cycles (x : impl) (now : sc_time) : Z := sc_ceil (t_sub now x.(start_time)) clock_period.
Definition timer_remainder (x : impl) (now : sc_time) : sc_time :=
  if x.(start_time_valid) then sc_ceil_gap (t_sub now x.(start_time)) clock_period else 0.
Definition access_time (x : impl) (now : sc_time) (len : Z) : sc_time :=
  t_add (t_add 0 (timer_remainder x now)) (transfer_time len).
End Times.

(** ** Lemmas *)

Section Threads.
Context {SC : DoubleTimes} (capacity : Z).
Notation twp := (twp (ready capacity) Inv guar waits).
Notation publish := (publish Inv guar).

(** A run inside peripheral [i]. *)
Notation twp_in i n ls s0 m s Q :=
  (twp n ls s0 (focus_prog (tag i) (enter i) (leave i) (m s)) Q) (only parsing).

Lemma publish_touched n ls s0 l s s' : publish n ls s0 l s -> touched s s' -> publish n ls s0 l s'.
Proof.
  intros [Hg HI] Ht. split; [etrans; [exact Hg|by apply guar_touched]|by eapply Inv_touched].
Qed.

Lemma twp_in_delay {A} i l t (k : unit -> proc _ _ A) n ls s0 (x : impl) s Q :
  publish n ls s0 l (leave i (x, s)) -> waits l (Wait_time t) (leave i (x, s)) ->
  (forall ls' s', ls' !! n = Some l -> Inv ls' s' -> s'.(time) = s.(time) + t ->
    let y := set_now (t_add x.(now) t) (set_now s'.(time) (s'.(peripheral) i)) in
    twp_in i n ls' s' (k tt) (y, s') Q) ->
  twp_in i n ls s0 (p_delay t ≫= k) (x, s) Q.
Proof. intros Hp Hw Hk. exists l. split_and!; [done|done|]. intros ls' s' Hl HI Hr. by apply Hk. Qed.

Lemma twp_in_step {A B} i (f : impl -> res (impl * B)) (k : B -> proc _ _ A) n ls s0 x s y b Q :
  f x = Ok (y, b) -> twp_in i n ls s0 (k b) (y, s) Q ->
  twp_in i n ls s0 (on_impl f ≫= k) (x, s) Q.
Proof.
  intros Hf HQ. unfold mbind, proc_bind, on_impl, p_step. cbn [fst]. by rewrite Hf.
Qed.

(** The delays inside a call, brought to the front. *)
Ltac assoc_delay :=
  match goal with |- context [((p_delay ?t ≫= ?f) ≫= ?g) ?s] =>
    change (((p_delay t ≫= f) ≫= g) s) with ((p_delay t ≫= (fun a => f a ≫= g)) s) end.

Lemma touched_leave i t u s : touched s (leave i (set_now t (set_now u (s.(peripheral) i)), s)).
Proof. by apply touched_set. Qed.

(** *** Register accesses *)

Lemma access_time_nonneg x now len : 0 <= access_time x now len.
Proof. apply wrap_range. lia. Qed.

Lemma update_timer_any x : length x.(regs) = 120%nat ->
  exists y, update_timer_now original_timer SC_ZERO_TIME x =
      Ok (y, t_add SC_ZERO_TIME (timer_remainder x x.(now))) /\
    same_device x y /\ y.(now) = x.(now) /\
    (x.(start_time_valid) = true ->
      slice y.(regs) 8 8 = le_encode 8 (timer_cycles x x.(now))).
Proof.
  intros Hl. unfold update_timer_now, timer_remainder. destruct (start_time_valid x) eqn:Hv.
  - cbv zeta. fold (timer_cycles x x.(now)).
    pose proof (wrap_range 64 (now x - start_time x) ltac:(lia)) as Hr.
    fold (t_sub (now x) (start_time x)) in Hr.
    assert (Hc : 0 <= timer_cycles x x.(now) < 2 ^ 64).
    { by apply sc_ceil_range. }
    change (2 ^ (8 * original_timer)) with (2 ^ 64).
    destruct (Z.ltb_spec (timer_cycles x x.(now)) (2 ^ 64)); [|lia].
    change (timer_offset original_timer) with 8. change (Z.to_nat original_timer) with 8%nat.
    pose proof (le_encode_length 8 (timer_cycles x x.(now))) as Hel.
    rewrite store_Ok, bind_Ok by lia. eexists. split; [reflexivity|]. split_and!; try done.
    + split_and!; try done; cbn [set_regs regs].
      * by rewrite splice_length by lia.
      * intros j Hj. rewrite lookup_splice by lia. rewrite Hel. repeat case_decide; done || lia.
    + intros _. cbn [set_regs regs]. apply slice_splice_full; lia.
  - exists x. split; [reflexivity|]. done.
Qed.

Lemma Inv_regs ls s i : Inv ls s ->
  length (s.(peripheral) i).(regs) = 120%nat /\ (s.(peripheral) i).(regs) !! 0%nat = Some 0.
Proof. intros (m & h & t & fl & _ & Hf). apply (f_regs _ _ _ _ _ Hf). Qed.

(** The clock of a module is read modulo the width of a time. *)
Lemma t_sub_wrapped u b : t_sub (t_add (t_add u 0) 0) b = t_sub u b.
Proof. unfold t_sub, t_add. by rewrite !Z.add_0_r, wrap_idemp, wrap_sub_l by lia. Qed.

(** What a read of [len] bytes at [off] of peripheral [i], begun in [s], finds:
    the platform was [s1] at that moment and is left as [s2]. *)
Record reads (i off len : Z) (s1 s2 : platform) (bs : list Z) : Prop := {
  r_touched : touched s1 s2;
  r_bytes : bs = slice (s2.(peripheral) i).(regs) off len;
  r_timer : (s1.(peripheral) i).(start_time_valid) = true ->
    slice (s2.(peripheral) i).(regs) 8 8 = le_encode 8 (timer_cycles (s1.(peripheral) i) s1.(time));
}.

Definition read_payload (off : Z) (d : list Z) (status : tlm_response_status) : payload :=
  mk_payload TLM_READ_COMMAND off (Some d) (Z.of_nat (length d)) (Z.of_nat (length d)) None 0 false status.

(** Bringing the timer register up to date before a read. *)
Lemma twp_in_update_volatile {A} n l i (k : sc_time -> proc _ _ A) ls s0 s Q :
  publish n ls s0 l s -> (forall s', s'.(time) = s.(time) -> waits l (Wait_time 0) s') ->
  (forall ls2 s2 y, ls2 !! n = Some l -> Inv ls2 s2 -> s2.(time) = s.(time) ->
    same_device (s2.(peripheral) i) y ->
    ((s2.(peripheral) i).(start_time_valid) = true ->
      slice y.(regs) 8 8 = le_encode 8 (timer_cycles (s2.(peripheral) i) s2.(time))) ->
    twp_in i n ls2 s2 (k (t_add SC_ZERO_TIME (timer_remainder (s2.(peripheral) i) s2.(time)))) (y, s2) Q) ->
  twp_in i n ls s0 (Original.update_volatile_register_fields 0 ≫= k)
    (set_now s.(time) (s.(peripheral) i), s) Q.
Proof.
  intros Hp Hw HQ. unfold Original.update_volatile_register_fields, update_volatile_register_fields.
  change (update_timer original_timer SC_ZERO_TIME)
    with (@Original.update_timer _ platform SC_ZERO_TIME).
  assoc_delay. apply (twp_in_delay i l).
  { eapply publish_touched; [done|]. by apply touched_set. }
  { by apply Hw. }
  intros ls1 s1 Hl1 HI1 Ht1. cbv zeta. rewrite Z.add_0_r in Ht1.
  unfold Original.update_timer, update_timer. cbn beta. assoc_delay. apply (twp_in_delay i l).
  { apply publish_same; [done|apply guar_touched, touched_leave|].
    eapply Inv_touched; [done|apply touched_leave]. }
  { by apply Hw. }
  intros ls2 s2 Hl2 HI2 Ht2. cbv zeta. cbn beta.
  match goal with |- context [((on_impl ?f ≫= ?g) (?v, _))] => set (x := v) end.
  destruct (Inv_regs _ _ i HI2) as [Hlen _].
  destruct (update_timer_any x Hlen) as (y & Hu & Hsame & Hnow & Htimer).
  unfold SC_ZERO_TIME in Ht2. rewrite Z.add_0_r in Ht2.
  assert (Hx : timer_cycles x (now x) = timer_cycles (s2.(peripheral) i) s2.(time) /\
               timer_remainder x (now x) = timer_remainder (s2.(peripheral) i) s2.(time)).
  { unfold timer_remainder, timer_cycles. change (now x) with (t_add (t_add (time s) 0) 0).
    change (start_time x) with (start_time (peripheral s2 i)).
    change (start_time_valid x) with (start_time_valid (peripheral s2 i)).
    rewrite !t_sub_wrapped, Ht2, Ht1. done. }
  destruct Hx as [Hx1 Hx2]. rewrite Hx1 in Htimer. rewrite Hx2 in Hu.
  eapply twp_in_step; [exact Hu|]. apply HQ; [done|done|congruence| |exact Htimer].
  etrans; [|exact Hsame]. subst x. etrans; apply same_now.
Qed.

Lemma register_read n l i off d ls s0 s Q :
  publish n ls s0 l s -> 0 <= off -> off + Z.of_nat (length d) <= 120 ->
  (forall s', s'.(time) = s.(time) -> waits l (Wait_time 0) s') ->
  (forall ls1 s1 s2 bs, ls1 !! n = Some l -> Inv ls1 s1 -> s1.(time) = s.(time) ->
    reads i off (Z.of_nat (length d)) s1 s2 bs ->
    Q ls1 s1 (read_payload off bs TLM_OK_RESPONSE,
              access_time (s1.(peripheral) i) s1.(time) (Z.of_nat (length d))) s2) ->
  twp n ls s0 (register_if i (read_payload off d TLM_INCOMPLETE_RESPONSE) 0 s) Q.
Proof.
  intros Hp Hoff Hend Hw HQ.
  unfold register_if, Original.b_transport, on_peripheral, focus, b_transport. cbv zeta.
  cbn [set_dmi_allowed streaming_width data_length byte_enable set_response_status command read_payload].
  rewrite Z.ltb_irrefl, bool_decide_false by (intros [? ?]; done).
  change (enter i s) with (set_now s.(time) (s.(peripheral) i), s).
  apply (twp_in_update_volatile n l); [done|done|].
  intros ls2 s2 y Hl2 HI2 Ht2 Hsame' Htimer. destruct (Inv_regs _ _ i HI2) as [Hlen _].
  assert (Hly : Z.of_nat (length y.(regs)) = 120).
  { destruct Hsame' as (_&_&_&_&_&_&-> & _). by rewrite Hlen. }
  eapply twp_in_step.
  { change (address (set_response_status TLM_OK_RESPONSE _)) with off.
    rewrite copy_out_Ok, bind_Ok; [reflexivity|apply width_8|exact Hly|lia|lia|exact Hend]. }
  change (target_base original_timer REGIF_TARGET_INDEX + off) with off.
  set (bs := slice y.(regs) off (Z.of_nat (length d))).
  assert (Hbs : length bs = length d).
  { unfold bs. rewrite slice_length by lia. lia. }
  match goal with |- context [data_write ?q bs] => assert (data_write q bs = Ok (read_payload off bs TLM_OK_RESPONSE)) as Hw' end.
  { unfold data_write. cbn. rewrite store_Ok, bind_Ok by (rewrite ?Hbs; lia).
    unfold read_payload, splice. rewrite (drop_ge d) by (rewrite Hbs; cbn; lia). cbn. by rewrite app_nil_r, Hbs. }
  unfold mbind, proc_bind. rewrite Hw'. cbn [p_lift prog_bind]. unfold mret, proc_ret.
  cbn [focus_prog Scheduler.twp].
  change (data_length (read_payload off bs TLM_OK_RESPONSE)) with (Z.of_nat (length bs)). rewrite Hbs.
  fold (access_time (s2.(peripheral) i) s2.(time) (Z.of_nat (length d))).
  apply HQ; [done|done|congruence|]. split.
  - by apply touched_set.
  - cbn. by rewrite upd_same.
  - intros Hv. cbn. rewrite upd_same. apply Htimer. exact Hv.
Qed.
Lemma field_read n l i f d ls s0 s Q :
  0 <= i < 3 -> Z.of_nat (length d) = field_size f ->
  publish n ls s0 l s -> (forall s', s'.(time) = s.(time) -> waits l (Wait_time 0) s') ->
  (forall ls1 s1 s2 bs, ls1 !! n = Some l -> Inv ls1 s1 -> s1.(time) = s.(time) ->
    reads i (field_offset f) (field_size f) s1 s2 bs ->
    let t := access_time (s1.(peripheral) i) s1.(time) (field_size f) in
    waits l (Wait_time t) s2 /\
    forall ls3 s3, ls3 !! n = Some l -> Inv ls3 s3 -> s3.(time) = s.(time) + t -> Q ls3 s3 bs s3) ->
  twp n ls s0 (read_peripheral_field register_if d i f s) Q.
Proof.
  intros Hi Hd Hp Hw HQ. destruct (field_fits f) as (Hf1 & Hf2 & Hf3).
  change (struct_size original_timer) with 120 in Hf3.
  rewrite read_field_transfer by lia. apply twp_bind. apply (register_read n l); [done|lia|lia|done|].
  intros ls1 s1 s2 bs Hl1 HI1 Ht1 Hr. rewrite Hd in *. cbn beta iota.
  destruct (HQ ls1 s1 s2 bs Hl1 HI1 Ht1 Hr) as [Hw' HQ'].
  apply twp_bind. eapply twp_lift; [reflexivity|]. apply twp_bind.
  apply (twp_wait _ _ _ _ n l).
  - eapply publish_touched; [by apply publish_same|apply Hr].
  - exact Hw'.
  - intros ls3 s3 Hl3 HI3 Hr3. cbn [ready] in Hr3. rewrite (t_time _ _ (r_touched _ _ _ _ _ _ Hr)), Ht1 in Hr3.
    apply HQ'; [done|done|]. by rewrite Ht1.
Qed.

Lemma reads_bool i f s1 s2 bs (b : Z) :
  field_size f = 1 -> reads i (field_offset f) (field_size f) s1 s2 bs ->
  (Z.to_nat (field_offset f) < 8 \/ 16 <= Z.to_nat (field_offset f))%nat ->
  (s1.(peripheral) i).(regs) !! Z.to_nat (field_offset f) = Some b -> b = 0 \/ b = 1 ->
  load_bool bs 0 = Ok (b =? 1).
Proof.
  intros Hs [Ht -> _] Ho Hb Hv. rewrite Hs. unfold load_bool.
  destruct (t_device _ _ Ht i) as (_&_&_&_&_&_&_&Hreg).
  assert (Hsl : slice (regs (peripheral s2 i)) (field_offset f) 1 !! 0%nat = Some b).
  { pose proof (field_fits f). rewrite lookup_slice, Nat.add_0_r by lia. by rewrite Hreg. }
  rewrite (get_byte_Ok _ 0 b), bind_Ok by done. by destruct Hv as [-> | ->].
Qed.

(** *** Writes *)

Definition write_payload (off : Z) (d : list Z) : payload :=
  mk_payload TLM_WRITE_COMMAND off (Some d) (Z.of_nat (length d)) (Z.of_nat (length d)) None 0 false
    TLM_INCOMPLETE_RESPONSE.

Lemma transport_write n l i id p t ls s0 s Q :
  p.(command) = TLM_WRITE_COMMAND -> p.(byte_enable) = None -> p.(data_length) <= p.(streaming_width) ->
  publish n ls s0 l s -> (forall s', s'.(time) = s.(time) -> waits l (Wait_time t) s') ->
  (forall ls1 s1, ls1 !! n = Some l -> Inv ls1 s1 -> s1.(time) = s.(time) + t ->
    twp_in i n ls1 s1 (finish_write original_timer id (answered p))
      (set_now (t_add s.(time) t) (set_now s1.(time) (s1.(peripheral) i)), s1) Q) ->
  twp n ls s0 (on_peripheral i (b_transport original_timer id p t) s) Q.
Proof.
  intros Hc Hbe Hsw Hp Hw HQ. unfold on_peripheral, focus. rewrite b_transport_writing by done.
  change (enter i s) with (set_now s.(time) (s.(peripheral) i), s).
  apply (twp_in_delay i l).
  - eapply publish_touched; [done|]. by apply touched_set.
  - by apply Hw.
  - intros ls1 s1 Hl1 HI1 Ht1. by apply HQ.
Qed.

Lemma slice_whole (d : list Z) : slice d 0 (Z.of_nat (length d)) = d.
Proof. unfold slice. change (Z.to_nat 0) with 0%nat. by rewrite drop_0, Nat2Z.id, take_ge by lia. Qed.

Lemma register_write n l i off d ls s0 s Q :
  publish n ls s0 l s -> 0 < off -> off + Z.of_nat (length d) <= 120 ->
  (forall s', s'.(time) = s.(time) -> waits l (Wait_time 0) s') ->
  (forall ls1 s1 u, ls1 !! n = Some l -> Inv ls1 s1 -> s1.(time) = s.(time) ->
    Q ls1 s1 (answered (write_payload off d), transfer_time (Z.of_nat (length d)))
      (set_peripheral i (set_regs (splice (s1.(peripheral) i).(regs) off d)
        (set_now u (s1.(peripheral) i))) s1)) ->
  twp n ls s0 (register_if i (write_payload off d) 0 s) Q.
Proof.
  intros Hp Hoff Hend Hw HQ. apply (transport_write n l); try done.
  intros ls1 s1 Hl1 HI1 Ht1. rewrite Z.add_0_r in Ht1. destruct (Inv_regs _ _ i HI1) as [Hlen H0].
  match goal with |- context [(finish_write _ _ _) (?v, _)] => set (x := v) end.
  assert (Hwn : write_now original_timer REGIF_TARGET_INDEX (answered (write_payload off d)) x =
    Ok (set_regs (splice (s1.(peripheral) i).(regs) off d) x, (transfer_time (Z.of_nat (length d)), false))).
  { rewrite (write_now_stores original_timer REGIF_TARGET_INDEX _ d); try done;
      cbn [answered write_payload set_response_status set_dmi_allowed address data_length];
      change (target_base original_timer REGIF_TARGET_INDEX + off) with off; rewrite ?slice_whole;
      try done; try lia.
    - apply width_8.
    - cbn. by rewrite Hlen.
    - cbn [x regs set_now]. rewrite lookup_splice by lia. by rewrite decide_True by lia. }
  unfold finish_write. eapply twp_in_step; [exact Hwn|]. cbn beta iota.
  apply (HQ ls1 s1 _ Hl1 HI1 Ht1).
Qed.

(** A field write: the process takes the label [l'] when it has stored. *)
Lemma field_write n l l' i f d ls s0 s (Q : list label -> platform -> unit -> platform -> Prop) :
  0 <= i < 3 -> Z.of_nat (length d) = field_size f -> 0 < field_offset f ->
  publish n ls s0 l s -> (forall s', s'.(time) = s.(time) -> waits l (Wait_time 0) s') ->
  (forall ls1 s1 u, ls1 !! n = Some l -> Inv ls1 s1 -> s1.(time) = s.(time) ->
    let s2 := set_peripheral i (set_regs (splice (s1.(peripheral) i).(regs) (field_offset f) d)
        (set_now u (s1.(peripheral) i))) s1 in
    publish n ls1 s1 l' s2 /\ waits l' (Wait_time (transfer_time (field_size f))) s2 /\
    forall ls3 s3, ls3 !! n = Some l' -> Inv ls3 s3 ->
      s3.(time) = s.(time) + transfer_time (field_size f) -> Q ls3 s3 tt s3) ->
  twp n ls s0 (write_peripheral_field register_if i f d s) Q.
Proof.
  intros Hi Hd Hoff Hp Hw HQ. destruct (field_fits f) as (_ & Hf2 & Hf3).
  change (struct_size original_timer) with 120 in Hf3.
  rewrite write_field_transfer by lia. apply twp_bind. apply twp_bind.
  apply (register_write n l); [done|lia|lia|done|].
  intros ls1 s1 u Hl1 HI1 Ht1. rewrite Hd. cbn beta iota.
  destruct (HQ ls1 s1 u Hl1 HI1 Ht1) as (Hp' & Hw' & HQ').
  apply twp_bind. eapply twp_lift; [reflexivity|]. apply twp_bind.
  apply (twp_wait _ _ _ _ n l'); [done|done|].
  intros ls3 s3 Hl3 HI3 Hr3. cbn [ready set_peripheral time] in Hr3. rewrite Ht1 in Hr3.
  by apply HQ'.
Qed.

(** *** The interrupt thread *)

(** While the interrupt line is high the memory of peripheral 2 is complete. *)
Lemma level_stored m h t fl s : facts m h t fl s -> irq_level s = true ->
  slice (s.(peripheral) 2).(regs) 18 100 = inverted <$> seqZ 0 100.
Proof.
  intros Hf Hirq.
  by destruct (transfers_complete original_timer width_8 _ _ _ _ (f_transfers _ _ _ _ _ Hf) (f_struct _ _ _ _ _ 2 Hf) Hirq).
Qed.

Lemma Inv_irq ls s h : ls !! 1%nat = Some (Irq h) -> Inv ls s -> exists m t fl,
  ls = Main m :: Irq h :: Timer t :: Unused :: Unused :: (Transfer <$> fl) /\ facts m h t fl s.
Proof. intros Hl (m & h' & t & fl & -> & Hf). cbn in Hl. injection Hl as ->. by exists m, t, fl. Qed.

(** The handler starts its check. *)
Lemma start_check m t fl s : facts m Idle t fl s -> irq_level s = true ->
  facts m (Checking (s.(time) + check_time)) t fl s.
Proof.
  intros [] Hirq. split; try done.
  - destruct f_main as [Hm Ha]. split; [done|]. destruct m; try done.
    destruct Ha as (? & Hi & _). split_and!; try done. intros d [= <-]. by apply Hi.
  - destruct f_irq as [Hr _]. split; [done|]. split; [done|]. unfold check_time. lia.
Qed.

(** It acknowledges. *)
Lemma ack_facts m d t fl s u : facts m (Checking d) t fl s ->
  facts m Acked t fl (set_peripheral 2 (set_regs (splice (s.(peripheral) 2).(regs) 17 [1])
    (set_now u (s.(peripheral) 2))) s).
Proof.
  intros []. destruct (f_regs 2) as [Hl2 Hz2].
  split; cbn [set_peripheral time peripheral fifo fired requested stopped]; simp_upd; try done.
  - intros i. unfold upd. destruct (Z.eqb_spec i 2) as [->|]; [|done]. cbn [regs set_regs].
    rewrite splice_length, lookup_splice by (cbn; lia). done.
  - intros i Hi. unfold upd. destruct (Z.eqb_spec i 2) as [->|]; [apply (f_others 2); lia|auto].
  - destruct f_main as [Hm Ha]. split; [by destruct m|]. destruct m; try done.
    destruct Ha as (Hirq & _ & _). by split_and!.
  - destruct f_irq as [_ [Hirq _]]. split; [|done]. cbn [set_peripheral peripheral]. rewrite upd_same. cbn [regs set_regs].
    by rewrite lookup_splice by (cbn; lia).
  - eapply (transfers_same original_timer width_8); [done|reflexivity|]. split_and!; [done|done|]. intros j Hj.
    change (18 <= j)%nat in Hj. cbn [regs set_regs]. rewrite lookup_splice by (cbn; lia). cbn [length].
    by rewrite decide_False, decide_False by lia.
Qed.

Lemma irq_thread_ok annotated fuel garbage s : Surroundings capacity annotated fuel garbage ->
  thread_ok (ready capacity) Inv guar waits final 1 (Irq Idle) (cpu_irq garbage s).
Proof.
  intros HS. split; [done|]. intros ls1 s1 Hl1 HI1 Hr1. cbn [ready] in Hr1.
  unfold cpu_irq, irq_handler_thread. cbn [prog_bind mbind proc_bind p_wait p_get p_lift].
  apply twp_bind. cbn [p_get twp]. apply twp_bind. eapply twp_lift; [by rewrite Hr1|].
  destruct (Inv_irq _ _ _ Hl1 HI1) as (m1 & t1 & fl1 & -> & Hf1).
  set (d := time s1 + check_time).
  unfold irq_handler. apply twp_bind. apply (field_read 1 (Irq (Checking d)) 2 memory); [lia|apply HS| | |].
  { split; [reflexivity|]. exists m1, (Checking d), t1, fl1. split; [done|]. by apply start_check. }
  { intros s' Hs'. exists 0. split_and!; [done|done|]. unfold d, check_time. lia. }
  intros ls2 s2 s3 bs Hl2 HI2 Ht2 [Hr23 Hbs _]. cbv zeta.
  destruct (Inv_irq _ _ _ Hl2 HI2) as (m2 & t2 & fl2 & -> & Hf2).
  assert (Hacc : access_time (s2.(peripheral) 2) s2.(time) (field_size memory) = 25000).
  { destruct (f_others _ _ _ _ _ Hf2 2) as (_ & Hv & _); [done|]. unfold access_time, timer_remainder.
    rewrite Hv. reflexivity. }
  rewrite Hacc. split.
  { exists 25000. split_and!; [done|done|]. rewrite (t_time _ _ Hr23). unfold d, check_time. lia. }
  intros ls4 s4 Hl4 HI4 Ht4.
  assert (Hdata : bs = inverted <$> seqZ 0 100).
  { pose proof (facts_touched _ _ _ _ _ _ Hf2 Hr23) as Hf3. rewrite Hbs. apply (level_stored _ _ _ _ _ Hf3).
    destruct (f_irq _ _ _ _ _ Hf3) as [_ [H _]]. exact H. }
  apply twp_bind. eapply twp_lift; [rewrite Hdata; apply (check_memory_inverted 100); lia|].
  apply (field_write 1 (Irq (Checking d)) (Irq Acked) 2 irq_ack [1]); [lia|done|by vm_compute| | |].
  { by apply publish_same. }
  { intros s' Hs'. exists 0. split_and!; [done|done|]. unfold d, check_time. lia. }
  intros ls5 s5 u Hl5 HI5 Ht5 s6.
  destruct (Inv_irq _ _ _ Hl5 HI5) as (m5 & t5 & fl5 & -> & Hf5). split_and!.
  - split; [by split_and!|]. exists m5, Acked, t5, fl5. split; [done|]. by eapply ack_facts.
  - by exists 1000.
  - intros ls7 s7 Hl7 HI7 _. exists (Irq Acked). split; [|done]. by apply publish_same.
Qed.

(** *** The processes that serve the requests *)

Lemma Inv_transfer ls s j f : ls !! (5 + j)%nat = Some (Transfer f) -> Inv ls s -> exists m h t fl,
  ls = Main m :: Irq h :: Timer t :: Unused :: Unused :: (Transfer <$> fl) /\
  fl !! j = Some f /\ facts m h t fl s.
Proof.
  intros Hl (m & h & t & fl & -> & Hf). change ((Transfer <$> fl) !! j = Some (Transfer f)) in Hl.
  rewrite list_lookup_fmap in Hl.
  destruct (fl !! j) eqn:Hj; [|done]. injection Hl as ->. by exists m, h, t, fl.
Qed.

Lemma Inv_relabel m h t fl j f s : facts m h t (<[j := f]> fl) s ->
  Inv (<[(5 + j)%nat := Transfer f]> (Main m :: Irq h :: Timer t :: Unused :: Unused :: (Transfer <$> fl))) s.
Proof. intros Hf. exists m, h, t, (<[j := f]> fl). split; [|done]. cbn. by rewrite list_fmap_insert. Qed.

(** What a step of a transfer makes of peripheral 2. *)
Lemma sink_facts m h t fl fl' s x : facts m h t fl s ->
  struct_ok original_timer x -> x.(timer_done_at) = (s.(peripheral) 2).(timer_done_at) ->
  x.(start_time_valid) = (s.(peripheral) 2).(start_time_valid) ->
  x.(regs) !! 17%nat = (s.(peripheral) 2).(regs) !! 17%nat ->
  (irq_level s = true -> x.(irq_signal) = true) ->
  transfers_ok original_timer (s.(peripheral) 1) x fl' s.(requested) ->
  facts m h t fl' (set_peripheral 2 x s).
Proof.
  intros [] [Hl H0] Hd Hv Hr Hirq Htr. change (struct_size original_timer) with 120 in Hl.
  assert (Hlev : irq_level (set_peripheral 2 x s) = x.(irq_signal)) by reflexivity.
  split; cbn [set_peripheral time peripheral fifo fired requested stopped]; simp_upd; try done.
  - intros i. unfold upd. destruct (Z.eqb_spec i 2) as [->|]; [split; [lia|done]|done].
  - intros i Hi. unfold upd. destruct (Z.eqb_spec i 2) as [->|]; [|auto]. rewrite Hd, Hv. apply (f_others 2). lia.
  - destruct f_main as [Hm Ha]. split; [by destruct m|]. rewrite Hlev.
    destruct m; try done; [|by split; [apply Hirq|]; apply Ha].
    destruct Ha as (H1 & H2 & H3). split_and!; [by apply Hirq|exact H2|exact H3].
  - destruct f_irq as [H17 Hh]. split; [cbn [set_peripheral peripheral]; by rewrite upd_same, Hr|].
    rewrite Hlev. destruct h; [done| |by apply Hirq].
    destruct Hh as (H1 & H2). split; [by apply Hirq|exact H2].
Qed.

(** The byte is stored. *)
Lemma store_facts m h t fl s j f u : facts m h t fl s -> fl !! j = Some Todo -> f <> Todo ->
  (f = Raising <-> stored_count fl + 1 = 100) ->
  facts m h t (<[j := f]> fl)
    (set_peripheral 2 (stored original_timer j fl (set_now u (s.(peripheral) 2))) s).
Proof.
  intros Hf Hj Hne Hlast. pose proof (f_transfers _ _ _ _ _ Hf) as Htr.
  pose proof (transfer_index original_timer _ _ _ _ _ _ Htr Hj) as Hlt. pose proof (f_struct _ _ _ _ _ 2 Hf) as Hst.
  pose proof (Hst' := stored_struct original_timer width_8 j fl (set_now u (s.(peripheral) 2)) Hst Hlt).
  eapply sink_facts; [done|done|done|done| |done|].
  - destruct Hst as [Hl _]. change (struct_size original_timer) with 120 in Hl.
    cbn [stored set_count set_regs regs set_now]. change (memory_offset original_timer) with 18.
    rewrite lookup_splice by (cbn; lia). by rewrite decide_True by lia.
  - apply (transfers_store original_timer width_8); [|done..].
    by eapply (transfers_same original_timer width_8).
Qed.

(** The interrupt is raised. *)
Lemma raise_facts m h t fl s j u : facts m h t fl s -> fl !! j = Some Raising ->
  facts m h t (<[j := Served]> fl)
    (set_peripheral 2 (set_irq true (set_now u (s.(peripheral) 2))) s).
Proof.
  intros Hf Hj. eapply sink_facts; try done; [by eapply (f_struct _ _ _ _ _ 2)|].
  apply (transfers_raise original_timer); [|done]. eapply (transfers_same original_timer width_8); [apply Hf|done|done].
Qed.

Lemma guar_peripheral2 s x : guar s (set_peripheral 2 x s).
Proof. by split_and!. Qed.

Lemma begin_resp_touched p t s : exists s', begin_resp 1 p t s = Ret s' tt /\ touched s s'.
Proof.
  unfold begin_resp, p_step, in_peripheral, nb_transport_bw. rewrite decide_False by done. cbn.
  eexists. split; [reflexivity|]. by apply touched_set.
Qed.

Lemma transfer_thread_ok annotated fuel garbage j d s :
  Surroundings capacity annotated fuel garbage -> 0 <= d <= clock_period ->
  thread_ok (ready capacity) Inv guar waits final (5 + j) (Transfer Todo)
    (boot (serve_request annotated 1 (dma_payload (Z.of_nat j) (inverted (Z.of_nat j))) d) s).
Proof.
  intros HS Hd. pose proof (annotated_part d Hd) as Hann. set (p := dma_payload _ _).
  assert (Hw : forall t s', 0 <= t -> waits (Transfer Todo) (Wait_time t) s') by (intros t ??; by exists t).
  split; [by apply Hw|]. intros ls1 s1 Hl1 HI1 _.
  unfold serve_request. apply twp_bind. apply (twp_wait _ _ _ _ (5 + j) (Transfer Todo)).
  { by apply publish_same. }
  { apply Hw. lia. }
  intros ls2 s2 Hl2 HI2 _. apply twp_bind. change (dma_target 1) with 2.
  apply (transport_write (5 + j) (Transfer Todo)); [done|done|done|by apply publish_same|intros; apply Hw; lia|].
  intros ls3 s3 Hl3 HI3 _. match goal with |- context [(finish_write _ _ _) (?v, _)] => set (x := v) end.
  destruct (Inv_transfer _ _ _ _ Hl3 HI3) as (m3 & h3 & t3 & fl3 & -> & Hj3 & Hf3).
  assert (Htr3 : transfers_ok original_timer (s3.(peripheral) 1) x fl3 s3.(requested)).
  { eapply (transfers_same original_timer width_8); [apply Hf3|done|done]. }
  assert (Hwn : write_now original_timer MEMORY_TARGET_INDEX (answered p) x =
    Ok (stored original_timer j fl3 x, (1000, stored_count fl3 + 1 =? 100))).
  { eapply (transfer_write_now original_timer width_8); [done|apply (f_struct _ _ _ _ _ 2 Hf3)|done]. }
  unfold finish_write. eapply twp_in_step; [exact Hwn|]. cbn beta iota.
  (* once the byte is stored and the interrupt raised if it is due *)
  assert (Hend : forall ls s s' t, publish (5 + j) ls s (Transfer Served) s' -> 0 <= t ->
    twp (5 + j) ls s ((p_wait (Wait_time t);; begin_resp 1 (answered p) SC_ZERO_TIME) s')
      (finished Inv guar final (5 + j))).
  { intros ls s' s'' t Hp Ht. apply twp_bind. apply (twp_wait _ _ _ _ (5 + j) (Transfer Served)); [done|by exists t|].
    intros ls6 s6 Hl6 HI6 _. destruct (begin_resp_touched (answered p) SC_ZERO_TIME s6) as (s7 & -> & Ht7).
    exists (Transfer Served). split; [|done]. eapply publish_touched; [by apply publish_same|done]. }
  destruct (Z.eqb_spec (stored_count fl3 + 1) 100) as [Hlast|Hlast].
  - apply (twp_in_delay 2 (Transfer Raising)).
    + split; [apply guar_peripheral2|]. apply Inv_relabel.
      by apply (store_facts m3 h3 t3 fl3 s3 j Raising (t_add (time s2) (annotated d))).
    + by exists 1000.
    + intros ls4 s4 Hl4 HI4 _. cbv zeta. cbn [focus_prog mbind proc_bind prog_bind p_modify mret proc_ret Scheduler.twp].
      destruct (Inv_transfer _ _ _ _ Hl4 HI4) as (m4 & h4 & t4 & fl4 & -> & Hj4 & Hf4).
      apply Hend; [|done]. split; [apply guar_peripheral2|]. apply Inv_relabel. by apply raise_facts.
  - apply Hend; [|done]. split; [apply guar_peripheral2|]. apply Inv_relabel.
    by apply (store_facts m3 h3 t3 fl3 s3 j Served (t_add (time s2) (annotated d))).
Qed.

(** *** The timer threads *)

Lemma Inv_timer ls s t : ls !! 2%nat = Some (Timer t) -> Inv ls s -> exists m h fl,
  ls = Main m :: Irq h :: Timer t :: Unused :: Unused :: (Transfer <$> fl) /\ facts m h t fl s.
Proof. intros Hl (m & h & t' & fl & -> & Hf). cbn in Hl. injection Hl as ->. by exists m, h, fl. Qed.

(** After the rollover the main fact does not depend on the timer thread. *)
Lemma main_fact_fired m h t t' s : main_fact m h t s -> s.(fired) 0 = true -> t' <> Armed -> main_fact m h t' s.
Proof.
  intros [Hm Ha] Hf Ht. split; [|done]. destruct m; [destruct Hm as (_ & _ & _ & H & _); congruence|..];
    destruct Hm as (Hv & Hs & [(_ & H & _)|(H1 & H2 & H3 & _)]); try congruence;
    (split_and!; [done|done|right; by split_and!]).
Qed.

(** The timer-done register is set. *)
Lemma start_stream m h fl s u : facts m h Armed fl s -> s.(fired) 0 = true ->
  facts m h (Streaming 0) fl (set_peripheral 0 (set_regs (splice (s.(peripheral) 0).(regs) 16 [1])
    (set_now u (s.(peripheral) 0))) s).
Proof.
  intros [] Hfired. destruct (f_regs 0) as [Hl0 Hz0].
  split; cbn [set_peripheral time peripheral fifo fired requested stopped]; simp_upd; try done.
  - intros i. unfold upd. destruct (Z.eqb_spec i 0) as [->|]; [|done]. cbn [regs set_regs].
    rewrite splice_length, lookup_splice by (cbn; lia). by rewrite decide_True by lia.
  - intros i Hi. rewrite upd_other by lia. auto.
  - eapply (main_fact_fired _ _ Armed); [|done|done].
    destruct f_main as [Hm Ha]. split; [by destruct m|by destruct m].
  - unfold timer_fact. cbn [set_peripheral peripheral]. rewrite upd_same. cbn [regs set_regs].
    by rewrite lookup_splice by (cbn; lia).
Qed.

(** One more byte is in the FIFO. *)
Lemma stream_byte m h n fl s : facts m h (Streaming n) fl s -> 0 <= n < 100 -> s.(fired) 0 = true ->
  facts m h (stream_label (n + 1)) fl (set_fifo 0 (s.(fifo) 0 ++ [n]) s).
Proof.
  intros [] Hn Hfired. cbn [streamed] in f_index, f_fifo.
  split; rewrite ?streamed_label by lia;
    cbn [set_fifo time peripheral fifo fired requested stopped]; simp_upd; try done.
  - intros i Hi. rewrite upd_other by lia. auto.
  - eapply main_fact_fired; [done|done|]. unfold stream_label. by destruct (n + 1 <? 100).
  - revert f_timer. unfold timer_fact, stream_label. by destruct (n + 1 <? 100).
  - lia.
  - rewrite f_fifo. replace (n + 1 - memory_index (peripheral s 1)) with (n - memory_index (peripheral s 1) + 1) by lia.
    rewrite seqZ_app by lia. f_equal. rewrite Z.add_comm, Z.sub_add. by rewrite seqZ_cons, seqZ_nil by lia.
Qed.

Lemma streaming_fired m h t fl s : facts m h t fl s -> t <> Armed -> s.(fired) 0 = true.
Proof.
  intros Hf Ht. destruct (f_main _ _ _ _ _ Hf) as [Hm _].
  destruct m; [destruct Hm as (_ & _ & _ & _ & ?); congruence|..];
    destruct Hm as (_ & _ & [(_ & _ & ? & _)|(_ & ? & _)]); congruence.
Qed.

Lemma write_all_ok vs : forall n x s ls s0, vs = seqZ n (100 - n) -> 0 <= n <= 100 ->
  publish 2 ls s0 (Timer (stream_label n)) (leave 0 (x, s)) ->
  twp_in 0 2 ls s0 (write_all (fifo_write 0) vs) (x, s) (finished Inv guar final 2).
Proof.
  induction vs as [|v vs IH]; intros n x s ls s0 Hvs Hn Hp.
  - cbn. exists (Timer (stream_label n)). split; [done|].
    assert (100 <= n).
    { destruct (Z.le_gt_cases 100 n); [done|]. by rewrite seqZ_cons in Hvs by lia. }
    unfold stream_label. by replace (n <? 100) with false by lia.
  - assert (Hn' : n < 100).
    { destruct (Z.le_gt_cases 100 n); [by rewrite seqZ_nil in Hvs by lia|done]. }
    rewrite seqZ_cons in Hvs by lia. injection Hvs as -> ->.
    assert (Hlab : stream_label n = Streaming n) by (unfold stream_label; by replace (n <? 100) with true by lia).
    rewrite Hlab in Hp. exists (Timer (Streaming n)). split_and!; [done|done|].
    intros ls1 s1 Hl1 HI1 _. cbn [enter fst snd].
    destruct (Inv_timer _ _ _ Hl1 HI1) as (m & h & fl & -> & Hf).
    apply (IH (n + 1)); [f_equal; lia|lia|].
    pose proof (streaming_fired _ _ _ _ _ Hf ltac:(done)) as Hfired.
    split.
    + split_and!; [done|done|done|]. cbn. rewrite length_app. lia.
    + apply (Inv_touched _ (set_fifo 0 (s1.(fifo) 0 ++ [n]) s1)); 
        [|exact (touched_set 0 _ (set_fifo 0 (s1.(fifo) 0 ++ [n]) s1) (same_now s1.(time) _))].
      exists m, h, (stream_label (n + 1)), fl. split; [done|]. apply stream_byte; [done|lia|done].
Qed.

Lemma timer_thread_ok s :
  thread_ok (ready capacity) Inv guar waits final 2 (Timer Armed) (timer_thread 0 s).
Proof.
  split; [done|]. intros ls1 s1 Hl1 HI1 Hr1. cbn [ready tag] in Hr1.
  destruct (Inv_timer _ _ _ Hl1 HI1) as (m & h & fl & -> & Hf).
  destruct (f_regs _ _ _ _ _ Hf 0) as [Hl0 Hz0].
  change (prog_bind (Ret (enter 0 s1) tt) ?k) with (k tt (enter 0 s1)). cbv beta.
  change (enter 0 s1) with (set_now (time s1) (peripheral s1 0), s1).
  eapply twp_in_step.
  { change (timer_done_offset original_timer) with 16. cbn [set_now regs].
    rewrite store_Ok, bind_Ok by (cbn; lia). reflexivity. }
  apply (write_all_ok _ 0); [done|lia|].
  split; [by split_and!|]. exists m, h, (Streaming 0), fl. split; [done|].
  by apply (start_stream m h fl s1 (time s1)).
Qed.

Lemma unused_thread_ok i s : (i = 1 \/ i = 2) ->
  thread_ok (ready capacity) Inv guar waits final (2 + Z.to_nat i) Unused (timer_thread i s).
Proof.
  intros Hi. split; [done|]. intros ls1 s1 Hl1 (m & h & t & fl & -> & Hf) Hr1.
  destruct (f_others _ _ _ _ _ Hf i) as (_ & _ & Hfired & _); [lia|].
  destruct Hi as [-> | ->]; [change (fired s1 1 = true) in Hr1|change (fired s1 2 = true) in Hr1]; congruence.
Qed.

(** *** The main thread *)

Lemma Inv_main ls s m : ls !! 0%nat = Some (Main m) -> Inv ls s -> exists h t fl,
  ls = Main m :: Irq h :: Timer t :: Unused :: Unused :: (Transfer <$> fl) /\ facts m h t fl s.
Proof. intros Hl (m' & h & t & fl & -> & Hf). cbn in Hl. injection Hl as ->. by exists h, t, fl. Qed.

Lemma Inv_relabel_main m m' h t fl s : facts m' h t fl s ->
  Inv (<[0%nat := Main m']> (Main m :: Irq h :: Timer t :: Unused :: Unused :: (Transfer <$> fl))) s.
Proof. intros Hf. by exists m', h, t, fl. Qed.

(** Storing the start command starts the timer. *)
Definition started (x : impl) : impl :=
  set_regs (splice (splice x.(regs) 0 [1]) 0 [0])
    (set_done_at (Some timer_due) (set_start_time 1000 x)).

Lemma start_timer_first x :
  x.(start_time_valid) = false -> x.(timer_done_at) = None -> x.(now) = 0 ->
  Original.start_timer 1000 x = set_done_at (Some timer_due) (set_start_time 1000 x).
Proof.
  intros Hv Hd Hn. unfold Original.start_timer, start_timer. cbv zeta.
  rewrite Hv. cbn [set_start_time now start_time timer_done_at]. rewrite Hn, Hd.
  change (rollover original_timer) with Original.rollover.
  change (t_add 0 1000) with 1000. change (t_add 1000 Original.rollover) with timer_due.
  pose proof (wrap_range 64 (1000 + Original.rollover) ltac:(lia)) as Hdue. change (u64 _) with timer_due in Hdue.
  destruct (Z.leb_spec 0 timer_due); [|lia]. unfold t_add, t_sub. rewrite Z.sub_0_r, Z.add_0_l.
  by rewrite !wrap_small by (rewrite ?wrap_small; lia).
Qed.

(** The command is executed and cleared. *)
Lemma start_command x :
  x.(start_time_valid) = false -> x.(timer_done_at) = None -> x.(now) = 0 ->
  x.(regs) !! 0%nat = Some 1 ->
  Original.process_command_register_fields 1000 x =
    Ok (set_regs (splice x.(regs) 0 [0]) (set_done_at (Some timer_due) (set_start_time 1000 x))).
Proof.
  intros Hv Hd Hn Hb. pose proof (lookup_lt_Some _ _ _ Hb).
  unfold Original.process_command_register_fields, process_command_register_fields, load_bool.
  change cmd_start_timer_offset with 0. rewrite (get_byte_Ok _ 0 1), bind_Ok by (done || lia).
  change (1 =? 0) with false. change (1 =? 1) with true. cbn iota. rewrite bind_Ok. cbv beta iota zeta.
  change (start_timer original_timer 1000 x) with (Original.start_timer 1000 x).
  erewrite start_timer_first by done. change (regs (set_done_at _ _)) with (regs x).
  rewrite store_Ok, !bind_Ok by (cbn; lia). done.
Qed.

Lemma start_write x :
  length x.(regs) = 120%nat -> x.(start_time_valid) = false -> x.(timer_done_at) = None ->
  x.(now) = 0 ->
  write_now original_timer REGIF_TARGET_INDEX (answered (write_payload 0 [1])) x =
    Ok (started x, (1000, false)).
Proof.
  intros Hl Hv Hd Hn. unfold write_now. cbv zeta.
  rewrite (data_read_Ok (answered (write_payload 0 [1])) [1] (data_length (answered (write_payload 0 [1])))), bind_Ok by (done || cbn; lia).
  change (take _ _) with [1]. change (address _) with 0.
  rewrite (copy_in_Ok original_timer), bind_Ok; [|apply width_8|by rewrite Hl|lia|by vm_compute].
  change (target_base original_timer REGIF_TARGET_INDEX + 0) with 0.
  set (r1 := splice (regs x) 0 [1]). change (transfer_time _) with 1000.
  assert (Hl1 : length r1 = 120%nat) by (unfold r1; rewrite splice_length; cbn; lia).
  change (process_command_register_fields original_timer 1000 (set_regs r1 x))
    with (Original.process_command_register_fields 1000 (set_regs r1 x)).
  erewrite start_command by (done || by cbn; unfold r1; rewrite lookup_splice by (cbn; lia)).
  rewrite bind_Ok. done.
Qed.

Lemma start_facts h t fl s u :
  facts At_boot h t fl s -> facts Polling h t fl (set_peripheral 0 (started (set_now u (s.(peripheral) 0))) s).
Proof.
  intros []. destruct (f_regs 0) as [Hl0 Hz0].
  assert (Hl1 : length (splice (regs (peripheral s 0)) 0 [1]) = 120%nat) by (rewrite splice_length; cbn; lia).
  split; cbn [set_peripheral time peripheral fifo fired requested stopped]; simp_upd; try done.
  - intros i. unfold upd. destruct (Z.eqb_spec i 0) as [->|]; [|done].
    cbn [regs set_regs started set_now]. rewrite splice_length, lookup_splice by (cbn; lia).
    by rewrite decide_False, decide_True by (cbn; lia).
  - intros i Hi. rewrite upd_other by lia. auto.
  - destruct f_main as [(Ht & _ & _ & Hf & ->) _]. split; [|done]. cbn [set_peripheral peripheral].
    rewrite upd_same. split_and!; [done|done|]. left. split_and!; [done|done|done|].
    change (time s <= timer_due). rewrite Ht. by apply wrap_range.
  - revert f_timer. unfold timer_fact. cbn [set_peripheral peripheral]. rewrite upd_same.
    cbn [regs set_regs started set_now]. rewrite !lookup_splice by (cbn; lia). cbn [length].
    by rewrite !decide_False by lia.
Qed.

Section Main_thread.
Context (annotated : sc_time -> sc_time) (fuel : nat) (garbage : field -> list Z).
Context {HS : Surroundings capacity annotated fuel garbage}.

Lemma main_waits m t s : 0 <= t -> m <> At_boot -> m <> Sleeping -> m <> Ended ->
  waits (Main m) (Wait_time t) s.
Proof. intros Ht H1 H2 H3. destruct m; try done; by exists t. Qed.

(** The write of the start command. *)
Lemma start_ok ls s (Q : list label -> platform -> unit -> platform -> Prop) :
  ls !! 0%nat = Some (Main At_boot) -> Inv ls s ->
  (forall ls1 s1, ls1 !! 0%nat = Some (Main Polling) -> Inv ls1 s1 -> s1.(time) = 1000 -> Q ls1 s1 tt s1) ->
  twp 0 ls s (write_peripheral_field register_if 0 cmd_start_timer [1] s) Q.
Proof.
  intros Hl HI HQ. assert (Ht : time s = 0).
  { destruct (Inv_main _ _ _ Hl HI) as (h & t & fl & _ & Hf). by destruct (f_main _ _ _ _ _ Hf) as [[? _] _]. }
  rewrite write_field_transfer by (cbn; lia). apply twp_bind. apply twp_bind.
  change (field_offset cmd_start_timer) with 0.
  apply (transport_write 0 (Main At_boot)); [done|done|done|by apply publish_same| |].
  { intros s' Hs'. exists 0. split_and!; [done|done|lia]. }
  intros ls1 s1 Hl1 HI1 Ht1. destruct (Inv_main _ _ _ Hl1 HI1) as (h & t & fl & -> & Hf).
  destruct (f_main _ _ _ _ _ Hf) as [(_ & Hv & Hd & _ & _) _]. destruct (f_regs _ _ _ _ _ Hf 0) as [Hlr _].
  unfold finish_write. eapply twp_in_step.
  { by eapply start_write; try done; rewrite ?Ht. }
  cbn beta iota. cbn [mret proc_ret focus_prog Scheduler.twp].
  apply twp_bind. eapply twp_lift; [reflexivity|]. apply twp_bind.
  apply (twp_wait _ _ _ _ 0 (Main Polling)).
  - split; [by split_and!|]. apply Inv_relabel_main. by eapply (start_facts h t fl s1).
  - by apply main_waits.
  - intros ls2 s2 Hl2 HI2 Hr2. change (time s2 = time s1 + 1000) in Hr2.
    unfold SC_ZERO_TIME in Ht1. apply HQ; [done|done|lia].
Qed.

(** The timer-done register tells whether the timer event is over. *)
Lemma timer_done_byte m h t fl s : facts m h t fl s -> m <> At_boot ->
  ((s.(peripheral) 0).(regs) !! 16%nat = Some 0 /\ s.(time) <= timer_due) \/
  ((s.(peripheral) 0).(regs) !! 16%nat = Some 1 /\ timer_due <= s.(time)).
Proof.
  intros Hf Hm. pose proof (f_timer _ _ _ _ _ Hf) as Ht0. destruct (f_main _ _ _ _ _ Hf) as [Hm0 _].
  assert (Hm1 : (t = Armed /\ s.(time) <= timer_due) \/ (timer_due <= s.(time) /\ (t = Armed -> s.(time) = timer_due))).
  { destruct m; [done|..]; destruct Hm0 as (_ & _ & [(_ & _ & ? & ?)|(_ & _ & ? & ?)]); auto. }
  destruct t; [left|right..]; (split; [exact Ht0|]); destruct Hm1 as [[? ?]|[? H]]; try done.
  by rewrite H.
Qed.

Lemma started_timer m h t fl s : facts m h t fl s -> m <> At_boot ->
  (s.(peripheral) 0).(start_time_valid) = true /\ (s.(peripheral) 0).(start_time) = 1000.
Proof. intros Hf Hm. destruct (f_main _ _ _ _ _ Hf) as [Hm0 _]. by destruct m; [done|destruct Hm0 as (? & ? & _)..]. Qed.

(** On the edges of its clock the timer needs no rounding. *)
Lemma on_edge x n : x.(start_time_valid) = true -> x.(start_time) = 1000 -> 0 <= n < 2 ^ 32 ->
  timer_cycles x (1000 + 1000 * n) = n /\ timer_remainder x (1000 + 1000 * n) = 0.
Proof.
  intros Hv Hs Hn. unfold timer_remainder, timer_cycles. rewrite Hv, Hs. unfold t_sub.
  rewrite (wrap_small 64 (_ - 1000)) by lia.
  rewrite sc_ceil_exact, sc_ceil_gap_exact by (done || lia). unfold ceil_div. change clock_period with 1000.
  assert (Hq : (1000 + 1000 * n - 1000 + 1000 - 1) / 1000 = n).
  { symmetry. apply (Z.div_unique_pos _ _ _ 999); lia. }
  rewrite Hq. lia.
Qed.

Lemma poll_timer_ok : forall k n ls0 s0 ls s (Q : list label -> platform -> unit -> platform -> Prop),
  ls = ls0 -> s0 = s -> ls !! 0%nat = Some (Main Polling) -> Inv ls s ->
  s.(time) = 1000 + 1000 * (3 * n) -> 0 <= n <= 334 -> 334 - n < Z.of_nat k ->
  (0 < n -> s.(time) <= timer_due + 1000) ->
  (forall ls1 s1, ls1 !! 0%nat = Some (Main Polling) -> Inv ls1 s1 -> last_poll <= timer_due ->
    Q ls1 s1 tt s1) ->
  twp 0 ls0 s0 (poll_timer register_if garbage k s) Q.
Proof.
  induction k as [|k IH]; intros n ? ? ls s Q <- -> Hl HI Ht Hn Hk Hlate HQ; [lia|]. cbn [poll_timer].
  apply twp_bind. apply (field_read 0 (Main Polling) 0 timer); [lia|apply HS|by apply publish_same| |].
  { intros. by apply main_waits. }
  intros ls1 s1 s2 bs Hl1 HI1 Ht1 [Hr12 Hbs Htm]. cbv zeta.
  destruct (Inv_main _ _ _ Hl1 HI1) as (h & t & fl & -> & Hf).
  destruct (started_timer _ _ _ _ _ Hf ltac:(done)) as [Hv Hst].
  assert (Hedge : timer_cycles (peripheral s1 0) (time s1) = 3 * n /\
                  timer_remainder (peripheral s1 0) (time s1) = 0).
  { rewrite Ht1, Ht. apply on_edge; [done|done|lia]. }
  destruct Hedge as [Hcyc Hrem].
  assert (Hval : le_decode bs = 3 * n).
  { rewrite Hbs. specialize (Htm Hv). change (field_offset timer) with 8. change (field_size timer) with 8.
    rewrite Htm, le_decode_encode, Hcyc. apply Z.mod_small. cbn. lia. }
  unfold access_time. rewrite Hrem. change (t_add (t_add 0 0) (transfer_time (field_size timer))) with 2000.
  split; [by apply main_waits|]. intros ls3 s3 Hl3 HI3 Ht3. rewrite Hval.
  destruct (Z.ltb_spec (3 * n) 1000) as [Hlt|Hge].
  2: { apply HQ; [done|done|]. unfold last_poll. lia. }
  apply twp_bind. unfold read_bool. apply twp_bind.
  apply (field_read 0 (Main Polling) 0 timer_done); [lia|apply HS|by apply publish_same| |].
  { intros. by apply main_waits. }
  intros ls4 s4 s5 bs' Hl4 HI4 Ht4 Hr45. cbv zeta.
  destruct (Inv_main _ _ _ Hl4 HI4) as (h4 & t4 & fl4 & -> & Hf4).
  destruct (started_timer _ _ _ _ _ Hf4 ltac:(done)) as [Hv4 Hst4].
  assert (Hrem4 : timer_remainder (peripheral s4 0) (time s4) = 0).
  { rewrite Ht4, Ht3, Ht. replace (_ + 2000) with (1000 + 1000 * (3 * n + 2)) by lia.
    apply on_edge; [done|done|lia]. }
  unfold access_time. rewrite Hrem4. change (t_add (t_add 0 0) (transfer_time (field_size timer_done))) with 1000.
  split; [by apply main_waits|]. intros ls6 s6 Hl6 HI6 Ht6.
  destruct (timer_done_byte _ _ _ _ _ Hf4 ltac:(done)) as [[Hbyte Hdue]|[Hbyte Hdue]].
  - apply (twp_lift _ _ _ _ 0 _ false).
    { by eapply (reads_bool 0 timer_done s4 s5 bs' 0); [..|left]; try right. }
    apply twp_bind. eapply twp_lift; [reflexivity|].
    apply (IH (n + 1) _ _ ls6 s6); try done; lia.
  - (* the timer is already done: the test fails *)
    apply (twp_lift _ _ _ _ 0 _ true).
    { by eapply (reads_bool 0 timer_done s4 s5 bs' 1); [..|right]; try right. }
    split; [done|]. unfold last_poll. lia.
Qed.

Lemma level_done m h t fl s : facts m h t fl s -> irq_level s = true ->
  (s.(peripheral) 0).(regs) !! 16%nat = Some 1.
Proof.
  intros Hf Hirq. pose proof (f_timer _ _ _ _ _ Hf) as Ht. pose proof (f_index _ _ _ _ _ Hf) as Hi.
  destruct (transfers_complete original_timer width_8 _ _ _ _ (f_transfers _ _ _ _ _ Hf) (f_struct _ _ _ _ _ 2 Hf) Hirq)
    as (_ & Hm & _).
  destruct t; [cbn in Hi; lia|exact Ht..].
Qed.

Lemma poll_irq_ack_ok b : forall k ls0 s0 ls s (Q : list label -> platform -> unit -> platform -> Prop),
  ls = ls0 -> s0 = s -> ls !! 0%nat = Some (Main (Acking b)) -> Inv ls s ->
  b < s.(time) + 1000 * (Z.of_nat k - 1) ->
  (forall ls1 s1, ls1 !! 0%nat = Some (Main (Acking b)) -> Inv ls1 s1 -> Q ls1 s1 tt s1) ->
  (0 < k)%nat -> twp 0 ls0 s0 (poll_irq_ack register_if garbage k s) Q.
Proof.
  induction k as [|k IH]; intros ? ? ls s Q <- -> Hl HI Hk HQ Hpos; [lia|]. cbn [poll_irq_ack].
  apply twp_bind. unfold read_bool. apply twp_bind.
  apply (field_read 0 (Main (Acking b)) 2 irq_ack); [lia|apply HS|by apply publish_same| |].
  { intros. by apply main_waits. }
  intros ls1 s1 s2 bs Hl1 HI1 Ht1 Hr12. cbv zeta.
  destruct (Inv_main _ _ _ Hl1 HI1) as (h & t & fl & -> & Hf).
  destruct (f_others _ _ _ _ _ Hf 2) as (_ & Hv & _); [done|].
  destruct (f_irq _ _ _ _ _ Hf) as [Hbyte Hh]. destruct (f_main _ _ _ _ _ Hf) as [_ (_ & Hidle & Hcheck)].
  unfold access_time, timer_remainder. rewrite Hv.
  change (t_add (t_add 0 0) (transfer_time (field_size irq_ack))) with 1000.
  split; [by apply main_waits|]. intros ls3 s3 Hl3 HI3 Ht3.
  eapply twp_lift.
  { eapply (reads_bool 2 irq_ack s1 s2 bs); [done|done|right; change (16 <= 17)%nat; lia|exact Hbyte|]. destruct h; auto. }
  destruct h as [|d|].
  3: by apply HQ.
  - specialize (Hidle eq_refl). unfold check_time in Hidle. apply (IH _ _ ls3 s3); try done; lia.
  - specialize (Hcheck d eq_refl). destruct Hh as (_ & Hd & _). apply (IH _ _ ls3 s3); try done; lia.
Qed.

(** Relabelling the main thread. *)
Lemma sleep_facts h t fl s : facts Polling h t fl s -> facts Sleeping h t fl s.
Proof. intros []. by split. Qed.

Lemma acking_facts m h t fl s : facts m h t fl s -> m = Polling \/ m = Sleeping -> irq_level s = true ->
  facts (Acking (s.(time) + check_time)) h t fl s.
Proof.
  intros [] Hm Hirq. split; try done.
  - rewrite f_stopped. by destruct Hm as [-> | ->].
  - destruct f_main as [Hf _]. split; [by destruct Hm as [-> | ->]|]. split_and!; [done|done|].
    intros d ->. by destruct f_irq as [_ (_ & _ & ?)].
Qed.

Lemma ended_facts b h t fl s : facts (Acking b) h t fl s -> last_poll <= timer_due ->
  facts Ended h t fl (set_stopped s).
Proof. intros [] Hlate. split; try done. destruct f_main as [Hm (Hirq & _)]. by split. Qed.

(** From [wfi] to the end, once the interrupt line is high. *)
Definition acknowledged (ls : list label) (s0 : platform) (_ : unit) (s : platform) : Prop :=
  s0 = s /\ Inv ls s /\ last_poll <= timer_due /\ exists b, ls !! 0%nat = Some (Main (Acking b)).

Lemma main_rest_ok m ls s : ls !! 0%nat = Some (Main m) -> m = Polling \/ m = Sleeping ->
  Inv ls s -> irq_level s = true -> last_poll <= timer_due ->
  twp 0 ls s ((timer_done ← read_bool register_if garbage 0 timer_done;
    p_lift (cassert timer_done);; poll_irq_ack register_if garbage fuel) s) acknowledged.
Proof.
  intros Hl Hm HI Hirq Hlate. destruct (Inv_main _ _ _ Hl HI) as (h & t & fl & -> & Hf).
  set (b := time s + check_time). unfold read_bool. apply twp_bind. apply twp_bind.
  apply (field_read 0 (Main (Acking b)) 0 timer_done); [lia|apply HS| | |].
  { split; [reflexivity|]. apply Inv_relabel_main. by eapply acking_facts. }
  { intros. by apply main_waits. }
  intros ls1 s1 s2 bs Hl1 HI1 Ht1 Hr12. cbv zeta.
  destruct (Inv_main _ _ _ Hl1 HI1) as (h1 & t1 & fl1 & -> & Hf1).
  destruct (f_main _ _ _ _ _ Hf1) as [_ (Hirq1 & _)].
  pose proof (access_time_nonneg (peripheral s1 0) (time s1) (field_size timer_done)) as Hacc.
  split; [by apply main_waits|]. intros ls3 s3 Hl3 HI3 Ht3.
  apply (twp_lift _ _ _ _ 0 _ true).
  { eapply (reads_bool 0 timer_done s1 s2 bs 1); [done|done|by right|by eapply level_done|by right]. }
  apply twp_bind. eapply twp_lift; [reflexivity|].
  pose proof enough_fuel as Hfuel.
  apply (poll_irq_ack_ok b fuel _ _ ls3 s3); try done; [unfold b, check_time; lia| |lia].
  intros ls4 s4 Hl4 HI4. split_and!; [done|done|done|by exists b].
Qed.

Lemma main_thread_ok s : s.(time) = 0 ->
  thread_ok (ready capacity) Inv guar waits final 0 (Main At_boot) (boot (cpu_main fuel garbage) s).
Proof.
  intros Hs. split; [exists 0; split_and!; [done|done|lia]|].
  intros ls1 s1 Hl1 HI1 _. apply twp_bind.
  apply (twp_mono _ _ _ _ _ _ acknowledged).
  { intros ls s0 [] s2 (-> & HI & Hlate & b & Hl). destruct (Inv_main _ _ _ Hl HI) as (h & t & fl & -> & Hf).
    exists (Main Ended). split; [|done]. split; [by split_and!|].
    apply Inv_relabel_main. by eapply ended_facts. }
  apply twp_bind. apply (start_ok ls1 s1); [done|done|]. intros ls2 s2 Hl2 HI2 Ht2.
  apply twp_bind. pose proof enough_fuel as Hfuel.
  apply (poll_timer_ok fuel 0 _ _ ls2 s2); try done; [lia..|]. intros ls3 s3 Hl3 HI3 Hlate.
  apply twp_bind. unfold wfi. apply twp_bind. cbn [p_get Scheduler.twp].
  destruct (irq_level s3) eqn:Hirq.
  - cbn [mret proc_ret Scheduler.twp]. apply (main_rest_ok Polling); auto.
  - destruct (Inv_main _ _ _ Hl3 HI3) as (h3 & t3 & fl3 & -> & Hf3).
    apply (twp_wait _ _ _ _ 0 (Main Sleeping)).
    + split; [reflexivity|]. apply Inv_relabel_main. by apply sleep_facts.
    + done.
    + intros ls4 s4 Hl4 HI4 Hr4. apply (main_rest_ok Sleeping); auto.
Qed.
End Main_thread.
End Threads.
