(* ===== verification/OriginalRun.v ===== *)
(** * The runs of the original system

    The steps of OriginalSystem keep the invariant of OriginalInvariant, so that
    of the assertions of the platform and of the test software only one can
    fail, the one that finds the timer done too early, if the library makes the
    rollover of the 64-bit timer such a time; a run that is not over can go on;
    and every run ends. *)

From stdpp Require Import base numbers list relations.
From S2P Require Import Prelude Tlm Kernel Scheduler Peripheral Streaming VirtualPlatform OriginalSystem OriginalInvariant OriginalThreads.
#[local] Open Scope Z_scope.

(** ** Definitions *)

(** The times at which something is due, as a list. *)
Definition timer_deadline (s : platform) (i : Z) : list Z :=
  match (s.(peripheral) i).(timer_done_at) with Some t => [t] | None => [] end.
Definition deadlines (c : config) : list Z :=
  mjoin (thread_due time <$> c.(threads)) ++ mjoin (timer_deadline c.(shared) <$> [0; 1; 2]).

(** A configuration the processes and the kernel keep. *)
Section Runs.
Context {SC : DoubleTimes} (capacity : Z) (annotated : sc_time -> sc_time) (fuel : nat)
  (garbage : field -> list Z).
Context {HS : Surroundings capacity annotated fuel garbage}.
Notation step := (step capacity annotated).
Notation rstep := (rstep capacity annotated).
Notation pool_inv := (pool_inv (ready capacity) Inv guar waits final).
Notation thread_ok := (thread_ok (ready capacity) Inv guar waits final).
Notation is_ready := (is_ready (ready capacity)).

Record good (ls : list label) (c : config) : Prop := {
  g_pool : pool_inv ls c;
  g_timely : forall t, deadline c t -> c.(shared).(time) <= t;
}.

(** The test finds the timer done before its time. *)
Definition failed (r : res config) : Prop := r = Err Assert_failure /\ timer_due <= last_poll.

(** A run of the platform from power-on, and what it leaves when it passes. *)
Definition reaches (bytes : Z -> list Z) (r : res config) : Prop :=
  rtc rstep (Ok (new_top fuel garbage bytes)) r.

Definition passed (c : config) : Prop :=
  sc_main (if c.(shared).(stopped) then SC_STOPPED else SC_PAUSED) = Ok 0 /\
  irq_level c.(shared) = true /\ exists s, c.(threads) !! 0%nat = Some (Ret s tt).

(** The memory of the last peripheral holds all of the inverted bytes, with no
    byte and no transfer on its way. *)
Definition memory_complete (s : platform) : Prop :=
  slice (s.(peripheral) 2).(regs) (field_offset memory) memory_size =
    (fun a => Z.lxor a 0xFF) <$> seqZ 0 memory_size /\
  s.(fifo) 0 = [] /\ s.(requested) = [].

(** ** Lemmas *)

(** *** Deadlines *)

Lemma deadline_list c t : deadline c t <-> t ∈ deadlines c.
Proof.
  unfold deadline, deadlines. rewrite elem_of_app, due_list, (list_elem_of_join t (timer_deadline _ <$> _)).
  split; (intros [H|H]; [by left|right]).
  - destruct H as (i & Hi & Ht). exists [t]. split; [by apply list_elem_of_singleton|].
    unfold num_peripherals in Hi. apply list_elem_of_fmap. exists i.
    split; [unfold timer_deadline; by rewrite Ht|].
    assert (i = 0 \/ i = 1 \/ i = 2) as [-> | [-> | ->]] by lia; rewrite !elem_of_cons; auto.
  - destruct H as (l & Ht & Hl). apply list_elem_of_fmap in Hl as (x & -> & Hx). exists x.
    unfold timer_deadline in Ht. destruct (timer_done_at _) as [t'|]; [|by apply elem_of_nil in Ht].
    apply list_elem_of_singleton in Ht as ->. split; [|done]. unfold num_peripherals.
    rewrite !elem_of_cons in Hx. destruct Hx as [-> | [-> | [-> | Hx]]]; [lia..|by apply elem_of_nil in Hx].
Qed.

#[local] Instance ready_dec n w s0 s : Decision (ready capacity n w s0 s).
Proof.
  destruct w as [t|[|i []]|]; cbn; try apply _. destruct n as [|[|n]]; apply _.
Defined.

(** *** The initial configuration *)

Definition new_labels : list label := [Main At_boot; Irq Idle; Timer Armed; Unused; Unused].

Lemma new_top_good bytes : garbage_bytes bytes -> good new_labels (new_top fuel garbage bytes).
Proof.
  intros Hb. split.
  - split; [|done|].
    + exists At_boot, Idle, Armed, []. split; [done|]. by apply new_facts.
    + intros n l p Hl Hp. destruct n as [|[|[|[|[|n]]]]]; cbn in Hl, Hp;
        [injection Hl as <-; injection Hp as <-..|done].
      * by eapply main_thread_ok.
      * by eapply irq_thread_ok.
      * apply timer_thread_ok.
      * apply (unused_thread_ok capacity 1). by left.
      * apply (unused_thread_ok capacity 2). by right.
  - intros t [(n & d & s0 & k & Hn & ->)|(i & _ & Ht)]; [|done].
    destruct n as [|[|[|[|[|n]]]]]; cbn in Hn; try done. injection Hn as <- <- _. cbn. lia.
Qed.

(** *** Steps *)

Lemma waits_nonneg l t s : waits l (Wait_time t) s -> 0 <= t.
Proof. destruct l as [[]|[]|[]| |[]]; cbn; try done; by intros (t' & [= ->] & ? & _). Qed.

Lemma good_thread ls c n l : good ls c -> ls !! n = Some l ->
  exists p, c.(threads) !! n = Some p /\ thread_ok n l p.
Proof. intros [Hpool _]. by apply pool_thread. Qed.

(** A deadline of the label bounds when time may go. *)
Lemma time_waits_deadline ls c n l P : good ls c -> ls !! n = Some l -> ~ final l ->
  (forall w s, waits l w s -> waits_time w (P s)) ->
  exists d s0, deadline c (s0.(time) + d) /\ 0 <= d /\ P s0 d.
Proof.
  intros Hg Hl Hfin Hw. destruct (good_thread _ _ _ _ Hg Hl) as (p & Hp & Hok).
  destruct p as [| |w s0 k]; [done|done|]. destruct Hok as [Hwait _].
  apply Hw in Hwait as (d & -> & Hd & HP). exists d, s0. split_and!; [|done|done].
  left. by exists n, d, s0, k.
Qed.

(** Time advances from an invariant state to another. *)
Lemma elapse_good ls c t : good ls c -> c.(shared).(time) < t -> (forall n, ~ is_ready c n) ->
  (forall t', deadline c t' -> t <= t') ->
  good ls (mk_pool (set_time t c.(shared)) c.(threads)).
Proof.
  intros Hg Ht Hidle Hdue. pose proof Hg as [Hpool Htimely].
  destruct (pool_state _ _ _ _ _ _ _ Hpool) as (m & h & tl & fl & -> & Hf).
  split; [|exact Hdue]. eapply pool_inv_kernel; [done|]. exists m, h, tl, fl. split; [done|].
  apply elapse_facts; [done|done|..].
  - intros ->. pose proof (f_time _ _ _ _ _ Hf).
    destruct (time_waits_deadline _ _ 0 _ (fun s d => s.(time) + d <= 0) Hg eq_refl ltac:(by intros []) ltac:(done))
      as (d & s0 & Hd%Hdue & _ & Hle). lia.
  - intros d Hd. apply Hdue. right. by exists 0.
  - intros d ->.
    destruct (time_waits_deadline _ _ 1 _ (fun s t => s.(time) + t <= d) Hg eq_refl ltac:(by intros []) ltac:(done))
      as (t' & s0 & Hd%Hdue & _ & Hle). lia.
  - intros ->. destruct (good_thread _ _ 1 _ Hg eq_refl) as (p & Hp & Hok).
    destruct p as [| |w s0 k]; [done|done|]. destruct Hok as [-> _].
    destruct (irq_level (shared c)) eqn:Hirq; [|done]. exfalso. apply (Hidle 1%nat). by exists Wait_static, s0, k.
  - intros ->. destruct (good_thread _ _ 2 _ Hg eq_refl) as (p & Hp & Hok).
    destruct p as [| |w s0 k]; [done|done|]. destruct Hok as [-> _].
    destruct (fired (shared c) 0) eqn:Hfired; [|done]. exfalso. apply (Hidle 2%nat). by exists Wait_static, s0, k.
Qed.

Lemma pending_due ls s i t : Inv ls s -> (s.(peripheral) i).(timer_done_at) = Some t -> s.(time) <= t.
Proof.
  intros (m & h & tl & fl & _ & Hf) Ht. destruct (decide (i = 0)) as [->|Hi].
  - destruct (f_main _ _ _ _ _ Hf) as [Hm _].
    destruct m; [destruct Hm as (_ & _ & ? & _); congruence|..];
      destruct Hm as (_ & _ & [(H & _ & _ & Hle)|(? & _)]); try congruence;
      rewrite H in Ht; by injection Ht as <-.
  - destruct (f_others _ _ _ _ _ Hf i Hi) as (? & _). congruence.
Qed.

Lemma resume_good ls c n r : good ls c -> resume (ready capacity) c n r ->
  failed r \/ exists l c', r = Ok c' /\ good (<[n := l]> ls) c' /\ guar c.(shared) c'.(shared).
Proof.
  intros [Hpool Htimely] Hres.
  destruct (resume_timely_or _ time _ _ _ _ _ _ _ _ waits_nonneg
    (fun s s' (H : guar s s') => proj1 H) Hpool
    (fun t Ht => Htimely t (or_introl Ht)) Hres)
    as [(f & -> & -> & Hlate)|(l & c' & -> & Hpool' & Hguar & Hdue)]; [by left|].
  right. exists l, c'. split_and!; [done| |done]. split; [done|]. intros t [Ht|(i & Hi & Hd)]; [by apply Hdue|].
  eapply pending_due; [|done]. apply (pool_state _ _ _ _ _ _ _ Hpool').
Qed.

(** The steps of the kernel that start no process. *)
Lemma kernel_good ls c s : good ls c -> Inv ls s -> s.(time) = c.(shared).(time) ->
  good ls (mk_pool s c.(threads)).
Proof.
  intros [Hpool Htimely] HI Ht. split; [by eapply pool_inv_kernel|]. cbn [shared]. rewrite Ht.
  intros t [(n & d & s0 & k & Hn & ->)|(i & Hi & Hd)].
  - apply Htimely. left. by exists n, d, s0, k.
  - rewrite <- Ht. by eapply pending_due.
Qed.

Lemma fifo_source ls s i vs rest : Inv ls s -> s.(fifo) i = vs ++ rest -> vs <> [] -> i = 0.
Proof.
  intros (m & h & t & fl & _ & Hf) Hvs Hne. destruct (decide (i = 0)) as [|Hi]; [done|].
  destruct (f_others _ _ _ _ _ Hf i Hi) as (_ & _ & _ & He). rewrite He in Hvs.
  symmetry in Hvs. by apply app_eq_nil in Hvs as [-> _].
Qed.

Lemma step_good ls c r : good ls c -> step c r ->
  failed r \/ exists ls' c', r = Ok c' /\ good ls' c'.
Proof.
  intros Hg Hs. pose proof Hg as [Hpool Htimely]. pose proof (pool_state _ _ _ _ _ _ _ Hpool) as HI.
  destruct Hs as [n r Hrun Hres|i vs rest Hrun Hi Hvs Hne|i p t rest Hrun Hreq s'|i Hrun Hi Ht|t Hrun Ht Hidle Hd Hmin].
  1: { destruct (resume_good _ _ _ _ Hg Hres) as [Hf|(l & c' & -> & Hg' & _)]; [by left|].
       right. by exists (<[n := l]> ls), c'. }
  all: right.
  - pose proof (fifo_source _ _ _ _ _ HI Hvs Hne) as ->. destruct HI as (m & h & tl & fl & -> & Hf).
    destruct (receive_facts _ _ _ _ _ _ _ Hf Hvs) as (s' & -> & Hf' & _ & Ht & _). rewrite bind_Ok.
    eexists _, _. split; [done|]. apply kernel_good; [done| |done]. by exists m, h, tl, fl.
  - destruct HI as (m & h & tl & fl & -> & Hf).
    destruct (serve_facts _ _ _ _ _ _ _ _ _ Hf Hreq) as (-> & -> & Ht & Hf').
    eexists (_ ++ [Transfer Todo]), _. split; [done|].
    assert (HI' : Inv ((Main m :: Irq h :: Timer tl :: Unused :: Unused :: (Transfer <$> fl)) ++ [Transfer Todo]) s').
    { exists m, h, tl, (fl ++ [Todo]). split; [by rewrite fmap_app|done]. }
    split.
    + apply pool_inv_spawn; [done|done|].
      replace (length _) with (5 + length fl)%nat by (cbn; by rewrite length_fmap).
      by eapply transfer_thread_ok.
    + intros u [(n & d & s0 & k & Hn & ->)|(i & Hi & Hd)].
      2: { by eapply pending_due. }
      cbn [threads shared] in *. apply lookup_app_Some in Hn as [Hn|[_ Hn]].
      * apply Htimely. left. by exists n, d, s0, k.
      * apply list_lookup_singleton_Some in Hn as [_ Hn]. injection Hn as <- <- _. lia.
  - destruct HI as (m & h & tl & fl & -> & Hf). destruct (fire_facts _ _ _ _ _ _ Hf Ht) as (-> & _ & Hf').
    eexists _, _. split; [done|]. apply kernel_good; [done| |done]. by exists m, h, tl, fl.
  - eexists ls, _. split; [reflexivity|]. by apply elapse_good.
Qed.

(** *** Progress *)

(** A running configuration in which no process may run, no byte waits in the
    FIFO and no request waits to be served has something due. *)
Lemma something_due ls c : good ls c -> c.(shared).(stopped) = false -> (forall n, ~ is_ready c n) ->
  c.(shared).(fifo) 0 = [] -> c.(shared).(requested) = [] -> exists t, deadline c t.
Proof.
  intros Hg Hrun Hidle Hfifo Hreq. pose proof Hg as [Hpool Htimely].
  destruct (pool_state _ _ _ _ _ _ _ Hpool) as (m & h & tl & fl & -> & Hf).
  assert (Hmain : (exists t, deadline c t) \/ m = Sleeping).
  { destruct (decide (m = Sleeping)) as [|Hm]; [by right|left].
    destruct (time_waits_deadline _ _ 0 (Main m) (fun _ _ => True) Hg eq_refl) as (d & s0 & Hd & _);
      [| |by eauto].
    - intros Hfin. rewrite (f_stopped _ _ _ _ _ Hf) in Hrun. by destruct m.
    - intros w s. destruct m; try done. by intros (t & -> & ? & _); exists t. }
  destruct Hmain as [| ->]; [done|].
  (* the main thread sleeps: the interrupt is low *)
  assert (Hlow : irq_level (shared c) = false).
  { destruct (good_thread _ _ 0 _ Hg eq_refl) as (p & Hp & Hok). destruct p as [| |w s0 k]; [done|done|].
    destruct Hok as [-> _]. destruct (irq_level (shared c)) eqn:Hirq; [|done].
    exfalso. apply (Hidle 0%nat). by exists (Wait_event irq_posedge), s0, k. }
  destruct (good_thread _ _ 2 _ Hg eq_refl) as (p & Hp & Hok). destruct tl as [|n|].
  - destruct p as [| |w s0 k]; [done|done|]. destruct Hok as [-> _].
    destruct (f_main _ _ _ _ _ Hf) as [(_ & _ & [(Hd & _)|(_ & Hfired & _)]) _].
    + exists timer_due. right. by exists 0.
    + exfalso. apply (Hidle 2%nat). by exists Wait_static, s0, k.
  - destruct p as [| |w s0 k]; [done|done|]. destruct Hok as [-> _].
    exfalso. apply (Hidle 2%nat). exists (Wait_event (peripheral_event 0 fifo_event)), s0, k. split; [done|].
    cbn. rewrite Hfifo. apply some_capacity.
  - pose proof (f_fifo _ _ _ _ _ Hf) as Hff. pose proof (f_index _ _ _ _ _ Hf) as Hfi. cbn [streamed] in Hff, Hfi.
    rewrite Hfifo in Hff. apply (f_equal length) in Hff. rewrite length_seqZ in Hff. cbn in Hff.
    pose proof (f_transfers _ _ _ _ _ Hf) as Htr. rewrite Hreq in Htr.
    pose proof (tr_requested _ _ _ _ _ Htr) as Hfr. apply (f_equal length) in Hfr.
    rewrite !length_fmap, length_seqZ in Hfr. cbn in Hfr. pose proof (tr_served _ _ _ _ _ Htr).
    destruct (decide (Forall (fun f => f <> Todo /\ f <> Raising) fl)) as [Hall|Hnot].
    + assert (irq_level (shared c) = true) by (apply (transfers_done original_timer _ _ _ _ Htr); [lia|done]).
      congruence.
    + apply not_Forall_Exists in Hnot; [|apply _]. apply Exists_exists in Hnot as (f & [j Hj]%list_elem_of_lookup & Hf').
      assert (Hl : (Main Sleeping :: Irq h :: Timer Drained :: Unused :: Unused :: (Transfer <$> fl)) !! (5 + j)%nat =
        Some (Transfer f)) by (change ((Transfer <$> fl) !! j = Some (Transfer f)); by rewrite list_lookup_fmap, Hj).
      destruct (time_waits_deadline _ _ _ _ (fun _ _ => True) Hg Hl) as (d & s0 & Hd & _); [intros Hfin; destruct f; try done; by apply Hf'|intros w s Hw; exact Hw|eauto].
Qed.

Lemma progress ls c : good ls c -> c.(shared).(stopped) = false -> exists r, step c r.
Proof.
  intros Hg Hrun. pose proof Hg as [Hpool Htimely].
  destruct (some_ready (ready capacity) c) as [(n & w & s0 & k & Hn & Hr)|Hidle].
  { eexists. eapply step_resume; [done|]. by econstructor. }
  destruct (fifo (shared c) 0) as [|v vs] eqn:Hfifo.
  2: { eexists. eapply (step_receive _ _ c 0 (v :: vs) []); [done|done|by rewrite app_nil_r|done]. }
  destruct (requested (shared c)) as [|[[i p] t] rest] eqn:Hreq.
  2: { eexists. by eapply step_serve. }
  destruct (something_due _ _ Hg Hrun Hidle Hfifo Hreq) as [t0 Ht0%deadline_list].
  destruct (list_minimum _ _ Ht0) as (t & Ht%deadline_list & Hmin).
  destruct (Z.eq_dec (time (shared c)) t) as [He|Hne].
  - destruct Ht as [(n & d & s0 & k & Hn & ->)|(i & Hi & Hd)].
    + exfalso. apply (Hidle n). exists (Wait_time d), s0, k. split; [done|]. exact He.
    + eexists. apply (step_fire _ _ c i); [done|done|]. by rewrite He.
  - specialize (Htimely t Ht) as Hle. eexists. apply (step_elapse _ _ c t); [done|lia|done|done|].
    intros t' Ht'%deadline_list. by apply Hmin.
Qed.

(** *** Termination *)

(** What has been streamed, requested and served. *)
Definition done_work (c : config) : Z :=
  2 * (c.(shared).(peripheral) 1).(memory_index) + Z.of_nat (length (c.(shared).(fifo) 0)) +
  Z.of_nat (length c.(threads)) - 5.
Definition work (c : config) : nat := Z.to_nat (300 - done_work c).
Definition pending (c : config) : nat :=
  match (c.(shared).(peripheral) 0).(timer_done_at) with Some _ => 1 | None => 0 end.

(** Work is done, or a process continues, or an event has happened. *)
Definition nearer (c' c : config) : Prop :=
  (work c' < work c)%nat \/ (work c' = work c /\ closer pending c' c).

Lemma nearer_wf : well_founded nearer.
Proof. apply measured_wf, closer_wf. Qed.

Lemma done_bound ls c : good ls c -> done_work c <= 300.
Proof.
  intros [Hpool _]. destruct (pool_state _ _ _ _ _ _ _ Hpool) as (m & h & tl & fl & -> & Hf).
  pose proof (pool_length _ _ _ _ _ _ _ Hpool) as Hlen. cbn [length] in Hlen. rewrite length_fmap in Hlen.
  pose proof (tr_served _ _ _ _ _ (f_transfers _ _ _ _ _ Hf)). pose proof (f_index _ _ _ _ _ Hf). unfold done_work.
  rewrite (f_fifo _ _ _ _ _ Hf), length_seqZ. lia.
Qed.

Lemma step_nearer ls c c' : good ls c -> step c (Ok c') ->
  nearer c' c \/ exists t, c' = mk_pool (set_time t c.(shared)) c.(threads) /\ deadline c t /\
    c.(shared).(time) < t /\ (forall n, ~ is_ready c n) /\ (forall u, deadline c u -> t <= u).
Proof.
  intros Hg Hs. destruct (step_good _ _ _ Hg Hs) as [[? _]|(ls' & c'' & [= <-] & Hg')]; [done|].
  pose proof (done_bound _ _ Hg) as Hb. pose proof (done_bound _ _ Hg') as Hb'.
  pose proof Hg as [Hpool _]. pose proof (pool_state _ _ _ _ _ _ _ Hpool) as HI.
  remember (Ok c') as r eqn:Hr.
  destruct Hs as [n r Hrun Hres|i vs rest Hrun Hi Hvs Hne|i p t rest Hrun Hreq s'|i Hrun Hi Ht|t Hrun Ht Hidle Hd Hmin].
  - left. subst r. destruct (pool_resume _ _ _ _ _ _ _ _ _ Hpool Hres) as [(f & ? & _)|(l & c1 & [= <-] & _ & Hguar & Hlen)]; [done|].
    destruct Hguar as (_ & _ & Hidx & Hff). apply resume_continues in Hres.
    destruct (decide (work c' < work c)%nat) as [|Hw]; [by left|]. right. split; [|by left].
    unfold work, done_work in *. rewrite Hidx, Hlen in *. lia.
  - left. left. pose proof (fifo_source _ _ _ _ _ HI Hvs Hne) as ->. destruct HI as (m & h & tl & fl & -> & Hf).
    destruct (receive_facts _ _ _ _ _ _ _ Hf Hvs) as (s' & Hrec & _ & Hff & _ & Hidx & _).
    rewrite Hrec, bind_Ok in Hr. injection Hr as <-.
    assert (Hpos : (0 < length vs)%nat) by (destruct vs; [done|cbn; lia]).
    unfold work, done_work in *. cbn [shared threads] in *. rewrite Hff, Hidx, Hvs, length_app in *. lia.
  - left. left. injection Hr as <-. unfold work, done_work in *. cbn [shared threads set_requested peripheral fifo s'] in *.
    rewrite length_app in *. cbn [length] in *. lia.
  - left. right. injection Hr as <-. destruct HI as (m & h & tl & fl & -> & Hf).
    destruct (fire_facts _ _ _ _ _ _ Hf Ht) as (-> & _ & _). split; [done|]. right. split; [done|].
    unfold pending. cbn [shared set_fired set_peripheral peripheral]. rewrite upd_same, Ht. cbn. lia.
  - right. injection Hr as <-. by exists t.
Qed.

(** Time does not advance twice in a row. *)
Lemma no_second_elapse c t t' : deadline c t ->
  let c' := mk_pool (set_time t c.(shared)) c.(threads) in
  (forall n, ~ is_ready c' n) -> (forall u, deadline c' u -> t' <= u) -> t < t' -> False.
Proof.
  intros [(n & d & s0 & k & Hn & Ht)|(i & Hi & Ht)] c' Hidle Hmin Hlt.
  - apply (Hidle n). exists (Wait_time d), s0, k. by split.
  - assert (t' <= t); [|lia]. apply Hmin. right. by exists i.
Qed.

Lemma failed_ends r : failed r -> sn rstep r.
Proof. intros [-> _]. constructor. by intros r' (c & ? & _). Qed.

Lemma good_terminates ls c : good ls c -> sn rstep (Ok c).
Proof.
  revert ls. induction (nearer_wf c) as [c _ IH]. intros ls Hg. constructor.
  intros r (c0 & [= <-] & Hs). destruct (step_good _ _ _ Hg Hs) as [Hf|(ls' & c' & -> & Hg')]; [by apply failed_ends|].
  destruct (step_nearer _ _ _ Hg Hs) as [Hc|(t & -> & Hd & _)]; [by eapply IH|].
  (* after time has advanced something else happens *)
  constructor. intros r (c1 & [= <-] & Hs1).
  destruct (step_good _ _ _ Hg' Hs1) as [Hf|(ls1 & c1 & -> & Hg1)]; [by apply failed_ends|].
  destruct (step_nearer _ _ _ Hg' Hs1) as [Hc|(t' & -> & _ & Hlt & Hidle & Hmin)].
  - eapply IH; [|done]. exact Hc.
  - exfalso. by eapply no_second_elapse.
Qed.

Lemma reachable_good bytes r : garbage_bytes bytes -> reaches bytes r ->
  failed r \/ exists c, r = Ok c /\ exists ls, good ls c.
Proof.
  intros Hb Hr. unfold reaches in Hr. remember (Ok _) as r0 eqn:Hr0.
  assert (H0 : failed r0 \/ exists c, r0 = Ok c /\ exists ls, good ls c).
  { right. eexists. split; [done|]. eexists. by apply new_top_good. }
  clear Hr0. induction Hr as [r0|r0 r1 r2 (c & -> & Hs) _ IH]; [done|]. apply IH.
  destruct H0 as [[? _]|(c' & [= <-] & ls & Hg)]; [done|].
  destruct (step_good _ _ _ Hg Hs) as [Hf|(ls' & c1 & -> & Hg1)]; [by left|right; eauto].
Qed.

Lemma level_memory_complete ls c : good ls c -> irq_level c.(shared) = true -> memory_complete c.(shared).
Proof.
  intros [Hpool _] Hirq. destruct (pool_state _ _ _ _ _ _ _ Hpool) as (m & h & tl & fl & _ & Hf).
  split; [by eapply level_stored|].
  destruct (transfers_complete original_timer width_8 _ _ _ _ (f_transfers _ _ _ _ _ Hf) (f_struct _ _ _ _ _ 2 Hf) Hirq)
    as (_ & Hm & _ & Hq). pose proof (f_index _ _ _ _ _ Hf). split; [|done].
  rewrite (f_fifo _ _ _ _ _ Hf). apply seqZ_nil. lia.
Qed.

(** Where no step is possible the simulation was stopped. *)
Lemma stuck_passed ls c : good ls c -> nf rstep (Ok c) ->
  c.(shared).(stopped) = true /\ passed c /\ last_poll <= timer_due.
Proof.
  intros Hg Hnf. unfold passed. destruct (stopped (shared c)) eqn:Hst.
  - split; [done|]. pose proof Hg as [Hpool _].
    destruct (pool_state _ _ _ _ _ _ _ Hpool) as (m & h & tl & fl & -> & Hf).
    rewrite (f_stopped _ _ _ _ _ Hf) in Hst. apply bool_decide_eq_true in Hst as ->.
    destruct (f_main _ _ _ _ _ Hf) as [_ [Hirq Hlate]]. split; [|exact Hlate]. split; [done|]. split; [exact Hirq|].
    destruct (good_thread _ _ 0 _ Hg eq_refl) as (p & Hp & Hok). destruct p as [s []| |w s0 k]; [by exists s|done|].
    by destruct Hok.
  - exfalso. apply Hnf. destruct (progress _ _ Hg Hst) as [r Hs]. exists r. by exists c.
Qed.

(** ** Properties *)

(** C1: whatever the library makes of the rollover of the 64-bit timer, which no
    time can hold, and in whatever order the processes and the transfers run:
    nothing undefined is executed, no polling loop outlasts its fuel, and of the
    assertions of the CPU model, the peripherals, the test software and its
    interrupt handler none fails, unless the timer event comes no later than the
    last time the test software expects the timer not to be done (1002 ns),
    which an assertion of the test then finds.  In every state reached, as soon
    as the interrupt line is high the memory of the last peripheral holds all of
    the inverted bytes, with no byte and no transfer on its way. *)
Theorem original_system_safe bytes r :
  garbage_bytes bytes -> reaches bytes r ->
  (exists c, r = Ok c /\ (irq_level c.(shared) = true -> memory_complete c.(shared))) \/
  (r = Err Assert_failure /\ timer_due <= last_poll).
Proof.
  intros Hb Hr. destruct (reachable_good _ _ Hb Hr) as [Hf|(c & -> & ls & Hg)]; [by right|left].
  exists c. split; [done|]. by eapply level_memory_complete.
Qed.

(** C2: every run of the original system ends, and when the timer event comes
    decides how: there is no infinite sequence of steps, and where no further
    step is possible either the event comes no earlier than the last time the
    test software expects the timer not to be done and the main thread has
    passed the test and stopped the simulation, so that [sc_main] returns 0,
    with the interrupt of the last peripheral raised; or it comes no later than
    that and an assertion has failed. *)
Theorem original_system_ends bytes :
  garbage_bytes bytes ->
  sn rstep (Ok (new_top fuel garbage bytes)) /\
  forall r, reaches bytes r -> nf rstep r ->
    (last_poll <= timer_due /\ exists c, r = Ok c /\ passed c) \/
    (timer_due <= last_poll /\ r = Err Assert_failure).
Proof.
  intros Hb. split; [by eapply good_terminates, new_top_good|].
  intros r Hr Hnf. destruct (reachable_good _ _ Hb Hr) as [[-> Hf]|(c & -> & ls & Hg)]; [by right|left].
  destruct (stuck_passed _ _ Hg Hnf) as (_ & Hp & Hlate). split; [done|by exists c].
Qed.

Lemma inverted_byte a : 0 <= a < 100 -> is_byte (inverted a).
Proof.
  intros Ha. assert (H : Forall (fun a => is_byte (inverted a)) (seqZ 0 100)).
  { rewrite <- (Forall_iff (fun a => Is_true ((0 <=? inverted a) && (inverted a <? 256)))).
    - by apply forallb_True.
    - intros x. rewrite Is_true_true, andb_true_iff, Z.leb_le, Z.ltb_lt. done. }
  rewrite Forall_forall in H. apply H, elem_of_seqZ. lia.
Qed.

(** What the state of the platform is made of. *)
Record well_formed (s : platform) : Prop := {
  wf_regs : forall i, Z.of_nat (length (s.(peripheral) i).(regs)) = struct_size original_timer /\
    (s.(peripheral) i).(regs) !! 0%nat = Some 0;
  wf_index : 0 <= (s.(peripheral) 1).(memory_index) <= memory_size;
  wf_count : 0 <= (s.(peripheral) 2).(memory_written_count) <= memory_size;
  wf_fifo : forall i, is_bytes (s.(fifo) i);
  wf_requested : Forall (fun '(i, p, t) => i = 1 /\ payload_wf p /\ p.(address) < memory_size /\
    0 <= t <= clock_period /\
    exists b, p.(data) = Some [b] /\
      (s.(peripheral) i).(regs) !! Z.to_nat (field_offset memory + p.(address)) = Some b) s.(requested);
}.

(** C40: the state of the platform is well formed in every reachable state: the
    register structs keep their size and hold no pending start command, the
    indices stay within the memories, the FIFOs hold bytes, and every request
    that is not yet served is a one-byte access within the target's memory
    whose buffer, a byte of the requesting peripheral's memory, still holds the
    byte that was sent. *)
Theorem original_system_well_formed bytes c :
  garbage_bytes bytes -> reaches bytes (Ok c) -> well_formed c.(shared).
Proof.
  intros Hb Hr. destruct (reachable_good _ _ Hb Hr) as [[? _]|(c' & [= <-] & ls & [Hpool _])]; [done|].
  destruct (pool_state _ _ _ _ _ _ _ Hpool) as (m & h & tl & fl & _ & Hf).
  pose proof (f_transfers _ _ _ _ _ Hf) as [Hidx Hcop Hserv Hq Hd Hcnt _ _ _ _]. pose proof (f_index _ _ _ _ _ Hf).
  pose proof (count_le fl). pose proof (count_nonneg fl).
  split.
  - intros i. destruct (f_regs _ _ _ _ _ Hf i) as [Hl Hz]. by rewrite Hl.
  - unfold memory_size. lia.
  - unfold memory_size. lia.
  - intros i. destruct (decide (i = 0)) as [->|Hi].
    + rewrite (f_fifo _ _ _ _ _ Hf). apply Forall_forall. intros v Hv%elem_of_seqZ. unfold is_byte. lia.
    + destruct (f_others _ _ _ _ _ Hf i Hi) as (_ & _ & _ & ->). constructor.
  - apply Forall_forall. intros [[i p] t] Hin.
    assert (Hip : (i, p) ∈ (requested (shared c)).*1) by (apply list_elem_of_fmap; by exists (i, p, t)).
    rewrite Hq in Hip. apply list_elem_of_fmap in Hip as (a & [= -> ->] & Ha%elem_of_seqZ).
    rewrite Forall_forall in Hd. specialize (Hd _ Hin). cbn in Hd.
    split_and!; [done| |cbn; unfold memory_size; lia|lia|lia|].
    + split; cbn; [lia|lia|]. intros d [= <-]. apply List.Forall_cons; [|constructor]. apply inverted_byte. lia.
    + exists (inverted a). split; [done|]. apply Hcop. cbn. lia.
Qed.
End Runs.

(** The rollover of the 64-bit timer is no time. *)
Theorem rollover_unrepresentable : 2 ^ 64 <= 2 ^ (8 * original_timer) * clock_period.
Proof. by vm_compute. Qed.

(** *** Instances: a library whose conversion of a product that is out of range
    gives the largest power of two, and one whose conversion drops the upper
    bits; FIFOs of 16 bytes, sockets that consume the whole delay of a request
    before they serve it. *)
#[export] Instance indefinite_times : DoubleTimes.
Proof.
  refine {| sc_scale d t := if d * t <? 2 ^ 64 then d * t else 2 ^ 63;
            sc_ceil := ceil_div; sc_ceil_gap a b := ceil_div a b * b - a |}.
  - intros d t Ht. destruct (Z.ltb_spec (d * t) (2 ^ 64)); lia.
  - done.
  - intros a a' b Ha _ Hb. apply ceil_div_mono; lia.
  - apply ceil_div_range.
  - done.
Defined.

Definition example_garbage (f : field) : list Z := replicate (Z.to_nat (field_size f)) 0xAA.
Definition example_bytes (i : Z) : list Z := replicate 120 0x55.

#[export] Instance example_surroundings : Surroundings 16 (fun _ => 0) 335 example_garbage.
Proof. split; [lia|intros t Ht; lia|lia|by intros []]. Qed.

Lemma original_system_safe_witness :
  (exists c, Ok (new_top (SC := indefinite_times) 335 example_garbage example_bytes) = Ok c /\
    (irq_level c.(shared) = true -> memory_complete c.(shared))) \/
  (Ok (new_top (SC := indefinite_times) 335 example_garbage example_bytes) = Err Assert_failure /\
   timer_due (SC := indefinite_times) <= last_poll).
Proof.
  apply (original_system_safe (SC := indefinite_times) 16 (fun _ => 0) 335 example_garbage example_bytes).
  - by intros i.
  - apply rtc_refl.
Defined.

(** With the one library every run passes, with the other every run fails. *)
Lemma original_system_ends_witness :
  (sn (rstep (SC := indefinite_times) 16 (fun _ => 0))
     (Ok (new_top (SC := indefinite_times) 335 example_garbage example_bytes)) /\
   forall r, reaches (SC := indefinite_times) 16 (fun _ => 0) 335 example_garbage example_bytes r ->
     nf (rstep (SC := indefinite_times) 16 (fun _ => 0)) r -> exists c, r = Ok c /\ passed c) /\
  (forall r, reaches (SC := wrapping_times) 16 (fun _ => 0) 335 example_garbage example_bytes r ->
     nf (rstep (SC := wrapping_times) 16 (fun _ => 0)) r -> r = Err Assert_failure).
Proof.
  assert (Hb : garbage_bytes example_bytes) by (by intros i).
  destruct (original_system_ends (SC := indefinite_times) 16 (fun _ => 0) 335 example_garbage
    example_bytes Hb) as [Hsn Hends].
  destruct (original_system_ends (SC := wrapping_times) 16 (fun _ => 0) 335 example_garbage
    example_bytes Hb) as [_ Hfails].
  split; [split; [exact Hsn|]|]; intros r Hr Hnf.
  - destruct (Hends r Hr Hnf) as [[_ Hp]|[Hdue _]]; [exact Hp|]. by vm_compute in Hdue.
  - destruct (Hfails r Hr Hnf) as [[Hdue _]|[_ Hf]]; [by vm_compute in Hdue|exact Hf].
Defined.

Lemma original_system_well_formed_witness :
  well_formed (shared (new_top (SC := indefinite_times) 335 example_garbage example_bytes)).
Proof.
  apply (original_system_well_formed (SC := indefinite_times) 16 (fun _ => 0) 335 example_garbage example_bytes).
  - by intros i.
  - apply rtc_refl.
Defined.
