(* ===== verification/RingSystem.v ===== *)
(** * The ring that Renode closes (examples/multiple-peripherals)

    Three SystemC processes, each a [top] with a peripheral and a FIFO adapter,
    joined by Renode into the ring of the original system: a DMA transfer and
    a byte of the FIFO leave a process through the direct connections of its
    bridge, are passed on by Renode, and end in the next one; the CPU starts the
    timer of peripheral A by a write and is interrupted by peripheral C.

    The processes form one pool (Scheduler) over the state of all three nodes,
    which have clocks of their own.  What lies between the nodes is not in the
    repository, and as little as possible is assumed of it: a call through a
    bridge reaches its target once and returns once, with the payload it was
    given, both after any number of steps of anyone; of the annotated delay the
    caller's node, the target and the return may each get any part.  Clocks
    advance independently, each to the next time for which something at its node
    waits, whether or not something at it can run.  An activation of a
    peripheral's method may find any number of the bytes that have been written;
    the adapter's loop reads on while there are any. *)

From stdpp Require Import base numbers list functions relations.
From S2P Require Import Prelude Tlm Kernel Scheduler Peripheral SimpleTargets Firmware.
#[local] Open Scope Z_scope.

(** ** Definitions *)

Record ring : Type := mk_ring {
  clock : Z -> Z;                             (* sc_time_stamp() of node i *)
  device : Z -> impl;                         (* its Peripheral *)
  fifo : Z -> list Z;                         (* written by the peripheral and not read *)
  adapter : Z -> list Z;                      (* fifo_adapter's fifo, read by the peripheral *)
  fired : Z -> bool;                          (* timer_done_event has happened *)
  requested : list (Z * payload * sc_time);   (* DMA requests to be served *)
  irq_enabled : bool;                         (* the CPU's interrupt and its variable *)
  example_done : bool;
}.

Definition set_clock i t (s : ring) : ring :=
  mk_ring (<[i := t]> s.(clock)) s.(device) s.(fifo) s.(adapter) s.(fired) s.(requested)
    s.(irq_enabled) s.(example_done).
Definition set_device i x (s : ring) : ring :=
  mk_ring s.(clock) (<[i := x]> s.(device)) s.(fifo) s.(adapter) s.(fired) s.(requested)
    s.(irq_enabled) s.(example_done).
Definition set_fifo i vs (s : ring) : ring :=
  mk_ring s.(clock) s.(device) (<[i := vs]> s.(fifo)) s.(adapter) s.(fired) s.(requested)
    s.(irq_enabled) s.(example_done).
Definition set_adapter i vs (s : ring) : ring :=
  mk_ring s.(clock) s.(device) s.(fifo) (<[i := vs]> s.(adapter)) s.(fired) s.(requested)
    s.(irq_enabled) s.(example_done).
Definition set_fired i (s : ring) : ring :=
  mk_ring s.(clock) s.(device) s.(fifo) s.(adapter) (<[i := true]> s.(fired)) s.(requested)
    s.(irq_enabled) s.(example_done).
Definition set_requested r (s : ring) : ring :=
  mk_ring s.(clock) s.(device) s.(fifo) s.(adapter) s.(fired) r s.(irq_enabled) s.(example_done).

(** What a process of a node waits for. *)
Inductive event : Type :=
| elapsed (i : Z) (t : sc_time)
| timer_fired (i : Z)
| room (i : Z)                  (* in the peripheral's FIFO *)
| data_written (i : Z)          (* to it *)
| adapter_room (i : Z)          (* in the adapter's FIFO *)
| message.                      (* Renode and the bridges *)

Definition num_nodes : Z := 3.

(** The direct connections of a node lead to the next one. *)
Definition next (i : Z) : Z := (i + 1) mod num_nodes.

(** Peripheral C, whose pin is interrupt 57. *)
Definition irq_source : Z := 2.
Definition irq_level (s : ring) : bool := (s.(device) irq_source).(irq_signal).

(** A peripheral and the rest of the ring. *)
Definition enter (i : Z) (s : ring) : impl * ring := (set_now (s.(clock) i) (s.(device) i), s).
Definition leave (i : Z) (s : impl * ring) : ring := set_device i s.1 s.2.

Definition tag (i : Z) (w : wait_on Peripheral.event) : wait_on event :=
  Wait_event match w with
             | Wait_time t => elapsed i t
             | Wait_event fifo_event => room i
             | Wait_event timer_done_event | Wait_static => timer_fired i
             end.

Definition on_node {A} (i : Z) (m : proc Peripheral.event (impl * ring) A) : proc event ring A :=
  focus (tag i) (enter i) (leave i) m.

(** A run of a peripheral's code that cannot suspend. *)
Definition in_node (i : Z) (f : impl * ring -> res (impl * ring)) (s : ring) : res ring :=
  s' ← f (enter i s); Ok (leave i s').

Section System.
Context {SC : DoubleTimes}.
(** The capacities of the peripheral's FIFO and of the adapter's; the parts of
    an annotated delay; the activations of a method and the rounds of its
    loop. *)
Context (capacity adapter_capacity : Z) (held sent returned : sc_time -> sc_time).
Context (activations fuel : nat).

(** *** The peripheral *)

(** [fifo.write(v)] of peripheral [i]. *)
Definition fifo_write (i : Z) (v : Z) : proc Peripheral.event (impl * ring) unit :=
  p_wait (Wait_event fifo_event);;
  p_modify (fun s => (s.1, set_fifo i (s.2.(fifo) i ++ [v]) s.2)).

Definition timer_thread (i : Z) : proc event ring unit :=
  on_node i (timer_done_thread renode_timer (fifo_write i)).

(** [dma->nb_transport_fw] of peripheral [i]: the socket of the bridge has a
    blocking transport only; it accepts a request and serves it later. *)
Definition nb_transport_fw (i : Z) (s : impl * ring) (p : payload) (phase : tlm_phase)
  (delay : sc_time) : res ((impl * ring) * payload * tlm_phase * sc_time * tlm_sync_enum) :=
  if decide (phase = BEGIN_REQ) then
    Ok ((s.1, set_requested (s.2.(requested) ++ [(i, p, delay)]) s.2), p, phase, delay, TLM_ACCEPTED)
  else Ok (s, p, phase, delay, TLM_COMPLETED).

Definition begin_resp (i : Z) (p : payload) (delay : sc_time) : proc event ring unit :=
  p_step (fun s =>
    s ← in_node i (fun s =>
      '(s, _, _, _, _) ← nb_transport_bw (nb_transport_fw i) s p BEGIN_RESP delay; Ok s) s;
    Ok (s, tt)).

Definition memory_if (i : Z) (p : payload) (delay : sc_time) : proc event ring (payload * sc_time) :=
  on_node i (b_transport renode_timer MEMORY_TARGET_INDEX p delay).
Definition register_if (i : Z) (p : payload) (delay : sc_time) : proc event ring (payload * sc_time) :=
  on_node i (b_transport renode_timer REGIF_TARGET_INDEX p delay).

(** [fifo_data_received_method] of peripheral [i] on the bytes [vs] of the
    adapter's FIFO. *)
Definition receive (i : Z) (vs rest : list Z) (s : ring) : res ring :=
  in_node i (fifo_data_received_method renode_timer (nb_transport_fw i) vs) (set_adapter i rest s).

(** *** The way through Renode *)

(** A call of [target], which may lie in another process. *)
Definition link (target : payload -> sc_time -> proc event ring (payload * sc_time))
  (p : payload) (delay : sc_time) : proc event ring (payload * sc_time) :=
  p_wait (Wait_event message);;
  r ← target p delay;
  p_wait (Wait_event message);;
  mret r.

(** A request of peripheral [i], served by the memory of the next one. *)
Definition serve_request (i : Z) (p : payload) (delay : sc_time) : proc event ring unit :=
  p_wait (Wait_event (elapsed i (held delay)));;
  '(p, delay) ← link (memory_if (next i)) p (sent delay);
  p_wait (Wait_event (elapsed i (returned delay)));;
  begin_resp i p SC_ZERO_TIME.

(** *** The FIFO adapter *)

(** [fifo_in.nb_read(data)]. *)
Definition nb_read (i : Z) : proc event ring (option Z) :=
  p_step (fun s =>
    match s.(fifo) i with
    | [] => Ok (s, None)
    | v :: rest => Ok (set_fifo i rest s, Some v)
    end).

(** [fifo.write(value)] of the adapter. *)
Definition adapter_write (i : Z) (value : Z) : proc event ring unit :=
  p_wait (Wait_event (adapter_room i));;
  p_modify (fun s => set_adapter i (s.(adapter) i ++ [value]) s).

Definition on_fifo_in (i : Z) (p : payload) (delay_time : sc_time) :
  proc event ring (payload * sc_time) :=
  value ← p_lift (data_word 1 p);
  adapter_write i value;;
  mret (set_response_status TLM_OK_RESPONSE p, delay_time).

Definition forward_fifo (i : Z) : proc event ring unit :=
  p_loop fuel (
    data ← nb_read i;
    match data with
    | None => mret false
    | Some data => link (on_fifo_in (next i)) (FifoAdapter.byte_payload data) SC_ZERO_TIME;; mret true
    end).

(** The method, sensitive to [data_written()] and not initialised. *)
Definition adapter_method (i : Z) : proc event ring unit :=
  p_repeat activations (p_wait (Wait_event (data_written i));; forward_fifo i).

(** *** The CPU *)

(** [peripheralA->cmd_start_timer = 1]. *)
Definition start_timer_write : proc event ring unit :=
  link (register_if 0) (PeripheralProgram.store_byte (Csr.field 0) 1) SC_ZERO_TIME;;
  mret tt.

Definition interrupt_handler (s : ring) : ring :=
  mk_ring s.(clock) s.(device) s.(fifo) s.(adapter) s.(fired) s.(requested) false true.

(** *** The simulation *)

Definition config : Type := pool event ring.

(** The [top]s, whose clocks show [clocks] and whose uninitialised bytes are
    [bytes], when [main] has enabled the interrupt. *)
Definition new_ring (clocks : Z -> Z) (bytes : Z -> list Z) : ring :=
  mk_ring clocks (fun i => new_impl renode_timer (bytes i)) (fun _ => []) (fun _ => [])
    (fun _ => false) [] true false.

Definition new_tops (clocks : Z -> Z) (bytes : Z -> list Z) : config :=
  let s := new_ring clocks bytes in
  mk_pool s [start_timer_write s; timer_thread 0 s; timer_thread 1 s; timer_thread 2 s;
             adapter_method 0 s; adapter_method 1 s; adapter_method 2 s].

Definition ready (n : nat) (w : wait_on event) (s0 s : ring) : Prop :=
  match w with
  | Wait_event (elapsed i t) => s0.(clock) i + t <= s.(clock) i
  | Wait_event (timer_fired i) => s.(fired) i = true
  | Wait_event (room i) => Z.of_nat (length (s.(fifo) i)) < capacity
  | Wait_event (data_written i) => s.(fifo) i <> []
  | Wait_event (adapter_room i) => Z.of_nat (length (s.(adapter) i)) < adapter_capacity
  | Wait_event message => True
  | Wait_time _ | Wait_static => False
  end.

(** The times for which something at node [i] waits. *)
Definition deadline (c : config) (i t : Z) : Prop :=
  (exists n d s0 k, c.(threads) !! n = Some (Wait (Wait_event (elapsed i d)) s0 k) /\
    t = s0.(clock) i + d) \/
  (c.(shared).(device) i).(timer_done_at) = Some t.

Inductive step (c : config) : res config -> Prop :=
| step_resume n r : resume ready c n r -> step c r
| step_receive i vs rest :
    0 <= i < num_nodes -> c.(shared).(adapter) i = vs ++ rest -> vs <> [] ->
    step c (s ← receive i vs rest c.(shared); Ok (mk_pool s c.(threads)))
| step_serve i p t rest :
    c.(shared).(requested) = (i, p, t) :: rest ->
    let s := set_requested rest c.(shared) in
    step c (Ok (mk_pool s (c.(threads) ++ [serve_request i p t s])))
| step_fire i t :
    0 <= i < num_nodes -> (c.(shared).(device) i).(timer_done_at) = Some t ->
    t <= c.(shared).(clock) i ->
    step c (Ok (mk_pool (set_fired i (set_device i
      (set_done_at None (c.(shared).(device) i)) c.(shared))) c.(threads)))
| step_interrupt :
    irq_level c.(shared) = true -> c.(shared).(irq_enabled) = true ->
    step c (Ok (mk_pool (interrupt_handler c.(shared)) c.(threads)))
| step_elapse i t :
    0 <= i < num_nodes -> c.(shared).(clock) i < t ->
    deadline c i t -> (forall t', deadline c i t' -> t <= t') ->
    step c (Ok (mk_pool (set_clock i t c.(shared)) c.(threads))).

Definition rstep : res config -> res config -> Prop := steps_to step.
End System.
