(* ===== verification/RingInvariant.v ===== *)
(** * The invariant of the ring that Renode closes

    Labels for the processes of RingSystem, the invariant that ties them to the
    state of the three nodes (where on its way every byte of the stream is), and
    its preservation by everything but the processes themselves. *)

From stdpp Require Import base numbers list functions relations.
From S2P Require Import Prelude Tlm Kernel Scheduler Peripheral Streaming SimpleTargets Firmware RingSystem.
#[local] Open Scope Z_scope.

(** ** Definitions *)

Inductive start_label : Type := Starting | Started.

(** The adapter of node 0: waiting for data, holding a byte that it has read and
    that is not in the next adapter yet, on its way back from delivering one. *)
Inductive forward_label : Type := Resting | Holding | Replying.

(** [Forward x n m]: activation number [n] is the next to begin or under way,
    [m] bytes have been read. *)
Inductive label : Type :=
| Start (b : start_label) | Timer (t : timer_label) | Unused
| Forward (x : forward_label) (n : nat) (m : Z) | Transfer (f : transfer_label).

(** How many of the bytes read have been delivered. *)
Definition delivered (x : forward_label) (m : Z) : Z :=
  match x with Holding => m - 1 | _ => m end.

(** Every activation reads a byte. *)
Definition forward_fact (x : forward_label) (n : nat) (m : Z) : Prop :=
  match x with Resting => Z.of_nat n <= m | _ => Z.of_nat n < m end.

(** The clock of node 0 when the simulation begins. *)
Section Invariant.
Context (boot_time : Z).

(** When the timer rolls over: the start write takes a cycle. *)
Definition rollover_due : Z := boot_time + 1000 + 2 ^ 32 * 1000.

Definition start_fact (b : start_label) (t : timer_label) (s : ring) : Prop :=
  match b with
  | Starting =>
      s.(clock) 0 = boot_time /\ (s.(device) 0).(start_time_valid) = false /\
      (s.(device) 0).(timer_done_at) = None /\ s.(fired) 0 = false /\ t = Armed
  | Started =>
      ((s.(device) 0).(timer_done_at) = Some rollover_due /\ s.(fired) 0 = false /\ t = Armed) \/
      ((s.(device) 0).(timer_done_at) = None /\ s.(fired) 0 = true /\ rollover_due <= s.(clock) 0)
  end.

Record facts (b : start_label) (t : timer_label) (x : forward_label) (n : nat) (m : Z)
  (fl : list transfer_label) (s : ring) : Prop := {
  f_regs : forall i, struct_ok renode_timer (s.(device) i);
  f_others : forall i, i <> 0 -> (s.(device) i).(timer_done_at) = None /\
    s.(fired) i = false /\ s.(fifo) i = [];
  f_adapters : forall i, i <> 1 -> s.(adapter) i = [];
  f_start : start_fact b t s;
  (* the stream, up to the method of peripheral 1 *)
  f_read : m <= streamed t <= 100;
  f_forward : forward_fact x n m;
  f_index : (s.(device) 1).(memory_index) <= delivered x m;
  f_fifo : s.(fifo) 0 = seqZ m (streamed t - m);
  f_adapter : s.(adapter) 1 =
    seqZ (s.(device) 1).(memory_index) (delivered x m - (s.(device) 1).(memory_index));
  (* its requests and the transfers to peripheral 2 *)
  f_transfers : transfers_ok renode_timer (s.(device) 1) (s.(device) 2) fl s.(requested);
  f_live : (s.(device) 1).(live_payloads) = (s.(device) 1).(memory_index) - released_count fl;
  f_handler : s.(example_done) = negb s.(irq_enabled);
  f_done : s.(example_done) = true -> irq_level s = true;
}.

Definition labels (b : start_label) (t : timer_label) (x : forward_label) (n : nat) (m : Z)
  (fl : list transfer_label) : list label :=
  Start b :: Timer t :: Unused :: Unused :: Forward x n m :: Unused :: Unused :: (Transfer <$> fl).

Definition Inv (ls : list label) (s : ring) : Prop :=
  exists b t x n m fl, ls = labels b t x n m fl /\ facts b t x n m fl s.

(** What a process with a label waits for. *)
Definition waits (l : label) (w : wait_on event) (s : ring) : Prop :=
  match l with
  | Start Starting =>
      w = Wait_event message \/ (w = Wait_event (elapsed 0 0) /\ s.(clock) 0 = boot_time)
  | Start Started => w = Wait_event message
  | Timer Armed => w = Wait_event (timer_fired 0)
  | Timer (Streaming _) => w = Wait_event (room 0)
  | Timer Drained => False
  | Unused => exists i, i <> 0 /\ (w = Wait_event (timer_fired i) \/ w = Wait_event (data_written i))
  | Forward Resting _ _ => w = Wait_event (data_written 0)
  | Forward Holding _ _ => w = Wait_event message \/ w = Wait_event (adapter_room 1)
  | Forward Replying _ _ => w = Wait_event message
  | Transfer _ => w = Wait_event message \/
      exists i d, (i = 1 \/ i = 2) /\ w = Wait_event (elapsed i d)
  end.
End Invariant.

Definition final (l : label) : Prop :=
  match l with
  | Start Started | Timer Drained | Transfer Released => True
  | _ => False
  end.

(** What one run of a process leaves alone. *)
Definition guar (s s' : ring) : Prop :=
  s'.(clock) = s.(clock) /\ s'.(requested) = s.(requested) /\
  (s'.(device) 1).(memory_index) = (s.(device) 1).(memory_index).

(** ** Lemmas *)

#[export] Instance guar_preorder : PreOrder guar.
Proof.
  split; [by intros s|]. intros s1 s2 s3 (?&?&?) (?&?&?). split_and!; congruence.
Qed.

(** Lookups at known nodes. *)
Ltac simp_node := rewrite ?fn_lookup_insert, ?fn_lookup_insert_ne by (done || lia).

(** At any node. *)
Ltac case_node i j := destruct (decide (i = j)) as [->|]; [rewrite ?fn_lookup_insert|rewrite ?fn_lookup_insert_ne by done].

Section Preservation.
Context {SC : DoubleTimes} (boot_time : Z).
Notation facts := (facts boot_time).
Notation Inv := (Inv boot_time).

(** The clock that a module last saw is its own affair. *)
Lemma facts_now b t x n m fl s i v : facts b t x n m fl s ->
  facts b t x n m fl (set_device i (set_now v (s.(device) i)) s).
Proof.
  intros []. set (s' := set_device _ _ s).
  assert (Hd : forall j, exists v, s'.(device) j = set_now v (s.(device) j)).
  { intros j. cbn [s' set_device device]. case_node j i; [by exists v|].
    exists (now (s.(device) j)). by destruct (device s j). }
  destruct (Hd 0) as (v0 & H0), (Hd 1) as (v1 & H1), (Hd 2) as (v2 & H2).
  split; try done.
  - intros j. destruct (Hd j) as (? & ->). apply f_regs0.
  - intros j Hj. destruct (Hd j) as (? & ->). by apply f_others0.
  - revert f_start0. unfold start_fact. by rewrite H0.
  - by rewrite H1.
  - by rewrite H1.
  - rewrite H1, H2. by eapply (transfers_same _ width_4).
  - by rewrite H1.
  - unfold irq_level, irq_source. rewrite H2. exact f_done0.
Qed.

Lemma Inv_now ls s i u : Inv ls s -> Inv ls (set_device i (set_now u (s.(device) i)) s).
Proof. intros (b & t & x & n & m & fl & -> & Hf). exists b, t, x, n, m, fl. split; [done|]. by apply facts_now. Qed.

Lemma guar_now s i u : guar s (set_device i (set_now u (s.(device) i)) s).
Proof. split_and!; [done|done|]. cbn [set_device device]. by case_node 1 i. Qed.

Lemma publish_now k ls s0 l s i u : publish Inv guar k ls s0 l s ->
  publish Inv guar k ls s0 l (set_device i (set_now u (s.(device) i)) s).
Proof. intros [Hg HI]. split; [etrans; [done|apply guar_now]|by apply Inv_now]. Qed.

(** *** The method of peripheral 1 *)

Definition push_requests (rs : list request) (s : ring) : ring := set_requested (s.(requested) ++ rs) s.

Lemma ring_nb_transport_fw_begin (s : impl * ring) p d : nb_transport_fw 1 s p BEGIN_REQ d =
  Ok ((s.1, push_requests [(1, p, d)] s.2), p, BEGIN_REQ, d, TLM_ACCEPTED).
Proof. by destruct s. Qed.

Lemma push_nil s : push_requests [] s = s.
Proof. destruct s. unfold push_requests. cbn. by rewrite app_nil_r. Qed.
Lemma push_app r r' s : push_requests r' (push_requests r s) = push_requests (r ++ r') s.
Proof. unfold push_requests. cbn. by rewrite app_assoc. Qed.

Lemma ring_receive_facts b t x n m fl s vs rest :
  facts b t x n m fl s -> s.(adapter) 1 = vs ++ rest ->
  exists s', receive 1 vs rest s = Ok s' /\ facts b t x n m fl s' /\ s'.(clock) = s.(clock) /\
    (s'.(device) 1).(memory_index) = (s.(device) 1).(memory_index) + Z.of_nat (length vs) /\
    s'.(irq_enabled) = s.(irq_enabled) /\
    forall i, (s'.(device) i).(timer_done_at) = (s.(device) i).(timer_done_at).
Proof.
  intros Hf Hvs. destruct Hf. rewrite f_adapter0 in Hvs. set (c := (s.(device) 1).(memory_index)) in *.
  apply seqZ_app_inv in Hvs as (Hv1 & Hv2 & Hlen).
  assert (Hdel : delivered x m <= m) by (destruct x; cbn; lia).
  destruct (transfers_receive renode_timer width_4 (nb_transport_fw 1) push_requests ring_nb_transport_fw_begin
    push_nil push_app _ _ _ _ vs (s.(clock) 1) (set_adapter 1 rest s) f_transfers0 (f_regs0 1) Hv1 ltac:(fold c; lia))
    as (y & rs & Hm & Htr & Hst & (I & D & S0 & V & C) & Hx & Hlive & Hk).
  unfold receive, in_node, enter. change (clock (set_adapter 1 _ s)) with (clock s).
  change (device (set_adapter 1 _ s) 1) with (device s 1). rewrite Hm, bind_Ok. fold c in Hx.
  eexists. split; [reflexivity|].
  unfold leave, set_device, push_requests, set_requested, set_adapter. cbn [fst snd clock device fifo adapter fired requested irq_enabled example_done].
  split_and!; cbn [clock device irq_enabled]; simp_node; [|done|done|done|].
  2: { intros i. by case_node i 1. }
  split; cbn [clock device fifo adapter fired requested irq_enabled example_done]; simp_node; rewrite ?Hx; try done.
  - intros i. by case_node i 1.
  - intros i Hi. case_node i 1; [rewrite D|]; by apply f_others0.
  - intros i Hi. simp_node. by apply f_adapters0.
  - lia.
  - rewrite Hv2. f_equal. lia.
  - rewrite Hlive. lia.
Qed.

Lemma adapter_source ls s i vs rest : Inv ls s -> s.(adapter) i = vs ++ rest -> vs <> [] -> i = 1.
Proof.
  intros (b & t & x & n & m & fl & _ & Hf) Hvs Hne. destruct (decide (i = 1)) as [|Hi]; [done|].
  rewrite (f_adapters _ _ _ _ _ _ _ _ Hf i Hi) in Hvs. symmetry in Hvs. by apply app_eq_nil in Hvs as [-> _].
Qed.

(** *** Requests, events, the interrupt and time *)

Lemma ring_serve_facts b t x n m fl s i p d rest :
  facts b t x n m fl s -> s.(requested) = (i, p, d) :: rest ->
  i = 1 /\ p = dma_payload (Z.of_nat (length fl)) (inverted (Z.of_nat (length fl))) /\
  0 <= d <= clock_period /\ Z.of_nat (length fl) < 100 /\
  facts b t x n m (fl ++ [Todo]) (set_requested rest s).
Proof.
  intros [] Hreq. rewrite Hreq in f_transfers0. pose proof (tr_index _ _ _ _ _ f_transfers0).
  destruct (transfers_serve _ _ _ _ _ _ _ _ f_transfers0) as (-> & -> & Hd & Hl & Htr).
  split_and!; [done|done|apply Hd|apply Hd|lia|]. split; try done.
  rewrite released_app. change (released_count [Todo]) with 0. by rewrite Z.add_0_r.
Qed.

Lemma ring_fire_facts b t x n m fl s i d :
  facts b t x n m fl s -> (s.(device) i).(timer_done_at) = Some d -> d <= s.(clock) i ->
  i = 0 /\ facts b t x n m fl (set_fired i (set_device i (set_done_at None (s.(device) i)) s)).
Proof.
  intros [] Hd Hle. destruct (decide (i = 0)) as [->|Hne].
  2: { destruct (f_others0 i Hne) as [H _]. congruence. }
  assert (Hb : b = Started) by (destruct b; [destruct f_start0 as (_ & _ & H & _); congruence|done]). subst b.
  split; [done|]. split; cbn [set_fired set_device clock device fifo adapter fired requested irq_enabled example_done];
    simp_node; try done.
  - intros j. case_node j 0; [apply (f_regs0 0)|done].
  - intros j Hj. simp_node. by apply f_others0.
  - destruct f_start0 as [(Ht & _)|(Ht & _)]; rewrite Hd in Ht; [|done]. injection Ht as ->.
    right. cbn [set_fired set_device device fired clock]. by simp_node.
Qed.

Lemma interrupt_facts b t x n m fl s : facts b t x n m fl s -> irq_level s = true ->
  facts b t x n m fl (interrupt_handler s).
Proof. intros [] Hirq. by split. Qed.

Lemma ring_elapse_facts b t x n m fl s i u : facts b t x n m fl s -> s.(clock) i < u -> (b = Starting -> i <> 0) ->
  facts b t x n m fl (set_clock i u s).
Proof.
  intros [] Hu Hi. split; try done. destruct b.
  - destruct f_start0 as (Hc & H). split; [|exact H].
    specialize (Hi eq_refl). cbn [set_clock clock]. by simp_node.
  - destruct f_start0 as [H|(Ht & Hf & Hle)]; [by left|right]. split_and!; [done|done|].
    cbn [set_clock clock]. destruct (decide (i = 0)) as [->|]; simp_node; [lia|done].
Qed.
End Preservation.

(** *** The initial state *)

Definition garbage_bytes (bytes : Z -> list Z) : Prop := forall i, length (bytes i) = 112%nat.

Lemma ring_new_facts clocks bytes : garbage_bytes bytes ->
  facts (clocks 0) Starting Armed Resting 0 0 [] (new_ring clocks bytes).
Proof.
  intros Hb. pose proof (fun i => new_registers renode_timer width_4 (bytes i) (f_equal Z.of_nat (Hb i))) as Hr.
  split; try done; cbn.
  - intros i. apply (Hr i).
  - by apply transfers_new.
Qed.
