(* ===== verification/RingThreads.v ===== *)
(** * The processes of the ring, verified

    Each process of RingSystem in the logic of Scheduler, against the invariant
    of RingInvariant: the CPU's start write, the timer threads, the methods of
    the FIFO adapters, and the processes that serve the DMA requests. *)

From stdpp Require Import base numbers list functions relations.
From S2P Require Import Prelude Tlm Kernel Scheduler Peripheral Streaming SimpleTargets Firmware RingSystem RingInvariant.
#[local] Open Scope Z_scope.

(** ** Definitions *)

(** What the theorems ask of the surroundings: FIFOs hold something, and no
    method runs out of activations or rounds before the hundred bytes are
    through. *)
Class Surroundings (capacity adapter_capacity : Z) (activations fuel : nat) : Prop := {
  some_capacity : 0 < capacity;
  some_adapter_capacity : 0 < adapter_capacity;
  enough_activations : (100 < activations)%nat;
  enough_fuel : (100 < fuel)%nat;
}.

(** ** Lemmas *)

Section Threads.
Context {SC : DoubleTimes} (capacity adapter_capacity : Z) (boot_time : Z).
Notation Inv := (Inv boot_time).
Notation facts := (facts boot_time).
Notation waits := (waits boot_time).
Notation ready := (ready capacity adapter_capacity).
Notation twp := (twp ready Inv guar waits).
Notation publish := (publish Inv guar).
Notation thread_ok := (thread_ok ready Inv guar waits final).
Notation finished := (finished Inv guar final).

(** A run inside node [i]. *)
Notation twp_in i k ls s0 p Q :=
  (twp k ls s0 (focus_prog (tag i) (enter i) (leave i) p) Q) (only parsing).

Lemma ring_twp_in_step {A B} i (f : impl -> res (impl * B)) (g : B -> proc _ _ A) k ls s0 x s y b Q :
  f x = Ok (y, b) -> twp_in i k ls s0 (g b (y, s)) Q ->
  twp_in i k ls s0 ((on_impl f ≫= g) (x, s)) Q.
Proof. intros Hf HQ. unfold mbind, proc_bind, on_impl, p_step. cbn [fst]. by rewrite Hf. Qed.

(** A message, before or after a call. *)
Lemma twp_message k l ls s0 s (Q : list label -> ring -> unit -> ring -> Prop) :
  publish k ls s0 l s -> waits l (Wait_event message) s ->
  (forall ls1 s1, ls1 !! k = Some l -> Inv ls1 s1 -> Q ls1 s1 tt s1) ->
  twp k ls s0 (p_wait (Wait_event message) s) Q.
Proof. intros Hp Hw HQ. apply (twp_wait _ _ _ _ k l); auto. Qed.

(** A write, up to the moment at which it takes effect. *)
Lemma ring_transport_write k l i id p t ls s0 s Q :
  p.(command) = TLM_WRITE_COMMAND -> p.(byte_enable) = None -> p.(data_length) <= p.(streaming_width) ->
  publish k ls s0 l s -> (forall s', s'.(clock) = s.(clock) -> waits l (Wait_event (elapsed i t)) s') ->
  (forall ls1 s1, ls1 !! k = Some l -> Inv ls1 s1 ->
    twp_in i k ls1 s1 (finish_write renode_timer id (answered p)
      (set_now (t_add (s.(clock) i) t) (s1.(device) i), s1)) Q) ->
  twp k ls s0 (on_node i (b_transport renode_timer id p t) s) Q.
Proof.
  intros Hc Hbe Hsw Hp Hw HQ. unfold on_node, focus. rewrite b_transport_writing by done.
  exists l. split_and!.
  - apply (publish_now boot_time k ls s0 l s i (clock s i)). done.
  - by apply Hw.
  - intros ls1 s1 Hl1 HI1 _. by apply HQ.
Qed.

(** *** The start write *)

Lemma Inv_start ls s b : ls !! 0%nat = Some (Start b) -> Inv ls s -> exists t x n m fl,
  ls = labels b t x n m fl /\ facts b t x n m fl s.
Proof. intros Hl (b' & t & x & n & m & fl & -> & Hf). cbn in Hl. injection Hl as ->. by exists t, x, n, m, fl. Qed.

(** What storing the start command makes of the peripheral. *)
Definition started (u : Z) (x : impl) : impl :=
  set_regs (splice (splice x.(regs) 0 [1]) 0 [0])
    (set_done_at (Some (u + 1000 + 2 ^ 32 * 1000)) (set_start_time (u + 1000) x)).

Lemma ring_start_write u x : 0 <= u < 2 ^ 62 -> struct_ok renode_timer x ->
  x.(start_time_valid) = false -> x.(timer_done_at) = None -> x.(now) = u ->
  write_now renode_timer REGIF_TARGET_INDEX (answered (PeripheralProgram.store_byte 0 1)) x =
    Ok (started u x, (1000, false)).
Proof.
  intros Hu [Hl _] Hv Hd Hn. change (struct_size renode_timer) with 112 in Hl.
  unfold answered. rewrite (write_now_start _ []) by (done || lia). rewrite (start_timer_spec _ _ (u + 1000));
    cbn [set_regs start_time_valid now timer_done_at]; rewrite ?Hv, ?Hn, ?Hd; [done| |lia..].
  unfold t_add. by rewrite wrap_small by lia.
Qed.

Lemma ring_start_facts t x n m fl s v : facts Starting t x n m fl s ->
  facts Started t x n m fl (set_device 0 (started boot_time (set_now v (s.(device) 0))) s).
Proof.
  intros []. destruct (f_regs 0) as [Hl0 Hz0]. change (struct_size renode_timer) with 112 in Hl0.
  split; cbn [set_device clock device fifo adapter fired requested irq_enabled example_done]; simp_node; try done.
  - intros i. case_node i 0; [|done]. unfold struct_ok. cbn [started set_regs regs set_now].
    change (struct_size renode_timer) with 112.
    rewrite splice_length, lookup_splice by (rewrite ?splice_length; cbn; lia).
    rewrite decide_False, decide_True by (cbn; lia). rewrite splice_length by (cbn; lia). done.
  - intros i Hi. simp_node. by apply f_others.
  - destruct f_start as (_ & _ & _ & Hf & ->). left. cbn [set_device device fired]. simp_node.
    by split_and!.
Qed.

Lemma start_thread_ok s : 0 <= boot_time < 2 ^ 62 -> thread_ok 0 (Start Starting) (start_timer_write s).
Proof.
  intros Hb. split; [by left|]. intros ls1 s1 Hl1 HI1 _. apply twp_prog_bind. cbn [prog_bind]. apply twp_bind.
  destruct (Inv_start _ _ _ Hl1 HI1) as (t & x & n & m & fl & _ & Hf).
  destruct (f_start _ _ _ _ _ _ _ _ Hf) as (Hc & _).
  apply (ring_transport_write 0 (Start Starting)); [done|done|done|by apply publish_same| |].
  { intros s' Hs'. right. split; [done|]. by rewrite Hs'. }
  clear t x n m fl Hf. intros ls2 s2 Hl2 HI2.
  destruct (Inv_start _ _ _ Hl2 HI2) as (t & x & n & m & fl & -> & Hf).
  destruct (f_start _ _ _ _ _ _ _ _ Hf) as (_ & Hv & Hd & _).
  unfold finish_write. eapply ring_twp_in_step.
  { apply (ring_start_write boot_time); [done|apply (f_regs _ _ _ _ _ _ _ _ Hf)|done|done|].
    cbn. rewrite Hc. unfold t_add, SC_ZERO_TIME. rewrite Z.add_0_r. apply wrap_small. lia. }
  cbn beta iota. cbn [mret proc_ret focus_prog Scheduler.twp]. apply twp_bind.
  apply (twp_message 0 (Start Started)); [|done|].
  - split; [split_and!; try done; cbn [leave set_device device fst]; by simp_node|].
    exists Started, t, x, n, m, fl. split; [done|]. by apply ring_start_facts.
  - intros ls3 s3 Hl3 HI3. exists (Start Started). split; [|done]. by apply publish_same.
Qed.

(** *** The timer threads *)

Lemma ring_Inv_timer ls s t : ls !! 1%nat = Some (Timer t) -> Inv ls s -> exists b x n m fl,
  ls = labels b t x n m fl /\ facts b t x n m fl s.
Proof. intros Hl (b & t' & x & n & m & fl & -> & Hf). cbn in Hl. injection Hl as ->. by exists b, x, n, m, fl. Qed.

(** Once the timer has fired its thread is free to go on. *)
Lemma start_fact_fired b t t' s : start_fact boot_time b t s -> s.(fired) 0 = true ->
  start_fact boot_time b t' s.
Proof. intros Hb Hf. 
  destruct b; [destruct Hb as (_ & _ & _ & H & _); congruence|]. destruct Hb as [(_ & H & _)|H]; [congruence|by right]. Qed.

Lemma ring_streaming_fired b t x n m fl s : facts b t x n m fl s -> t <> Armed -> s.(fired) 0 = true.
Proof.
  intros Hf Ht. pose proof (f_start _ _ _ _ _ _ _ _ Hf) as Hb.
  destruct b; [by destruct Hb as (_ & _ & _ & _ & ?)|]. by destruct Hb as [(_ & _ & ?)|(_ & ? & _)].
Qed.

(** The timer-done register is set. *)
Lemma ring_start_stream b x n m fl s v : facts b Armed x n m fl s -> s.(fired) 0 = true ->
  facts b (Streaming 0) x n m fl
    (set_device 0 (set_regs (splice (s.(device) 0).(regs) 8 [1]) (set_now v (s.(device) 0))) s).
Proof.
  intros [] Hfired. destruct (f_regs 0) as [Hl0 Hz0]. change (struct_size renode_timer) with 112 in Hl0.
  split; cbn [set_device clock device fifo adapter fired requested irq_enabled example_done]; simp_node; try done.
  - intros i. case_node i 0; [|done]. unfold struct_ok. cbn [set_regs regs set_now].
    rewrite splice_length, lookup_splice by (cbn; lia). by rewrite decide_True by lia.
  - intros i Hi. simp_node. by apply f_others.
  - apply (start_fact_fired _ Armed); [|done]. destruct b; [destruct f_start as (_ & _ & _ & ? & _); congruence|].
    destruct f_start as [(_ & ? & _)|H]; [congruence|]. right. cbn [set_device device fired clock]. by simp_node.
Qed.

(** One more byte is in the FIFO. *)
Lemma ring_stream_byte b x n m k fl s : facts b (Streaming k) x n m fl s -> 0 <= k < 100 ->
  facts b (stream_label (k + 1)) x n m fl (set_fifo 0 (s.(fifo) 0 ++ [k]) s).
Proof.
  intros Hf Hk. pose proof (ring_streaming_fired _ _ _ _ _ _ _ Hf ltac:(done)) as Hfired. destruct Hf.
  cbn [streamed] in f_read, f_fifo.
  split; rewrite ?streamed_label by lia;
    cbn [set_fifo clock device fifo adapter fired requested irq_enabled example_done]; simp_node; try done.
  - intros i Hi. simp_node. by apply f_others.
  - by eapply start_fact_fired.
  - lia.
  - rewrite f_fifo. replace (k + 1 - m) with (k - m + 1) by lia. rewrite seqZ_app by lia. f_equal.
    rewrite Z.add_comm, Z.sub_add. by rewrite seqZ_cons, seqZ_nil by lia.
Qed.

Lemma ring_write_all_ok vs : forall k x s ls s0, vs = seqZ k (100 - k) -> 0 <= k <= 100 ->
  publish 1 ls s0 (Timer (stream_label k)) (leave 0 (x, s)) ->
  twp_in 0 1 ls s0 (write_all (fifo_write 0) vs (x, s)) (finished 1).
Proof.
  induction vs as [|v vs IH]; intros k x s ls s0 Hvs Hk Hp.
  - exists (Timer (stream_label k)). split; [done|].
    assert (100 <= k) by (destruct (Z.le_gt_cases 100 k); [done|by rewrite seqZ_cons in Hvs by lia]).
    unfold stream_label. by replace (k <? 100) with false by lia.
  - assert (Hk' : k < 100) by (destruct (Z.le_gt_cases 100 k); [by rewrite seqZ_nil in Hvs by lia|done]).
    rewrite seqZ_cons in Hvs by lia. injection Hvs as -> ->.
    assert (Hlab : stream_label k = Streaming k) by (unfold stream_label; by replace (k <? 100) with true by lia).
    rewrite Hlab in Hp. exists (Timer (Streaming k)). split_and!; [done|done|].
    intros ls1 s1 Hl1 HI1 _. destruct (ring_Inv_timer _ _ _ Hl1 HI1) as (b & y & n & m & fl & -> & Hf).
    apply (IH (k + 1)); [f_equal; lia|lia|].
    apply (publish_now boot_time _ _ _ _ (set_fifo 0 (s1.(fifo) 0 ++ [k]) s1)). split; [done|].
    exists b, (stream_label (k + 1)), y, n, m, fl. split; [done|]. apply ring_stream_byte; [done|lia].
Qed.

Lemma ring_timer_thread_ok s : thread_ok 1 (Timer Armed) (timer_thread 0 s).
Proof.
  split; [done|]. intros ls1 s1 Hl1 HI1 Hr1. cbn [RingSystem.ready tag] in Hr1.
  destruct (ring_Inv_timer _ _ _ Hl1 HI1) as (b & x & n & m & fl & -> & Hf).
  destruct (f_regs _ _ _ _ _ _ _ _ Hf 0) as [Hl0 Hz0]. change (struct_size renode_timer) with 112 in Hl0.
  change (prog_bind (Ret (enter 0 s1) tt) ?k) with (k tt (enter 0 s1)). cbv beta.
  change (enter 0 s1) with (set_now (clock s1 0) (device s1 0), s1).
  eapply ring_twp_in_step.
  { change (timer_done_offset renode_timer) with 8. cbn [set_now regs].
    rewrite store_Ok, bind_Ok by (cbn; lia). reflexivity. }
  apply (ring_write_all_ok _ 0); [done|lia|].
  split; [split_and!; try done; cbn [leave set_device device fst]; by simp_node|].
  exists b, (Streaming 0), x, n, m, fl. split; [done|]. by apply ring_start_stream.
Qed.

Lemma unused_timer_ok k i s : i <> 0 -> thread_ok k Unused (timer_thread i s).
Proof.
  intros Hi. split; [exists i; by split; [|left]|].
  intros ls1 s1 Hl1 (b & t & x & n & m & fl & -> & Hf) Hr1. cbn [RingSystem.ready tag] in Hr1.
  destruct (f_others _ _ _ _ _ _ _ _ Hf i Hi) as (_ & Hfired & _). congruence.
Qed.

(** *** The adapters *)

Section Adapters.
Context (activations fuel : nat) {HS : Surroundings capacity adapter_capacity activations fuel}.

Lemma Inv_forward ls s x n m : ls !! 4%nat = Some (Forward x n m) -> Inv ls s -> exists b t fl,
  ls = labels b t x n m fl /\ facts b t x n m fl s.
Proof.
  intros Hl (b & t & x' & n' & m' & fl & -> & Hf). cbn in Hl. injection Hl as -> -> ->. by exists b, t, fl.
Qed.

Lemma Inv_relabel_forward b t x x' n n' m m' fl s : facts b t x' n' m' fl s ->
  Inv (<[4%nat := Forward x' n' m']> (labels b t x n m fl)) s.
Proof. intros Hf. by exists b, t, x', n', m', fl. Qed.

(** The next byte is read. *)
Lemma read_facts b t x n m fl s v rest : facts b t x n m fl s -> x <> Holding ->
  s.(fifo) 0 = v :: rest -> v = m /\ facts b t Holding n (m + 1) fl (set_fifo 0 rest s).
Proof.
  intros [] Hx Hv. rewrite f_fifo in Hv.
  assert (Hlt : m < streamed t).
  { destruct (Z.le_gt_cases (streamed t) m); [by rewrite seqZ_nil in Hv by lia|done]. }
  rewrite seqZ_cons in Hv by lia. injection Hv as <- <-. split; [done|].
  assert (Hd : delivered x m = m) by (by destruct x).
  split; cbn [set_fifo clock device fifo adapter fired requested irq_enabled example_done delivered];
    simp_node; rewrite ?Z.add_simpl_r; try done; rewrite ?Hd in *; try done.
  - intros i Hi. simp_node. by apply f_others.
  - lia.
  - unfold forward_fact in *. destruct x; [lia|done|lia].
  - f_equal; lia.
Qed.

(** It is in the next adapter. *)
Lemma deliver_facts b t n m fl s : facts b t Holding n m fl s ->
  facts b t Replying n m fl (set_adapter 1 (s.(adapter) 1 ++ [m - 1]) s).
Proof.
  intros []. cbn [delivered] in *.
  split; cbn [set_adapter clock device fifo adapter fired requested irq_enabled example_done delivered];
    simp_node; try done.
  - intros i Hi. simp_node. by apply f_adapters.
  - lia.
  - rewrite f_adapter. set (c := memory_index (device s 1)) in *.
    replace (m - c) with (m - 1 - c + 1) by lia. rewrite seqZ_app by lia. f_equal.
    replace (c + (m - 1 - c)) with (m - 1) by lia. by rewrite seqZ_cons, seqZ_nil by lia.
Qed.

(** The activation ends. *)
Lemma rest_facts b t n m fl s : facts b t Replying n m fl s -> facts b t Resting (S n) m fl s.
Proof. intros []. split; try done. cbn [forward_fact] in *. lia. Qed.

(** The call that delivers it. *)
Lemma deliver_ok n m ls s0 s (Q : list label -> ring -> payload * sc_time -> ring -> Prop) :
  publish 4 ls s0 (Forward Holding n m) s ->
  (forall ls1 s1 r, ls1 !! 4%nat = Some (Forward Replying n m) -> Inv ls1 s1 -> Q ls1 s1 r s1) ->
  twp 4 ls s0 (link (on_fifo_in (next 0)) (FifoAdapter.byte_payload (m - 1)) SC_ZERO_TIME s) Q.
Proof.
  intros Hp HQ. unfold link. apply twp_bind.
  apply (twp_message 4 (Forward Holding n m)); [done|by left|]. intros ls1 s1 Hl1 HI1.
  apply twp_bind. unfold on_fifo_in. change (next 0) with 1. apply twp_bind.
  apply (twp_lift _ _ _ _ 4 _ (m - 1)).
  { unfold data_word. rewrite (data_read_Ok _ [m - 1]) by (done || cbn; lia). rewrite bind_Ok.
    change (take _ _) with [m - 1]. cbn. f_equal. lia. }
  apply twp_bind. unfold adapter_write. apply twp_bind.
  apply (twp_wait _ _ _ _ 4 (Forward Holding n m)); [by apply publish_same|by right|].
  intros ls2 s2 Hl2 HI2 _. destruct (Inv_forward _ _ _ _ _ Hl2 HI2) as (b & t & fl & -> & Hf).
  cbn [p_modify mret proc_ret Scheduler.twp]. apply twp_bind.
  apply (twp_message 4 (Forward Replying n m)); [|done|].
  - split; [by split_and!|]. apply Inv_relabel_forward. by apply deliver_facts.
  - intros ls3 s3 Hl3 HI3. by apply HQ.
Qed.

Lemma forward_ok n : forall k x m ls s (Q : list label -> ring -> unit -> ring -> Prop),
  x = Resting /\ s.(fifo) 0 <> [] \/ x = Replying ->
  ls !! 4%nat = Some (Forward x n m) -> Inv ls s -> 100 - m < Z.of_nat k ->
  (forall ls1 s1 m1, ls1 !! 4%nat = Some (Forward Replying n m1) -> Inv ls1 s1 -> Q ls1 s1 tt s1) ->
  twp 4 ls s (forward_fifo k 0 s) Q.
Proof.
  induction k as [|k IH]; intros x m ls s Q Hx Hl HI Hk HQ;
    destruct (Inv_forward _ _ _ _ _ Hl HI) as (b & t & fl & -> & Hf);
    pose proof (f_read _ _ _ _ _ _ _ _ Hf); [lia|].
  unfold forward_fifo. cbn [p_loop]. apply twp_bind. apply twp_bind.
  destruct (s.(fifo) 0) as [|v rest] eqn:Hv.
  - destruct Hx as [[_ ?]| ->]; [done|].
    eapply twp_step; [by rewrite Hv|]. by eapply HQ.
  - eapply twp_step; [by rewrite Hv|].
    destruct (read_facts _ _ _ _ _ _ _ _ _ Hf ltac:(by destruct Hx as [[-> _]| ->]) Hv) as [-> Hf'].
    assert (Hp : publish 4 (labels b t x n m fl) s (Forward Holding n (m + 1)) (set_fifo 0 rest s)).
    { split; [by split_and!|]. by apply Inv_relabel_forward. }
    apply twp_bind. rewrite <- (Z.add_simpl_r m 1) at 2.
    apply (deliver_ok n (m + 1)); [done|].
    intros ls1 s1 r Hl1 HI1. cbn [mret proc_ret Scheduler.twp].
    apply (IH Replying (m + 1)); [by right|done|done|lia|done].
Qed.

(** An activation and those that may follow it. *)
Lemma activations_ok k : forall n m ls s, ls !! 4%nat = Some (Forward Resting n m) -> Inv ls s ->
  s.(fifo) 0 <> [] -> 100 <= Z.of_nat n + Z.of_nat k ->
  twp 4 ls s (forward_fifo fuel 0 s) (fun ls s0 _ s =>
    twp 4 ls s0 (p_repeat k (p_wait (Wait_event (data_written 0));; forward_fifo fuel 0) s) (finished 4)).
Proof.
  induction k as [|k IH]; intros n m ls s Hl HI Hne Hk; pose proof enough_fuel as Hfuel;
    destruct (Inv_forward _ _ _ _ _ Hl HI) as (b0 & t0 & fl0 & -> & Hf0);
    pose proof (f_forward _ _ _ _ _ _ _ _ Hf0) as Hn; cbn [forward_fact] in Hn;
    (apply (forward_ok n fuel Resting m); [by left|done|done|lia|]);
    intros ls1 s1 m1 Hl1 HI1; destruct (Inv_forward _ _ _ _ _ Hl1 HI1) as (b & t & fl & -> & Hf);
    pose proof (f_forward _ _ _ _ _ _ _ _ Hf) as Hn1; cbn [forward_fact] in Hn1;
    pose proof (f_read _ _ _ _ _ _ _ _ Hf); [lia|].
  cbn [p_repeat]. apply twp_bind. apply twp_bind.
  apply (twp_wait _ _ _ _ 4 (Forward Resting (S n) m1)); [|done|].
  { split; [reflexivity|]. apply Inv_relabel_forward. by apply rest_facts. }
  intros ls2 s2 Hl2 HI2 Hr2. apply (IH (S n) m1); [done|done|exact Hr2|lia].
Qed.

Lemma adapter_thread_ok s : thread_ok 4 (Forward Resting 0 0) (adapter_method activations fuel 0 s).
Proof.
  pose proof enough_activations as Ha. unfold adapter_method.
  apply Nat.lt_exists_pred in Ha as (k & Ha & Hk). rewrite Ha.
  split; [done|]. intros ls1 s1 Hl1 HI1 Hr1. apply twp_prog_bind. cbn [prog_bind].
  apply (activations_ok k 0 0); [done|done|exact Hr1|lia].
Qed.

Lemma unused_adapter_ok k i s : i <> 0 -> thread_ok k Unused (adapter_method activations fuel i s).
Proof.
  intros Hi. pose proof enough_activations as Ha. unfold adapter_method.
  apply Nat.lt_exists_pred in Ha as (a & Ha & _). rewrite Ha.
  split; [exists i; by split; [|right]|].
  intros ls1 s1 Hl1 (b & t & x & n & m & fl & -> & Hf) Hr1. cbn [RingSystem.ready] in Hr1.
  by destruct (f_others _ _ _ _ _ _ _ _ Hf i Hi) as (_ & _ & Hfifo).
Qed.
End Adapters.

(** *** The processes that serve the requests *)

Lemma ring_Inv_transfer ls s j f : ls !! (7 + j)%nat = Some (Transfer f) -> Inv ls s -> exists b t x n m fl,
  ls = labels b t x n m fl /\ fl !! j = Some f /\ facts b t x n m fl s.
Proof.
  intros Hl (b & t & x & n & m & fl & -> & Hf). change ((Transfer <$> fl) !! j = Some (Transfer f)) in Hl.
  rewrite list_lookup_fmap in Hl. destruct (fl !! j) eqn:Hj; [|done]. injection Hl as ->.
  by exists b, t, x, n, m, fl.
Qed.

(** What a step of a transfer makes of peripheral 2. *)
Lemma sink_publish b t x n m fl j f g s y : facts b t x n m fl s ->
  fl !! j = Some g -> g <> Released -> f <> Released ->
  struct_ok renode_timer y -> y.(timer_done_at) = (s.(device) 2).(timer_done_at) ->
  (irq_level s = true -> y.(irq_signal) = true) ->
  transfers_ok renode_timer (s.(device) 1) y (<[j := f]> fl) s.(requested) ->
  publish (7 + j) (labels b t x n m fl) s (Transfer f) (set_device 2 y s).
Proof.
  intros [] Hj Hg Hne Hy Hd Hirq Htr. split; [split_and!; try done; cbn [set_device device]; by simp_node|].
  exists b, t, x, n, m, (<[j := f]> fl). split; [unfold labels; cbn; by rewrite list_fmap_insert|].
  assert (Hlev : irq_level (set_device 2 y s) = y.(irq_signal)).
  { unfold irq_level, irq_source. cbn [set_device device]. by simp_node. }
  split; cbn [set_device clock device fifo adapter fired requested irq_enabled example_done]; simp_node; try done.
  - intros i. by case_node i 2.
  - intros i Hi. case_node i 2; [rewrite Hd|]; by apply f_others.
  - rewrite (released_insert _ _ g), f_live by done.
    replace (released_count [f]) with 0 by (by destruct f). lia.
  - rewrite Hlev. auto.
Qed.

(** The payload is released. *)
Definition released (s : ring) : ring :=
  set_device 1 (SimpleMM.free (set_now (s.(clock) 1) (s.(device) 1))) s.

Lemma begin_resp_now p t s : begin_resp 1 p t s = Ret (released s) tt.
Proof. unfold begin_resp, p_step, in_node, nb_transport_bw. by rewrite decide_False by done. Qed.

Lemma release_now b t x n m fl j s : facts b t x n m fl s -> fl !! j = Some Served ->
  publish (7 + j) (labels b t x n m fl) s (Transfer Released) (released s).
Proof.
  intros [] Hj. split; [split_and!; try done; cbn [released set_device device]; by simp_node|].
  exists b, t, x, n, m, (<[j := Released]> fl). split; [unfold labels; cbn; by rewrite list_fmap_insert|].
  split; cbn [released set_device clock device fifo adapter fired requested irq_enabled example_done]; simp_node; try done.
  - intros i. case_node i 1; [apply (f_regs 1)|done].
  - intros i Hi. case_node i 1; [apply (f_others 1); lia|by apply f_others].
  - eapply (transfers_same renode_timer width_4); [by apply (transfers_release renode_timer)|done|done].
  - rewrite (released_insert _ _ Served) by done. cbn [SimpleMM.free set_live set_now live_payloads memory_index].
    rewrite f_live. change (released_count [Released]) with 1. lia.
Qed.

Lemma stored_now b t x n m fl j f s u : facts b t x n m fl s -> fl !! j = Some Todo ->
  f <> Todo -> f <> Released ->
  (f = Raising <-> stored_count fl + 1 = 100) ->
  publish (7 + j) (labels b t x n m fl) s (Transfer f)
    (set_device 2 (stored renode_timer j fl (set_now u (s.(device) 2))) s).
Proof.
  intros Hf Hj Hne Hne' Hlast. pose proof (f_transfers _ _ _ _ _ _ _ _ Hf) as Htr.
  eapply sink_publish; try done.
  - apply (stored_struct renode_timer width_4); [apply (f_regs _ _ _ _ _ _ _ _ Hf)|].
    by eapply (transfer_index renode_timer).
  - apply (transfers_store renode_timer width_4); [|apply (f_regs _ _ _ _ _ _ _ _ Hf)|done..].
    by eapply (transfers_same renode_timer width_4).
Qed.

Lemma raised_now b t x n m fl j s u : facts b t x n m fl s -> fl !! j = Some Raising ->
  publish (7 + j) (labels b t x n m fl) s (Transfer Served)
    (set_device 2 (set_irq true (set_now u (s.(device) 2))) s).
Proof.
  intros Hf Hj. eapply sink_publish; try done; [apply (f_regs _ _ _ _ _ _ _ _ Hf)|].
  apply (transfers_raise renode_timer); [|done].
  eapply (transfers_same renode_timer width_4); [apply (f_transfers _ _ _ _ _ _ _ _ Hf)|done|done].
Qed.

(** The way back. *)
Lemma served_ok j (returned : sc_time -> sc_time) (r : payload * sc_time) ls s0 s : publish (7 + j) ls s0 (Transfer Served) s ->
  twp (7 + j) ls s0 ((p_wait (Wait_event message);; mret r) s) (fun ls s0 a s =>
    twp (7 + j) ls s0 ((let '(p, delay) := a in
      p_wait (Wait_event (elapsed 1 (returned delay)));; begin_resp 1 p SC_ZERO_TIME) s)
      (finished (7 + j))).
Proof.
  intros Hp. apply twp_bind. apply (twp_message (7 + j) (Transfer Served)); [done|by left|].
  intros ls1 s1 Hl1 HI1. destruct r as [p delay]. cbn [mret proc_ret Scheduler.twp]. apply twp_bind.
  apply (twp_wait _ _ _ _ (7 + j) (Transfer Served)).
  - by apply publish_same.
  - right. exists 1, (returned delay). split; [by left|done].
  - intros ls2 s2 Hl2 HI2 _. destruct (ring_Inv_transfer _ _ _ _ Hl2 HI2) as (b & t & x & n & m & fl & -> & Hj & Hf).
    rewrite begin_resp_now. exists (Transfer Released). split; [|done]. by apply release_now.
Qed.

Lemma ring_transfer_thread_ok held sent returned j d s :
  thread_ok (7 + j) (Transfer Todo)
    (serve_request held sent returned 1 (dma_payload (Z.of_nat j) (inverted (Z.of_nat j))) d s).
Proof.
  set (p := dma_payload _ _).
  split; [right; exists 1, (held d); split; [by left|done]|].
  intros ls1 s1 Hl1 HI1 _. cbn [prog_bind]. change (next 1) with 2. apply twp_bind. unfold link. apply twp_bind.
  apply (twp_message (7 + j) (Transfer Todo)); [by apply publish_same|by left|].
  intros ls2 s2 Hl2 HI2. apply twp_bind.
  apply (ring_transport_write (7 + j) (Transfer Todo)); [done|done|done|by apply publish_same| |].
  { intros s' _. right. exists 2, (sent d). split; [by right|done]. }
  intros ls3 s3 Hl3 HI3. destruct (ring_Inv_transfer _ _ _ _ Hl3 HI3) as (b & t & x & n & m & fl & -> & Hj & Hf).
  set (u := t_add _ _). unfold finish_write. eapply ring_twp_in_step.
  { eapply (transfer_write_now renode_timer width_4); [|apply (f_regs _ _ _ _ _ _ _ _ Hf)|done].
    eapply (transfers_same renode_timer width_4); [apply (f_transfers _ _ _ _ _ _ _ _ Hf)|done|done]. }
  cbn beta iota. destruct (Z.eqb_spec (stored_count fl + 1) 100) as [Hlast|Hlast].
  - exists (Transfer Raising). split_and!.
    + by apply stored_now.
    + right. exists 2, 1000. split; [by right|done].
    + intros ls4 s4 Hl4 HI4 _. destruct (ring_Inv_transfer _ _ _ _ Hl4 HI4) as (b4 & t4 & x4 & n4 & m4 & fl4 & -> & Hj4 & Hf4).
      cbn [focus_prog mbind proc_bind prog_bind p_modify mret proc_ret Scheduler.twp].
      apply served_ok. by apply raised_now.
  - apply served_ok. by apply stored_now.
Qed.
End Threads.
