(* ===== verification/RingRun.v ===== *)
(** * The runs of the ring that Renode closes

    The steps of RingSystem keep the invariant of RingInvariant, so that nothing
    fails in any run; and every run ends, with the interrupt handled. *)

From stdpp Require Import base numbers list functions relations.
From S2P Require Import Prelude Tlm Kernel Scheduler Peripheral Streaming SimpleTargets Firmware RingSystem RingInvariant RingThreads.
#[local] Open Scope Z_scope.

(** ** Definitions *)

(** Peripheral C's memory, where the CPU sees it, holds all of the inverted
    bytes, with none on its way. *)
Definition memory_complete (s : ring) : Prop :=
  slice (s.(device) irq_source).(regs) (Csr.field 4) memory_size =
    (fun a => Z.lxor a 0xFF) <$> seqZ 0 memory_size /\
  (forall i, s.(fifo) i = [] /\ s.(adapter) i = []) /\ s.(requested) = [].

(** The times for which a process waits at node [i], and the last of them. *)
Definition node_due (i : Z) (p : prog event ring unit) : list Z :=
  match p with
  | Wait (Wait_event (elapsed j d)) s0 _ => if decide (j = i) then [s0.(clock) i + d] else []
  | _ => []
  end.
Definition timer_due (s : ring) (i : Z) : list Z :=
  match (s.(device) i).(timer_done_at) with Some t => [t] | None => [] end.
Definition deadlines (c : config) (i : Z) : list Z :=
  mjoin (node_due i <$> c.(threads)) ++ timer_due c.(shared) i.

Definition latest (ts : list Z) : Z := foldr Z.max 0 ts.

(** What is left to happen at node [i], and altogether, without a process. *)
Definition node_pending (c : config) (i : Z) : nat :=
  length (timer_due c.(shared) i) + Z.to_nat (latest (deadlines c i) - c.(shared).(clock) i).
Definition pending (c : config) : nat :=
  node_pending c 0 + node_pending c 1 + node_pending c 2 + (if c.(shared).(irq_enabled) then 1 else 0).

(** The bytes that the method has not received and those without a transfer. *)
Definition work (c : config) : nat :=
  Z.to_nat (100 - (c.(shared).(device) 1).(memory_index)) + (107 - length c.(threads)).

(** Work is done, or a process continues, or something has happened. *)
Definition nearer (c' c : config) : Prop :=
  (work c' < work c)%nat \/ (work c' = work c /\ closer pending c' c).

Section Runs.
Context {SC : DoubleTimes} (capacity adapter_capacity : Z) (held sent returned : sc_time -> sc_time).
Context (activations fuel : nat) {HS : Surroundings capacity adapter_capacity activations fuel}.
Context (clocks : Z -> Z) (bytes : Z -> list Z).
Notation ready := (ready capacity adapter_capacity).
Notation step := (step capacity adapter_capacity held sent returned).
Notation rstep := (rstep capacity adapter_capacity held sent returned).
Notation Inv := (Inv (clocks 0)).
Notation waits := (waits (clocks 0)).
Notation facts := (facts (clocks 0)).
Notation good := (pool_inv ready Inv guar waits final).
Notation thread_ok := (thread_ok ready Inv guar waits final).
Notation is_ready := (is_ready ready).

(** A run of the three [top]s from their start. *)
Definition reaches (r : res config) : Prop :=
  rtc rstep (Ok (new_tops activations fuel clocks bytes)) r.

(** ** Lemmas *)

Lemma ring_deadline_list c i t : deadline c i t <-> t ∈ deadlines c i.
Proof.
  unfold deadline, deadlines, timer_due. rewrite elem_of_app, list_elem_of_join.
  split; (intros [H|H]; [left|right]).
  - destruct H as (n & d & s0 & k & Hn & ->). exists [clock s0 i + d].
    split; [by apply list_elem_of_singleton|]. apply list_elem_of_fmap. eexists.
    split; [|by eapply list_elem_of_lookup_2]. cbn. by rewrite decide_True.
  - rewrite H. by apply list_elem_of_singleton.
  - destruct H as (l & Ht & Hl). apply list_elem_of_fmap in Hl as (p & -> & Hp).
    destruct p as [| |[|[j d| | | | |]|] s0 k]; cbn in Ht; try by apply elem_of_nil in Ht.
    destruct (decide (j = i)) as [->|]; [|by apply elem_of_nil in Ht].
    apply list_elem_of_singleton in Ht as ->. apply list_elem_of_lookup in Hp as [n Hn]. by exists n, d, s0, k.
  - destruct (timer_done_at _); [by apply list_elem_of_singleton in H as ->|by apply elem_of_nil in H].
Qed.

Lemma latest_ge ts t : t ∈ ts -> t <= latest ts.
Proof. unfold latest. induction 1 as [t l|t u l _ IH]; cbn; lia. Qed.

Lemma latest_app ts ts' : latest ts <= latest (ts ++ ts').
Proof. unfold latest. induction ts; cbn; [induction ts'; cbn; lia|lia]. Qed.

#[local] Instance ready_dec n w s0 s : Decision (ready n w s0 s).
Proof. destruct w as [t|[]|]; cbn; apply _. Defined.

Lemma ring_good_thread ls c n l : good ls c -> ls !! n = Some l ->
  exists p, c.(threads) !! n = Some p /\ thread_ok n l p.
Proof. apply pool_thread. Qed.

(** *** The initial configuration *)

Lemma new_tops_good : 0 <= clocks 0 < 2 ^ 62 -> garbage_bytes bytes ->
  good (labels Starting Armed Resting 0 0 []) (new_tops activations fuel clocks bytes).
Proof.
  intros Hc Hb. split; [|done|].
  - exists Starting, Armed, Resting, 0%nat, 0, []. split; [done|]. by apply ring_new_facts.
  - intros n l p Hl Hp. destruct n as [|[|[|[|[|[|[|n]]]]]]]; cbn in Hl, Hp;
      [injection Hl as <-; injection Hp as <-..|done].
    + by apply start_thread_ok.
    + apply ring_timer_thread_ok.
    + by apply unused_timer_ok.
    + by apply unused_timer_ok.
    + by eapply adapter_thread_ok.
    + by eapply unused_adapter_ok.
    + by eapply unused_adapter_ok.
Qed.

(** *** Steps *)

(** Who waits for time. *)
Lemma waits_elapsed l i d s : waits l (Wait_event (elapsed i d)) s ->
  (l = Start Starting /\ i = 0 /\ d = 0 /\ s.(clock) 0 = clocks 0) \/ (i = 1 \/ i = 2).
Proof.
  destruct l as [[]|[]| |[]|f]; cbn; try done.
  - intros [|[[= -> ->] Hc]]; [done|by left].
  - by intros (j & _ & [|]).
  - by intros [|].
  - intros [|(j & u & Hj & [= -> _])]; [done|by right].
Qed.

(** Time stands still at node 0 until the start write has arrived. *)
Lemma start_deadline t x n m fl c u :
  good (labels Starting t x n m fl) c -> deadline c 0 u -> facts Starting t x n m fl c.(shared) ->
  u <= c.(shared).(clock) 0.
Proof.
  intros Hg Hd Hf. destruct (f_start _ _ _ _ _ _ _ _ Hf) as (Hc & _ & Ht & _). rewrite Hc.
  destruct Hd as [(k & d & s0 & f & Hk & ->)|Hd]; [|congruence].
  destruct (lookup_lt_is_Some_2 (labels Starting t x n m fl) k) as [l Hl].
  { rewrite (pool_length _ _ _ _ _ _ _ Hg). by eapply lookup_lt_Some. }
  destruct (pool_threads _ _ _ _ _ _ _ Hg _ _ _ Hl Hk) as [Hw _].
  apply waits_elapsed in Hw as [(_ & _ & -> & ->)|[]]; lia.
Qed.

Lemma ring_step_good ls c r : good ls c -> step c r -> exists ls' c', r = Ok c' /\ good ls' c'.
Proof.
  intros Hg Hs. destruct (pool_state _ _ _ _ _ _ _ Hg) as (b & t & x & n & m & fl & -> & Hf).
  destruct Hs as [k r Hres|i vs rest Hi Hvs Hne|i p d rest Hreq s'|i d Hi Hd Hle|Hirq Hen|i u Hi Hu Hd Hmin].
  - destruct (pool_inv_resume _ _ _ _ _ _ _ _ _ Hg Hres) as (l & c' & -> & Hg' & _). eauto.
  - pose proof (adapter_source _ _ _ _ _ _ (pool_state _ _ _ _ _ _ _ Hg) Hvs Hne) as ->.
    destruct (ring_receive_facts _ _ _ _ _ _ _ _ _ _ Hf Hvs) as (s' & -> & Hf' & _). rewrite bind_Ok.
    eexists _, _. split; [done|]. eapply pool_inv_kernel; [done|]. by exists b, t, x, n, m, fl.
  - destruct (ring_serve_facts _ _ _ _ _ _ _ _ _ _ _ _ Hf Hreq) as (-> & -> & _ & _ & Hf').
    eexists (_ ++ [Transfer Todo]), _. split; [done|]. apply pool_inv_spawn; [done| |].
    + exists b, t, x, n, m, (fl ++ [Todo]). split; [unfold labels; by rewrite fmap_app|done].
    + replace (length _) with (7 + length fl)%nat by (cbn; by rewrite length_fmap).
      apply ring_transfer_thread_ok.
  - destruct (ring_fire_facts _ _ _ _ _ _ _ _ _ _ Hf Hd Hle) as (-> & Hf').
    eexists _, _. split; [done|]. eapply pool_inv_kernel; [done|]. by exists b, t, x, n, m, fl.
  - eexists _, _. split; [done|]. eapply pool_inv_kernel; [done|]. exists b, t, x, n, m, fl.
    split; [done|]. by apply interrupt_facts.
  - eexists _, _. split; [done|]. eapply pool_inv_kernel; [done|]. exists b, t, x, n, m, fl.
    split; [done|]. apply ring_elapse_facts; [done|done|]. intros -> ->.
    pose proof (start_deadline _ _ _ _ _ _ _ Hg Hd Hf). lia.
Qed.

(** *** Progress *)

(** Where no step is possible, no process may run and nothing is due. *)
Lemma ring_stuck_idle c : (forall r, ~ step c r) -> forall n, ~ is_ready c n.
Proof. intros Hs n (w & s0 & k & Hn & Hr). eapply Hs, step_resume. by econstructor. Qed.

Lemma stuck_nothing_due c i t : (forall r, ~ step c r) -> 0 <= i < num_nodes -> ~ deadline c i t.
Proof.
  intros Hs Hi Ht%ring_deadline_list. destruct (list_minimum _ _ Ht) as (u & Hu%ring_deadline_list & Hmin).
  assert (Hall : forall t', deadline c i t' -> u <= t') by (intros t' Ht'%ring_deadline_list; by apply Hmin).
  destruct (Z.le_gt_cases u (c.(shared).(clock) i)) as [Hle|Hlt].
  - destruct Hu as [(n & d & s0 & k & Hn & ->)|Hu].
    + apply (ring_stuck_idle c Hs n). exists (Wait_event (elapsed i d)), s0, k. split; [done|exact Hle].
    + eapply Hs. by eapply step_fire.
  - eapply Hs, (step_elapse _ _ _ _ _ c i u); [done|lia|done|done].
Qed.

(** A process that is not done waits for something that has not happened. *)
Lemma ring_stuck_waits ls c n l : good ls c -> (forall r, ~ step c r) -> ls !! n = Some l -> ~ final l ->
  exists w s0, waits l w s0 /\ ~ ready n w s0 c.(shared) /\
    forall i d, 0 <= i < num_nodes -> w <> Wait_event (elapsed i d).
Proof.
  intros Hg Hs Hl Hfin. destruct (ring_good_thread _ _ _ _ Hg Hl) as (p & Hp & Hok).
  destruct p as [| |w s0 k]; [done|done|]. destruct Hok as [Hw _]. exists w, s0. split_and!; [done| |].
  - intros Hr. eapply (ring_stuck_idle c Hs n). by exists w, s0, k.
  - intros i d Hi ->. eapply (stuck_nothing_due c i (s0.(clock) i + d) Hs Hi). left. by exists n, d, s0, k.
Qed.

Lemma ring_stuck_done ls c : good ls c -> (forall r, ~ step c r) ->
  irq_level c.(shared) = true /\ c.(shared).(example_done) = true /\
  (c.(shared).(device) 1).(live_payloads) = 0.
Proof.
  intros Hg Hs. destruct (pool_state _ _ _ _ _ _ _ Hg) as (b & t & x & n & m & fl & -> & Hf).
  pose proof (ring_stuck_waits _ _ 0 _ Hg Hs eq_refl) as Hstart.
  pose proof (ring_stuck_waits _ _ 1 _ Hg Hs eq_refl) as Htimer.
  pose proof (ring_stuck_waits _ _ 4 _ Hg Hs eq_refl) as Hforward.
  pose proof Hf as [_ _ _ Hb Hread _ Hidx Hfifo Hadapter Htr Hlive Hhandler _].
  assert (Ha : c.(shared).(adapter) 1 = []).
  { destruct (adapter (shared c) 1) as [|v vs] eqn:Hv; [done|]. exfalso. eapply Hs.
    apply (step_receive _ _ _ _ _ c 1 (v :: vs) []); [done|by rewrite app_nil_r|done]. }
  assert (Hq : c.(shared).(requested) = []).
  { destruct (requested (shared c)) as [|[[i p] d] rest] eqn:Hv; [done|]. exfalso. eapply Hs. by eapply step_serve. }
  (* the start write has been made and the timer has fired *)
  assert (Hfired : c.(shared).(fired) 0 = true).
  { destruct b.
    - destruct Hstart as (w & s0 & [->|[-> _]] & Hr & Hd); [by intros []|by destruct Hr|].
      exfalso. by apply (Hd 0 0).
    - destruct Hb as [(Hd & _)|(_ & ? & _)]; [|done].
      exfalso. eapply (stuck_nothing_due c 0 _ Hs); [done|by right]. }
  (* the adapter has read all there is *)
  pose proof some_adapter_capacity as Hcap. pose proof some_capacity as Hcap0.
  assert (Hrest : x = Resting /\ c.(shared).(fifo) 0 = []).
  { destruct Hforward as (w & s0 & Hw & Hr & _); [by intros []|]. destruct x.
    - split; [done|]. rewrite Hw in Hr. cbn in Hr. by destruct (fifo (shared c) 0); [|exfalso; apply Hr].
    - destruct Hw as [-> | ->]; cbn in Hr; [done|]. rewrite Ha in Hr. cbn in Hr. lia.
    - by rewrite Hw in Hr. }
  destruct Hrest as [-> Hff]. cbn [delivered] in *.
  assert (Ht : t = Drained).
  { destruct t as [|k|]; [| |done]; destruct Htimer as (w & s0 & -> & Hr & _); try by intros [].
    - by destruct Hr.
    - cbn in Hr. rewrite Hff in Hr. cbn in Hr. lia. }
  subst t. cbn [streamed] in *.
  apply (f_equal length) in Hfifo. rewrite Hff, length_seqZ in Hfifo. cbn [length] in Hfifo.
  apply (f_equal length) in Hadapter. rewrite Ha, length_seqZ in Hadapter. cbn [length] in Hadapter.
  pose proof (tr_requested _ _ _ _ _ Htr) as Hrq. rewrite Hq in Hrq. apply (f_equal length) in Hrq.
  rewrite !length_fmap, length_seqZ in Hrq. cbn in Hrq. pose proof (tr_served _ _ _ _ _ Htr).
  (* so all transfers have begun, and ended *)
  assert (Hall : Forall (fun f => f = Released) fl).
  { apply Forall_lookup_2. intros j f Hj.
    assert (Hl : labels b Drained Resting n m fl !! (7 + j)%nat = Some (Transfer f)).
    { change ((Transfer <$> fl) !! j = Some (Transfer f)). by rewrite list_lookup_fmap, Hj. }
    destruct (decide (f = Released)) as [|Hne]; [done|].
    destruct (ring_stuck_waits _ _ _ _ Hg Hs Hl) as (w & s0 & [->|(i & d & Hi & ->)] & Hr & Hd);
      [by intros Hfin; destruct f|by destruct Hr|]. exfalso. eapply Hd; [|done]. unfold num_nodes. lia. }
  assert (Hirq : irq_level c.(shared) = true).
  { apply (transfers_done renode_timer _ _ _ _ Htr); [lia|]. eapply Forall_impl; [exact Hall|]. by intros f ->. }
  split; [done|]. split; [|rewrite Hlive, all_released by done; lia].
  rewrite Hhandler. destruct (irq_enabled (shared c)) eqn:Hen; [|done].
  exfalso. eapply Hs. by apply step_interrupt.
Qed.

(** *** Termination *)

Lemma ring_nearer_wf : well_founded nearer.
Proof. apply measured_wf, closer_wf. Qed.

Lemma node_pending_same (c c' : config) i : c'.(threads) = c.(threads) ->
  (c'.(shared).(device) i).(timer_done_at) = (c.(shared).(device) i).(timer_done_at) ->
  c'.(shared).(clock) i = c.(shared).(clock) i -> node_pending c' i = node_pending c i.
Proof. intros Ht Hd Hc. unfold node_pending, deadlines, timer_due. by rewrite Ht, Hd, Hc. Qed.

Lemma ring_step_nearer ls c c' : good ls c -> step c (Ok c') -> nearer c' c.
Proof.
  intros Hg Hs. pose proof (pool_length _ _ _ _ _ _ _ Hg) as Hlen.
  destruct (pool_state _ _ _ _ _ _ _ Hg) as (b & t & x & n & m & fl & -> & Hf).
  pose proof (tr_index _ _ _ _ _ (f_transfers _ _ _ _ _ _ _ _ Hf)).
  cbn [labels length] in Hlen. rewrite length_fmap in Hlen.
  remember (Ok c') as r eqn:Hr.
  destruct Hs as [k r Hres|i vs rest Hi Hvs Hne|i p d rest Hreq s'|i d Hi Hd Hle|Hirq Hen|i u Hi Hu Hd Hmin].
  - subst r. destruct (pool_inv_resume _ _ _ _ _ _ _ _ _ Hg Hres) as (l & c1 & [= <-] & _ & (_ & _ & Hidx) & Hl).
    right. split; [unfold work; by rewrite Hidx, Hl|left]. by eapply resume_continues.
  - left. pose proof (adapter_source _ _ _ _ _ _ (pool_state _ _ _ _ _ _ _ Hg) Hvs Hne) as ->.
    destruct (ring_receive_facts _ _ _ _ _ _ _ _ _ _ Hf Hvs) as (s' & Hrec & Hf' & _ & Hidx & _).
    rewrite Hrec, bind_Ok in Hr. injection Hr as <-. unfold work. cbn [shared threads].
    pose proof (tr_index _ _ _ _ _ (f_transfers _ _ _ _ _ _ _ _ Hf')).
    assert (0 < length vs)%nat by (destruct vs; [done|cbn; lia]). lia.
  - left. destruct (ring_serve_facts _ _ _ _ _ _ _ _ _ _ _ _ Hf Hreq) as (_ & _ & _ & Hl & _).
    injection Hr as <-. unfold work. cbn [shared threads s' set_requested device]. rewrite length_app. cbn [length]. lia.
  - right. destruct (ring_fire_facts _ _ _ _ _ _ _ _ _ _ Hf Hd Hle) as (-> & _). injection Hr as <-.
    split; [reflexivity|]. right. split; [done|]. unfold pending.
    rewrite (node_pending_same c _ 1), (node_pending_same c _ 2) by done.
    assert (Hlt : (node_pending (mk_pool (set_fired 0 (set_device 0 (set_done_at None (device (shared c) 0)) (shared c))) (threads c)) 0
      < node_pending c 0)%nat); [|cbn [shared set_fired set_device irq_enabled]; lia].
    unfold node_pending, deadlines, timer_due. cbn [shared threads set_fired set_device device clock].
    rewrite fn_lookup_insert, Hd. cbn [set_done_at timer_done_at length].
    pose proof (latest_app (mjoin (node_due 0 <$> threads c)) [d]). rewrite app_nil_r. lia.
  - right. injection Hr as <-. split; [reflexivity|]. right. split; [done|]. unfold pending.
    rewrite (node_pending_same c _ 0), (node_pending_same c _ 1), (node_pending_same c _ 2) by done.
    rewrite Hen. cbn [shared interrupt_handler irq_enabled]. lia.
  - right. injection Hr as <-. split; [reflexivity|]. right. split; [done|].
    set (c' := mk_pool _ _).
    assert (Hother : forall j, j <> i -> node_pending c' j = node_pending c j).
    { intros j Hj. apply node_pending_same; [done|done|]. cbn. by rewrite fn_lookup_insert_ne. }
    assert (Hthis : (node_pending c' i < node_pending c i)%nat).
    { unfold node_pending. change (deadlines c' i) with (deadlines c i).
      change (timer_due (shared c') i) with (timer_due (shared c) i).
      cbn [c' shared set_clock clock]. rewrite fn_lookup_insert.
      apply ring_deadline_list, latest_ge in Hd. lia. }
    unfold pending. change (irq_enabled (shared c')) with (irq_enabled (shared c)).
    unfold num_nodes in Hi. assert (i = 0 \/ i = 1 \/ i = 2) as [-> | [-> | ->]] by lia;
      rewrite ?(Hother 0), ?(Hother 1), ?(Hother 2) by done; lia.
Qed.

Lemma ring_good_terminates ls c : good ls c -> sn rstep (Ok c).
Proof.
  revert ls. induction (ring_nearer_wf c) as [c _ IH]. intros ls Hg. constructor.
  intros r (c0 & [= <-] & Hs). destruct (ring_step_good _ _ _ Hg Hs) as (ls' & c' & -> & Hg').
  eapply IH; [by eapply ring_step_nearer|done].
Qed.

Lemma ring_reachable_good r : 0 <= clocks 0 < 2 ^ 62 -> garbage_bytes bytes -> reaches r ->
  exists c, r = Ok c /\ exists ls, good ls c.
Proof.
  intros Hc Hb. apply steps_keep.
  - intros c r' (ls & Hg) Hs. destruct (ring_step_good _ _ _ Hg Hs) as (ls' & c' & -> & Hg'). eauto.
  - eexists. split; [done|]. eexists. by apply new_tops_good.
Qed.

Lemma level_complete b t x n m fl s : facts b t x n m fl s -> irq_level s = true -> memory_complete s.
Proof.
  intros Hf Hirq. destruct (transfers_complete renode_timer width_4 _ _ _ _
    (f_transfers _ _ _ _ _ _ _ _ Hf) (f_regs _ _ _ _ _ _ _ _ Hf 2) Hirq) as (Hm & Hi & _ & Hq).
  pose proof (f_read _ _ _ _ _ _ _ _ Hf). pose proof (f_index _ _ _ _ _ _ _ _ Hf) as Hidx. rewrite Hi in Hidx.
  assert (Hd : delivered x m <= m) by (destruct x; cbn; lia).
  split_and!; [exact Hm| |done]. intros i. split.
  - destruct (decide (i = 0)) as [->|Hne]; [|by apply (f_others _ _ _ _ _ _ _ _ Hf)].
    rewrite (f_fifo _ _ _ _ _ _ _ _ Hf). apply seqZ_nil. lia.
  - destruct (decide (i = 1)) as [->|Hne]; [|by apply (f_adapters _ _ _ _ _ _ _ _ Hf)].
    rewrite (f_adapter _ _ _ _ _ _ _ _ Hf), Hi. apply seqZ_nil. lia.
Qed.

(** Before the rollover the stream has not begun. *)
Lemma ring_before_rollover b t x n m fl s : facts b t x n m fl s -> s.(clock) 0 < rollover_due (clocks 0) ->
  t = Armed.
Proof.
  intros Hf Hlt. pose proof (f_start _ _ _ _ _ _ _ _ Hf) as Hb.
  destruct b; [by destruct Hb as (_ & _ & _ & _ & ?)|]. destruct Hb as [(_ & _ & ?)|(_ & _ & ?)]; [done|lia].
Qed.

(** ** Properties *)

(** C3: no run of the three peripherals that Renode joins fails, whatever the
    order and the latency of its messages and however the clocks of the three
    processes drift: no assertion fails, nothing undefined is executed and no
    method is left unfinished.  The interrupt handler runs only when the
    interrupt of peripheral C is high; that is so only when its memory, as the
    CPU sees it, holds all of the inverted bytes, with nothing left in a FIFO, an
    adapter or a request; and nothing reaches peripheral B before the timer of
    peripheral A has rolled over. *)
Theorem ring_safe r :
  0 <= clocks 0 < 2 ^ 62 -> garbage_bytes bytes -> reaches r ->
  exists c, r = Ok c /\
    (c.(shared).(example_done) = true -> irq_level c.(shared) = true) /\
    (irq_level c.(shared) = true -> memory_complete c.(shared)) /\
    (c.(shared).(clock) 0 < rollover_due (clocks 0) ->
       c.(shared).(adapter) 1 = [] /\ (c.(shared).(device) 1).(memory_index) = 0).
Proof.
  intros Hc Hb Hr. destruct (ring_reachable_good _ Hc Hb Hr) as (c & -> & ls & Hg). exists c. split; [done|].
  destruct (pool_state _ _ _ _ _ _ _ Hg) as (b & t & x & n & m & fl & _ & Hf).
  split_and!; [apply (f_done _ _ _ _ _ _ _ _ Hf)|by eapply level_complete|].
  intros Hlt. rewrite (ring_before_rollover _ _ _ _ _ _ _ Hf Hlt) in Hf.
  pose proof (f_read _ _ _ _ _ _ _ _ Hf) as Hread. pose proof (f_index _ _ _ _ _ _ _ _ Hf).
  pose proof (tr_index _ _ _ _ _ (f_transfers _ _ _ _ _ _ _ _ Hf)). cbn [streamed] in Hread.
  assert (Hd : delivered x m <= m) by (destruct x; cbn; lia). split; [|lia].
  rewrite (f_adapter _ _ _ _ _ _ _ _ Hf). apply seqZ_nil. lia.
Qed.

(** C4: every run of the three peripherals that Renode joins ends: there is no
    infinite sequence of steps, and where no further step is possible the
    interrupt handler has run and set [example_done], the memory of peripheral C
    is complete, peripheral B has released every payload it allocated, and no
    timer notification is pending. *)
Theorem ring_ends :
  0 <= clocks 0 < 2 ^ 62 -> garbage_bytes bytes ->
  sn rstep (Ok (new_tops activations fuel clocks bytes)) /\
  forall r, reaches r -> nf rstep r ->
    exists c, r = Ok c /\ c.(shared).(example_done) = true /\ memory_complete c.(shared) /\
      (c.(shared).(device) 1).(live_payloads) = 0 /\
      forall i, 0 <= i < num_nodes -> (c.(shared).(device) i).(timer_done_at) = None.
Proof.
  intros Hc Hb. split; [by eapply ring_good_terminates, new_tops_good|].
  intros r Hr Hnf. destruct (ring_reachable_good _ Hc Hb Hr) as (c & -> & ls & Hg). exists c. split; [done|].
  pose proof (steps_stuck _ _ Hnf) as Hs. destruct (ring_stuck_done _ _ Hg Hs) as (Hirq & Hdone & Hlive).
  destruct (pool_state _ _ _ _ _ _ _ Hg) as (b & t & x & n & m & fl & _ & Hf).
  split_and!; [done|by eapply level_complete|done|]. intros i Hi.
  destruct (timer_done_at (device (shared c) i)) as [d|] eqn:Hd; [|done].
  exfalso. eapply (stuck_nothing_due c i d Hs Hi). by right.
Qed.
End Runs.

(** *** Instances: FIFOs of 16 bytes, delays that the target gets, clocks that
    start apart. *)
#[export] Instance ring_surroundings : Surroundings 16 16 101 101.
Proof. split; lia. Qed.

Definition ring_clocks (i : Z) : Z := i * 5000000.
Definition ring_bytes (i : Z) : list Z := replicate 112 0x55.

Lemma ring_safe_witness : let c0 := new_tops 101 101 ring_clocks ring_bytes in
  exists c, Ok c0 = Ok c /\
    (c.(shared).(example_done) = true -> irq_level c.(shared) = true) /\
    (irq_level c.(shared) = true -> memory_complete c.(shared)) /\
    (c.(shared).(clock) 0 < rollover_due (ring_clocks 0) ->
       c.(shared).(adapter) 1 = [] /\ (c.(shared).(device) 1).(memory_index) = 0).
Proof.
  apply (ring_safe 16 16 (fun _ => 0) (fun t => t) (fun t => t) 101 101 ring_clocks ring_bytes).
  - by vm_compute.
  - by intros i.
  - apply rtc_refl.
Defined.

Lemma ring_ends_witness :
  sn (rstep 16 16 (fun _ => 0) (fun t => t) (fun t => t)) (Ok (new_tops 101 101 ring_clocks ring_bytes)) /\
  forall r, reaches 16 16 (fun _ => 0) (fun t => t) (fun t => t) 101 101 ring_clocks ring_bytes r ->
    nf (rstep 16 16 (fun _ => 0) (fun t => t) (fun t => t)) r ->
    exists c, r = Ok c /\ c.(shared).(example_done) = true /\ memory_complete c.(shared) /\
      (c.(shared).(device) 1).(live_payloads) = 0 /\
      forall i, 0 <= i < num_nodes -> (c.(shared).(device) i).(timer_done_at) = None.
Proof.
  apply (ring_ends 16 16 (fun _ => 0) (fun t => t) (fun t => t) 101 101 ring_clocks ring_bytes).
  - by vm_compute.
  - by intros i.
Defined.
