(* ===== verification/DmiTest.v ===== *)
(** * Direct memory access to Renode's memory (examples/dmi)

    A thread that writes a word over the bus and reads it through a DMI pointer,
    then writes through the pointer and reads over the bus.  The memory behind
    the socket and the host memory behind the pointer are one: an interface
    ([CoherentMemory]) states that, and the test is proved to pass against it. *)

From S2P Require Import Prelude Tlm Kernel.
From stdpp Require Import base numbers list.
#[local] Open Scope Z_scope.

(** ** Definitions *)

Inductive event : Type := test_begin_posedge.

Definition reset_payload : payload :=
  mk_payload TLM_IGNORE_COMMAND 0 None 1 1 None 0 false TLM_INCOMPLETE_RESPONSE.

(** A transfer of one word through a local variable. *)
Definition word_payload (c : tlm_command) (a word : Z) : payload :=
  set_streaming_width 4 (set_data_length 4 (set_data (Some (le_encode 4 word))
    (set_address a (set_command c reset_payload)))).

Section Sequence.
Context {W : Type}.
Context (bus_b_transport : payload -> sc_time -> proc event W (payload * sc_time)).
Context (get_direct_mem_ptr : W -> payload -> tlm_dmi -> res (W * tlm_dmi * bool)).
(** Host memory: a block of bytes at an offset from a pointer. *)
Context (host_load : W -> Z -> Z -> Z -> res (list Z)).
Context (host_store : W -> Z -> Z -> list Z -> res W).
Context (invalidate_translation_blocks : Z -> Z -> W -> W).
(** What happens when a test begins and when it has passed: nothing and
    [test_done.write(true)] here, two callbacks in the native variant. *)
Context (on_begin on_done : W -> W).

Definition acquire_dmi (p : payload) (dmi_data : tlm_dmi) : proc event W tlm_dmi :=
  '(dmi_data, dmi_ptr_valid) ← p_step (fun w =>
    '(w, d, ok) ← get_direct_mem_ptr w p dmi_data; Ok (w, (d, ok)));
  p_lift (cassert dmi_ptr_valid);;
  mret dmi_data.

(** The first half: the response status is the write's, the word read through
    the pointer is compared. *)
Definition first_test (test_address write_data_word : Z) (dmi_data : tlm_dmi) :
  proc event W (payload * sc_time * tlm_dmi) :=
  '(payload, delay) ← bus_b_transport (word_payload TLM_WRITE_COMMAND test_address write_data_word)
    SC_ZERO_TIME;
  p_lift (cassert (is_response_ok payload));;
  p_lift (cassert payload.(dmi_allowed));;
  dmi_data ← acquire_dmi payload dmi_data;
  w ← p_get;
  bs ← p_lift (host_load w dmi_data.(dmi_ptr) (u64 (test_address - dmi_data.(start_address))) 4);
  p_lift (cassert (le_decode bs =? write_data_word));;
  mret (payload, delay, dmi_data).

(** The second half. *)
Definition second_test (test_address write_data_word : Z) (p : payload) (delay : sc_time)
  (dmi_data : tlm_dmi) (read_data_word : Z) : proc event W unit :=
  dmi_data ← acquire_dmi (set_address test_address p) dmi_data;
  p_step (fun w =>
    w ← host_store w dmi_data.(dmi_ptr) (u64 (test_address - dmi_data.(start_address)))
      (le_encode 4 write_data_word); Ok (w, tt));;
  p_modify (invalidate_translation_blocks test_address (u64 (test_address + 4)));;
  '(payload, _) ← bus_b_transport (word_payload TLM_READ_COMMAND test_address read_data_word) delay;
  p_lift (cassert (is_response_ok payload));;
  w ← p_lift (data_word 4 payload);
  p_lift (cassert (w =? write_data_word));;
  p_modify on_done.

(** One iteration of [while (true)] in [dmi_test_sequence]; [dmi_data] is the
    descriptor left by the previous iteration. *)
Definition dmi_test_body (dmi_data : tlm_dmi) : proc event W unit :=
  p_wait (Wait_event test_begin_posedge);;
  p_modify on_begin;;
  '(payload, delay, dmi_data) ← first_test 0x20001230 0xb1e55ed dmi_data;
  second_test 0x20002468 0xc0ffee payload delay dmi_data 0xb1e55ed.
End Sequence.

(** *** The interface to the memory: [view] is what it holds, [R] what the rest
    of the simulation does while the test is suspended, [frame] what the
    operations of the memory leave alone. *)
Section Coherent.
Context {W : Type} (view : W -> Z -> Z) (R frame : W -> W -> Prop).
Context (bus_b_transport : payload -> sc_time -> proc event W (payload * sc_time)).
Context (get_direct_mem_ptr : W -> payload -> tlm_dmi -> res (W * tlm_dmi * bool)).
Context (host_load : W -> Z -> Z -> Z -> res (list Z)).
Context (host_store : W -> Z -> Z -> list Z -> res W).
Context (invalidate : Z -> Z -> W -> W).

(** A word of the memory. *)
Definition word_at (w : W) (a : Z) : Z :=
  le_decode ((view w) <$> seqZ a 4).

Definition word_written (w w' : W) (a word : Z) : Prop :=
  forall b, view w' b =
    if (a <=? b) && (b <? a + 4) then default 0 (le_encode 4 word !! Z.to_nat (b - a)) else view w b.

Class CoherentMemory (valid : Z -> Prop) : Prop := {
  coh_stable : forall w w', R w w' -> forall a, view w' a = view w a;
  coh_frame : PreOrder frame;
  coh_write : forall a x t w (Q : payload * sc_time -> W -> Prop), valid a ->
    (forall w' t', word_written w w' a x -> frame w w' ->
      Q (set_response_status TLM_OK_RESPONSE (set_dmi_allowed true
        (word_payload TLM_WRITE_COMMAND a x)), t') w') ->
    wp R (fun _ _ => True) (bus_b_transport (word_payload TLM_WRITE_COMMAND a x) t w) Q;
  coh_read : forall a x t w (Q : payload * sc_time -> W -> Prop), valid a ->
    (forall w' t', (forall b, view w' b = view w b) -> frame w w' ->
      Q (set_response_status TLM_OK_RESPONSE (set_dmi_allowed true
        (word_payload TLM_READ_COMMAND a (word_at w a))), t') w') ->
    wp R (fun _ _ => True) (bus_b_transport (word_payload TLM_READ_COMMAND a x) t w) Q;
  coh_dmi : forall w p d, valid p.(address) ->
    exists w' d', get_direct_mem_ptr w p d = Ok (w', d', true) /\
      (forall b, view w' b = view w b) /\ frame w w' /\
      0 <= d'.(start_address) <= p.(address) /\ p.(address) < 2 ^ 64 /\
      (host_load w' d'.(dmi_ptr) (p.(address) - d'.(start_address)) 4 =
         Ok (view w' <$> seqZ p.(address) 4)) /\
      (forall word, exists w'', host_store w' d'.(dmi_ptr) (p.(address) - d'.(start_address))
         (le_encode 4 word) = Ok w'' /\ word_written w' w'' p.(address) word /\ frame w' w'');
  coh_invalidate : forall lo hi w b, view (invalidate lo hi w) b = view w b;
  coh_invalidate_frame : forall lo hi w, frame w (invalidate lo hi w);
}.
End Coherent.

(** ** Lemmas *)

Lemma word_written_bytes {W} (view : W -> Z -> Z) w w' a x :
  word_written view w w' a x -> view w' <$> seqZ a 4 = le_encode 4 x.
Proof.
  intros Hw. apply list_eq. intros i. rewrite list_lookup_fmap.
  destruct (decide (Z.of_nat i < 4)).
  - rewrite lookup_seqZ_lt by lia. cbn [fmap option_fmap option_map]. rewrite Hw.
    destruct (Z.leb_spec a (a + Z.of_nat i)), (Z.ltb_spec (a + Z.of_nat i) (a + 4)); try lia.
    cbn [andb]. replace (Z.to_nat (a + Z.of_nat i - a)) with i by lia.
    destruct (lookup_lt_is_Some_2 (le_encode 4 x) i) as [b ->]; [rewrite le_encode_length; lia|done].
  - rewrite lookup_seqZ_ge by lia. symmetry. apply lookup_ge_None_2. rewrite le_encode_length. lia.
Qed.

Lemma word_written_word_at {W} (view : W -> Z -> Z) w w' a x :
  word_written view w w' a x -> 0 <= x < 2 ^ 32 -> word_at view w' a = x.
Proof.
  intros Hw Hx. unfold word_at. rewrite (word_written_bytes view w w' a x) by done.
  rewrite le_decode_encode. by apply Z.mod_small.
Qed.

Lemma word_at_ext {W} (view : W -> Z -> Z) w w' a :
  (forall b, a <= b < a + 4 -> view w' b = view w b) -> word_at view w' a = word_at view w a.
Proof.
  intros Hv. unfold word_at. f_equal. apply list_fmap_ext. intros i b Hb.
  apply lookup_seqZ in Hb as [-> Hi]. apply Hv. lia.
Qed.

Section Test.
Context {W : Type} (view : W -> Z -> Z) (R frame : W -> W -> Prop).
Context (bus : payload -> sc_time -> proc event W (payload * sc_time)).
Context (get_ptr : W -> payload -> tlm_dmi -> res (W * tlm_dmi * bool)).
Context (host_load : W -> Z -> Z -> Z -> res (list Z)).
Context (host_store : W -> Z -> Z -> list Z -> res W) (invalidate : Z -> Z -> W -> W).
Context (valid : Z -> Prop).
Context `{HC : !CoherentMemory view R frame bus get_ptr host_load host_store invalidate valid}.

Lemma first_test_passes a x d w (Q : payload * sc_time * tlm_dmi -> W -> Prop) :
  valid a -> 0 <= x < 2 ^ 32 ->
  (forall p t d' w', word_written view w w' a x -> frame w w' -> Q (p, t, d') w') ->
  wp R (fun _ _ => True) (first_test bus get_ptr host_load a x d w) Q.
Proof.
  intros Ha Hx HQ. destruct HC as [_ Hpre Hwrite _ Hdmi _ _]. unfold first_test.
  apply wp_bind, Hwrite; [done|]. intros w1 t1 Hw1 Hf1. cbn beta iota.
  apply wp_bind. cbn [p_lift cassert is_response_ok].
  change (cassert (is_response_ok _)) with (Ok tt). cbn [wp p_lift]. apply wp_bind.
  cbn [wp p_lift dmi_allowed set_response_status set_dmi_allowed cassert]. apply wp_bind.
  unfold acquire_dmi. apply wp_bind.
  match goal with |- context [get_ptr _ ?q d] =>
    destruct (Hdmi w1 q d Ha) as (w2 & d2 & Hg & Hv2 & Hf2 & Hs & He & Hload & _) end.
  eapply wp_step; [by rewrite Hg, bind_Ok|]. cbn beta iota. apply wp_bind. cbn [p_lift cassert wp mret proc_ret].
  apply wp_bind. cbn [wp p_get]. apply wp_bind.
  cbn [address set_response_status set_dmi_allowed word_payload set_streaming_width set_data_length
    set_data set_address] in Hs, He, Hload.
  rewrite wrap_small by lia. rewrite Hload. cbn [p_lift wp].
  assert (Hw2 : word_written view w w2 a x) by (intros b; rewrite Hv2; apply Hw1).
  rewrite (word_written_bytes view w w2 a x) by done. rewrite le_decode_encode.
  change (256 ^ Z.of_nat 4) with (2 ^ 32). rewrite Z.mod_small, Z.eqb_refl by done.
  apply wp_bind. cbn [p_lift cassert wp mret proc_ret].
  apply HQ; [done|]. by etrans.
Qed.

Lemma second_test_passes on_done a x p t d y w (Q : unit -> W -> Prop) :
  valid a -> 0 <= x < 2 ^ 32 ->
  (forall w', word_written view w w' a x -> frame w w' -> Q tt (on_done w')) ->
  wp R (fun _ _ => True) (second_test bus get_ptr host_store invalidate on_done a x p t d y w) Q.
Proof.
  intros Ha Hx HQ. destruct HC as [_ Hpre _ Hread Hdmi Hinv Hinvf]. unfold second_test.
  apply wp_bind. unfold acquire_dmi. apply wp_bind.
  destruct (Hdmi w (set_address a p) d Ha) as (w2 & d2 & Hg & Hv2 & Hf2 & Hs & He & _ & Hst).
  eapply wp_step; [by rewrite Hg, bind_Ok|]. cbn beta iota. apply wp_bind. cbn [p_lift cassert wp mret proc_ret].
  apply wp_bind. cbn [address set_address] in *. rewrite wrap_small by lia.
  destruct (Hst x) as (w3 & Hw3 & Hx3 & Hf3).
  eapply wp_step; [by rewrite Hw3, bind_Ok|]. apply wp_bind. cbn [p_modify wp].
  apply wp_bind, Hread; [done|]. intros w4 t4 Hw4 Hf4. cbn beta iota. apply wp_bind.
  change (cassert (is_response_ok _)) with (Ok tt). cbn [wp p_lift]. apply wp_bind.
  assert (Hw : word_written view w w4 a x).
  { intros b. rewrite Hw4, Hinv, Hx3. by rewrite Hv2. }
  assert (Hat : word_at view (invalidate a (u64 (a + 4)) w3) a = x).
  { rewrite (word_at_ext view w3) by (intros; apply Hinv).
    by apply (word_written_word_at view w2). }
  rewrite Hat. unfold data_word, data_read.
  cbn [data word_payload set_response_status set_dmi_allowed set_streaming_width set_data_length set_data].
  rewrite load_Ok by (rewrite ?le_encode_length; lia).
  assert (Hsl : slice (le_encode 4 x) 0 (Z.of_nat 4) = le_encode 4 x).
  { unfold slice. rewrite drop_0. apply take_ge. rewrite le_encode_length. lia. }
  rewrite Hsl, bind_Ok, le_decode_encode. change (256 ^ Z.of_nat 4) with (2 ^ 32).
  rewrite Z.mod_small by done. cbn [p_lift wp]. apply wp_bind. rewrite Z.eqb_refl.
  cbn [p_lift cassert wp p_modify]. apply HQ; [done|].
  etrans; [exact Hf2|]. etrans; [exact Hf3|]. etrans; [|exact Hf4]. apply Hinvf.
Qed.

(** One run of the test. *)
Lemma dmi_test_body_passes on_begin on_done d w :
  valid 0x20001230 -> valid 0x20002468 -> (forall w b, view (on_begin w) b = view w b) ->
  wp R (fun _ _ => True)
    (dmi_test_body bus get_ptr host_load host_store invalidate on_begin on_done d w)
    (fun _ w' => exists w0 w1, R w w0 /\ frame (on_begin w0) w1 /\ w' = on_done w1 /\
       word_at view w1 0x20001230 = 0xb1e55ed /\ word_at view w1 0x20002468 = 0xc0ffee /\
       forall b, ~ (0x20001230 <= b < 0x20001234) -> ~ (0x20002468 <= b < 0x2000246c) ->
         view w1 b = view w b).
Proof.
  intros Ha1 Ha2 Hbegin. pose proof HC as [Hstab Hpre _ _ _ _ _]. unfold dmi_test_body.
  apply wp_bind, wp_wait; [done|]. intros w0 Hw0.
  apply wp_bind. cbn [p_modify wp]. apply wp_bind.
  apply first_test_passes; [done|lia|]. intros p t d' w1 Hw1 Hf1. cbn beta iota.
  apply second_test_passes; [done|lia|].
  intros w2 Hw2 Hf2. exists w0, w2. split; [done|]. split; [by etrans|]. split; [done|]. split; [|split].
  - rewrite (word_at_ext view w1); [by eapply word_written_word_at; [exact Hw1|lia]|].
    intros b Hb. rewrite Hw2. by destruct (Z.leb_spec 0x20002468 b); [lia|].
  - eapply word_written_word_at; [exact Hw2|lia].
  - intros b Hb1 Hb2. rewrite Hw2.
    destruct (Z.leb_spec 0x20002468 b), (Z.ltb_spec b (0x20002468 + 4)); cbn [andb]; try lia;
      rewrite Hw1; destruct (Z.leb_spec 0x20001230 b), (Z.ltb_spec b (0x20001230 + 4));
      cbn [andb]; try lia; rewrite Hbegin; by apply Hstab.
Qed.
End Test.

(** ** Properties *)

(** C20: over any memory whose bus and DMI accesses are coherent, one run of the
    test passes: it reaches [test_done] without a failed assertion, each half
    reading back the word the other path wrote, and it leaves both words in
    memory, every other byte as it was, and all else that the memory's operations
    do not touch as it was when the test began. *)
Theorem dmi_test_passes {W} (view : W -> Z -> Z) R frame bus get_ptr host_load host_store invalidate
  valid on_begin on_done d w :
  CoherentMemory view R frame bus get_ptr host_load host_store invalidate valid ->
  valid 0x20001230 -> valid 0x20002468 -> (forall w b, view (on_begin w) b = view w b) ->
  wp R (fun _ _ => True)
    (dmi_test_body bus get_ptr host_load host_store invalidate on_begin on_done d w)
    (fun _ w' => exists w0 w1, R w w0 /\ frame (on_begin w0) w1 /\ w' = on_done w1 /\
       word_at view w1 0x20001230 = 0xb1e55ed /\ word_at view w1 0x20002468 = 0xc0ffee /\
       forall b, ~ (0x20001230 <= b < 0x20001234) -> ~ (0x20002468 <= b < 0x2000246c) ->
         view w1 b = view w b).
Proof.
  intros HC Ha1 Ha2 Hbegin. by apply (dmi_test_body_passes view R frame _ _ _ _ _ valid).
Qed.

(** A memory with every byte, whose DMI region is everything. *)
Definition byte_memory : Type := (Z -> Z) * bool.
Definition ram_view (w : byte_memory) : Z -> Z := w.1.
Definition write_bytes (m : Z -> Z) (a : Z) (bs : list Z) : Z -> Z := fun b =>
  if (a <=? b) && (b <? a + Z.of_nat (length bs)) then default 0 (bs !! Z.to_nat (b - a)) else m b.
Definition ram_bus (p : payload) (t : sc_time) : proc event byte_memory (payload * sc_time) := fun w =>
  let p' := set_response_status TLM_OK_RESPONSE (set_dmi_allowed true p) in
  match p.(command) with
  | TLM_WRITE_COMMAND => Ret (write_bytes w.1 p.(address) (default [] p.(data)), w.2) (p', t)
  | _ => Ret w (set_data (Some (le_encode 4 (word_at ram_view w p.(address)))) p', t)
  end.
Definition ram_ptr (w : byte_memory) (p : payload) (d : tlm_dmi) : res (byte_memory * tlm_dmi * bool) :=
  Ok (w, mk_dmi 0 0 (2 ^ 64 - 1) 0 0 DMI_ACCESS_READ_WRITE, true).
Definition ram_load (w : byte_memory) (ptr off len : Z) : res (list Z) := Ok (w.1 <$> seqZ off len).
Definition ram_store (w : byte_memory) (ptr off : Z) (bs : list Z) : res byte_memory :=
  Ok (write_bytes w.1 off bs, w.2).

Lemma ram_coherent :
  CoherentMemory ram_view (fun w w' => w' = w) (fun w w' => w'.2 = w.2) ram_bus ram_ptr ram_load ram_store (fun _ _ w => w)
    (fun a => 0 <= a < 2 ^ 64).
Proof.
  split.
  - by intros w w' ->.
  - split; [done|]. intros w1 w2 w3 H12 H23. congruence.
  - intros a x t w Q _ HQ. by apply HQ.
  - intros a x t w Q _ HQ. cbn. by apply HQ.
  - intros w p d Hp. do 2 eexists. split; [reflexivity|]. split; [done|]. split; [done|].
    cbn [start_address dmi_ptr]. rewrite Z.sub_0_r. split; [lia|]. split; [lia|]. split; [done|].
    intros word. eexists. split; [reflexivity|]. split; [by intros b|done].
  - done.
  - done.
Qed.

Lemma dmi_test_passes_witness :
  wp (fun w w' => w' = w) (fun _ _ => True)
    (dmi_test_body ram_bus ram_ptr ram_load ram_store (fun _ _ w => w) (fun w => w)
       (fun w => (w.1, true)) (mk_dmi 0 0 0 0 0 DMI_ACCESS_NONE) (fun _ => 0, false))
    (fun _ w' => exists w0 w1, w0 = (fun _ : Z => 0, false) /\ w1.2 = w0.2 /\ w' = (w1.1, true) /\
       word_at ram_view w1 0x20001230 = 0xb1e55ed /\ word_at ram_view w1 0x20002468 = 0xc0ffee /\
       forall b, ~ (0x20001230 <= b < 0x20001234) -> ~ (0x20002468 <= b < 0x2000246c) ->
         w1.1 b = 0).
Proof.
  apply (dmi_test_passes ram_view _ _ ram_bus ram_ptr ram_load ram_store _ (fun a => 0 <= a < 2 ^ 64)
    (fun w => w) (fun w => (w.1, true)) _ (fun _ => 0, false) ram_coherent); [lia|lia|done].
Defined.
