(* ===== verification/DmiNative.v ===== *)
(** * The native variant of the DMI test (examples-native/dmi-native)

    The sequence of DmiTest, with the modules on the other side of its socket: a
    forwarder to Renode's memory, the state of the test, a target for CPU
    accesses, and the top that Renode calls.  Renode's bus accesses, DMI regions
    and the host memory behind them are arguments; what the forwarder relies on
    is the class [RenodeMemory], from which it implements the interface
    [CoherentMemory] of the test. *)

From stdpp Require Import base numbers list relations.
From S2P Require Import Prelude Tlm Kernel DmiTest.
#[local] Open Scope Z_scope.

(** ** Definitions *)

(** [renode_memory_transport]: the bus accesses and the DMI regions of Renode
    are arguments. *)
Section Transport.
Context {W : Type} (renode_write_bytes_to_bus : Z -> list Z -> W -> W).
Context (renode_read_bytes_from_bus : Z -> Z -> W -> list Z).
Context (renode_get_direct_mem_ptr : W -> Z -> option (Z * Z * Z)).

Definition b_transport (w : W) (trans : payload) : res (W * payload) :=
  let len := trans.(data_length) in
  '(w, trans) ←
    (if is_write trans then
       bs ← data_read trans len;
       Ok (renode_write_bytes_to_bus trans.(address) bs w, trans)
     else
       trans' ← data_write trans (renode_read_bytes_from_bus trans.(address) len w);
       Ok (w, trans'));
  Ok (w, set_response_status TLM_OK_RESPONSE (set_dmi_allowed true trans)).

Definition get_direct_mem_ptr (w : W) (trans : payload) (dmi_data : tlm_dmi) : tlm_dmi * bool :=
  match renode_get_direct_mem_ptr w trans.(address) with
  | None => (dmi_data, false)
  | Some (ptr, start, end_) =>
      (mk_dmi ptr start end_ dmi_data.(read_latency) dmi_data.(write_latency)
         DMI_ACCESS_READ_WRITE, true)
  end.
End Transport.

(** [test_state], with the level of the pins it drives. *)
Record test_state : Type := mk_test_state {
  memory_done : bool;
  cpu_done : bool;
  test_done_pin : bool;
  unexpected_io_access_pin : bool;
}.

Definition new_test_state : test_state := mk_test_state false false false false.

Definition reset (s : test_state) : test_state :=
  mk_test_state false false false s.(unexpected_io_access_pin).

Definition update (s : test_state) : test_state :=
  if s.(memory_done) && s.(cpu_done)
  then mk_test_state s.(memory_done) s.(cpu_done) true s.(unexpected_io_access_pin) else s.

Definition mark_memory_done (s : test_state) : test_state :=
  update (mk_test_state true s.(cpu_done) s.(test_done_pin) s.(unexpected_io_access_pin)).

Definition mark_cpu_done (s : test_state) : test_state :=
  update (mk_test_state s.(memory_done) true s.(test_done_pin) s.(unexpected_io_access_pin)).

Definition mark_unexpected (s : test_state) : test_state :=
  mk_test_state s.(memory_done) s.(cpu_done) s.(test_done_pin) true.

(** [systemc_cpu_target] *)
Definition MemorySize : Z := 0x1000.
Definition DoneOffset : Z := 0x1000.
Definition DoneSize : Z := 4.

Record systemc_cpu_target : Type := mk_cpu_target { state : test_state; memory : list Z }.

Definition new_cpu_target : systemc_cpu_target :=
  mk_cpu_target new_test_state (replicate (Z.to_nat MemorySize) 0).

(** [None] when the access is not to the done register. *)
Definition handle_done_register (s : systemc_cpu_target) (trans : payload) (address length : Z) :
  option (systemc_cpu_target * payload) :=
  if negb ((DoneOffset <=? address) && (u64 (address + length) <=? DoneOffset + DoneSize)) then None
  else if is_write trans then
    Some (mk_cpu_target (mark_cpu_done s.(state)) s.(memory),
          set_response_status TLM_OK_RESPONSE trans)
  else Some (s, set_response_status TLM_COMMAND_ERROR_RESPONSE trans).

Definition cpu_b_transport (s : systemc_cpu_target) (trans : payload) :
  res (systemc_cpu_target * payload) :=
  let address := trans.(address) in
  let length := trans.(data_length) in
  match handle_done_register s trans address length with
  | Some r => Ok r
  | None =>
      if MemorySize <? u64 (address + length) then
        Ok (s, set_response_status TLM_ADDRESS_ERROR_RESPONSE trans)
      else
        let s := if negb (is_write trans && (length =? 1))
                 then mk_cpu_target (mark_unexpected s.(state)) s.(memory) else s in
        '(s, trans) ←
          (if is_write trans then
             bs ← data_read trans length;
             m ← store s.(memory) address bs;
             Ok (mk_cpu_target s.(state) m, trans)
           else
             bs ← load s.(memory) address length;
             trans ← data_write trans bs;
             Ok (s, trans));
        Ok (s, set_response_status TLM_OK_RESPONSE (set_dmi_allowed true trans))
  end.

(** The pointer [ptr] stands for [memory.data()]. *)
Definition cpu_get_direct_mem_ptr (ptr : Z) (s : systemc_cpu_target) (trans : payload)
  (dmi_data : tlm_dmi) : tlm_dmi * bool :=
  if MemorySize <=? trans.(address) then (dmi_data, false)
  else (mk_dmi ptr 0 (Z.of_nat (length s.(memory)) - 1) dmi_data.(read_latency)
          dmi_data.(write_latency) DMI_ACCESS_READ_WRITE, true).

(** [tlm_route]: whether an offset reaches the CPU target. *)
Definition tlm_route (offset : Z) : bool :=
  (offset <? MemorySize) || ((DoneOffset <=? offset) && (offset <? DoneOffset + DoneSize)).

(** *** [top] *)
Section System.
Context {W : Type} (renode_write_bytes_to_bus : Z -> list Z -> W -> W).
Context (renode_read_bytes_from_bus : Z -> Z -> W -> list Z).
Context (renode_get_direct_mem_ptr : W -> Z -> option (Z * Z * Z)).
Context (host_load : W -> Z -> Z -> Z -> res (list Z)).
Context (host_store : W -> Z -> Z -> list Z -> res W).
Context (renode_invalidate_translation_blocks : Z -> Z -> W -> W).

(** Renode's memory, the modules of [top], and the signal towards the test. *)
Record top : Type := mk_top {
  renode : W;
  cpu_target : systemc_cpu_target;
  test_begin : bool;
}.

(** The constructor, over a Renode of its own. *)
Definition new_top (w : W) : top := mk_top w new_cpu_target false.

(** The callbacks that [top] gives to the test share the state of the target. *)
Definition reset_done (s : top) : top :=
  mk_top s.(renode) (mk_cpu_target (reset s.(cpu_target).(state)) s.(cpu_target).(memory)) s.(test_begin).
Definition mark_done (s : top) : top :=
  mk_top s.(renode) (mk_cpu_target (mark_memory_done s.(cpu_target).(state)) s.(cpu_target).(memory))
    s.(test_begin).

(** The socket of the test, bound to the forwarder. *)
Definition bus_b_transport (p : payload) (delay : sc_time) : proc event top (payload * sc_time) :=
  p_step (fun s =>
    '(w, p) ← b_transport renode_write_bytes_to_bus renode_read_bytes_from_bus s.(renode) p;
    Ok (mk_top w s.(cpu_target) s.(test_begin), (p, delay))).

Definition bus_get_direct_mem_ptr (s : top) (p : payload) (d : tlm_dmi) : res (top * tlm_dmi * bool) :=
  let '(d, ok) := get_direct_mem_ptr renode_get_direct_mem_ptr s.(renode) p d in Ok (s, d, ok).

Definition top_host_store (s : top) (ptr off : Z) (bs : list Z) : res top :=
  w ← host_store s.(renode) ptr off bs; Ok (mk_top w s.(cpu_target) s.(test_begin)).

Definition top_invalidate (lo hi : Z) (s : top) : top :=
  mk_top (renode_invalidate_translation_blocks lo hi s.(renode)) s.(cpu_target) s.(test_begin).

(** One iteration of [while (true)] in the native [dmi_test_sequence]: the
    statements are those of the other example, between the callbacks. *)
Definition dmi_test_sequence_body (dmi_data : tlm_dmi) : proc event top unit :=
  dmi_test_body bus_b_transport bus_get_direct_mem_ptr (fun s => host_load s.(renode)) top_host_store
    top_invalidate reset_done mark_done dmi_data.

(** What Renode calls: [gpio_port_write], and an access that [tlm_route] sends to
    the target ([None] when no module is behind the offset). *)
Definition gpio_port_write (number : Z) (value : bool) (s : top) : top :=
  if number =? 1 then mk_top s.(renode) s.(cpu_target) value else s.

Definition renode_access (s : top) (p : payload) : option (res (top * payload)) :=
  if tlm_route p.(address) then
    Some ('(c, p) ← cpu_b_transport s.(cpu_target) p; Ok (mk_top s.(renode) c s.(test_begin), p))
  else None.

(** One call from Renode. *)
Inductive native_step (s : top) : top -> Prop :=
| Step_gpio number value : native_step s (gpio_port_write number value s)
| Step_access p d s' p' :
    payload_wf p -> has_buffer p d -> renode_access s p = Some (Ok (s', p')) -> native_step s s'.

(** The target's memory has its size, and the pin of the test shows its state. *)
Record top_inv (s : top) : Prop := {
  inv_memory : length s.(cpu_target).(memory) = 0x1000%nat;
  inv_pin : let st := s.(cpu_target).(state) in
    st.(test_done_pin) = st.(memory_done) && st.(cpu_done);
}.
End System.

#[global] Arguments top W : clear implicits.

(** *** What the forwarder relies on: Renode's bus and the host memory behind a
    DMI region are the same bytes. *)
Section Renode.
Context {W : Type} (view : W -> Z -> Z).
Context (renode_write_bytes_to_bus : Z -> list Z -> W -> W).
Context (renode_read_bytes_from_bus : Z -> Z -> W -> list Z).
Context (renode_get_direct_mem_ptr : W -> Z -> option (Z * Z * Z)).
Context (host_load : W -> Z -> Z -> Z -> res (list Z)).
Context (host_store : W -> Z -> Z -> list Z -> res W).
Context (renode_invalidate_translation_blocks : Z -> Z -> W -> W).

(** Bytes written at an address. *)
Definition bytes_written (w w' : W) (a : Z) (bs : list Z) : Prop :=
  forall b, view w' b =
    if (a <=? b) && (b <? a + Z.of_nat (length bs)) then default 0 (bs !! Z.to_nat (b - a)) else view w b.

Class RenodeMemory (valid : Z -> Prop) : Prop := {
  rm_bytes : forall w b, is_byte (view w b);
  rm_write : forall w a bs, valid a -> is_bytes bs -> bytes_written w (renode_write_bytes_to_bus a bs w) a bs;
  rm_read : forall w a len, valid a -> renode_read_bytes_from_bus a len w = view w <$> seqZ a len;
  rm_region : forall w a, valid a -> exists ptr start end_,
    renode_get_direct_mem_ptr w a = Some (ptr, start, end_) /\
    0 <= start <= a /\ a + 3 <= end_ < 2 ^ 64 /\
    (forall b len, start <= b -> 0 <= len -> b + len <= end_ + 1 ->
       host_load w ptr (b - start) len = Ok (view w <$> seqZ b len)) /\
    (forall b bs, is_bytes bs -> start <= b -> b + Z.of_nat (length bs) <= end_ + 1 ->
       exists w', host_store w ptr (b - start) bs = Ok w' /\ bytes_written w w' b bs);
  rm_invalidate : forall lo hi w b, view (renode_invalidate_translation_blocks lo hi w) b = view w b;
}.
End Renode.

(** What an access that [tlm_route] lets through does, with the memory. *)
Definition cpu_access_spec (s : systemc_cpu_target) (p : payload) (d : list Z) :
  systemc_cpu_target * payload :=
  let a := p.(address) in let l := p.(data_length) in
  if 0x1000 <=? a then
    if a + l <=? 0x1004 then
      if is_write p
      then (mk_cpu_target (mark_cpu_done s.(state)) s.(memory),
            set_response_status TLM_OK_RESPONSE p)
      else (s, set_response_status TLM_COMMAND_ERROR_RESPONSE p)
    else (s, set_response_status TLM_ADDRESS_ERROR_RESPONSE p)
  else if 0x1000 <? a + l then (s, set_response_status TLM_ADDRESS_ERROR_RESPONSE p)
  else
    let st := if is_write p && (l =? 1) then s.(state)
              else mark_unexpected s.(state) in
    if is_write p then
      (mk_cpu_target st (splice s.(memory) a (slice d 0 l)),
       set_response_status TLM_OK_RESPONSE (set_dmi_allowed true p))
    else
      (mk_cpu_target st s.(memory),
       set_response_status TLM_OK_RESPONSE (set_dmi_allowed true
         (set_data (Some (splice d 0 (slice s.(memory) a l))) p))).

(** ** Lemmas *)

Lemma cpu_b_transport_spec s p d :
  tlm_route p.(address) = true -> payload_wf p -> has_buffer p d ->
  length s.(memory) = 0x1000%nat ->
  cpu_b_transport s p = Ok (cpu_access_spec s p d).
Proof.
  intros Hroute [Ha Hl _] [Hd Hb] Hm. unfold tlm_route, DoneOffset, DoneSize,
    MemorySize in Hroute.
  assert (Ha' : address p < 0x1004).
  { destruct (Z.ltb_spec (address p) 4096); [lia|]. cbn [orb] in Hroute. breflect. lia. }
  clear Hroute. unfold cpu_b_transport, handle_done_register, cpu_access_spec.
  unfold DoneOffset, DoneSize, MemorySize. cbv zeta. change (0x1000 + 4) with 0x1004.
  rewrite (wrap_small 64) by lia.
  destruct (Z.leb_spec 0x1000 (address p)); cbn [andb].
  - destruct (Z.leb_spec (address p + data_length p) 0x1004); cbn [negb]; [by destruct (is_write p)|].
    by destruct (Z.ltb_spec 0x1000 (address p + data_length p)); [|lia].
  - cbn [negb]. destruct (Z.ltb_spec 0x1000 (address p + data_length p)); [done|].
    assert (Hsl : length (slice d 0 (data_length p)) = Z.to_nat (data_length p))
      by (rewrite slice_length; lia).
    assert (Hsl' : length (slice s.(memory) (address p) (data_length p)) = Z.to_nat (data_length p))
      by (rewrite slice_length; lia).
    assert (Hmem : forall b, memory (if negb b then mk_cpu_target
      (mark_unexpected (state s)) (memory s) else s) = memory s) by (by intros []).
    rewrite Hmem. destruct (is_write p); cbn [andb].
    + rewrite (data_read_slice p d), bind_Ok by (done || lia). rewrite store_Ok, !bind_Ok by lia.
      by destruct (data_length p =? 1).
    + rewrite load_Ok, bind_Ok by lia. rewrite (data_write_splice p d), !bind_Ok by (done || lia). done.
Qed.

(** Calls from Renode keep the invariant. *)
Lemma mark_cpu_done_pin st :
  st.(test_done_pin) = st.(memory_done) && st.(cpu_done) ->
  (mark_cpu_done st).(test_done_pin) = (mark_cpu_done st).(memory_done) && (mark_cpu_done st).(cpu_done).
Proof. destruct st as [[] [] p u]; cbn; congruence. Qed.

Lemma cpu_access_inv {W} (s : top W) p d :
  top_inv s -> payload_wf p -> has_buffer p d ->
  top_inv (mk_top s.(renode) (cpu_access_spec s.(cpu_target) p d).1 s.(test_begin)).
Proof.
  intros [Hm Hpin] [Ha Hl _] [_ Hb]. unfold cpu_access_spec.
  destruct (Z.leb_spec 0x1000 (address p)).
  - destruct (_ <=? _); [destruct (is_write p)|]; split; cbn; try done. by apply mark_cpu_done_pin.
  - destruct (Z.ltb_spec 0x1000 (address p + data_length p)); [by split|].
    assert (Hp : forall b : bool, let st := if b then s.(cpu_target).(state)
      else mark_unexpected s.(cpu_target).(state) in
      st.(test_done_pin) = st.(memory_done) && st.(cpu_done)) by (by intros []).
    destruct (is_write p); split; cbn; try apply Hp; try done.
    rewrite splice_length; rewrite ?slice_length; lia.
Qed.

Lemma native_step_inv {W} (s s' : top W) : top_inv s -> native_step s s' -> top_inv s'.
Proof.
  intros Hi [n v|p d s1 p' Hp Hd H].
  - unfold gpio_port_write. destruct (n =? 1); [|done]. by destruct Hi.
  - unfold renode_access in H. destruct (tlm_route (address p)) eqn:Hr; [|done]. injection H as H.
    rewrite (cpu_b_transport_spec _ p d) in H by (done || apply Hi).
    pose proof (cpu_access_inv s p d Hi Hp Hd) as Hi'.
    destruct (cpu_access_spec s.(cpu_target) p d) as [c q].
    rewrite bind_Ok in H. by injection H as <- _.
Qed.

Lemma native_steps_inv {W} (s s' : top W) : top_inv s -> rtc native_step s s' -> top_inv s'.
Proof. intros Hi Hr. induction Hr; eauto using native_step_inv. Qed.

Section Coherence.
Context {W : Type} {view : W -> Z -> Z} {write_bytes : Z -> list Z -> W -> W}.
Context {read_bytes : Z -> Z -> W -> list Z} {get_ptr : W -> Z -> option (Z * Z * Z)}.
Context {host_load : W -> Z -> Z -> Z -> res (list Z)} {host_store : W -> Z -> Z -> list Z -> res W}.
Context {invalidate : Z -> Z -> W -> W} {valid : Z -> Prop}.
Context `{HR : !RenodeMemory view write_bytes read_bytes get_ptr host_load host_store invalidate valid}.

Lemma native_step_renode (s s' : top W) : rtc native_step s s' -> s'.(renode) = s.(renode).
Proof using Type.
  intros Hr. induction Hr as [|s1 s2 s3 H12 _ IH]; [done|]. rewrite IH. destruct H12 as [n v|p d s2 p' _ _ H].
  - unfold gpio_port_write. by destruct (n =? 1).
  - unfold renode_access in H. destruct (tlm_route _); [|done]. injection H as H.
    apply bind_Ok_inv in H as ([c q] & _ & [= <- _]). done.
Qed.

Lemma le_encode_slice x : slice (le_encode 4 x) 0 4 = le_encode 4 x.
Proof using Type. unfold slice. rewrite drop_0. apply take_ge. rewrite le_encode_length. lia. Qed.

(** The forwarder over Renode's memory implements the interface of the test. *)
Lemma native_coherent :
  CoherentMemory (fun s : top W => view s.(renode)) (rtc native_step)
    (fun s s' => s'.(cpu_target) = s.(cpu_target) /\ s'.(test_begin) = s.(test_begin))
    (bus_b_transport write_bytes read_bytes) (bus_get_direct_mem_ptr get_ptr)
    (fun s => host_load s.(renode)) (top_host_store host_store) (top_invalidate invalidate) valid.
Proof using HR.
  destruct HR as [Hby Hw Hrd Hreg Hinv]. split.
  - intros s s' Hs a. by rewrite (native_step_renode s s' Hs).
  - split; [done|]. intros s1 s2 s3 [E1 E2] [E3 E4]. split; congruence.
  - intros a x t s Q Ha HQ. unfold bus_b_transport. eapply wp_step.
    { unfold b_transport. change (is_write _) with true. cbv iota zeta.
      rewrite (data_read_slice _ (le_encode 4 x))
        by (done || (cbn [data_length word_payload set_streaming_width set_data_length];
                     rewrite ?le_encode_length; lia)).
      cbn [data_length word_payload set_streaming_width set_data_length].
      rewrite le_encode_slice, !bind_Ok. reflexivity. }
    apply HQ; [|done]. intros b. cbn [renode]. rewrite (Hw _ a) by (done || apply le_encode_bytes). by rewrite le_encode_length.
  - intros a x t s Q Ha HQ. unfold bus_b_transport.
    set (bs := view s.(renode) <$> seqZ a 4).
    assert (Hlen : length bs = 4%nat) by (unfold bs; rewrite length_fmap, length_seqZ; done).
    assert (Hbs : le_encode 4 (le_decode bs) = bs).
    { rewrite <- Hlen. apply le_encode_decode. apply Forall_fmap, Forall_forall. intros b _. apply Hby. }
    eapply wp_step.
    { unfold b_transport. change (is_write _) with false. cbv iota zeta.
      cbn [data_length address word_payload set_streaming_width set_data_length set_data set_address].
      rewrite Hrd by done. fold bs.
      rewrite (data_write_splice _ (le_encode 4 x)) by (rewrite ?le_encode_length; done || lia).
      rewrite !bind_Ok. reflexivity. }
    assert (Hsp : splice (le_encode 4 x) 0 bs = bs).
    { unfold splice. rewrite Hlen. cbn [Z.to_nat take app Nat.add].
      rewrite drop_ge by (rewrite le_encode_length; lia). apply app_nil_r. }
    rewrite Hsp, <- Hbs. by apply HQ.
  - intros s p d Hp. destruct (Hreg s.(renode) p.(address) Hp) as (ptr & st & en & Hg & Hst & Hen & Hl & Hs).
    do 2 eexists. split; [unfold bus_get_direct_mem_ptr, get_direct_mem_ptr; rewrite Hg; reflexivity|].
    cbn [start_address dmi_ptr]. split; [done|]. split; [done|]. split; [done|]. split; [lia|]. split; [apply Hl; lia|].
    intros word. destruct (Hs p.(address) (le_encode 4 word)) as (w' & Hw' & Hbw);
      [apply le_encode_bytes|lia|rewrite le_encode_length; lia|].
    eexists. split; [unfold top_host_store; rewrite Hw', bind_Ok; reflexivity|].
    split; [|done]. intros b. cbn [renode]. by rewrite Hbw, le_encode_length.
  - intros lo hi s b. apply Hinv.
  - done.
Qed.
End Coherence.

(** A write to the register with which the CPU reports that it is done. *)
Definition is_done_write (p : payload) : bool :=
  is_write p && (0x1000 <=? p.(address)) && (p.(address) <? 0x1004) &&
  (p.(address) + p.(data_length) <=? 0x1004).

Lemma done_write_access {W} (s : top W) p d :
  top_inv s -> payload_wf p -> has_buffer p d -> is_done_write p = true ->
  renode_access s p = Some (Ok
    (mk_top s.(renode) (mk_cpu_target (mark_cpu_done s.(cpu_target).(state)) s.(cpu_target).(memory))
       s.(test_begin), set_response_status TLM_OK_RESPONSE p)).
Proof.
  intros [Hm _] Hp Hd Hw. unfold is_done_write in Hw. breflect. destruct_and?.
  assert (Hr : tlm_route (address p) = true).
  { unfold tlm_route, MemorySize, DoneOffset, DoneSize. lia. }
  unfold renode_access. rewrite Hr, (cpu_b_transport_spec _ p d) by done.
  unfold cpu_access_spec. destruct (Z.leb_spec 0x1000 (address p)); [|lia].
  destruct (Z.leb_spec (address p + data_length p) 0x1004); [|lia].
  by match goal with H : is_write p = true |- _ => rewrite H end.
Qed.

(** C18: the native test, end to end.  Over any memory of Renode, with Renode
    calling the top in any way while the test waits to begin, one run passes
    both halves and marks the memory as done; whatever the CPU had reported
    before the test began is forgotten, so the pin is low, and the next write of
    the CPU to its register, of any size and at any of its bytes, raises it. *)
Theorem native_test_completes {W} (view : W -> Z -> Z) write_bytes read_bytes get_ptr host_load
  host_store invalidate valid dmi_data s :
  RenodeMemory view write_bytes read_bytes get_ptr host_load host_store invalidate valid ->
  valid 0x20001230 -> valid 0x20002468 -> top_inv s ->
  wp (rtc native_step) (fun _ _ => True)
    (dmi_test_sequence_body write_bytes read_bytes get_ptr host_load host_store invalidate dmi_data s)
    (fun _ s' =>
       word_at view s'.(renode) 0x20001230 = 0xb1e55ed /\ word_at view s'.(renode) 0x20002468 = 0xc0ffee /\
       let st := s'.(cpu_target).(state) in
       st.(memory_done) = true /\ st.(cpu_done) = false /\ st.(test_done_pin) = false /\
       forall p d, payload_wf p -> has_buffer p d -> is_done_write p = true ->
         exists s2, renode_access s' p = Some (Ok (s2, set_response_status TLM_OK_RESPONSE p)) /\
           s2.(cpu_target).(state).(test_done_pin) = true).
Proof.
  intros HR Ha1 Ha2 Hi. eapply wp_mono; [|apply (dmi_test_body_passes _ _ _ _ _ _ _ _ valid (HC := native_coherent));
    [done|done|by intros []]].
  intros _ s' (s0 & s1 & H0 & [Hc _] & -> & Hw1 & Hw2 & _).
  pose proof (native_steps_inv s s0 Hi H0) as [Hm0 _].
  split; [exact Hw1|]. split; [exact Hw2|]. cbn [mark_done cpu_target state]. rewrite Hc. cbn.
  split; [done|]. split; [done|]. split; [done|]. intros p d Hp Hd Hdone.
  eexists. split; [apply (done_write_access _ p d); try done|].
  - split; cbn; rewrite Hc; [exact Hm0|done].
  - cbn. by rewrite Hc.
Qed.

(** A memory of bytes, all of it one region. *)
Definition native_ram : Type := Z -> Z.
Definition native_ram_view (w : native_ram) (b : Z) : Z := u8 (w b).
Definition native_ram_write (a : Z) (bs : list Z) (w : native_ram) : native_ram := fun b =>
  if (a <=? b) && (b <? a + Z.of_nat (length bs)) then default 0 (bs !! Z.to_nat (b - a)) else w b.
Definition native_ram_read (a len : Z) (w : native_ram) : list Z := native_ram_view w <$> seqZ a len.
Definition native_ram_region (w : native_ram) (a : Z) : option (Z * Z * Z) := Some (0, 0, 2 ^ 64 - 1).
Definition native_ram_load (w : native_ram) (ptr off len : Z) : res (list Z) := Ok (native_ram_read off len w).
Definition native_ram_store (w : native_ram) (ptr off : Z) (bs : list Z) : res native_ram := Ok (native_ram_write off bs w).

Lemma native_ram_written w a bs : is_bytes bs -> bytes_written native_ram_view w (native_ram_write a bs w) a bs.
Proof.
  intros Hbs b. unfold native_ram_view, native_ram_write.
  destruct ((a <=? b) && (b <? a + Z.of_nat (length bs))) eqn:E; [|done].
  apply wrap_small. breflect.
  destruct (lookup_lt_is_Some_2 bs (Z.to_nat (b - a))) as [x Hx]; [lia|]. rewrite Hx. cbn.
  by apply (Forall_lookup_1 _ _ _ _ Hbs Hx).
Qed.

Lemma native_ram_memory :
  RenodeMemory native_ram_view native_ram_write native_ram_read native_ram_region native_ram_load native_ram_store (fun _ _ w => w)
    (fun a => 0 <= a < 2 ^ 64 - 3).
Proof.
  split.
  - intros w b. apply (wrap_range 8). lia.
  - intros w a bs _. apply native_ram_written.
  - done.
  - intros w a Ha. exists 0, 0, (2 ^ 64 - 1). split; [done|]. split; [lia|]. split; [lia|]. split.
    + intros b len _ _ _. by rewrite Z.sub_0_r.
    + intros b bs Hbs _ _. rewrite Z.sub_0_r. eexists. split; [reflexivity|by apply native_ram_written].
  - done.
Qed.

Lemma native_test_completes_witness :
  wp (rtc native_step) (fun _ _ => True)
    (dmi_test_sequence_body native_ram_write native_ram_read native_ram_region native_ram_load native_ram_store (fun _ _ w => w)
       (mk_dmi 0 0 0 0 0 DMI_ACCESS_NONE) (new_top (fun _ => 7)))
    (fun _ s' =>
       word_at native_ram_view s'.(renode) 0x20001230 = 0xb1e55ed /\
       word_at native_ram_view s'.(renode) 0x20002468 = 0xc0ffee /\
       let st := s'.(cpu_target).(state) in
       st.(memory_done) = true /\ st.(cpu_done) = false /\ st.(test_done_pin) = false /\
       forall p d, payload_wf p -> has_buffer p d -> is_done_write p = true ->
         exists s2, renode_access s' p = Some (Ok (s2, set_response_status TLM_OK_RESPONSE p)) /\
           s2.(cpu_target).(state).(test_done_pin) = true).
Proof.
  apply (native_test_completes native_ram_view native_ram_write native_ram_read native_ram_region native_ram_load native_ram_store (fun _ _ w => w)
    (fun a => 0 <= a < 2 ^ 64 - 3) (mk_dmi 0 0 0 0 0 DMI_ACCESS_NONE) (new_top (fun _ => 7)) native_ram_memory).
  - lia.
  - lia.
  - by split.
Defined.

(** C35: an access of the CPU at any offset that [tlm_route] sends to the target
    never leaves its memory: the done register takes writes within its four
    bytes and refuses reads, accesses that end beyond the memory are address
    errors, the others transfer their bytes and flag everything but the
    expected single-byte writes. *)
Theorem cpu_b_transport_routed s p d :
  tlm_route p.(address) = true -> payload_wf p -> has_buffer p d ->
  length s.(memory) = 0x1000%nat ->
  cpu_b_transport s p = Ok (cpu_access_spec s p d).
Proof. apply cpu_b_transport_spec. Qed.

Definition example_access (c : tlm_command) (a : Z) (d : list Z) : payload :=
  mk_payload c a (Some d) (Z.of_nat (length d)) (Z.of_nat (length d)) None 0 false
    TLM_INCOMPLETE_RESPONSE.

Lemma cpu_b_transport_routed_witness :
  cpu_b_transport new_cpu_target (example_access TLM_WRITE_COMMAND 0xfff [7]) =
  Ok (cpu_access_spec new_cpu_target (example_access TLM_WRITE_COMMAND 0xfff [7]) [7]).
Proof.
  apply (cpu_b_transport_routed new_cpu_target (example_access TLM_WRITE_COMMAND 0xfff [7]) [7]).
  - reflexivity.
  - split; cbn; [lia|lia|]. intros ? [= <-]. solve_bytes.
  - split; [reflexivity|cbn; lia].
  - reflexivity.
Defined.

(** Calls that change the state of the test. *)
Inductive test_call : Type := Reset | Mark_memory_done | Mark_cpu_done.

Definition call (s : test_state) (c : test_call) : test_state :=
  match c with
  | Reset => reset s
  | Mark_memory_done => mark_memory_done s
  | Mark_cpu_done => mark_cpu_done s
  end.

(** The completion pin is high exactly when both halves are done since the last
    reset, after any sequence of calls. *)
Theorem test_done_pin_exact calls :
  let s := foldl call new_test_state calls in
  s.(test_done_pin) = s.(memory_done) && s.(cpu_done).
Proof.
  cbv zeta. assert (H : forall s, s.(test_done_pin) = s.(memory_done) && s.(cpu_done) ->
    let s' := foldl call s calls in
    s'.(test_done_pin) = s'.(memory_done) && s'.(cpu_done)).
  { induction calls as [|c calls IH]; intros s Hs; [done|]. apply IH.
    destruct s as [[] [] b u], c; cbn in *; by subst. }
  by apply H.
Qed.
